(** * Résumé diff-and-merge engine: a shallow embedding and its properties

    The development follows the two source files of the repository:
    the backend normalizer ([normalizeResumeJson] and its helpers) and the
    frontend review engine ([diffWords], [buildChangeItems],
    [buildUpdatedResumeData]). *)

From Stdlib Require Import ZArith Ascii String.
From stdpp Require Import base option list strings gmap pretty.

Local Open Scope string_scope.
Local Open Scope list_scope.
Local Open Scope nat_scope.

(** ** JavaScript values and the operations the program applies to them *)

Module JS.

(** A value as [JSON.parse] builds it, plus [undefined], which reading an
    absent property yields. Strings are sequences of code units below 256
    and numbers are integers. An object is the list of its own properties
    in enumeration order. *)
#[warnings="-register-all"]
Inductive Value :=
| JUndefined
| JNull
| JBool (b : bool)
| JNum (n : Z)
| JStr (s : string)
| JArr (items : list Value)
| JObj (props : list (string * Value)).

Abbreviation Props := (list (string * Value)).

Lemma Value_eq_dec : ∀ a b : Value, {a = b} + {a ≠ b}.
Proof.
  fix IH 1. intros a b. decide equality.
  - apply bool_eq_dec.
  - apply Z.eq_dec.
  - apply String.string_dec.
  - apply (List.list_eq_dec IH).
  - apply List.list_eq_dec. decide equality. apply String.string_dec.
Defined.

Global Instance Value_eq : EqDecision Value := Value_eq_dec.

Global Instance Value_inhabited : Inhabited Value := populate JUndefined.

(** The outcome of an evaluation: a value, or a thrown [TypeError]. *)
Inductive result (A : Type) : Type :=
| Ok (a : A)
| TypeError.
Global Arguments Ok {A} a.
Global Arguments TypeError {A}.

Global Instance result_ret : MRet result := λ A a, Ok a.
Global Instance result_bind : MBind result := λ A B f r,
  match r with
  | Ok a => f a
  | TypeError => TypeError
  end.

(** [for] loops and [forEach]: the body runs on every element in turn and a
    throw ends the loop. *)
Fixpoint for_each {A St} (body : St → A → result St) (s : St) (l : list A) : result St :=
  match l with
  | [] => Ok s
  | x :: rest => s' ← body s x; for_each body s' rest
  end.

(** [array.map(f)] with a callback that may throw *)
Fixpoint map_m {A B} (f : A → result B) (l : list A) : result (list B) :=
  match l with
  | [] => Ok []
  | x :: rest => y ← f x; ys ← map_m f rest; Ok (y :: ys)
  end.

(** [array.find(pred)] and [array.findIndex(pred)]: the first element that
    satisfies [pred], with its index. *)
Fixpoint find_from {A} (pred : A → result bool) (l : list A) (i : nat)
    : result (option (nat * A)) :=
  match l with
  | [] => Ok None
  | x :: rest =>
      b ← pred x;
      if b : bool then Ok (Some (i, x)) else find_from pred rest (S i)
  end.

Definition find {A} (pred : A → result bool) (l : list A) : result (option (nat * A)) :=
  find_from pred l 0.

(** [ToBoolean] *)
Definition truthy (v : Value) : bool :=
  match v with
  | JUndefined | JNull => false
  | JBool b => b
  | JNum n => bool_decide (n ≠ 0%Z)
  | JStr s => bool_decide (s ≠ "")
  | JArr _ | JObj _ => true
  end.

(** [typeof v === 'object'] *)
Definition typeof_object (v : Value) : bool :=
  match v with
  | JNull | JArr _ | JObj _ => true
  | _ => false
  end.

(** [typeof v === 'string'] *)
Definition typeof_string (v : Value) : bool :=
  match v with
  | JStr _ => true
  | _ => false
  end.

(** [a || b] *)
Definition or_else (a b : Value) : Value := if truthy a then a else b.

(** [a === b]. On objects and arrays JavaScript compares references; values
    are trees here and are compared by structure. The two agree whenever one
    side is a primitive, as ids and texts are in normalized documents. *)
Definition strict_equal (a b : Value) : bool := bool_decide (a = b).

(** The values that [===] compares by value. *)
Definition is_primitive (v : Value) : bool :=
  match v with
  | JArr _ | JObj _ => false
  | _ => true
  end.

(** [a === b] for two values that stand at two places: in two documents, or
    at two places of one. A document is a tree, as [JSON.parse] builds it,
    so two objects or arrays read from two places are two references, which
    [===] tells apart whatever they hold. *)
Definition strict_equal_apart (a b : Value) : bool :=
  is_primitive a && bool_decide (a = b).

(** The class [\s] of regular expressions, which is also what [trim]
    strips, on code units below 256: TAB, LF, VT, FF, CR, SPACE and NBSP. *)
Definition is_space (c : ascii) : bool :=
  match nat_of_ascii c with
  | 9 | 10 | 11 | 12 | 13 | 32 | 160 => true
  | _ => false
  end.

Fixpoint trim_start (s : string) : string :=
  match s with
  | EmptyString => ""
  | String c rest => if is_space c then trim_start rest else s
  end.

Fixpoint trim_end (s : string) : string :=
  match s with
  | EmptyString => ""
  | String c rest =>
      let rest' := trim_end rest in
      if is_space c && bool_decide (rest' = "") then "" else String c rest'
  end.

(** [s.trim()] *)
Definition trim (s : string) : string := trim_end (trim_start s).

(** [array.join(sep)] on strings *)
Fixpoint join (sep : string) (l : list string) : string :=
  match l with
  | [] => ""
  | [x] => x
  | x :: rest => x +:+ sep +:+ join sep rest
  end.


(** The keys ["0"], ["1"], ... of the elements of an array or string. *)
Definition index_keys (n : nat) : list string := map pretty (seq 0 n).

Definition code_units (s : string) : list Value :=
  map (λ c, JStr (String c "")) (list_ascii_of_string s).

(** The own enumerable properties, in the order of [Object.keys] and of
    object spread. *)
Definition own_props (v : Value) : Props :=
  match v with
  | JObj props => props
  | JArr items => zip (index_keys (length items)) items
  | JStr s => zip (index_keys (String.length s)) (code_units s)
  | _ => []
  end.

(** [Object.keys(v)] *)
Definition keys (v : Value) : list string := (own_props v).*1.

Fixpoint assoc (k : string) (props : Props) : option Value :=
  match props with
  | [] => None
  | (k', v) :: rest => if decide (k' = k) then Some v else assoc k rest
  end.

Section to_string.
(** The text of a number from [10^21] on, which is in exponent form
    (['1e+21']); it is left abstract. *)
Variable exponent_text : Z → string.

(** [Number.prototype.toString] on an integer *)
Definition number_text (n : Z) : string :=
  if (Z.abs n <? 10 ^ 21)%Z then pretty n else exponent_text n.

(** [ToString], as template literals, [String(v)] and [join] apply it. An
    object goes through [toString] and then [valueOf]. Without a [toString]
    of its own it inherits the one that prints [[object Object]]. A
    [toString] of its own, in a document, is never a function: the
    conversion then turns to [valueOf], which gives no primitive either
    (a property of the document, or the inherited one, which returns the
    object), and throws. An array prints its elements, joined by commas. *)
Fixpoint to_string (v : Value) : result string :=
  match v with
  | JUndefined => Ok "undefined"
  | JNull => Ok "null"
  | JBool true => Ok "true"
  | JBool false => Ok "false"
  | JNum n => Ok (number_text n)
  | JStr s => Ok s
  | JArr items =>
      texts ← map_m (λ x, match x with
                          | JUndefined | JNull => Ok ""
                          | _ => to_string x
                          end) items;
      Ok (join "," texts)
  | JObj props =>
      match assoc "toString" props with
      | Some _ => TypeError
      | None => Ok "[object Object]"
      end
  end.
End to_string.

(** The value of [v.k] (or [v[k]] with a string [k]) when [v] is neither
    [null] nor [undefined]: an own property, or the [length] of an array or
    string, else [undefined]. The keys the program reads are not defined by
    the built-in prototypes. *)
Definition prop (v : Value) (k : string) : Value :=
  match v with
  | JArr items =>
      if decide (k = "length") then JNum (Z.of_nat (length items))
      else default JUndefined (assoc k (own_props v))
  | JStr s =>
      if decide (k = "length") then JNum (Z.of_nat (String.length s))
      else default JUndefined (assoc k (own_props v))
  | _ => default JUndefined (assoc k (own_props v))
  end.

(** [v.k]: reading a property of [null] or [undefined] throws. *)
Definition get (v : Value) (k : string) : result Value :=
  match v with
  | JUndefined | JNull => TypeError
  | _ => Ok (prop v k)
  end.

(** [v?.k] *)
Definition get_opt (v : Value) (k : string) : Value :=
  match v with
  | JUndefined | JNull => JUndefined
  | _ => prop v k
  end.

(** [array[i]] on a JavaScript array *)
Definition at_index (items : list Value) (i : nat) : Value :=
  default JUndefined (items !! i).

(** [v[i]] with a number [i], for a [v] that is neither [null] nor
    [undefined]. *)
Definition index (v : Value) (i : nat) : Value :=
  match v with
  | JArr items => at_index items i
  | _ => prop v (pretty i)
  end.

(** An array index as a property key: the canonical decimal form of an
    integer below [2^32 - 1]. Objects enumerate such keys first and in
    numeric order. *)
Definition digit_value (c : ascii) : option N :=
  let n := N_of_ascii c in
  if ((48 <=? n) && (n <=? 57))%N then Some (n - 48)%N else None.

Fixpoint digits_value (s : string) (acc : N) : option N :=
  match s with
  | EmptyString => Some acc
  | String c rest =>
      match digit_value c with
      | Some d => digits_value rest (10 * acc + d)%N
      | None => None
      end
  end.

Definition array_index (k : string) : option N :=
  match k with
  | EmptyString => None
  | String c rest =>
      if bool_decide (c = "0"%char) && bool_decide (rest ≠ "") then None
      else match digits_value k 0 with
           | Some n => if (n <? 4294967295)%N then Some n else None
           | None => None
           end
  end.

Fixpoint replace_prop (k : string) (v : Value) (props : Props) : Props :=
  match props with
  | [] => []
  | (k', v') :: rest =>
      if decide (k' = k) then (k, v) :: rest else (k', v') :: replace_prop k v rest
  end.

Fixpoint insert_index (n : N) (k : string) (v : Value) (props : Props) : Props :=
  match props with
  | [] => [(k, v)]
  | (k', v') :: rest =>
      match array_index k' with
      | Some n' =>
          if (n' <? n)%N then (k', v') :: insert_index n k v rest
          else (k, v) :: props
      | None => (k, v) :: props
      end
  end.

(** [obj[k] = v] on a plain object: an existing property keeps its place, a
    new array-index key goes to its numeric place, any other new key goes
    last. *)
Definition obj_set (k : string) (v : Value) (props : Props) : Props :=
  match assoc k props with
  | Some _ => replace_prop k v props
  | None =>
      match array_index k with
      | Some n => insert_index n k v props
      | None => props ++ [(k, v)]
      end
  end.

(** [Object.assign(target, source)], which is what a spread inside an
    object literal does. *)
Definition assign (target source : Props) : Props :=
  foldl (λ acc kv, obj_set kv.1 kv.2 acc) target source.

(** [{ ...v }] *)
Definition spread (v : Value) : Props := assign [] (own_props v).

(** A [Map], which iterates in insertion order: [set] on a present key keeps
    its place. Keys are compared by the equality of their type [K]: where a
    key may be an object or an array, [K] has to tell references apart. *)
Section js_map.
Context {K V : Type} `{EqDecision K}.

Fixpoint map_get (k : K) (m : list (K * V)) : option V :=
  match m with
  | [] => None
  | (k', v) :: rest => if decide (k' = k) then Some v else map_get k rest
  end.

Fixpoint map_set (k : K) (v : V) (m : list (K * V)) : list (K * V) :=
  match m with
  | [] => [(k, v)]
  | (k', v') :: rest =>
      if decide (k' = k) then (k, v) :: rest else (k', v') :: map_set k v rest
  end.

Definition map_has (k : K) (m : list (K * V)) : bool :=
  bool_decide (is_Some (map_get k m)).

Definition map_keys (m : list (K * V)) : list K := m.*1.
End js_map.

End JS.

(** ** The normalizer (backend) *)

Module Backend.
Import JS.

Definition experienceTemplate : Props :=
  [("company", JStr ""); ("role", JStr ""); ("location", JStr "");
   ("startDate", JStr ""); ("endDate", JStr ""); ("isCurrent", JStr "");
   ("points", JArr [])].

Definition projectTemplate : Props :=
  [("name", JStr ""); ("technologies", JStr ""); ("link", JStr ""); ("points", JArr [])].

Definition educationTemplate : Props :=
  [("institution", JStr ""); ("degree", JStr ""); ("field", JStr "");
   ("startDate", JStr ""); ("endDate", JStr "")].

Definition certificateTemplate : Props :=
  [("name", JStr ""); ("issuer", JStr ""); ("year", JStr "")].

Definition emptyBasics : Props :=
  [("name", JStr ""); ("email", JStr ""); ("phone", JStr ""); ("location", JStr "");
   ("linkedin", JStr ""); ("github", JStr ""); ("portfolio", JStr "")].

Definition emptyResumeJson : Props :=
  [("basics", JObj emptyBasics);
   ("summary", JObj [("id", JStr "summary-1"); ("text", JStr "")]);
   ("skills", JArr []); ("experience", JArr []); ("projects", JArr []);
   ("education", JArr []); ("certificates", JArr [])].

(** [Array.isArray(v) ? v : []] *)
Definition array_or_empty (v : Value) : list Value :=
  match v with
  | JArr items => items
  | _ => []
  end.

(** [v && typeof v === 'object' ? v : {}], as spread into a literal *)
Definition object_or_empty (v : Value) : Props :=
  if truthy v && typeof_object v then own_props v else [].

(** [typeof x === 'string' && x.trim() ? x.trim() : alt] *)
Definition trimmed_or (x alt : Value) : Value :=
  match x with
  | JStr s => if truthy (JStr (trim s)) then JStr (trim s) else alt
  | _ => alt
  end.

Definition normalizeSummaryValue (summary fallbackId : Value) : result Value :=
  let fallbackId :=
    match fallbackId with
    | JUndefined => JStr "summary-1"
    | _ => fallbackId
    end in
  if truthy summary && typeof_object summary then
    id ← get summary "id";
    text ← get summary "text";
    mret (JObj [("id", trimmed_or id fallbackId);
                ("text", if typeof_string text then text else JStr "")])
  else if typeof_string summary then
    mret (JObj [("id", fallbackId); ("text", summary)])
  else
    mret (JObj [("id", fallbackId); ("text", JStr "")]).

Definition normalizeSkillEntry (entry : Value) (index : nat) (fallbackId : Value)
    : result Value :=
  if negb (truthy entry) || negb (typeof_object entry) then mret JNull
  else
    let normalized := spread entry in
    id ← get (JObj normalized) "id";
    let idValue :=
      trimmed_or id (or_else fallbackId (JStr ("skill-" +:+ pretty (index + 1)))) in
    mret (JObj (obj_set "id" idValue normalized)).

(** The body of the loop of [normalizeSkillsList]. *)
Definition skills_step (list_ fallback : list Value) (normalized : list Value) (i : nat)
    : result (list Value) :=
  let entry := at_index list_ i in
  let fallbackEntry := at_index fallback i in
  if negb (truthy entry) && negb (truthy fallbackEntry) then mret normalized
  else
    fallbackId ←
      (if truthy fallbackEntry && typeof_object fallbackEntry then
         id ← get fallbackEntry "id";
         mret (if typeof_string id then id
               else JStr ("skill-" +:+ pretty (i + 1)))
       else mret (JStr ("skill-" +:+ pretty (i + 1))));
    normalizedEntry ← normalizeSkillEntry (or_else entry fallbackEntry) i fallbackId;
    mret (if truthy normalizedEntry then normalized ++ [normalizedEntry]
          else normalized).

Definition normalizeSkillsList (skills resumeSkills : Value) : result (list Value) :=
  let list_ := array_or_empty skills in
  let fallback := array_or_empty resumeSkills in
  let maxLen := length list_ `max` length fallback in
  for_each (skills_step list_ fallback) [] (seq 0 maxLen).

Definition getPointText (point : Value) : result string :=
  match point with
  | JStr s => mret s
  | _ =>
      if truthy point && typeof_object point then
        text ← get point "text";
        match text with
        | JStr s => mret s
        | _ =>
            value ← get point "value";
            match value with
            | JStr s => mret s
            | _ => mret ""
            end
        end
      else mret ""
  end.

(** [p && typeof p === 'object' && typeof p.id === 'string' && p.id.trim()] *)
Definition own_trimmed_id (p : Value) : result Value :=
  if negb (truthy p) then mret p
  else if negb (typeof_object p) then mret (JBool false)
  else
    id ← get p "id";
    match id with
    | JStr s => mret (JStr (trim s))
    | _ => mret (JBool false)
    end.

(** The body of the loop of [normalizePointsList]. *)
Definition points_step (list_ fallback : list Value) (prefix : string)
    (normalized : list Value) (i : nat) : result (list Value) :=
  let point := at_index list_ i in
  let fallbackPoint := at_index fallback i in
  if negb (truthy point) && negb (truthy fallbackPoint) then mret normalized
  else
    ownId ← own_trimmed_id point;
    fallbackOwnId ← own_trimmed_id fallbackPoint;
    let idValue :=
      or_else (or_else ownId fallbackOwnId)
              (JStr (prefix +:+ "-" +:+ pretty (i + 1))) in
    textValue ← getPointText (or_else point fallbackPoint);
    mret (normalized ++ [JObj [("id", idValue); ("text", JStr textValue)]]).

Definition normalizePointsList (points resumePoints : Value) (prefix : string)
    : result (list Value) :=
  let list_ := array_or_empty points in
  let fallback := array_or_empty resumePoints in
  let maxLen := length list_ `max` length fallback in
  for_each (points_step list_ fallback prefix) [] (seq 0 maxLen).

(** [{ ...template, ...(fallbackItem is an object ? fallbackItem : {}),
       ...(item is an object ? item : {}) }] *)
Definition merge_over (template : Props) (fallbackItem item : Value) : Props :=
  assign (assign (assign [] template) (object_or_empty fallbackItem)) (object_or_empty item).

(** The body of the loop of [normalizeArrayObjects]. *)
Definition array_objects_step (items fallback : list Value) (template : Props)
    (normalized : list Value) (i : nat) : result (list Value) :=
  let item := at_index items i in
  let fallbackItem := at_index fallback i in
  if negb (truthy item) && negb (truthy fallbackItem) then mret normalized
  else mret (normalized ++ [JObj (merge_over template fallbackItem item)]).

Definition normalizeArrayObjects (list_ : Value) (template : Props) (fallbackList : Value)
    : result (list Value) :=
  let items := array_or_empty list_ in
  let fallback := array_or_empty fallbackList in
  let maxLen := length items `max` length fallback in
  for_each (array_objects_step items fallback template) [] (seq 0 maxLen).

(** The body of the loop of [normalizeExperienceList] and of
    [normalizeProjectList], which differ in the template and in the prefix
    of the generated ids. *)
Definition entries_step (template : Props) (prefix : string) (items fallback : list Value)
    (normalized : list Value) (i : nat) : result (list Value) :=
  let item := at_index items i in
  let fallbackItem := at_index fallback i in
  if negb (truthy item) && negb (truthy fallbackItem) then mret normalized
  else
    let merged := merge_over template fallbackItem item in
    points ← normalizePointsList (get_opt item "points") (get_opt fallbackItem "points")
                (prefix +:+ "-" +:+ pretty (i + 1));
    mret (normalized ++ [JObj (obj_set "points" (JArr points) merged)]).

Definition normalize_entries (template : Props) (prefix : string) (list_ resumeList : Value)
    : result (list Value) :=
  let items := array_or_empty list_ in
  let fallback := array_or_empty resumeList in
  let maxLen := length items `max` length fallback in
  for_each (entries_step template prefix items fallback) [] (seq 0 maxLen).

Definition normalizeExperienceList : Value → Value → result (list Value) :=
  normalize_entries experienceTemplate "exp".

Definition normalizeProjectList : Value → Value → result (list Value) :=
  normalize_entries projectTemplate "proj".

Definition normalizeResumeJson (input : Value) : result Value :=
  let base := spread (JObj emptyResumeJson) in
  if truthy input && typeof_object input then
    baseBasics ← get (JObj base) "basics";
    inputBasics ← get input "basics";
    let base :=
      obj_set "basics"
        (JObj (assign (spread baseBasics) (own_props (or_else inputBasics (JObj []))))) base in
    inputSummary ← get input "summary";
    summary ← normalizeSummaryValue inputSummary JUndefined;
    let base := obj_set "summary" summary base in
    inputSkills ← get input "skills";
    skills ← normalizeSkillsList inputSkills JUndefined;
    let base := obj_set "skills" (JArr skills) base in
    inputExperience ← get input "experience";
    experience ← normalizeExperienceList inputExperience JUndefined;
    let base := obj_set "experience" (JArr experience) base in
    inputProjects ← get input "projects";
    projects ← normalizeProjectList inputProjects JUndefined;
    let base := obj_set "projects" (JArr projects) base in
    inputEducation ← get input "education";
    education ← normalizeArrayObjects inputEducation educationTemplate JUndefined;
    let base := obj_set "education" (JArr education) base in
    inputCertificates ← get input "certificates";
    certificates ← normalizeArrayObjects inputCertificates certificateTemplate JUndefined;
    let base := obj_set "certificates" (JArr certificates) base in
    mret (JObj base)
  else mret (JObj base).

End Backend.

(** ** Keyword lists and grades (backend) *)

Module Keywords.
Import JS.

Definition gradeFromScore (score : Z) : string :=
  if (90 <=? score)%Z then "A"
  else if (80 <=? score)%Z then "B+"
  else if (70 <=? score)%Z then "B"
  else if (60 <=? score)%Z then "C"
  else "D".

(** [[...new Set(xs)]]: a set iterates in insertion order, so this is the
    first occurrence of every element, in order. *)
Definition unique (xs : list string) : list string :=
  foldl (λ seen x, if decide (x ∈ seen) then seen else seen ++ [x]) [] xs.

Section conversions.
Variable exponent_text : Z → string.

(** [String(item).trim()], which throws when [item] does not convert to a
    string. *)
Definition trimmed_text (item : Value) : result string :=
  text ← to_string exponent_text item;
  mret (trim text).

Definition normalizeList (list_ : Value) : result (list string) :=
  match list_ with
  | JArr items =>
      texts ← map_m trimmed_text items;
      mret (unique (filter (λ s : string, s ≠ "") texts))
  | _ => mret []
  end.
End conversions.

End Keywords.

(** ** The normalized analysis (backend) *)

Module Analysis.
Import JS Backend Keywords.

Definition emptyAnalysisJson : Props :=
  [("Required Keywords", JArr []); ("Matching Keywords", JArr []);
   ("Missing Keywords", JArr []); ("Analysis", JArr []);
   ("summary", JObj [("id", JStr "summary-1"); ("text", JStr "")]);
   ("skills", JArr []); ("experience", JArr []); ("projects", JArr []);
   ("education", JArr []); ("certificates", JArr [])].


(** [v.length ? v : alt], where [alt] is only evaluated when needed. *)
Definition nonempty_or (v : Value) (alt : result Value) : result Value :=
  len ← get v "length";
  if truthy len then mret v else alt.

Section conversions.
Variable exponent_text : Z → string.

(** The array that [normalizeList] returns, as a value. *)
Definition keyword_list (list_ : Value) : result Value :=
  texts ← normalizeList exponent_text list_;
  mret (JArr (JStr <$> texts)).

Definition normalizeAnalysisJson (input resumeJson : Value) : result Value :=
  let base := spread (JObj emptyAnalysisJson) in
  base ←
    (if truthy input && typeof_object input then
       required ← get input "Required Keywords";
       requiredList ← keyword_list required;
       let base := obj_set "Required Keywords" requiredList base in
       matching ← get input "Matching Keywords";
       matchingList ← keyword_list matching;
       let base := obj_set "Matching Keywords" matchingList base in
       missing ← get input "Missing Keywords";
       missingList ← keyword_list missing;
       let base := obj_set "Missing Keywords" missingList base in
       analysis ← get input "Analysis";
       analysisList ← keyword_list analysis;
       let base := obj_set "Analysis" analysisList base in
       inputSummary ← get input "summary";
       resumeSummary ← get resumeJson "summary";
       summary ← normalizeSummaryValue inputSummary
                   (or_else (get_opt resumeSummary "id") (JStr "summary-1"));
       let base := obj_set "summary" summary base in
       inputSkills ← get input "skills";
       resumeSkills ← get resumeJson "skills";
       skills ← normalizeSkillsList inputSkills resumeSkills;
       let base := obj_set "skills" (JArr skills) base in
       inputExperience ← get input "experience";
       resumeExperience ← get resumeJson "experience";
       experience ← normalizeExperienceList inputExperience resumeExperience;
       let base := obj_set "experience" (JArr experience) base in
       inputProjects ← get input "projects";
       resumeProjects ← get resumeJson "projects";
       projects ← normalizeProjectList inputProjects resumeProjects;
       let base := obj_set "projects" (JArr projects) base in
       inputEducation ← get input "education";
       resumeEducation ← get resumeJson "education";
       education ← normalizeArrayObjects inputEducation educationTemplate resumeEducation;
       let base := obj_set "education" (JArr education) base in
       inputCertificates ← get input "certificates";
       resumeCertificates ← get resumeJson "certificates";
       certificates ← normalizeArrayObjects inputCertificates certificateTemplate
                        resumeCertificates;
       mret (obj_set "certificates" (JArr certificates) base)
     else mret base);
  summary ← get (JObj base) "summary";
  summary ← (if truthy (get_opt summary "text") then mret summary
             else get resumeJson "summary");
  let base := obj_set "summary" summary base in
  skills ← get (JObj base) "skills";
  skills ← nonempty_or skills (get resumeJson "skills");
  let base := obj_set "skills" skills base in
  experience ← get (JObj base) "experience";
  experience ← nonempty_or experience (get resumeJson "experience");
  let base := obj_set "experience" experience base in
  projects ← get (JObj base) "projects";
  projects ← nonempty_or projects (get resumeJson "projects");
  let base := obj_set "projects" projects base in
  education ← get (JObj base) "education";
  education ← nonempty_or education (get resumeJson "education");
  let base := obj_set "education" education base in
  certificates ← get (JObj base) "certificates";
  certificates ← nonempty_or certificates (get resumeJson "certificates");
  mret (JObj (obj_set "certificates" certificates base)).
End conversions.

End Analysis.

(** ** Word-level diff engine (frontend, [diffWords]) *)

Module Diff.

Import JS.

(** [text.split(/\s+/)]: the pieces between maximal whitespace runs, empty
    leading and trailing pieces included. *)
Fixpoint split_ws_from (s : string) (cur : string) (in_ws : bool) : list string :=
  match s with
  | EmptyString => [cur]
  | String c rest =>
      if is_space c then
        if in_ws then split_ws_from rest cur true
        else cur :: split_ws_from rest "" true
      else split_ws_from rest (cur +:+ String c "") false
  end.

Definition split_ws (s : string) : list string := split_ws_from s "" false.

(** [text.split(/\s+/).filter(Boolean)] *)
Definition words (s : string) : list string :=
  filter (λ w : string, w ≠ "") (split_ws s).

Inductive op_type := equal | remove | add.

Record operation := Op { type : op_type; value : string }.

Global Instance op_type_eq_dec : EqDecision op_type.
Proof. solve_decision. Defined.

Global Instance operation_eq_dec : EqDecision operation.
Proof. solve_decision. Defined.

(** [dp[i][j]] *)
Definition cell (dp : list (list nat)) (i j : nat) : nat :=
  default 0 (dp !! i ≫= λ row, row !! j).

(** [words[k]] as the value of an operation. *)
Definition word_at (ws : list string) (k : nat) : string := default "" (ws !! k).

Section diff.
Variables beforeWords afterWords : list string.

(** [Array.from({ length: rows }, () => Array(cols).fill(0))] *)
Definition dp_init (rows cols : nat) : list (list nat) :=
  replicate rows (replicate cols 0).

(** Body of the inner [for]: one assignment to [dp[i][j]]. *)
Definition fill_cell (i j : nat) (dp : list (list nat)) : list (list nat) :=
  let v :=
    if decide (beforeWords !! (i - 1) = afterWords !! (j - 1))
    then cell dp (i - 1) (j - 1) + 1
    else cell dp (i - 1) j `max` cell dp i (j - 1) in
  alter (λ row, <[j := v]> row) i dp.

(** [for (let j = 1; j < cols; j += 1)] *)
Definition fill_row (cols : nat) (i : nat) (dp : list (list nat)) : list (list nat) :=
  foldl (λ dp j, fill_cell i j dp) dp (seq 1 (cols - 1)).

(** [for (let i = 1; i < rows; i += 1)] *)
Definition fill_table (rows cols : nat) : list (list nat) :=
  foldl (λ dp i, fill_row cols i dp) (dp_init rows cols) (seq 1 (rows - 1)).

(** The first [while (i > 0 && j > 0)] loop. Every iteration lowers [i] or
    [j], so the loop is written by recursion on [i] and, inside, on [j];
    [operations.unshift] is a cons. The result is the state at loop exit. *)
Fixpoint backtrack (dp : list (list nat)) (i : nat)
    : nat → list operation → nat * nat * list operation :=
  match i with
  | 0 => λ j ops, (0, j, ops)
  | S i' =>
      fix backtrack_row (j : nat) (ops : list operation) {struct j} :=
        match j with
        | 0 => (S i', 0, ops)
        | S j' =>
            if decide (beforeWords !! i' = afterWords !! j') then
              backtrack dp i' j' (Op equal (word_at beforeWords i') :: ops)
            else if decide (cell dp (S i') j' ≤ cell dp i' (S j')) then
              backtrack dp i' (S j') (Op remove (word_at beforeWords i') :: ops)
            else
              backtrack_row j' (Op add (word_at afterWords j') :: ops)
        end
  end.

(** [while (i > 0)] *)
Fixpoint remove_rest (i : nat) (ops : list operation) : list operation :=
  match i with
  | 0 => ops
  | S i' => remove_rest i' (Op remove (word_at beforeWords i') :: ops)
  end.

(** [while (j > 0)] *)
Fixpoint add_rest (j : nat) (ops : list operation) : list operation :=
  match j with
  | 0 => ops
  | S j' => add_rest j' (Op add (word_at afterWords j') :: ops)
  end.

(** The [operations] array at the end of the three loops. *)
Definition operations : list operation :=
  let rows := length beforeWords + 1 in
  let cols := length afterWords + 1 in
  let dp := fill_table rows cols in
  let '(i, j, ops) := backtrack dp (length beforeWords) (length afterWords) [] in
  add_rest j (remove_rest i ops).
End diff.

(** [escapeHtml] *)
Definition escape_char (c : ascii) : string :=
  match nat_of_ascii c with
  | 38 => "&amp;"
  | 60 => "&lt;"
  | 62 => "&gt;"
  | 34 => "&quot;"
  | 39 => "&#39;"
  | _ => String c ""
  end.

Fixpoint escapeHtml (s : string) : string :=
  match s with
  | EmptyString => ""
  | String c rest => escape_char c +:+ escapeHtml rest
  end.

Definition quote : string := String (ascii_of_nat 34) "".

Definition span (klass : string) (v : string) : string :=
  "<span class=" +:+ quote +:+ klass +:+ quote +:+ ">" +:+ escapeHtml v +:+ "</span>".

Record diff_result := { beforeHtml : string; afterHtml : string }.

Definition diffOperations (beforeText afterText : string) : list operation :=
  operations (words beforeText) (words afterText).

Definition diffWords (beforeText afterText : string) : diff_result :=
  let ops := diffOperations beforeText afterText in
  {| beforeHtml :=
       join " " (map (λ op, span (if decide (type op = remove) then "diff-removed" else "diff-unchanged") (value op))
                     (filter (λ op, type op ≠ add) ops));
     afterHtml :=
       join " " (map (λ op, span (if decide (type op = add) then "diff-added" else "diff-unchanged") (value op))
                     (filter (λ op, type op ≠ remove) ops)) |}.

(** Number of operations carrying a given tag. *)
Definition count_type (t : op_type) (ops : list operation) : nat :=
  length (filter (λ op, type op = t) ops).

(** [n] is the length of a longest common subsequence of [l1] and [l2]. *)
Definition lcs_length (l1 l2 : list string) (n : nat) : Prop :=
  (∃ s, s `sublist_of` l1 ∧ s `sublist_of` l2 ∧ length s = n) ∧
  (∀ s, s `sublist_of` l1 → s `sublist_of` l2 → length s ≤ n).

End Diff.

Example words_example :
  Diff.words "  Built  UI components " = ["Built"; "UI"; "components"].
Proof. reflexivity. Qed.

Example operations_example :
  Diff.operations ["a"; "b"; "c"] ["b"; "x"; "c"] =
  [Diff.Op Diff.remove "a"; Diff.Op Diff.equal "b"; Diff.Op Diff.add "x"; Diff.Op Diff.equal "c"].
Proof. vm_compute. reflexivity. Qed.

(** ** Change extraction and selective merge (frontend) *)

Module Frontend.
Import JS.

Definition extractSkillLabelValue (entry : Value) : result (string * string) :=
  if negb (truthy entry) || negb (typeof_object entry) then mret ("", "")
  else
    label ← get entry "label";
    value ← get entry "value";
    if typeof_string label || typeof_string value then
      mret (match label with JStr s => s | _ => "" end,
            match value with JStr s => s | _ => "" end)
    else
      let keys := filter (λ key : string, key ≠ "id") (keys entry) in
      let label := default "" (keys !! 0) in
      value ← (if bool_decide (label ≠ "") then get entry label else mret (JStr ""));
      mret (label, match value with JStr s => s | _ => "" end).

Definition skillEntryToText (entry : Value) : result string :=
  '(label, value) ← extractSkillLabelValue entry;
  if bool_decide (label = "") && bool_decide (value = "") then mret ""
  else mret (if bool_decide (value ≠ "") then label +:+ ": " +:+ value else label).

Definition skillEntryLabel (entry : Value) : result string :=
  '(label, _) ← extractSkillLabelValue entry;
  mret label.

(** [typeof summary === 'string' ? summary : summary?.text || ''] *)
Definition getSummaryText (summary : Value) : Value :=
  if typeof_string summary then summary
  else or_else (get_opt summary "text") (JStr "").

Definition getSummaryId (summary : Value) : result Value :=
  if truthy summary && typeof_object summary then
    id ← get summary "id";
    mret (if truthy id then id else JStr "summary-1")
  else mret (JStr "summary-1").

Definition getPointText (point : Value) : result string :=
  match point with
  | JStr s => mret s
  | _ =>
      if truthy point && typeof_object point then
        text ← get point "text";
        match text with
        | JStr s => mret s
        | _ =>
            value ← get point "value";
            match value with
            | JStr s => mret s
            | _ => mret ""
            end
        end
      else mret ""
  end.

Definition getPointId (point : Value) (fallbackId : string) : result string :=
  if truthy point && typeof_object point then
    id ← get point "id";
    match id with
    | JStr s => mret (if bool_decide (s ≠ "") then s else fallbackId)
    | _ => mret fallbackId
    end
  else mret fallbackId.

(** The objects that [buildChangeItems] pushes, one constructor per [type].
    The [title] of a summary item is the constant ['Summary']. *)
Inductive ChangeItem :=
| SummaryItem (id : string) (before after : Value) (summaryId : Value)
| SkillItem (id : string) (title : string) (skillId : Value) (before after : string)
| ExperienceItem (id : string) (group : string) (jobIndex : nat) (pointId : string)
    (before after : string)
| ProjectItem (id : string) (group : Value) (projectIndex : nat) (pointId : string)
    (before after : string).

(** [item.id] *)
Definition item_id (item : ChangeItem) : string :=
  match item with
  | SummaryItem id _ _ _ => id
  | SkillItem id _ _ _ _ => id
  | ExperienceItem id _ _ _ _ _ => id
  | ProjectItem id _ _ _ _ _ => id
  end.

Global Instance ChangeItem_eq_dec : EqDecision ChangeItem.
Proof. solve_decision. Defined.

(** The separator [' · '] of the group labels: a middle dot between spaces. *)
Definition middle_dot : string := " " +:+ String (ascii_of_nat 183) " ".

(** The two point sections differ in the id prefix and in the item built. *)
Section points.
Variable prefix : string.
Variable make_item : string → string → string → ChangeItem.

(** [points.forEach((point, index) => map.set(getPointId(...), { point, index }))] *)
Definition point_map (sectionIndex : nat) (points : list Value)
    : result (list (string * (Value * nat))) :=
  for_each
    (λ m '(index, point),
       id ← getPointId point
              (prefix +:+ "-" +:+ pretty (sectionIndex + 1) +:+ "-" +:+ pretty (index + 1));
       mret (map_set id (point, index) m))
    [] (imap pair points).

(** [[...resumeMap.keys(), ...analysisMap.keys().filter(id => !resumeMap.has(id))]] *)
Definition ordered_ids {K V} `{EqDecision K} (resumeMap analysisMap : list (K * V)) : list K :=
  map_keys resumeMap ++
  filter (λ id, map_has id resumeMap = false) (map_keys analysisMap).

(** The body of [orderedPointIds.forEach]. *)
Definition point_change (resumePointMap analysisPointMap : list (string * (Value * nat)))
    (items : list ChangeItem) (pointId : string) : result (list ChangeItem) :=
  before ← getPointText (default JUndefined (fst <$> map_get pointId resumePointMap));
  after ← getPointText (default JUndefined (fst <$> map_get pointId analysisPointMap));
  if bool_decide (before = "") && bool_decide (after = "") then mret items
  else if bool_decide (before = after) then mret items
  else mret (items ++ [make_item pointId before after]).

(** The point part of the body of the loop over jobs or projects. *)
Definition section_points (sectionIndex : nat) (resumeEntry analysisEntry : Value)
    (items : list ChangeItem) : result (list ChangeItem) :=
  resumePointsValue ← get resumeEntry "points";
  analysisPointsValue ← get analysisEntry "points";
  let resumePoints := match resumePointsValue with JArr l => l | _ => [] end in
  let analysisPoints := match analysisPointsValue with JArr l => l | _ => [] end in
  resumePointMap ← point_map sectionIndex resumePoints;
  analysisPointMap ← point_map sectionIndex analysisPoints;
  for_each (point_change resumePointMap analysisPointMap) items
    (ordered_ids resumePointMap analysisPointMap).
End points.

(** The key of an entry of a skill map. The keys of a [Map] are compared as
    [===] compares them: a primitive by its value, an object or an array by
    reference. The two documents are trees, as [JSON.parse] builds them, in
    which no object stands at two places; so the reference of an id that is
    an object is known by the document it stands in and by the index of the
    skill entry that carries it. *)
Inductive Key :=
| ByValue (id : Value)
| ByReference (inAnalysis : bool) (index : nat) (id : Value).

Global Instance Key_eq_dec : EqDecision Key.
Proof. solve_decision. Defined.

(** The id that a key stands for. *)
Definition key_value (key : Key) : Value :=
  match key with
  | ByValue id => id
  | ByReference _ _ id => id
  end.

(** The key that the id found at [index] of the skills of a document is. *)
Definition key_of (inAnalysis : bool) (index : nat) (id : Value) : Key :=
  if is_primitive id then ByValue id else ByReference inAnalysis index id.

(** [skills.forEach((entry, index) => map.set((entry && entry.id) || `skill-${index + 1}`, ...))],
    on the skills of the résumé or, with [inAnalysis], of the analysis. *)
Definition skill_map (inAnalysis : bool) (skills : list Value)
    : result (list (Key * (Value * nat))) :=
  for_each
    (λ m '(index, entry),
       ownId ← (if truthy entry then get entry "id" else mret entry);
       let id := or_else ownId (JStr ("skill-" +:+ pretty (index + 1))) in
       mret (map_set (key_of inAnalysis index id) (entry, index) m))
    [] (imap pair skills).

Section conversions.
(** The two conversions that are left abstract: [ToString] on the numbers
    that print in exponent form, and [ToNumber] on strings, text to an
    integer or [None] for [NaN]. *)
Variable exponent_text : Z → string.
Variable string_to_number : string → option Z.

(** The body of [orderedSkillIds.forEach]. *)
Definition skill_change (resumeSkillMap analysisSkillMap : list (Key * (Value * nat)))
    (items : list ChangeItem) (indexed : nat * Key) : result (list ChangeItem) :=
  let '(idx, skillKey) := indexed in
  let skillId := key_value skillKey in
  let beforeEntry := or_else (default JUndefined (fst <$> map_get skillKey resumeSkillMap)) JNull in
  let afterEntry := or_else (default JUndefined (fst <$> map_get skillKey analysisSkillMap)) JNull in
  beforeText ← skillEntryToText beforeEntry;
  afterText ← skillEntryToText afterEntry;
  if bool_decide (beforeText = "") && bool_decide (afterText = "") then mret items
  else if bool_decide (beforeText = afterText) then mret items
  else
    afterLabel ← skillEntryLabel afterEntry;
    beforeLabel ← skillEntryLabel beforeEntry;
    let label :=
      if bool_decide (afterLabel ≠ "") then afterLabel
      else if bool_decide (beforeLabel ≠ "") then beforeLabel
      else "Skill " +:+ pretty (idx + 1) in
    idText ← to_string exponent_text skillId;
    mret (items ++ [SkillItem ("skill:" +:+ idText) label skillId beforeText afterText]).

(** The summary block. The two texts are read from the two documents. *)
Definition summary_change (resumeSummary analysisSummary : Value) (items : list ChangeItem)
    : result (list ChangeItem) :=
  let summaryBefore := getSummaryText resumeSummary in
  let summaryAfter := getSummaryText analysisSummary in
  if truthy summaryAfter && negb (strict_equal_apart summaryAfter summaryBefore) then
    analysisId ← getSummaryId analysisSummary;
    summaryId ← (if truthy analysisId then mret analysisId else getSummaryId resumeSummary);
    idText ← to_string exponent_text summaryId;
    mret (items ++ [SummaryItem ("summary:" +:+ idText)
                      summaryBefore summaryAfter summaryId])
  else mret items.

(** [ToNumber], with [None] for [NaN]. An object or an array is first
    converted to a primitive, which is its text. *)
Definition to_number (v : Value) : result (option Z) :=
  match v with
  | JUndefined => mret None
  | JNull => mret (Some 0%Z)
  | JBool b => mret (Some (if b then 1 else 0)%Z)
  | JNum n => mret (Some n)
  | JStr s => mret (string_to_number s)
  | JArr _ | JObj _ =>
      text ← to_string exponent_text v;
      mret (string_to_number text)
  end.

(** The indices that [for (let i = 0; i < Math.max(a.length, b.length); i += 1)]
    visits. *)
Definition loop_indices (a b : Value) : result (list nat) :=
  la ← get a "length";
  lb ← get b "length";
  x ← to_number la;
  y ← to_number lb;
  match x, y with
  | Some x, Some y => mret (seq 0 (Z.to_nat (Z.max x y)))
  | _, _ => mret []
  end.

(** The body of the loop over jobs. *)
Definition experience_step (resumeExperience analysisExperience : Value)
    (items : list ChangeItem) (jobIndex : nat) : result (list ChangeItem) :=
  let resumeJob := or_else (index resumeExperience jobIndex) (JObj []) in
  let analysisJob := or_else (index analysisExperience jobIndex) (JObj []) in
  analysisRole ← get analysisJob "role";
  resumeRole ← get resumeJob "role";
  analysisCompany ← get analysisJob "company";
  resumeCompany ← get resumeJob "company";
  labelTexts ←
    map_m (to_string exponent_text)
      (filter (λ v, truthy v = true)
         [or_else analysisRole resumeRole; or_else analysisCompany resumeCompany]);
  let labelParts := join middle_dot labelTexts in
  let group :=
    if bool_decide (labelParts ≠ "") then labelParts
    else "Experience " +:+ pretty (jobIndex + 1) in
  section_points "exp"
    (λ pointId before after,
       ExperienceItem ("exp:" +:+ pretty jobIndex +:+ ":" +:+ pointId)
         group jobIndex pointId before after)
    jobIndex resumeJob analysisJob items.

(** The body of the loop over projects. *)
Definition project_step (resumeProjects analysisProjects : Value)
    (items : list ChangeItem) (projectIndex : nat) : result (list ChangeItem) :=
  let resumeProject := or_else (index resumeProjects projectIndex) (JObj []) in
  let analysisProject := or_else (index analysisProjects projectIndex) (JObj []) in
  analysisName ← get analysisProject "name";
  resumeName ← get resumeProject "name";
  let group :=
    or_else (or_else analysisName resumeName)
            (JStr ("Project " +:+ pretty (projectIndex + 1))) in
  section_points "proj"
    (λ pointId before after,
       ProjectItem ("proj:" +:+ pretty projectIndex +:+ ":" +:+ pointId)
         group projectIndex pointId before after)
    projectIndex resumeProject analysisProject items.

Definition buildChangeItems (resumeJson analysisJson : Value) : result (list ChangeItem) :=
  if negb (truthy resumeJson) || negb (truthy analysisJson) then mret []
  else
    let items := [] in
    resumeSummary ← get resumeJson "summary";
    analysisSummary ← get analysisJson "summary";
    items ← summary_change resumeSummary analysisSummary items;
    resumeSkillsValue ← get resumeJson "skills";
    analysisSkillsValue ← get analysisJson "skills";
    let resumeSkills := match resumeSkillsValue with JArr l => l | _ => [] end in
    let analysisSkills := match analysisSkillsValue with JArr l => l | _ => [] end in
    resumeSkillMap ← skill_map false resumeSkills;
    analysisSkillMap ← skill_map true analysisSkills;
    let orderedSkillIds := ordered_ids resumeSkillMap analysisSkillMap in
    items ← for_each (skill_change resumeSkillMap analysisSkillMap) items
              (imap pair orderedSkillIds);
    resumeExperienceValue ← get resumeJson "experience";
    analysisExperienceValue ← get analysisJson "experience";
    let resumeExperience := or_else resumeExperienceValue (JArr []) in
    let analysisExperience := or_else analysisExperienceValue (JArr []) in
    jobIndices ← loop_indices resumeExperience analysisExperience;
    items ← for_each (experience_step resumeExperience analysisExperience) items jobIndices;
    resumeProjectsValue ← get resumeJson "projects";
    analysisProjectsValue ← get analysisJson "projects";
    let resumeProjects := or_else resumeProjectsValue (JArr []) in
    let analysisProjects := or_else analysisProjectsValue (JArr []) in
    projectIndices ← loop_indices resumeProjects analysisProjects;
    for_each (project_step resumeProjects analysisProjects) items projectIndices.
End conversions.

(** The working copy [updated]: the fields that the object literal sets, and
    [rest], the spread of [resumeJson] that the literal starts from. The
    three array fields are arrays by construction, and every element of
    [experience] and [projects] is a fresh plain object. *)
Record Updated := {
  rest : Props;
  basics : Props;
  summary : Value;
  skills : list Value;
  experience : list Props;
  projects : list Props;
  education : list Value;
  certificates : list Value;
}.

(** The object that [updated] denotes: the literal's keys take the place they
    have in [resumeJson], or follow in the literal's order. *)
Definition updated_value (u : Updated) : Value :=
  JObj (obj_set "certificates" (JArr (certificates u))
       (obj_set "education" (JArr (education u))
       (obj_set "projects" (JArr (JObj <$> projects u))
       (obj_set "experience" (JArr (JObj <$> experience u))
       (obj_set "skills" (JArr (skills u))
       (obj_set "summary" (summary u)
       (obj_set "basics" (JObj (basics u)) (rest u)))))))).

Definition clonePoints (points : Value) : list Value :=
  match points with
  | JArr items =>
      map (λ point, if truthy point && typeof_object point then JObj (spread point) else point)
          items
  | _ => []
  end.

Definition cloneJobs (items : Value) : result (list Props) :=
  match items with
  | JArr items =>
      map_m (λ item,
               let copy := spread item in
               points ← get item "points";
               mret (obj_set "points" (JArr (clonePoints points)) copy))
            items
  | _ => mret []
  end.

(** [Array.isArray(v) ? v.map((item) => ({ ...item })) : []] *)
Definition cloneRecords (v : Value) : list Value :=
  match v with
  | JArr items => map (λ item, JObj (spread item)) items
  | _ => []
  end.

(** The object literal that initializes [updated]. *)
Definition initial_copy (resumeJson : Value) : result Updated :=
  resumeBasics ← get resumeJson "basics";
  resumeSummary ← get resumeJson "summary";
  resumeSkills ← get resumeJson "skills";
  resumeExperience ← get resumeJson "experience";
  experience ← cloneJobs resumeExperience;
  resumeProjects ← get resumeJson "projects";
  projects ← cloneJobs resumeProjects;
  resumeEducation ← get resumeJson "education";
  resumeCertificates ← get resumeJson "certificates";
  mret {| rest := spread resumeJson;
          basics := spread (or_else resumeBasics (JObj []));
          summary := if truthy resumeSummary && typeof_object resumeSummary
                     then JObj (spread resumeSummary) else resumeSummary;
          skills := match resumeSkills with JArr l => l | _ => [] end;
          experience := experience;
          projects := projects;
          education := cloneRecords resumeEducation;
          certificates := cloneRecords resumeCertificates |}.

(** [(entry) => (entry?.id || '') === skillId] *)
Definition has_skill_id (skillId : Value) (entry : Value) : result bool :=
  mret (strict_equal (or_else (get_opt entry "id") (JStr "")) skillId).

(** [(point) => getPointId(point, '') === pointId] *)
Definition has_point_id (pointId : string) (point : Value) : result bool :=
  id ← getPointId point "";
  mret (bool_decide (id = pointId)).

(** [Array.splice(i, 1)] *)
Definition splice_one {A} (i : nat) (l : list A) : list A := take i l ++ drop (S i) l.

(** The [item.type === 'skill'] branch. *)
Definition apply_skill (analysisJson : Value) (skillId : Value) (skills : list Value)
    : result (list Value) :=
  analysisSkills ← get analysisJson "skills";
  found ← (match analysisSkills with
           | JArr l => find (has_skill_id skillId) l
           | _ => mret None
           end);
  let analysisSkill :=
    match analysisSkills, found with
    | JArr _, Some (_, entry) => entry
    | JArr _, None => JUndefined
    | _, _ => JNull
    end in
  existing ← find (has_skill_id skillId) skills;
  if truthy analysisSkill && typeof_object analysisSkill
     && bool_decide (length (keys analysisSkill) ≠ 0) then
    match existing with
    | Some (existingIndex, _) => mret (<[existingIndex := analysisSkill]> skills)
    | None => mret (skills ++ [analysisSkill])
    end
  else
    match existing with
    | Some (existingIndex, _) => mret (splice_one existingIndex skills)
    | None => mret skills
    end.

(** The [item.type === 'experience'] and [item.type === 'project'] branches,
    on the array [entries] of the section [key] that they work on. *)
Definition apply_point (analysisJson : Value) (key : string) (sectionIndex : nat)
    (pointId : string) (entries : list Props) : result (list Props) :=
  analysisEntries ← get analysisJson key;
  let analysisEntry :=
    match analysisEntries with
    | JUndefined | JNull => JUndefined
    | _ => index analysisEntries sectionIndex
    end in
  if negb (truthy analysisEntry) then mret entries
  else
    let entries :=
      entries ++ replicate (S sectionIndex - length entries)
                   (obj_set "points" (JArr []) (spread analysisEntry)) in
    let entry := default [] (entries !! sectionIndex) in
    let entry :=
      match prop (JObj entry) "points" with
      | JArr _ => entry
      | _ => obj_set "points" (JArr []) entry
      end in
    let entries := <[sectionIndex := entry]> entries in
    analysisPointsValue ← get analysisEntry "points";
    let analysisPoints := match analysisPointsValue with JArr l => l | _ => [] end in
    found ← find (has_point_id pointId) analysisPoints;
    let analysisPoint := match found with Some (_, point) => point | None => JUndefined end in
    if negb (truthy analysisPoint) then mret entries
    else
      nextId ← getPointId analysisPoint pointId;
      nextText ← getPointText analysisPoint;
      let nextPoint := JObj [("id", JStr nextId); ("text", JStr nextText)] in
      let points := match prop (JObj entry) "points" with JArr l => l | _ => [] end in
      existing ← find (has_point_id pointId) points;
      let points :=
        match existing with
        | Some (existingIndex, _) => <[existingIndex := nextPoint]> points
        | None => points ++ [nextPoint]
        end in
      mret (<[sectionIndex := obj_set "points" (JArr points) entry]> entries).

(** The callback of [changeItems.forEach]. *)
Definition apply_item (analysisJson : Value) (changeState : gmap string bool)
    (updated : Updated) (item : ChangeItem) : result Updated :=
  if negb (default false (changeState !! item_id item)) then mret updated
  else
    match item with
    | SummaryItem _ _ _ _ =>
        analysisSummary ← get analysisJson "summary";
        mret {| rest := rest updated; basics := basics updated;
                summary := if truthy analysisSummary && typeof_object analysisSummary
                           then JObj (spread analysisSummary)
                           else or_else analysisSummary (summary updated);
                skills := skills updated; experience := experience updated;
                projects := projects updated; education := education updated;
                certificates := certificates updated |}
    | SkillItem _ _ skillId _ _ =>
        skills ← apply_skill analysisJson skillId (skills updated);
        mret {| rest := rest updated; basics := basics updated; summary := summary updated;
                skills := skills; experience := experience updated;
                projects := projects updated; education := education updated;
                certificates := certificates updated |}
    | ExperienceItem _ _ jobIndex pointId _ _ =>
        experience ← apply_point analysisJson "experience" jobIndex pointId (experience updated);
        mret {| rest := rest updated; basics := basics updated; summary := summary updated;
                skills := skills updated; experience := experience;
                projects := projects updated; education := education updated;
                certificates := certificates updated |}
    | ProjectItem _ _ projectIndex pointId _ _ =>
        projects ← apply_point analysisJson "projects" projectIndex pointId (projects updated);
        mret {| rest := rest updated; basics := basics updated; summary := summary updated;
                skills := skills updated; experience := experience updated;
                projects := projects; education := education updated;
                certificates := certificates updated |}
    end.

(** [(entry) => entry && typeof entry === 'object' && Object.keys(entry).length] *)
Definition kept_skill (entry : Value) : bool :=
  truthy entry && typeof_object entry && bool_decide (length (keys entry) ≠ 0).

Definition buildUpdatedResumeData (resumeJson analysisJson : Value)
    (changeItems : list ChangeItem) (changeState : gmap string bool) : result Value :=
  if negb (truthy resumeJson) then mret JNull
  else
    updated ← initial_copy resumeJson;
    if negb (truthy analysisJson) then mret (updated_value updated)
    else
      updated ← for_each (apply_item analysisJson changeState) updated changeItems;
      mret (updated_value
              {| rest := rest updated; basics := basics updated; summary := summary updated;
                 skills := filter (λ entry, kept_skill entry = true) (skills updated);
                 experience := experience updated; projects := projects updated;
                 education := education updated; certificates := certificates updated |}).

End Frontend.

(** * Properties *)

(** ** Longest common subsequences *)

Section lcs.
Import Diff.

Lemma lcs_length_unique l1 l2 n n' :
  lcs_length l1 l2 n → lcs_length l1 l2 n' → n = n'.
Proof.
  intros [(s & Hs1 & Hs2 & Hs) Hmax] [(s' & Hs1' & Hs2' & Hs') Hmax'].
  specialize (Hmax s' Hs1' Hs2'). specialize (Hmax' s Hs1 Hs2). lia.
Qed.

Lemma lcs_length_nil_l l : lcs_length [] l 0.
Proof.
  split.
  - exists []. split_and!; [constructor | apply sublist_nil_l | done].
  - intros s ->%sublist_nil_r _. done.
Qed.

Lemma lcs_length_nil_r l : lcs_length l [] 0.
Proof.
  split.
  - exists []. split_and!; [apply sublist_nil_l | constructor | done].
  - intros s _ ->%sublist_nil_r. done.
Qed.

Lemma sublist_snoc_inv (s l : list string) a :
  s `sublist_of` l ++ [a] →
  s `sublist_of` l ∨ ∃ s', s = s' ++ [a] ∧ s' `sublist_of` l.
Proof.
  intros (k1 & k2 & -> & Hk1 & Hk2)%sublist_app_r.
  apply sublist_cons_r in Hk2 as [->%sublist_nil_r | (k' & -> & ->%sublist_nil_r)].
  - left. by rewrite app_nil_r.
  - right. eauto.
Qed.

Lemma lcs_length_snoc_eq l1 l2 a n :
  lcs_length l1 l2 n → lcs_length (l1 ++ [a]) (l2 ++ [a]) (n + 1).
Proof.
  intros [(s & Hs1 & Hs2 & Hs) Hmax]. split.
  - exists (s ++ [a]). split_and!; [by apply sublist_app | by apply sublist_app |].
    rewrite length_app. simpl. lia.
  - intros t [Ht1 | (t1 & -> & Ht1)]%sublist_snoc_inv
             [Ht2 | (t2 & Heq & Ht2)]%sublist_snoc_inv.
    + specialize (Hmax t Ht1 Ht2). lia.
    + subst t. rewrite length_app. simpl.
      assert (t2 `sublist_of` l1) as Ht.
      { etrans; [| exact Ht1]. by apply sublist_inserts_r. }
      specialize (Hmax t2 Ht Ht2). lia.
    + rewrite length_app. simpl.
      assert (t1 `sublist_of` l2) as Ht.
      { etrans; [| exact Ht2]. by apply sublist_inserts_r. }
      specialize (Hmax t1 Ht1 Ht). lia.
    + apply app_inj_tail in Heq as [-> _].
      rewrite length_app. simpl. specialize (Hmax t2 Ht1 Ht2). lia.
Qed.

Lemma lcs_length_snoc_ne l1 l2 a b p q :
  a ≠ b →
  lcs_length l1 (l2 ++ [b]) p →
  lcs_length (l1 ++ [a]) l2 q →
  lcs_length (l1 ++ [a]) (l2 ++ [b]) (p `max` q).
Proof.
  intros Hab [(s & Hs1 & Hs2 & Hs) Hmaxp] [(t & Ht1 & Ht2 & Ht) Hmaxq]. split.
  - destruct (Nat.max_spec p q) as [[_ ->] | [_ ->]].
    + exists t. split_and!; [done | by apply sublist_inserts_r | done].
    + exists s. split_and!; [by apply sublist_inserts_r | done | done].
  - intros u [Hu1 | (u1 & -> & Hu1)]%sublist_snoc_inv Hu2.
    + specialize (Hmaxp u Hu1 Hu2). lia.
    + apply sublist_snoc_inv in Hu2 as Hu2'.
      destruct Hu2' as [Hu2' | (u2 & Heq & Hu2')].
      * assert (u1 ++ [a] `sublist_of` l1 ++ [a]) as Hu by by apply sublist_app.
        specialize (Hmaxq _ Hu Hu2'). lia.
      * apply app_inj_tail in Heq as [_ ?]. done.
Qed.
End lcs.

(** ** The dynamic-programming table *)

Section table.
Import Diff.
Variables beforeWords afterWords : list string.
Let m := length beforeWords.
Let n := length afterWords.

(** Every row and column index of the table is present. *)
Definition table_shape (dp : list (list nat)) : Prop :=
  length dp = m + 1 ∧ Forall (λ row, length row = n + 1) dp.

(** Cell [(i, j)] holds the LCS length of the first [i] and first [j] words. *)
Definition cell_ok (dp : list (list nat)) (i j : nat) : Prop :=
  lcs_length (take i beforeWords) (take j afterWords) (cell dp i j).

(** The cells written before the inner loop reaches [(i, j0)]. *)
Definition filled (i j0 i' j' : nat) : Prop :=
  i' < i ∨ j' = 0 ∨ (i' = i ∧ j' < j0).

Definition fill_inv (i j0 : nat) (dp : list (list nat)) : Prop :=
  table_shape dp ∧
  ∀ i' j', i' ≤ m → j' ≤ n → filled i j0 i' j' → cell_ok dp i' j'.

Lemma foldl_seq_inv {St} (f : St → nat → St) (Inv : nat → St → Prop) a k s :
  Inv a s →
  (∀ x s, a ≤ x < a + k → Inv x s → Inv (x + 1) (f s x)) →
  Inv (a + k) (foldl f s (seq a k)).
Proof.
  revert a s. induction k as [|k IH]; intros a s Ha Hstep; simpl.
  - by rewrite Nat.add_0_r.
  - replace (a + S k) with (S a + k) by lia. apply IH.
    + replace (S a) with (a + 1) by lia. apply Hstep; [lia | done].
    + intros x s' Hx. apply Hstep. lia.
Qed.

Lemma cell_dp_init rows cols i j : cell (dp_init rows cols) i j = 0.
Proof.
  unfold cell, dp_init.
  destruct (replicate rows (replicate cols 0) !! i) as [row|] eqn:Hrow; [|done].
  apply lookup_replicate in Hrow as [-> _]. simpl.
  destruct (replicate cols 0 !! j) as [x|] eqn:Hx; [|done].
  by apply lookup_replicate in Hx as [-> _].
Qed.

Lemma table_shape_init : table_shape (dp_init (m + 1) (n + 1)).
Proof.
  split; [apply length_replicate|].
  apply Forall_replicate, length_replicate.
Qed.

Lemma table_shape_alter dp i j v :
  table_shape dp → table_shape (alter (λ row, <[j := v]> row) i dp).
Proof.
  intros [Hlen Hrows]. split; [by rewrite length_alter|].
  apply Forall_alter; [done|]. intros row _ Hrow. by rewrite length_insert.
Qed.

Lemma cell_alter_eq dp i j v :
  table_shape dp → i ≤ m → j ≤ n →
  cell (alter (λ row, <[j := v]> row) i dp) i j = v.
Proof.
  intros [Hlen Hrows] Hi Hj. unfold cell.
  rewrite list_lookup_alter_eq.
  destruct (dp !! i) as [row|] eqn:Hrow.
  - simpl. rewrite list_lookup_insert_eq; [done|].
    rewrite Forall_lookup in Hrows. rewrite (Hrows _ _ Hrow). lia.
  - apply lookup_ge_None in Hrow. lia.
Qed.

Lemma cell_alter_ne dp i j v i' j' :
  (i', j') ≠ (i, j) →
  cell (alter (λ row, <[j := v]> row) i dp) i' j' = cell dp i' j'.
Proof.
  intros Hne. unfold cell. destruct (decide (i = i')) as [<-|Hi].
  - rewrite list_lookup_alter_eq. destruct (dp !! i) as [row|]; [|done].
    simpl. rewrite list_lookup_insert_ne; [done | congruence].
  - by rewrite list_lookup_alter_ne.
Qed.

Lemma take_snoc (l : list string) i :
  i < length l → take (S i) l = take i l ++ [word_at l i].
Proof.
  intros Hi. destruct (lookup_lt_is_Some_2 l i Hi) as [x Hx].
  unfold word_at. rewrite Hx. simpl. by apply take_S_r.
Qed.

Lemma lookup_word_at (l : list string) i :
  i < length l → l !! i = Some (word_at l i).
Proof.
  intros Hi. destruct (lookup_lt_is_Some_2 l i Hi) as [x Hx].
  unfold word_at. by rewrite Hx.
Qed.

(** The recurrence that the inner loop body implements. *)
Lemma cell_ok_step dp i j :
  i < m → j < n →
  cell_ok dp i j → cell_ok dp i (S j) → cell_ok dp (S i) j →
  lcs_length (take (S i) beforeWords) (take (S j) afterWords)
    (if decide (beforeWords !! i = afterWords !! j)
     then cell dp i j + 1
     else cell dp i (S j) `max` cell dp (S i) j).
Proof.
  intros Hi Hj Hd Hu Hl. unfold cell_ok in *.
  rewrite (take_snoc beforeWords i Hi), (take_snoc afterWords j Hj) in *.
  rewrite (lookup_word_at beforeWords i Hi), (lookup_word_at afterWords j Hj).
  case_decide as Heq.
  - injection Heq as Heq. rewrite Heq. by apply lcs_length_snoc_eq.
  - apply lcs_length_snoc_ne; [congruence | done | done].
Qed.

Lemma fill_cell_inv i j dp :
  1 ≤ i ≤ m → 1 ≤ j ≤ n →
  fill_inv i j dp → fill_inv i (j + 1) (fill_cell beforeWords afterWords i j dp).
Proof.
  intros Hi Hj [Hshape Hcells]. split; [by apply table_shape_alter|].
  intros i' j' Hi' Hj' Hfilled. unfold cell_ok, fill_cell.
  destruct (decide ((i', j') = (i, j))) as [[= -> ->]|Hne].
  - rewrite cell_alter_eq by done.
    destruct i as [|i0]; [lia|]. destruct j as [|j0]; [lia|].
    replace (S i0 - 1) with i0 by lia. replace (S j0 - 1) with j0 by lia.
    apply cell_ok_step; [lia | lia | | |];
      apply Hcells; unfold filled; lia.
  - rewrite cell_alter_ne by done. apply Hcells; [done | done |].
    unfold filled in *. destruct Hfilled as [?|[?|[-> ?]]]; [lia | lia |].
    right; right. split; [done|]. destruct (decide (j' = j)); [congruence | lia].
Qed.

Lemma fill_row_inv i dp :
  1 ≤ i ≤ m →
  fill_inv i 1 dp → fill_inv (i + 1) 1 (fill_row beforeWords afterWords (n + 1) i dp).
Proof.
  intros Hi Hinv. unfold fill_row. replace (n + 1 - 1) with n by lia.
  assert (fill_inv i (1 + n)
            (foldl (λ dp j, fill_cell beforeWords afterWords i j dp) dp (seq 1 n)))
    as [Hshape Hcells].
  { apply (foldl_seq_inv _ (λ j dp, fill_inv i j dp)); [done|].
    intros j dp' Hj Hdp'. apply fill_cell_inv; [done | lia | done]. }
  split; [done|]. intros i' j' Hi' Hj' Hfilled. apply Hcells; [done | done |].
  unfold filled in *. lia.
Qed.

Lemma fill_table_inv :
  fill_inv (m + 1) 1 (fill_table beforeWords afterWords (m + 1) (n + 1)).
Proof.
  unfold fill_table. replace (m + 1 - 1) with m by lia.
  replace (m + 1) with (1 + m) at 1 by lia.
  apply (foldl_seq_inv _ (λ i dp, fill_inv i 1 dp)).
  - split; [apply table_shape_init|].
    intros i' j' Hi' Hj' Hfilled. unfold cell_ok. rewrite cell_dp_init.
    destruct Hfilled as [?|[->|?]].
    + replace i' with 0 by lia. apply lcs_length_nil_l.
    + apply lcs_length_nil_r.
    + replace j' with 0 by lia. apply lcs_length_nil_r.
  - intros i dp Hi Hdp. apply fill_row_inv; [lia | done].
Qed.

(** Every cell of the finished table holds the LCS length of its prefixes. *)
Lemma fill_table_ok i j :
  i ≤ m → j ≤ n →
  cell_ok (fill_table beforeWords afterWords (m + 1) (n + 1)) i j.
Proof.
  intros Hi Hj. destruct fill_table_inv as [_ Hcells].
  apply Hcells; [done | done |]. unfold filled. lia.
Qed.
End table.

(** ** Backtracking *)

Section backtrack.
Import Diff.
Variables beforeWords afterWords : list string.
Let m := length beforeWords.
Let n := length afterWords.

Lemma backtrack_0 dp j ops :
  backtrack beforeWords afterWords dp 0 j ops = (0, j, ops).
Proof. done. Qed.

Lemma backtrack_S_0 dp i ops :
  backtrack beforeWords afterWords dp (S i) 0 ops = (S i, 0, ops).
Proof. done. Qed.

Lemma backtrack_S_S dp i j ops :
  backtrack beforeWords afterWords dp (S i) (S j) ops =
  if decide (beforeWords !! i = afterWords !! j) then
    backtrack beforeWords afterWords dp i j (Op equal (word_at beforeWords i) :: ops)
  else if decide (cell dp (S i) j ≤ cell dp i (S j)) then
    backtrack beforeWords afterWords dp i (S j) (Op remove (word_at beforeWords i) :: ops)
  else
    backtrack beforeWords afterWords dp (S i) j (Op add (word_at afterWords j) :: ops).
Proof. done. Qed.

Lemma count_type_cons t op ops :
  count_type t (op :: ops) = (if decide (type op = t) then 1 else 0) + count_type t ops.
Proof. unfold count_type. rewrite filter_cons. by case_decide. Qed.

Lemma count_type_singleton t op :
  count_type t [op] = if decide (type op = t) then 1 else 0.
Proof. rewrite count_type_cons. unfold count_type. simpl. lia. Qed.

Lemma count_type_app t ops1 ops2 :
  count_type t (ops1 ++ ops2) = count_type t ops1 + count_type t ops2.
Proof. unfold count_type. by rewrite filter_app, length_app. Qed.

(** A table all of whose cells are right. *)
Definition table_ok (dp : list (list nat)) : Prop :=
  ∀ i j, i ≤ m → j ≤ n → cell_ok beforeWords afterWords dp i j.

Lemma table_ok_recurrence dp i j :
  table_ok dp → i < m → j < n →
  cell dp (S i) (S j) =
    if decide (beforeWords !! i = afterWords !! j)
    then cell dp i j + 1
    else cell dp i (S j) `max` cell dp (S i) j.
Proof.
  intros Hok Hi Hj.
  eapply lcs_length_unique; [apply Hok; lia|].
  apply cell_ok_step; [done | done | | |]; apply Hok; lia.
Qed.

Lemma table_ok_row_0 dp j : table_ok dp → j ≤ n → cell dp 0 j = 0.
Proof.
  intros Hok Hj. eapply lcs_length_unique; [apply Hok; lia|].
  apply lcs_length_nil_l.
Qed.

Lemma table_ok_col_0 dp i : table_ok dp → i ≤ m → cell dp i 0 = 0.
Proof.
  intros Hok Hi. eapply lcs_length_unique; [apply Hok; lia|].
  rewrite take_0. apply lcs_length_nil_r.
Qed.

(** The first loop stops on a border of the table, only prepends to
    [operations], and prepends as many [equal] operations as the cell it
    starts from says. *)
Lemma backtrack_spec dp :
  table_ok dp →
  ∀ i j ops, i ≤ m → j ≤ n →
    ∃ i1 j1 pre,
      backtrack beforeWords afterWords dp i j ops = (i1, j1, pre ++ ops) ∧
      (i1 = 0 ∨ j1 = 0) ∧ i1 ≤ i ∧ j1 ≤ j ∧
      count_type equal pre = cell dp i j.
Proof.
  intros Hok. induction i as [|i IHi].
  - intros j ops _ Hj. exists 0, j, []. rewrite backtrack_0.
    split_and!; [done | by left | done | done |].
    by rewrite table_ok_row_0.
  - induction j as [|j IHj]; intros ops Hi Hj.
    + exists (S i), 0, []. rewrite backtrack_S_0.
      split_and!; [done | by right | done | done |].
      by rewrite table_ok_col_0.
    + rewrite backtrack_S_S, (table_ok_recurrence dp i j) by (done || lia).
      destruct (decide (beforeWords !! i = afterWords !! j)) as [Heq|Hne].
      * destruct (IHi j (Op equal (word_at beforeWords i) :: ops))
          as (i1 & j1 & pre & -> & Hborder & Hi1 & Hj1 & Hcount); [lia | lia |].
        exists i1, j1, (pre ++ [Op equal (word_at beforeWords i)]).
        split_and!; [by rewrite <- app_assoc | done | lia | lia |].
        rewrite count_type_app, count_type_singleton, Hcount. simpl. lia.
      * destruct (decide (cell dp (S i) j ≤ cell dp i (S j))) as [Hle|Hgt].
        -- destruct (IHi (S j) (Op remove (word_at beforeWords i) :: ops))
             as (i1 & j1 & pre & -> & Hborder & Hi1 & Hj1 & Hcount); [lia | lia |].
           exists i1, j1, (pre ++ [Op remove (word_at beforeWords i)]).
           split_and!; [by rewrite <- app_assoc | done | lia | lia |].
           rewrite count_type_app, count_type_singleton, Hcount. simpl. lia.
        -- destruct (IHj (Op add (word_at afterWords j) :: ops))
             as (i1 & j1 & pre & -> & Hborder & Hi1 & Hj1 & Hcount); [lia | lia |].
           exists i1, j1, (pre ++ [Op add (word_at afterWords j)]).
           split_and!; [by rewrite <- app_assoc | done | lia | lia |].
           rewrite count_type_app, count_type_singleton, Hcount. simpl. lia.
Qed.

Lemma remove_rest_spec i ops :
  ∃ pre, remove_rest beforeWords i ops = pre ++ ops ∧ count_type equal pre = 0.
Proof.
  revert ops. induction i as [|i IH]; intros ops; simpl.
  - by exists [].
  - destruct (IH (Op remove (word_at beforeWords i) :: ops)) as (pre & -> & Hpre).
    exists (pre ++ [Op remove (word_at beforeWords i)]).
    split; [by rewrite <- app_assoc|].
    rewrite count_type_app, Hpre. done.
Qed.

Lemma add_rest_spec j ops :
  ∃ pre, add_rest afterWords j ops = pre ++ ops ∧ count_type equal pre = 0.
Proof.
  revert ops. induction j as [|j IH]; intros ops; simpl.
  - by exists [].
  - destruct (IH (Op add (word_at afterWords j) :: ops)) as (pre & -> & Hpre).
    exists (pre ++ [Op add (word_at afterWords j)]).
    split; [by rewrite <- app_assoc|].
    rewrite count_type_app, Hpre. done.
Qed.

Lemma fill_table_table_ok :
  table_ok (fill_table beforeWords afterWords (m + 1) (n + 1)).
Proof. intros i j Hi Hj. by apply fill_table_ok. Qed.

(** The number of [equal] operations is the LCS length of the two word lists. *)
Lemma operations_equal_count :
  lcs_length beforeWords afterWords
    (count_type equal (operations beforeWords afterWords)).
Proof.
  unfold operations. fold m n.
  set (dp := fill_table beforeWords afterWords (m + 1) (n + 1)).
  destruct (backtrack_spec dp fill_table_table_ok m n [])
    as (i1 & j1 & pre & -> & _ & _ & _ & Hcount); [done | done |].
  destruct (remove_rest_spec i1 (pre ++ [])) as (pre1 & -> & Hpre1).
  destruct (add_rest_spec j1 (pre1 ++ pre ++ [])) as (pre2 & -> & Hpre2).
  rewrite !count_type_app, Hpre1, Hpre2, Hcount. simpl.
  replace (count_type equal []) with 0 by done.
  rewrite Nat.add_0_r.
  pose proof (fill_table_table_ok m n (le_n _) (le_n _)) as Hcell.
  unfold cell_ok in Hcell. subst dp. unfold m, n in *.
  rewrite !firstn_all in Hcell. exact Hcell.
Qed.
End backtrack.

(** ** The diff of two texts *)

Section diff_facts.
Import JS Diff.

Lemma backtrack_same (ws : list string) dp i ops :
  i ≤ length ws →
  backtrack ws ws dp i i ops = (0, 0, map (Op equal) (take i ws) ++ ops).
Proof.
  revert ops. induction i as [|i IH]; intros ops Hi.
  - by rewrite take_0.
  - rewrite backtrack_S_S, decide_True by done.
    rewrite IH by lia. rewrite (take_snoc ws i) by lia.
    by rewrite map_app, <- app_assoc.
Qed.

Lemma operations_same (ws : list string) :
  operations ws ws = map (Op equal) ws.
Proof.
  unfold operations. rewrite backtrack_same by done. simpl.
  by rewrite firstn_all, app_nil_r.
Qed.

Lemma filter_equal_ops (P : operation → Prop) `{!∀ op, Decision (P op)} (ws : list string) :
  (∀ w, P (Op equal w)) →
  filter P (map (Op equal) ws) = map (Op equal) ws.
Proof.
  intros HP. induction ws as [|w ws IH]; [done|].
  simpl. rewrite filter_cons, decide_True by apply HP. by rewrite IH.
Qed.

(** C1. For every pair of texts the number of [equal] operations of
    [diffWords] is the length of a longest common subsequence of the two
    word lists; and the diff of a text with itself has [equal] operations
    only, so that both rendered views consist of unchanged spans. *)
Theorem diffWords_equal_count_is_lcs :
  ∀ beforeText afterText : string,
    lcs_length (words beforeText) (words afterText)
      (count_type equal (diffOperations beforeText afterText)) ∧
    Forall (λ op, type op = equal) (diffOperations beforeText beforeText) ∧
    diffWords beforeText beforeText =
      {| beforeHtml := join " " (map (span "diff-unchanged") (words beforeText));
         afterHtml := join " " (map (span "diff-unchanged") (words beforeText)) |}.
Proof.
  intros beforeText afterText. split_and!.
  - apply operations_equal_count.
  - unfold diffOperations. rewrite operations_same.
    apply Forall_forall. intros op (w & -> & _)%list_elem_of_fmap. done.
  - unfold diffWords, diffOperations. rewrite operations_same.
    rewrite !filter_equal_ops by done.
    rewrite <- !list_fmap_compose. done.
Qed.

(** C5. At a cell whose two words differ and where the move up and the move
    left reach the same LCS length, the backtracking emits the
    before-word as [remove] and moves up; when this is the last cell of
    the table, that removal is the last operation of the result. The
    operations are a function of the two word lists. *)
Theorem backtrack_tie_emits_remove :
  ∀ (beforeWords afterWords : list string) (i j p : nat) (ops : list operation),
    i < length beforeWords → j < length afterWords →
    beforeWords !! i ≠ afterWords !! j →
    lcs_length (take i beforeWords) (take (S j) afterWords) p →
    lcs_length (take (S i) beforeWords) (take j afterWords) p →
    let dp := fill_table beforeWords afterWords
                (length beforeWords + 1) (length afterWords + 1) in
    cell dp i (S j) = cell dp (S i) j ∧
    backtrack beforeWords afterWords dp (S i) (S j) ops =
      backtrack beforeWords afterWords dp i (S j)
        (Op remove (word_at beforeWords i) :: ops) ∧
    (S i = length beforeWords → S j = length afterWords →
     ∃ pre, operations beforeWords afterWords =
              pre ++ [Op remove (word_at beforeWords i)]).
Proof.
  intros beforeWords afterWords i j p ops Hi Hj Hne Hup Hleft dp.
  pose proof (fill_table_table_ok beforeWords afterWords) as Hok. fold dp in Hok.
  assert (cell dp i (S j) = p) as Hcu.
  { eapply lcs_length_unique; [apply Hok; lia | done]. }
  assert (cell dp (S i) j = p) as Hcl.
  { eapply lcs_length_unique; [apply Hok; lia | done]. }
  assert (∀ ops', backtrack beforeWords afterWords dp (S i) (S j) ops' =
            backtrack beforeWords afterWords dp i (S j)
              (Op remove (word_at beforeWords i) :: ops')) as Hstep.
  { intros ops'. rewrite backtrack_S_S, decide_False by done.
    rewrite decide_True by lia. done. }
  split_and!; [congruence | apply Hstep |].
  intros Hm Hn. unfold operations. fold dp. rewrite <- Hm, <- Hn, Hstep.
  destruct (backtrack_spec beforeWords afterWords dp Hok i (S j)
              [Op remove (word_at beforeWords i)])
    as (i1 & j1 & pre & -> & _); [lia | lia |].
  destruct (remove_rest_spec beforeWords i1 (pre ++ [Op remove (word_at beforeWords i)]))
    as (pre1 & -> & _).
  destruct (add_rest_spec afterWords j1
              (pre1 ++ pre ++ [Op remove (word_at beforeWords i)]))
    as (pre2 & -> & _).
  exists (pre2 ++ pre1 ++ pre). by rewrite <- !app_assoc.
Qed.

Lemma backtrack_tie_emits_remove_witness :
  let dp := fill_table ["a"] ["b"] 2 2 in
  cell dp 0 1 = cell dp 1 0 ∧
  backtrack ["a"] ["b"] dp 1 1 [] = backtrack ["a"] ["b"] dp 0 1 [Op remove "a"] ∧
  (1 = 1 → 1 = 1 → ∃ pre, operations ["a"] ["b"] = pre ++ [Op remove "a"]).
Proof.
  apply (backtrack_tie_emits_remove ["a"] ["b"] 0 0 0 []).
  - simpl. lia.
  - simpl. lia.
  - simpl. discriminate.
  - apply lcs_length_nil_l.
  - apply lcs_length_nil_r.
Defined.
End diff_facts.

Example normalize_null : Backend.normalizeResumeJson JS.JNull = JS.Ok (JS.JObj Backend.emptyResumeJson).
Proof. reflexivity. Qed.

(** ** Evaluation without exceptions *)

Section results.
Import JS.

(** The value of an evaluation that does not throw. *)
Definition value_of {A} (d : A) (r : result A) : A :=
  match r with
  | Ok a => a
  | TypeError => d
  end.

Lemma for_each_total {A St} (body : St → A → result St) (f : St → A → St) s l :
  (∀ s x, body s x = Ok (f s x)) →
  for_each body s l = Ok (foldl f s l).
Proof.
  intros Hbody. revert s. induction l as [|x l IH]; intros s; simpl; [done|].
  rewrite Hbody. simpl. apply IH.
Qed.

Lemma for_each_total_in {A St} (body : St → A → result St) (f : St → A → St) s l :
  (∀ s x, x ∈ l → body s x = Ok (f s x)) →
  for_each body s l = Ok (foldl f s l).
Proof.
  revert s. induction l as [|x l IH]; intros s Hbody; simpl; [done|].
  rewrite Hbody by left. simpl. apply IH. intros s' y Hy. apply Hbody. by right.
Qed.

Lemma for_each_app {A St} (body : St → A → result St) s l1 l2 :
  for_each body s (l1 ++ l2) = s' ← for_each body s l1; for_each body s' l2.
Proof.
  revert s. induction l1 as [|x l1 IH]; intros s; simpl; [done|].
  destruct (body s x) as [s'|]; simpl; [apply IH | done].
Qed.

Lemma map_m_total {A B} (f : A → result B) (g : A → B) l :
  (∀ x, x ∈ l → f x = Ok (g x)) → map_m f l = Ok (map g l).
Proof.
  induction l as [|x l IH]; intros Hf; simpl; [done|].
  rewrite Hf by left. simpl. rewrite IH; [done|].
  intros y Hy. apply Hf. by right.
Qed.

Lemma get_object (v : Value) k :
  truthy v = true → get v k = Ok (prop v k).
Proof. by destruct v. Qed.

Lemma bind_Ok {A B} (a : A) (f : A → result B) : Ok a ≫= f = f a.
Proof. done. Qed.

Lemma bind_TypeError {A B} (f : A → result B) : TypeError ≫= f = TypeError.
Proof. done. Qed.
End results.

(** ** The helpers of the frontend never throw *)

Section frontend_helpers.
Import JS Frontend.

Definition point_text (point : Value) : string := value_of "" (getPointText point).
Definition point_id (point : Value) (fallbackId : string) : string :=
  value_of "" (getPointId point fallbackId).
Definition skill_label_value (entry : Value) : string * string :=
  value_of ("", "") (extractSkillLabelValue entry).
Definition skill_text (entry : Value) : string := value_of "" (skillEntryToText entry).
Definition skill_label (entry : Value) : string := value_of "" (skillEntryLabel entry).
Definition summary_id (summary : Value) : Value :=
  value_of JUndefined (getSummaryId summary).

Lemma getPointText_total point : getPointText point = Ok (point_text point).
Proof.
  unfold point_text, getPointText.
  destruct point; simpl; try done; repeat (case_match; simpl; try done).
Qed.

Lemma getPointId_total point fallbackId :
  getPointId point fallbackId = Ok (point_id point fallbackId).
Proof.
  unfold point_id, getPointId.
  destruct point; simpl; try done; repeat (case_match; simpl; try done).
Qed.

Lemma extractSkillLabelValue_total entry :
  extractSkillLabelValue entry = Ok (skill_label_value entry).
Proof.
  unfold skill_label_value, extractSkillLabelValue.
  destruct entry; simpl; try done; repeat (case_match; simpl; try done).
Qed.

Lemma skillEntryToText_total entry : skillEntryToText entry = Ok (skill_text entry).
Proof.
  unfold skill_text, skillEntryToText.
  rewrite extractSkillLabelValue_total. simpl.
  destruct (skill_label_value entry) as [label value].
  repeat (case_match; simpl; try done).
Qed.

Lemma skillEntryLabel_total entry : skillEntryLabel entry = Ok (skill_label entry).
Proof.
  unfold skill_label, skillEntryLabel.
  rewrite extractSkillLabelValue_total. simpl.
  by destruct (skill_label_value entry).
Qed.

Lemma getSummaryId_total summary : getSummaryId summary = Ok (summary_id summary).
Proof.
  unfold summary_id, getSummaryId.
  destruct summary; simpl; try done; repeat (case_match; simpl; try done).
Qed.

Lemma has_point_id_total pointId point :
  has_point_id pointId point = Ok (bool_decide (point_id point "" = pointId)).
Proof. unfold has_point_id. by rewrite getPointId_total. Qed.

Lemma find_from_total {A} (pred : A → result bool) (p : A → bool) l i :
  (∀ x, pred x = Ok (p x)) →
  find_from pred l i = Ok (value_of None (find_from pred l i)).
Proof.
  intros Hp. revert i. induction l as [|x l IH]; intros i; simpl; [done|].
  rewrite Hp. simpl. destruct (p x); [done | apply IH].
Qed.
End frontend_helpers.

(** ** The structure of the change set *)

Section change_set.
Import JS Frontend.
Variable exponent_text : Z → string.

Lemma for_each_emit {A B} (body : list B → A → result (list B)) (emit : A → list B)
    (items : list B) (l : list A) :
  (∀ items x, body items x = Ok (items ++ emit x)) →
  for_each body items l = Ok (items ++ (l ≫= emit)).
Proof.
  intros Hbody. revert items. induction l as [|x l IH]; intros items; simpl.
  - by rewrite app_nil_r.
  - rewrite Hbody. simpl. rewrite IH. by rewrite <- app_assoc.
Qed.

(** A loop whose body, when it returns, has appended what [emit] gives. *)
Lemma for_each_emitted {A B} (body : list B → A → result (list B)) (emit : A → list B)
    (items : list B) (l : list A) (items' : list B) :
  (∀ items x items', body items x = Ok items' → items' = items ++ emit x) →
  for_each body items l = Ok items' → items' = items ++ (l ≫= emit).
Proof.
  intros Hbody. revert items. induction l as [|x l IH]; intros items; simpl.
  - intros [= <-]. by rewrite app_nil_r.
  - destruct (body items x) as [items1|] eqn:Hx; [|done]. rewrite bind_Ok.
    intros Hrest%IH. apply Hbody in Hx as ->. by rewrite Hrest, <- app_assoc.
Qed.

Lemma map_m_returns {A B} (f : A → result B) (d : B) (l : list A) (ys : list B) :
  map_m f l = Ok ys → ys = map (λ x, value_of d (f x)) l.
Proof.
  revert ys. induction l as [|x l IH]; intros ys; simpl; [by intros [= <-]|].
  destruct (f x) as [y|]; [|done]. rewrite bind_Ok.
  destruct (map_m f l) as [ys'|]; [|done]. rewrite bind_Ok.
  intros [= <-]. simpl. f_equal. by apply IH.
Qed.

(** The text of a value whose conversion to a string returns. *)
Definition text_of (v : Value) : string := value_of "" (to_string exponent_text v).

Lemma to_string_returns v text : to_string exponent_text v = Ok text → text = text_of v.
Proof. unfold text_of. by intros ->. Qed.

(** The generated id of the point at [index] of entry [sectionIndex]. *)
Definition generated_point_id (prefix : string) (sectionIndex index : nat) : string :=
  prefix +:+ "-" +:+ pretty (sectionIndex + 1) +:+ "-" +:+ pretty (index + 1).

(** The identity map of a point list: what [point_map] evaluates to. *)
Definition held_points (prefix : string) (sectionIndex : nat) (points : list Value)
    : list (string * (Value * nat)) :=
  foldl (λ m '(index, point),
           map_set (point_id point (generated_point_id prefix sectionIndex index))
                   (point, index) m)
        [] (imap pair points).

Lemma point_map_total prefix sectionIndex points :
  point_map prefix sectionIndex points = Ok (held_points prefix sectionIndex points).
Proof.
  unfold point_map, held_points. apply for_each_total.
  intros m [index point]. by rewrite getPointId_total.
Qed.

(** The id under which [skill_map] files the entry at [index]:
    [(entry && entry.id) || `skill-${index + 1}`]. *)
Definition skill_id_at (index : nat) (entry : Value) : Value :=
  or_else (if truthy entry then prop entry "id" else entry)
          (JStr ("skill-" +:+ pretty (index + 1))).

(** The key of that id. *)
Definition skill_key (inAnalysis : bool) (index : nat) (entry : Value) : Key :=
  key_of inAnalysis index (skill_id_at index entry).

Definition held_skills (inAnalysis : bool) (skills : list Value)
    : list (Key * (Value * nat)) :=
  foldl (λ m '(index, entry), map_set (skill_key inAnalysis index entry) (entry, index) m)
        [] (imap pair skills).

Lemma skill_map_total inAnalysis skills :
  skill_map inAnalysis skills = Ok (held_skills inAnalysis skills).
Proof.
  unfold skill_map, held_skills. apply for_each_total.
  intros m [index entry]. unfold skill_key, skill_id_at.
  destruct (truthy entry) eqn:Hentry; [|done].
  by rewrite get_object.
Qed.

(** What one id of [orderedPointIds] contributes. *)
Definition point_emitted (make_item : string → string → string → ChangeItem)
    (resumePointMap analysisPointMap : list (string * (Value * nat)))
    (pointId : string) : list ChangeItem :=
  let before := point_text (default JUndefined (fst <$> map_get pointId resumePointMap)) in
  let after := point_text (default JUndefined (fst <$> map_get pointId analysisPointMap)) in
  if bool_decide (before = after) then [] else [make_item pointId before after].

Lemma point_change_total make_item rm am items pointId :
  point_change make_item rm am items pointId =
    Ok (items ++ point_emitted make_item rm am pointId).
Proof.
  unfold point_change, point_emitted. rewrite !getPointText_total. simpl.
  set (before := point_text _). set (after := point_text _).
  destruct (bool_decide (before = "") && bool_decide (after = "")) eqn:Hboth.
  - apply andb_true_iff in Hboth as [->%bool_decide_eq_true ->%bool_decide_eq_true].
    by rewrite bool_decide_true, app_nil_r.
  - destruct (bool_decide (before = after)); by rewrite ?app_nil_r.
Qed.

Definition points_of (entry : Value) : list Value :=
  match prop entry "points" with
  | JArr l => l
  | _ => []
  end.

(** What one job or project contributes. *)
Definition section_emitted (prefix : string)
    (make_item : string → string → string → ChangeItem)
    (sectionIndex : nat) (resumeEntry analysisEntry : Value) : list ChangeItem :=
  let rm := held_points prefix sectionIndex (points_of resumeEntry) in
  let am := held_points prefix sectionIndex (points_of analysisEntry) in
  ordered_ids rm am ≫= point_emitted make_item rm am.

Lemma section_points_total prefix make_item sectionIndex resumeEntry analysisEntry items :
  truthy resumeEntry = true → truthy analysisEntry = true →
  section_points prefix make_item sectionIndex resumeEntry analysisEntry items =
    Ok (items ++ section_emitted prefix make_item sectionIndex resumeEntry analysisEntry).
Proof.
  intros Hr Ha. unfold section_points, section_emitted, points_of.
  rewrite !get_object by done. simpl.
  rewrite !point_map_total. simpl.
  apply for_each_emit. intros items' pointId. apply point_change_total.
Qed.

(** What one key of [orderedSkillIds] contributes, when the conversion of
    its id to a string returns. *)
Definition skill_emitted (rm am : list (Key * (Value * nat)))
    (indexed : nat * Key) : list ChangeItem :=
  let beforeEntry := or_else (default JUndefined (fst <$> map_get indexed.2 rm)) JNull in
  let afterEntry := or_else (default JUndefined (fst <$> map_get indexed.2 am)) JNull in
  let beforeText := skill_text beforeEntry in
  let afterText := skill_text afterEntry in
  if bool_decide (beforeText = afterText) then []
  else
    [SkillItem ("skill:" +:+ text_of (key_value indexed.2))
       (if bool_decide (skill_label afterEntry ≠ "") then skill_label afterEntry
        else if bool_decide (skill_label beforeEntry ≠ "") then skill_label beforeEntry
        else "Skill " +:+ pretty (indexed.1 + 1))
       (key_value indexed.2) beforeText afterText].

Lemma skill_change_returns rm am items indexed items' :
  skill_change exponent_text rm am items indexed = Ok items' →
  items' = items ++ skill_emitted rm am indexed.
Proof.
  destruct indexed as [idx skillKey]. unfold skill_change, skill_emitted.
  rewrite !skillEntryToText_total. simpl.
  set (before := skill_text _). set (after := skill_text _).
  destruct (bool_decide (before = "") && bool_decide (after = "")) eqn:Hboth.
  - apply andb_true_iff in Hboth as [->%bool_decide_eq_true ->%bool_decide_eq_true].
    rewrite bool_decide_true by done. intros [= <-]. by rewrite app_nil_r.
  - destruct (bool_decide (before = after)); [intros [= <-]; by rewrite app_nil_r|].
    rewrite !skillEntryLabel_total. simpl.
    destruct (to_string exponent_text (key_value skillKey)) as [text|] eqn:Htext; [|done].
    apply to_string_returns in Htext as ->. by intros [= <-].
Qed.

End change_set.

Section change_set_result.
Import JS Frontend.
Variable exponent_text : Z → string.
Variable string_to_number : string → option Z.

Lemma or_else_truthy a b : truthy b = true → truthy (or_else a b) = true.
Proof. intros Hb. unfold or_else. by destruct (truthy a) eqn:Ha. Qed.

(** [list[index] || {}] *)
Definition entry_at (entries : Value) (sectionIndex : nat) : Value :=
  or_else (index entries sectionIndex) (JObj []).

Lemma entry_at_truthy entries sectionIndex : truthy (entry_at entries sectionIndex) = true.
Proof. by apply or_else_truthy. Qed.

(** The values that the group label of a job is joined from. *)
Definition label_values (resumeJob analysisJob : Value) : list Value :=
  filter (λ v, truthy v = true)
    [or_else (prop analysisJob "role") (prop resumeJob "role");
     or_else (prop analysisJob "company") (prop resumeJob "company")].

(** The group label of a job, when the conversion of its parts to strings
    returns. *)
Definition experience_group (resumeJob analysisJob : Value) (jobIndex : nat) : string :=
  let labelParts :=
    join middle_dot (map (text_of exponent_text) (label_values resumeJob analysisJob)) in
  if bool_decide (labelParts ≠ "") then labelParts
  else "Experience " +:+ pretty (jobIndex + 1).

Definition experience_item (resumeJob analysisJob : Value) (jobIndex : nat)
    (pointId before after : string) : ChangeItem :=
  ExperienceItem ("exp:" +:+ pretty jobIndex +:+ ":" +:+ pointId)
    (experience_group resumeJob analysisJob jobIndex) jobIndex pointId before after.

(** What the job at [jobIndex] contributes. *)
Definition experience_emitted (resumeExperience analysisExperience : Value)
    (jobIndex : nat) : list ChangeItem :=
  let resumeJob := entry_at resumeExperience jobIndex in
  let analysisJob := entry_at analysisExperience jobIndex in
  section_emitted "exp" (experience_item resumeJob analysisJob jobIndex)
    jobIndex resumeJob analysisJob.

(** The body of the loop over jobs throws when a part of the label does
    not print, and else appends the items of the job. *)
Lemma experience_step_eq resumeExperience analysisExperience items jobIndex :
  experience_step exponent_text resumeExperience analysisExperience items jobIndex =
    (_ ← map_m (to_string exponent_text)
           (label_values (entry_at resumeExperience jobIndex)
              (entry_at analysisExperience jobIndex));
     Ok (items ++ experience_emitted resumeExperience analysisExperience jobIndex)).
Proof.
  unfold experience_step, experience_emitted. fold (entry_at resumeExperience jobIndex).
  fold (entry_at analysisExperience jobIndex).
  rewrite !get_object by apply entry_at_truthy. rewrite !bind_Ok.
  fold (label_values (entry_at resumeExperience jobIndex)
          (entry_at analysisExperience jobIndex)).
  destruct (map_m _ _) as [texts|] eqn:Htexts; [|done]. rewrite !bind_Ok.
  apply (map_m_returns _ "") in Htexts as ->.
  by rewrite section_points_total by apply entry_at_truthy.
Qed.

Lemma experience_step_returns resumeExperience analysisExperience items jobIndex items' :
  experience_step exponent_text resumeExperience analysisExperience items jobIndex
    = Ok items' →
  items' = items ++ experience_emitted resumeExperience analysisExperience jobIndex.
Proof.
  rewrite experience_step_eq. destruct (map_m _ _); [|done]. by intros [= <-].
Qed.

Definition project_item (resumeProject analysisProject : Value) (projectIndex : nat)
    (pointId before after : string) : ChangeItem :=
  ProjectItem ("proj:" +:+ pretty projectIndex +:+ ":" +:+ pointId)
    (or_else (or_else (prop analysisProject "name") (prop resumeProject "name"))
             (JStr ("Project " +:+ pretty (projectIndex + 1))))
    projectIndex pointId before after.

(** What the project at [projectIndex] contributes. *)
Definition project_emitted (resumeProjects analysisProjects : Value)
    (projectIndex : nat) : list ChangeItem :=
  let resumeProject := entry_at resumeProjects projectIndex in
  let analysisProject := entry_at analysisProjects projectIndex in
  section_emitted "proj" (project_item resumeProject analysisProject projectIndex)
    projectIndex resumeProject analysisProject.

Lemma project_step_total resumeProjects analysisProjects items projectIndex :
  project_step resumeProjects analysisProjects items projectIndex =
    Ok (items ++ project_emitted resumeProjects analysisProjects projectIndex).
Proof.
  unfold project_step, project_emitted. fold (entry_at resumeProjects projectIndex).
  fold (entry_at analysisProjects projectIndex).
  rewrite !get_object by apply entry_at_truthy. simpl.
  by rewrite section_points_total by apply entry_at_truthy.
Qed.

(** The indices that the loop over two sections visits, when the
    conversion of the two lengths to numbers returns. *)
Definition visited (a b : Value) : list nat :=
  value_of [] (loop_indices exponent_text string_to_number a b).

Lemma loop_indices_returns a b l :
  loop_indices exponent_text string_to_number a b = Ok l → l = visited a b.
Proof. unfold visited. by intros ->. Qed.

Lemma visited_arrays (l1 l2 : list Value) :
  visited (JArr l1) (JArr l2) = seq 0 (length l1 `max` length l2).
Proof.
  unfold visited, loop_indices. simpl. f_equal. lia.
Qed.

(** [doc.key || []] *)
Definition section_of (doc : Value) (key : string) : Value :=
  or_else (prop doc key) (JArr []).

Definition skills_of (doc : Value) : list Value :=
  match prop doc "skills" with
  | JArr l => l
  | _ => []
  end.

(** The id of the summary item. *)
Definition summary_item_id (resumeSummary analysisSummary : Value) : Value :=
  let analysisId := summary_id analysisSummary in
  if truthy analysisId then analysisId else summary_id resumeSummary.

(** What the summary block contributes, when the conversion of the id to
    a string returns. *)
Definition summary_emitted (resumeJson analysisJson : Value) : list ChangeItem :=
  let summaryBefore := getSummaryText (prop resumeJson "summary") in
  let summaryAfter := getSummaryText (prop analysisJson "summary") in
  if truthy summaryAfter && negb (strict_equal_apart summaryAfter summaryBefore) then
    let summaryId :=
      summary_item_id (prop resumeJson "summary") (prop analysisJson "summary") in
    [SummaryItem ("summary:" +:+ text_of exponent_text summaryId)
       summaryBefore summaryAfter summaryId]
  else [].

Definition skills_emitted (resumeJson analysisJson : Value) : list ChangeItem :=
  let rm := held_skills false (skills_of resumeJson) in
  let am := held_skills true (skills_of analysisJson) in
  imap pair (ordered_ids rm am) ≫= skill_emitted exponent_text rm am.

Definition experiences_emitted (resumeJson analysisJson : Value) : list ChangeItem :=
  let resumeExperience := section_of resumeJson "experience" in
  let analysisExperience := section_of analysisJson "experience" in
  visited resumeExperience analysisExperience ≫=
    experience_emitted resumeExperience analysisExperience.

Definition projects_emitted (resumeJson analysisJson : Value) : list ChangeItem :=
  let resumeProjects := section_of resumeJson "projects" in
  let analysisProjects := section_of analysisJson "projects" in
  visited resumeProjects analysisProjects ≫=
    project_emitted resumeProjects analysisProjects.

Lemma summary_change_returns resumeJson analysisJson items items' :
  summary_change exponent_text (prop resumeJson "summary") (prop analysisJson "summary") items
    = Ok items' →
  items' = items ++ summary_emitted resumeJson analysisJson.
Proof.
  unfold summary_change, summary_emitted, summary_item_id. cbv zeta.
  case_match; [|intros [= <-]; by rewrite app_nil_r].
  rewrite !getSummaryId_total, !bind_Ok.
  assert (∀ v, (if truthy (summary_id (prop analysisJson "summary"))
                then mret (summary_id (prop analysisJson "summary"))
                else Ok v) =
               Ok (if truthy (summary_id (prop analysisJson "summary"))
                   then summary_id (prop analysisJson "summary") else v)) as ->.
  { intros v. by case_match. }
  rewrite bind_Ok.
  destruct (to_string exponent_text _) as [text|] eqn:Htext; [|done].
  apply to_string_returns in Htext as ->. by intros [= <-].
Qed.

(** With both documents present, what [buildChangeItems] returns is the
    concatenation of the four parts, in this order. *)
Lemma buildChangeItems_returns resumeJson analysisJson items :
  truthy resumeJson = true → truthy analysisJson = true →
  buildChangeItems exponent_text string_to_number resumeJson analysisJson = Ok items →
  items = summary_emitted resumeJson analysisJson ++
          skills_emitted resumeJson analysisJson ++
          experiences_emitted resumeJson analysisJson ++
          projects_emitted resumeJson analysisJson.
Proof.
  intros Hr Ha. unfold buildChangeItems. rewrite Hr, Ha. cbn [negb orb].
  rewrite !get_object by done. repeat (rewrite bind_Ok; cbv beta zeta).
  destruct (summary_change _ _ _ _) as [items1|] eqn:H1; [|done].
  apply summary_change_returns in H1. rewrite app_nil_l in H1. subst items1.
  repeat (rewrite bind_Ok; cbv beta zeta).
  fold (skills_of resumeJson). fold (skills_of analysisJson).
  rewrite (skill_map_total false). repeat (rewrite bind_Ok; cbv beta zeta).
  rewrite (skill_map_total true). repeat (rewrite bind_Ok; cbv beta zeta).
  destruct (for_each (skill_change _ _ _) _ _) as [items2|] eqn:H2; [|done].
  apply (for_each_emitted _ (skill_emitted exponent_text
                               (held_skills false (skills_of resumeJson))
                               (held_skills true (skills_of analysisJson)))) in H2;
    [|intros ? ? ?; apply skill_change_returns].
  repeat (rewrite bind_Ok; cbv beta zeta).
  fold (section_of resumeJson "experience"). fold (section_of analysisJson "experience").
  destruct (loop_indices _ _ (section_of resumeJson "experience") _) as [jobs|] eqn:H3;
    [|done].
  apply loop_indices_returns in H3 as ->. repeat (rewrite bind_Ok; cbv beta zeta).
  destruct (for_each (experience_step _ _ _) _ _) as [items3|] eqn:H4; [|done].
  apply (for_each_emitted _ (experience_emitted (section_of resumeJson "experience")
                               (section_of analysisJson "experience"))) in H4;
    [|intros ? ? ?; apply experience_step_returns].
  repeat (rewrite bind_Ok; cbv beta zeta).
  fold (section_of resumeJson "projects"). fold (section_of analysisJson "projects").
  destruct (loop_indices _ _ (section_of resumeJson "projects") _) as [projects|] eqn:H5;
    [|done].
  apply loop_indices_returns in H5 as ->. repeat (rewrite bind_Ok; cbv beta zeta).
  rewrite (for_each_emit _ (project_emitted (section_of resumeJson "projects")
                              (section_of analysisJson "projects")))
    by apply project_step_total.
  intros [= <-]. subst items3 items2.
  unfold skills_emitted, experiences_emitted, projects_emitted.
  by rewrite <- !app_assoc.
Qed.

Lemma buildChangeItems_absent resumeJson analysisJson :
  truthy resumeJson = false ∨ truthy analysisJson = false →
  buildChangeItems exponent_text string_to_number resumeJson analysisJson = Ok [].
Proof.
  intros [H|H]; unfold buildChangeItems; rewrite H; simpl; [done|].
  by rewrite orb_true_r.
Qed.

(** What [buildChangeItems] returns, on any two values. *)
Definition change_set (resumeJson analysisJson : Value) : list ChangeItem :=
  if truthy resumeJson && truthy analysisJson then
    summary_emitted resumeJson analysisJson ++
    skills_emitted resumeJson analysisJson ++
    experiences_emitted resumeJson analysisJson ++
    projects_emitted resumeJson analysisJson
  else [].

Lemma buildChangeItems_change_set resumeJson analysisJson items :
  buildChangeItems exponent_text string_to_number resumeJson analysisJson = Ok items →
  items = change_set resumeJson analysisJson.
Proof.
  unfold change_set.
  destruct (truthy resumeJson) eqn:Hr; [destruct (truthy analysisJson) eqn:Ha|].
  - by apply buildChangeItems_returns.
  - rewrite buildChangeItems_absent by (by right). by intros [= <-].
  - rewrite buildChangeItems_absent by (by left). by intros [= <-].
Qed.
End change_set_result.

(** ** Insertion-ordered maps *)

Section js_map_facts.
Import JS.
Context {K V : Type} `{EqDecision K}.
Implicit Types (m : list (K * V)) (k : K) (v : V).

Lemma map_get_set_eq k v m : map_get k (map_set k v m) = Some v.
Proof.
  induction m as [|[k' v'] m IH]; simpl.
  - by rewrite decide_True.
  - destruct (decide (k' = k)) as [->|Hne]; simpl.
    + by rewrite decide_True.
    + by rewrite decide_False.
Qed.

Lemma map_get_set_ne k k' v m : k ≠ k' → map_get k (map_set k' v m) = map_get k m.
Proof.
  intros Hne. induction m as [|[k'' v''] m IH]; simpl.
  - by rewrite decide_False.
  - destruct (decide (k'' = k')) as [->|Hne']; simpl.
    + by rewrite !decide_False by done.
    + destruct (decide (k'' = k)); [done | apply IH].
Qed.

Lemma map_keys_get k m : k ∈ map_keys m ↔ is_Some (map_get k m).
Proof.
  unfold map_keys. induction m as [|[k' v'] m IH]; simpl.
  - split; [by intros ?%elem_of_nil | by intros [? ?]].
  - rewrite elem_of_cons, IH. destruct (decide (k' = k)) as [->|Hne].
    + split; [by eauto | by left].
    + split; [intros [?|?]; [congruence | done] | by right].
Qed.

Lemma map_keys_set k v m :
  map_keys (map_set k v m) =
    if decide (k ∈ map_keys m) then map_keys m else map_keys m ++ [k].
Proof.
  unfold map_keys. induction m as [|[k' v'] m IH].
  - by rewrite decide_False by apply not_elem_of_nil.
  - cbn [map_set]. destruct (decide (k' = k)) as [->|Hne]; rewrite !fmap_cons; cbn [fst].
    + rewrite decide_True by left. done.
    + rewrite IH. destruct (decide (k ∈ m.*1)) as [Hin|Hnin].
      * by rewrite decide_True by by right.
      * rewrite decide_False; [done|].
        intros [?|?]%elem_of_cons; [congruence | done].
Qed.

Lemma map_keys_set_NoDup k v m : NoDup (map_keys m) → NoDup (map_keys (map_set k v m)).
Proof.
  intros Hm. rewrite map_keys_set. case_decide as Hin; [done|].
  apply NoDup_app. split_and!; [done | | apply NoDup_singleton].
  intros x Hx ->%list_elem_of_singleton. done.
Qed.

(** Maps that a loop fills with one [set] per element. *)
Section filled.
Context {A : Type} (key : A → K) (val : A → V).

Definition filled_map (m : list (K * V)) (l : list A) : list (K * V) :=
  foldl (λ m x, map_set (key x) (val x) m) m l.

Lemma filled_map_NoDup m l :
  NoDup (map_keys m) → NoDup (map_keys (filled_map m l)).
Proof.
  revert m. induction l as [|x l IH]; intros m Hm; simpl; [done|].
  by apply IH, map_keys_set_NoDup.
Qed.

(** The value held under a key is that of the last element with the key. *)
Lemma filled_map_get m l k :
  map_get k (filled_map m l) =
    match last (filter (λ x, key x = k) l) with
    | Some x => Some (val x)
    | None => map_get k m
    end.
Proof.
  revert m. induction l as [|x l IH]; intros m; simpl; [done|].
  rewrite IH, filter_cons. destruct (decide (key x = k)) as [<-|Hne].
  - rewrite last_cons. destruct (last (filter _ l)); [done|].
    by rewrite map_get_set_eq.
  - destruct (last (filter _ l)); [done|].
    by apply map_get_set_ne.
Qed.

Lemma filled_map_get_elem l k v :
  map_get k (filled_map [] l) = Some v → ∃ x, x ∈ l ∧ key x = k ∧ val x = v.
Proof.
  rewrite filled_map_get. destruct (last _) as [x|] eqn:Hlast; [|done].
  intros [= <-]. apply last_Some_elem_of in Hlast.
  apply list_elem_of_filter in Hlast as [? ?]. eauto.
Qed.
End filled.
End js_map_facts.

(** ** Which items a change set holds *)

Section change_set_members.
Import JS Frontend.
Variable exponent_text : Z → string.
Variable string_to_number : string → option Z.

Lemma held_points_filled prefix sectionIndex points :
  held_points prefix sectionIndex points =
    filled_map (λ x : nat * Value,
                  point_id x.2 (generated_point_id prefix sectionIndex x.1))
               (λ x : nat * Value, (x.2, x.1)) [] (imap pair points).
Proof.
  unfold held_points, filled_map. generalize (imap pair points).
  generalize (@nil (string * (Value * nat))).
  intros m l. revert m. induction l as [|[i p] l IH]; intros m; simpl; [done|].
  apply IH.
Qed.

Lemma held_skills_filled inAnalysis skills :
  held_skills inAnalysis skills =
    filled_map (λ x : nat * Value, skill_key inAnalysis x.1 x.2)
               (λ x : nat * Value, (x.2, x.1)) [] (imap pair skills).
Proof.
  unfold held_skills, filled_map. generalize (imap pair skills).
  generalize (@nil (Key * (Value * nat))).
  intros m l. revert m. induction l as [|[i p] l IH]; intros m; simpl; [done|].
  apply IH.
Qed.

Lemma held_skills_get inAnalysis skills k e i :
  map_get k (held_skills inAnalysis skills) = Some (e, i) →
  skills !! i = Some e ∧ skill_key inAnalysis i e = k.
Proof.
  rewrite held_skills_filled. intros ([i' e'] & Hin & Hkey & [= -> ->])%filled_map_get_elem.
  apply elem_of_lookup_imap in Hin as (j & y & [= -> ->] & Hy). done.
Qed.

Lemma held_points_get prefix sectionIndex points k p i :
  map_get k (held_points prefix sectionIndex points) = Some (p, i) →
  points !! i = Some p ∧ point_id p (generated_point_id prefix sectionIndex i) = k.
Proof.
  rewrite held_points_filled. intros ([i' e'] & Hin & Hkey & [= -> ->])%filled_map_get_elem.
  apply elem_of_lookup_imap in Hin as (j & y & [= -> ->] & Hy). done.
Qed.

Lemma held_points_NoDup prefix sectionIndex points :
  NoDup (map_keys (held_points prefix sectionIndex points)).
Proof. rewrite held_points_filled. apply filled_map_NoDup. constructor. Qed.

Lemma held_skills_NoDup inAnalysis skills :
  NoDup (map_keys (held_skills inAnalysis skills)).
Proof. rewrite held_skills_filled. apply filled_map_NoDup. constructor. Qed.

Lemma ordered_ids_NoDup {K V} `{EqDecision K} (rm am : list (K * V)) :
  NoDup (map_keys rm) → NoDup (map_keys am) → NoDup (ordered_ids rm am).
Proof.
  intros Hrm Ham. unfold ordered_ids. apply NoDup_app. split_and!.
  - done.
  - intros k Hk [Hhas _]%list_elem_of_filter.
    apply map_keys_get in Hk. unfold map_has in Hhas.
    by rewrite bool_decide_true in Hhas.
  - by apply NoDup_filter.
Qed.

(** The point that a job or project holds under [pointId]: the last of its
    points that carries this id, as its own or as the one generated for its
    place. *)
Definition last_point (prefix : string) (sectionIndex : nat) (pointId : string)
    (points : list Value) : option Value :=
  snd <$> last (filter (λ x : nat * Value,
                          point_id x.2 (generated_point_id prefix sectionIndex x.1) = pointId)
                       (imap pair points)).

(** The skill entry that a document holds under [skillId]: the last of its
    entries that carries this id, as its own or as the one generated for its
    place. *)
Definition last_skill (skillId : Value) (skills : list Value) : option Value :=
  snd <$> last (filter (λ x : nat * Value, skill_id_at x.1 x.2 = skillId) (imap pair skills)).

Lemma held_points_last prefix sectionIndex points pointId :
  fst <$> map_get pointId (held_points prefix sectionIndex points) =
    last_point prefix sectionIndex pointId points.
Proof.
  rewrite held_points_filled, filled_map_get. unfold last_point.
  by destruct (last _) as [[i p]|].
Qed.

Lemma key_of_primitive inAnalysis index id skillId :
  is_primitive skillId = true →
  key_of inAnalysis index id = ByValue skillId ↔ id = skillId.
Proof.
  intros Hp. unfold key_of. destruct (is_primitive id) eqn:Hid.
  - split; [by intros [= ->] | by intros ->].
  - split; [done | intros ->; congruence].
Qed.

Lemma held_skills_last inAnalysis skills skillId :
  is_primitive skillId = true →
  fst <$> map_get (ByValue skillId) (held_skills inAnalysis skills) =
    last_skill skillId skills.
Proof.
  intros Hp. rewrite held_skills_filled, filled_map_get. unfold last_skill.
  assert (filter (λ x : nat * Value, skill_key inAnalysis x.1 x.2 = ByValue skillId)
            (imap pair skills) =
          filter (λ x : nat * Value, skill_id_at x.1 x.2 = skillId) (imap pair skills)) as ->.
  { apply list_filter_iff. intros [i e]. by apply key_of_primitive. }
  by destruct (last _) as [[i p]|].
Qed.

Lemma key_of_value inAnalysis index id : key_value (key_of inAnalysis index id) = id.
Proof. unfold key_of. by destruct (is_primitive id). Qed.

(** Every key of [orderedSkillIds] is the key of a skill entry of one of
    the two documents. *)
Lemma ordered_skill_key resumeSkills analysisSkills idx k :
  (idx, k) ∈ imap pair (ordered_ids (held_skills false resumeSkills)
                          (held_skills true analysisSkills)) →
  ∃ inAnalysis i e,
    (if inAnalysis : bool then analysisSkills else resumeSkills) !! i = Some e ∧
    k = skill_key inAnalysis i e.
Proof.
  intros (j & y & [= -> ->] & Hy)%elem_of_lookup_imap.
  apply list_elem_of_lookup_2 in Hy. unfold ordered_ids in Hy.
  apply elem_of_app in Hy as [Hy|[_ Hy]%list_elem_of_filter];
    apply map_keys_get in Hy as [[e i] Hget];
    apply held_skills_get in Hget as [Hi <-]; [exists false | exists true]; eauto.
Qed.

(** The section and the ids of an item. *)
Definition is_skill_item (skillId : Value) (item : ChangeItem) : Prop :=
  match item with
  | SkillItem _ _ skillId' _ _ => skillId' = skillId
  | _ => False
  end.

Definition is_experience_item (jobIndex : nat) (pointId : string) (item : ChangeItem) : Prop :=
  match item with
  | ExperienceItem _ _ jobIndex' pointId' _ _ => jobIndex' = jobIndex ∧ pointId' = pointId
  | _ => False
  end.

Global Instance is_skill_item_dec skillId item : Decision (is_skill_item skillId item).
Proof. destruct item; simpl; apply _. Defined.

Global Instance is_experience_item_dec jobIndex pointId item :
  Decision (is_experience_item jobIndex pointId item).
Proof. destruct item; simpl; apply _. Defined.

Lemma summary_emitted_summary resumeJson analysisJson item :
  item ∈ summary_emitted exponent_text resumeJson analysisJson →
  ∃ id before after summaryId, item = SummaryItem id before after summaryId.
Proof.
  unfold summary_emitted. case_match; [|by intros ?%elem_of_nil].
  intros ->%list_elem_of_singleton. eauto.
Qed.

Lemma skill_emitted_inv rm am indexed item :
  item ∈ skill_emitted exponent_text rm am indexed →
  ∃ id title before after,
    item = SkillItem id title (key_value indexed.2) before after ∧
    before = skill_text (or_else (default JUndefined (fst <$> map_get indexed.2 rm)) JNull) ∧
    after = skill_text (or_else (default JUndefined (fst <$> map_get indexed.2 am)) JNull) ∧
    before ≠ after.
Proof.
  unfold skill_emitted. case_bool_decide as Hne; [by intros ?%elem_of_nil|].
  intros ->%list_elem_of_singleton. eauto 10.
Qed.

Lemma section_emitted_inv prefix make_item sectionIndex resumeEntry analysisEntry item :
  item ∈ section_emitted prefix make_item sectionIndex resumeEntry analysisEntry →
  ∃ pointId before after, item = make_item pointId before after.
Proof.
  unfold section_emitted. intros (k & Hitem & _)%list_elem_of_bind.
  unfold point_emitted in Hitem. case_bool_decide; [by apply elem_of_nil in Hitem|].
  apply list_elem_of_singleton in Hitem. eauto.
Qed.

Lemma experiences_emitted_inv resumeJson analysisJson item :
  item ∈ experiences_emitted exponent_text string_to_number resumeJson analysisJson →
  ∃ id group jobIndex pointId before after,
    item = ExperienceItem id group jobIndex pointId before after.
Proof.
  unfold experiences_emitted. intros (j & Hitem & _)%list_elem_of_bind.
  unfold experience_emitted in Hitem.
  apply section_emitted_inv in Hitem as (k & b & a & ->).
  unfold experience_item. eauto 10.
Qed.

Lemma projects_emitted_inv resumeJson analysisJson item :
  item ∈ projects_emitted exponent_text string_to_number resumeJson analysisJson →
  ∃ id group projectIndex pointId before after,
    item = ProjectItem id group projectIndex pointId before after.
Proof.
  unfold projects_emitted. intros (j & Hitem & _)%list_elem_of_bind.
  unfold project_emitted in Hitem.
  apply section_emitted_inv in Hitem as (k & b & a & ->).
  unfold project_item. eauto 10.
Qed.
End change_set_members.

(** ** Skill entries without content *)

Section skills_without_content.
Import JS Backend Frontend Analysis.

(** An entry that is not an object, or whose only key is ['id']. *)
Definition without_content (entry : Value) : Prop :=
  truthy entry && typeof_object entry = false ∨ keys entry = ["id"].

Lemma only_id_key entry : keys entry = ["id"] → ∃ v, entry = JObj [("id", v)].
Proof.
  unfold keys. destruct entry as [| | | |s|items|props]; simpl; try done.
  - destruct s as [|c [|c' s]]; simpl; [done | by vm_compute | done].
  - destruct items as [|x [|y items]]; simpl; [done | by vm_compute | done].
  - destruct props as [|[k v] [|kv props]]; simpl; [done | | done].
    intros [= ->]. eauto.
Qed.

Lemma skill_text_without_content entry : without_content entry → skill_text entry = "".
Proof.
  unfold skill_text, skillEntryToText, extractSkillLabelValue.
  intros [Hno|(v & ->)%only_id_key].
  - by destruct (truthy entry), (typeof_object entry).
  - done.
Qed.

Lemma skill_text_held inAnalysis skills skillId :
  is_primitive skillId = true →
  (∀ e, last_skill skillId skills = Some e → without_content e) →
  skill_text (or_else (default JUndefined
                         (fst <$> map_get (ByValue skillId) (held_skills inAnalysis skills)))
                      JNull) = "".
Proof.
  intros Hp Hall. rewrite held_skills_last by done.
  destruct (last_skill skillId skills) as [e|] eqn:Hlast; simpl; [|done].
  unfold or_else. destruct (truthy e); [|done].
  apply skill_text_without_content. eauto.
Qed.

(** C10, as the code has it. The [label: value] text of a skill entry
    that is not an object, or whose only key is ['id'], is the empty
    string. A document holds under an id the last of its entries that
    carries it; when, for an id that is a primitive value, the entry that
    each of the two documents holds under it (if any) is of this kind,
    what [buildChangeItems] returns has no skill item for that id. *)
Theorem skill_without_content_emits_nothing :
  ∀ (exponent_text : Z → string) (string_to_number : string → option Z)
    (entry resumeJson analysisJson skillId : Value) (items : list ChangeItem),
    without_content entry →
    is_primitive skillId = true →
    (∀ e, last_skill skillId (skills_of resumeJson) = Some e → without_content e) →
    (∀ e, last_skill skillId (skills_of analysisJson) = Some e → without_content e) →
    buildChangeItems exponent_text string_to_number resumeJson analysisJson = Ok items →
    skillEntryToText entry = Ok "" ∧
    Forall (λ item, ¬ is_skill_item skillId item) items.
Proof.
  intros et stn entry resumeJson analysisJson skillId items Hentry Hp Hresume Hanalysis
    Hitems. split.
  { rewrite skillEntryToText_total. f_equal. by apply skill_text_without_content. }
  apply buildChangeItems_change_set in Hitems as ->. unfold change_set.
  destruct (truthy resumeJson && truthy analysisJson); [|constructor].
  rewrite !Forall_app. split_and!; apply Forall_forall; intros item Hitem.
  - apply summary_emitted_summary in Hitem as (? & ? & ? & ? & ->). simpl. tauto.
  - unfold skills_emitted in Hitem.
    apply list_elem_of_bind in Hitem as ([idx k] & Hitem & Hin).
    apply skill_emitted_inv in Hitem as (id & title & b & a & -> & Hb & Ha' & Hne).
    simpl in *. intros Hk. apply Hne.
    apply ordered_skill_key in Hin as (inAnalysis & i & e & _ & ->).
    unfold skill_key in Hk, Hb, Ha'. rewrite key_of_value in Hk.
    rewrite (proj2 (key_of_primitive inAnalysis i _ skillId Hp) Hk) in Hb, Ha'.
    by rewrite Hb, Ha', !skill_text_held.
  - apply experiences_emitted_inv in Hitem as (? & ? & ? & ? & ? & ? & ->). simpl. tauto.
  - apply projects_emitted_inv in Hitem as (? & ? & ? & ? & ? & ? & ->). simpl. tauto.
Qed.

Lemma skill_without_content_emits_nothing_witness :
  let resumeJson :=
    JObj [("skills", JArr [JObj [("id", JStr "skill-1")];
                           JObj [("id", JStr "skill-2"); ("Tools", JStr "Git")]])] in
  let analysisJson :=
    JObj [("skills", JArr [JObj [("id", JStr "skill-2"); ("Tools", JStr "Git, Jira")];
                           JObj [("id", JStr "skill-1")]])] in
  let items := [SkillItem "skill:skill-2" "Tools" (JStr "skill-2") "Tools: Git"
                  "Tools: Git, Jira"] in
  buildChangeItems (λ _, "") (λ _, None) resumeJson analysisJson = Ok items ∧
  skillEntryToText (JStr "React") = Ok "" ∧
  Forall (λ item, ¬ is_skill_item (JStr "skill-1") item) items.
Proof.
  intros resumeJson analysisJson items.
  assert (buildChangeItems (λ _, "") (λ _, None) resumeJson analysisJson = Ok items)
    as Hitems by (vm_compute; reflexivity).
  split; [done|].
  apply (skill_without_content_emits_nothing (λ _, "") (λ _, None) (JStr "React")
           resumeJson analysisJson (JStr "skill-1") items); [by left | done | | | done].
  - vm_compute. intros e [= <-]. by right.
  - vm_compute. intros e [= <-]. by right.
Defined.

(** C10, as stated, fails when an id is carried twice: the analysis that
    [normalizeAnalysisJson] returns for an optimizer output with two skill
    entries of id [s] holds both, the résumé and the analysis each have an
    entry [{ id: 's' }] whose only key is the id, and yet the change set has
    a skill item for [s], because the map of the analysis holds the last
    entry of that id. *)
Lemma skill_without_content_next_to_twin :
  let raw := JObj [("skills", JArr [JObj [("id", JStr "s")]])] in
  let input := JObj [("skills", JArr [JObj [("id", JStr "s")];
                                      JObj [("id", JStr "s"); ("Tools", JStr "Git")]])] in
  ∃ resumeJson analysisJson,
    normalizeResumeJson raw = Ok resumeJson ∧
    normalizeAnalysisJson (λ _, "") input resumeJson = Ok analysisJson ∧
    skills_of resumeJson !! 0 = Some (JObj [("id", JStr "s")]) ∧
    skills_of analysisJson !! 0 = Some (JObj [("id", JStr "s")]) ∧
    without_content (JObj [("id", JStr "s")]) ∧
    buildChangeItems (λ _, "") (λ _, None) resumeJson analysisJson =
      Ok [SkillItem "skill:s" "Tools" (JStr "s") "" "Tools: Git"].
Proof.
  intros raw input.
  exists (value_of JNull (normalizeResumeJson raw)),
    (value_of JNull (normalizeAnalysisJson (λ _, "") input
                       (value_of JNull (normalizeResumeJson raw)))).
  split_and!; try (vm_compute; reflexivity). by right.
Qed.
End skills_without_content.

(** ** Alignment of points by id *)

Section alignment.
Import JS Backend Frontend Analysis.

Lemma filter_none {A} (P : A → Prop) `{!∀ x, Decision (P x)} (l : list A) :
  (∀ x, x ∈ l → ¬ P x) → filter P l = [].
Proof.
  induction l as [|x l IH]; intros Hl; [done|].
  rewrite filter_cons, decide_False by (apply Hl; by left).
  apply IH. intros y Hy. apply Hl. by right.
Qed.

Lemma filter_all {A} (P : A → Prop) `{!∀ x, Decision (P x)} (l : list A) :
  (∀ x, x ∈ l → P x) → filter P l = l.
Proof.
  induction l as [|x l IH]; intros Hl; [done|].
  rewrite filter_cons, decide_True by (apply Hl; by left).
  f_equal. apply IH. intros y Hy. apply Hl. by right.
Qed.

(** Among the contributions of distinct keys, only that of [k0] can pass
    a filter that the contributions of all other keys fail. *)
Lemma filter_bind_only {K A} (P : A → Prop) `{!∀ x, Decision (P x)}
    (f : K → list A) (l : list K) (k0 : K) :
  NoDup l → k0 ∈ l →
  (∀ k x, k ∈ l → k ≠ k0 → x ∈ f k → ¬ P x) →
  filter P (l ≫= f) = filter P (f k0).
Proof.
  induction l as [|k l IH]; intros Hnd Hin Hother; [by apply elem_of_nil in Hin|].
  apply NoDup_cons in Hnd as [Hk Hnd]. rewrite bind_cons, filter_app.
  apply elem_of_cons in Hin as [->|Hin].
  - rewrite (filter_none P (l ≫= f)); [by rewrite app_nil_r|].
    intros x (k' & Hx & Hk')%list_elem_of_bind.
    apply (Hother k'); [by right | by intros -> | done].
  - rewrite (filter_none P (f k)).
    + simpl. apply IH; [done | done |].
      intros k' x Hk' Hne. apply Hother; [by right | done].
    + intros x Hx. apply (Hother k); [by left | by intros -> | done].
Qed.

Lemma points_of_truthy entry : points_of entry ≠ [] → truthy entry = true.
Proof.
  unfold points_of. destruct entry as [| | | |s| |]; simpl; try done.
  destruct s as [|c s]; [done|]. intros _. by apply bool_decide_eq_true_2.
Qed.

Lemma last_point_nonempty prefix sectionIndex pointId points p :
  last_point prefix sectionIndex pointId points = Some p → points ≠ [].
Proof. by intros Hlast ->. Qed.

Lemma prop_array_truthy doc key l : prop doc key = JArr l → truthy doc = true.
Proof.
  destruct doc as [| |b|n|s|items|props]; try done; unfold prop; simpl.
  all: try (intros _; reflexivity).
  case_decide; [done|]. destruct s; [done|]. intros _. by apply bool_decide_eq_true_2.
Qed.

(** C3, as the code has it. A job holds under an id the last of its
    points that carries it. If that point is [p] in the original's job and
    [q] in the candidate's job at the same index, wherever the two stand in
    their lists, then what [buildChangeItems] returns has exactly one
    experience item for this job and id, with the texts of [p] and [q],
    when the texts differ and are not both empty, and none otherwise. *)
Theorem same_id_points_align :
  ∀ (exponent_text : Z → string) (string_to_number : string → option Z)
    (resumeJson analysisJson : Value)
    (resumeJobs analysisJobs : list Value) (jobIndex : nat)
    (resumeJob analysisJob : Value) (pointId : string) (p q : Value)
    (items : list ChangeItem),
    prop resumeJson "experience" = JArr resumeJobs →
    prop analysisJson "experience" = JArr analysisJobs →
    resumeJobs !! jobIndex = Some resumeJob →
    analysisJobs !! jobIndex = Some analysisJob →
    last_point "exp" jobIndex pointId (points_of resumeJob) = Some p →
    last_point "exp" jobIndex pointId (points_of analysisJob) = Some q →
    buildChangeItems exponent_text string_to_number resumeJson analysisJson = Ok items →
    filter (is_experience_item jobIndex pointId) items =
      if decide (point_text p ≠ point_text q ∧
                 ¬ (point_text p = "" ∧ point_text q = ""))
      then [ExperienceItem ("exp:" +:+ pretty jobIndex +:+ ":" +:+ pointId)
              (experience_group exponent_text resumeJob analysisJob jobIndex)
              jobIndex pointId (point_text p) (point_text q)]
      else [].
Proof.
  intros et stn resumeJson analysisJson resumeJobs analysisJobs jobIndex resumeJob analysisJob
    pointId p q items Hrexp Haexp Hrjob Hajob Hp Hq Hitems.
  apply buildChangeItems_returns in Hitems as ->; [|by eapply prop_array_truthy..].
  rewrite !filter_app.
  rewrite (filter_none _ (summary_emitted _ _ _)); [|intros item Hitem].
  2: { apply summary_emitted_summary in Hitem as (? & ? & ? & ? & ->). simpl. tauto. }
  rewrite (filter_none _ (skills_emitted _ _ _)); [|intros item Hitem].
  2: { apply list_elem_of_bind in Hitem as (? & Hitem & _).
       apply skill_emitted_inv in Hitem as (? & ? & ? & ? & -> & _). simpl. tauto. }
  rewrite (filter_none _ (projects_emitted _ _ _ _)); [|intros item Hitem].
  2: { apply projects_emitted_inv in Hitem as (? & ? & ? & ? & ? & ? & ->). simpl. tauto. }
  simpl. rewrite app_nil_r.
  unfold experiences_emitted, section_of. rewrite Hrexp, Haexp.
  change (or_else (JArr resumeJobs) (JArr [])) with (JArr resumeJobs).
  change (or_else (JArr analysisJobs) (JArr [])) with (JArr analysisJobs).
  rewrite visited_arrays.
  rewrite (filter_bind_only _ _ _ jobIndex).
  2: { apply NoDup_seq. }
  2: { apply elem_of_seq. apply lookup_lt_Some in Hrjob. lia. }
  2: { intros j item _ Hj Hitem. unfold experience_emitted in Hitem.
       apply section_emitted_inv in Hitem as (? & ? & ? & ->). simpl.
       intros [? ?]. congruence. }
  assert (entry_at (JArr resumeJobs) jobIndex = resumeJob) as Hrentry.
  { unfold entry_at, index, at_index, or_else. rewrite Hrjob. simpl.
    rewrite points_of_truthy; [done|]. by eapply last_point_nonempty. }
  assert (entry_at (JArr analysisJobs) jobIndex = analysisJob) as Haentry.
  { unfold entry_at, index, at_index, or_else. rewrite Hajob. simpl.
    rewrite points_of_truthy; [done|]. by eapply last_point_nonempty. }
  unfold experience_emitted. rewrite Hrentry, Haentry. unfold section_emitted.
  rewrite (filter_bind_only _ _ _ pointId).
  2: { apply ordered_ids_NoDup; apply held_points_NoDup. }
  2: { unfold ordered_ids. apply elem_of_app. left. apply map_keys_get.
       apply fmap_is_Some with (f := fst). by rewrite held_points_last, Hp. }
  2: { intros k item _ Hk Hitem. unfold point_emitted in Hitem.
       case_bool_decide; [by apply elem_of_nil in Hitem|].
       apply list_elem_of_singleton in Hitem as ->. simpl.
       intros [? ?]. congruence. }
  unfold point_emitted. rewrite !held_points_last, Hp, Hq. simpl.
  case_bool_decide as Heq.
  - rewrite decide_False; [done | intros [Hne _]; done].
  - rewrite decide_True.
    + rewrite filter_cons, decide_True by (split; reflexivity). reflexivity.
    + split; [done|]. intros [H1 H2]. apply Heq. congruence.
Qed.

Lemma same_id_points_align_witness :
  let point id text := JObj [("id", JStr id); ("text", JStr text)] in
  let resumeJob :=
    JObj [("role", JStr "Engineer");
          ("points", JArr [point "exp-1-1" "Built UI components";
                           point "exp-1-2" "Wrote tests"])] in
  let analysisJob :=
    JObj [("role", JStr "Engineer");
          ("points", JArr [point "exp-1-3" "Led releases";
                           point "exp-1-2" "Wrote tests";
                           point "exp-1-1" "Built reusable UI components in React"])] in
  let items :=
    [ExperienceItem "exp:0:exp-1-1" "Engineer" 0 "exp-1-1" "Built UI components"
       "Built reusable UI components in React";
     ExperienceItem "exp:0:exp-1-3" "Engineer" 0 "exp-1-3" "" "Led releases"] in
  buildChangeItems (λ _, "") (λ _, None)
    (JObj [("experience", JArr [resumeJob])])
    (JObj [("experience", JArr [analysisJob])]) = Ok items ∧
  filter (is_experience_item 0 "exp-1-1") items =
    [ExperienceItem "exp:0:exp-1-1" "Engineer" 0 "exp-1-1" "Built UI components"
       "Built reusable UI components in React"].
Proof.
  intros point resumeJob analysisJob items.
  assert (buildChangeItems (λ _, "") (λ _, None)
            (JObj [("experience", JArr [resumeJob])])
            (JObj [("experience", JArr [analysisJob])]) = Ok items) as Hitems
    by (vm_compute; reflexivity).
  split; [done|].
  rewrite (same_id_points_align (λ _, "") (λ _, None)
             (JObj [("experience", JArr [resumeJob])])
             (JObj [("experience", JArr [analysisJob])])
             [resumeJob] [analysisJob] 0 resumeJob analysisJob "exp-1-1"
             (point "exp-1-1" "Built UI components")
             (point "exp-1-1" "Built reusable UI components in React") items);
    [reflexivity..|exact Hitems].
Defined.

(** C3, as stated, fails when an id is carried twice. The optimizer
    returned one point, the rewritten second point of the job with its id
    [exp-1-2]; [normalizeAnalysisJson] backfills the place of the second
    point from the résumé, under the same id. The original's job has a point
    of id [exp-1-2] and so has the candidate's, with another text, and yet
    the change set has no item for [exp-1-2]: the map of the candidate's
    points holds the backfilled point, whose text is the original's. *)
Lemma same_id_point_hidden_by_twin :
  let raw := JObj [("experience",
                    JArr [JObj [("points", JArr [JStr "Built the billing service";
                                                 JStr "Led a team"])]])] in
  let input := JObj [("experience",
                      JArr [JObj [("points",
                                   JArr [JObj [("id", JStr "exp-1-2");
                                               ("text", JStr "Led a team of 5")]])]])] in
  ∃ resumeJson analysisJson resumeJob analysisJob items,
    normalizeResumeJson raw = Ok resumeJson ∧
    normalizeAnalysisJson (λ _, "") input resumeJson = Ok analysisJson ∧
    prop resumeJson "experience" = JArr [resumeJob] ∧
    prop analysisJson "experience" = JArr [analysisJob] ∧
    points_of resumeJob !! 1 =
      Some (JObj [("id", JStr "exp-1-2"); ("text", JStr "Led a team")]) ∧
    points_of analysisJob !! 0 =
      Some (JObj [("id", JStr "exp-1-2"); ("text", JStr "Led a team of 5")]) ∧
    buildChangeItems (λ _, "") (λ _, None) resumeJson analysisJson = Ok items ∧
    filter (is_experience_item 0 "exp-1-2") items = [].
Proof.
  intros raw input.
  set (resumeJson := value_of JNull (normalizeResumeJson raw)).
  set (analysisJson := value_of JNull (normalizeAnalysisJson (λ _, "") input resumeJson)).
  exists resumeJson, analysisJson, (index (prop resumeJson "experience") 0),
    (index (prop analysisJson "experience") 0),
    (value_of [] (buildChangeItems (λ _, "") (λ _, None) resumeJson analysisJson)).
  split_and!; vm_compute; reflexivity.
Qed.
End alignment.

(** ** Plain objects *)

Section objects.
Import JS.
Implicit Types (p : Props) (k : string) (v : Value).

Lemma assoc_app k p1 p2 :
  assoc k (p1 ++ p2) = match assoc k p1 with Some v => Some v | None => assoc k p2 end.
Proof.
  induction p1 as [|[k' v'] p1 IH]; simpl; [done|]. by case_decide.
Qed.

Lemma assoc_replace_prop k k' v p :
  assoc k (replace_prop k' v p) =
    if decide (k = k') then (assoc k' p ≫= λ _, Some v) else assoc k p.
Proof.
  induction p as [|[k'' v''] p IH]; simpl; [by case_decide|].
  destruct (decide (k'' = k')) as [->|Hne]; simpl.
  - repeat case_decide; simpl; congruence.
  - rewrite IH. repeat case_decide; simpl; congruence.
Qed.

Lemma assoc_insert_index n k k' v p :
  assoc k' p = None →
  assoc k (insert_index n k' v p) = if decide (k = k') then Some v else assoc k p.
Proof.
  induction p as [|[k'' v''] p IH]; simpl; intros Hnone.
  - repeat case_decide; congruence.
  - destruct (decide (k'' = k')) as [->|Hne]; [done|].
    destruct (array_index k'') as [n'|]; [destruct (n' <? n)%N|]; simpl;
      rewrite ?IH by done; repeat case_decide; congruence.
Qed.

Lemma assoc_obj_set k k' v p :
  assoc k (obj_set k' v p) = if decide (k = k') then Some v else assoc k p.
Proof.
  unfold obj_set. destruct (assoc k' p) as [v'|] eqn:Hk'.
  - rewrite assoc_replace_prop, Hk'. done.
  - destruct (array_index k') as [n|].
    + by apply assoc_insert_index.
    + rewrite assoc_app. simpl. destruct (decide (k = k')) as [->|Hne].
      * by rewrite Hk', decide_True.
      * rewrite decide_False by done. by destruct (assoc k p).
Qed.

Lemma prop_obj_set_eq k v p : prop (JObj (obj_set k v p)) k = v.
Proof. unfold prop. simpl. by rewrite assoc_obj_set, decide_True. Qed.

Lemma prop_obj_set_ne k k' v p :
  k ≠ k' → prop (JObj (obj_set k' v p)) k = prop (JObj p) k.
Proof. intros Hne. unfold prop. simpl. by rewrite assoc_obj_set, decide_False. Qed.
End objects.

(** ** The merged document *)

Section merged_document.
Import JS Frontend.

Lemma updated_value_skills u : prop (updated_value u) "skills" = JArr (skills u).
Proof.
  unfold updated_value.
  rewrite !prop_obj_set_ne by done. apply prop_obj_set_eq.
Qed.

Lemma updated_value_summary u : prop (updated_value u) "summary" = summary u.
Proof.
  unfold updated_value.
  rewrite !prop_obj_set_ne by done. apply prop_obj_set_eq.
Qed.

Lemma updated_value_experience u :
  prop (updated_value u) "experience" = JArr (JObj <$> experience u).
Proof.
  unfold updated_value.
  rewrite !prop_obj_set_ne by done. apply prop_obj_set_eq.
Qed.

Lemma updated_value_projects u :
  prop (updated_value u) "projects" = JArr (JObj <$> projects u).
Proof.
  unfold updated_value.
  rewrite !prop_obj_set_ne by done. apply prop_obj_set_eq.
Qed.

(** What [buildUpdatedResumeData] returns when both documents are present. *)
Lemma buildUpdatedResumeData_present resumeJson analysisJson changeItems changeState doc :
  truthy resumeJson = true → truthy analysisJson = true →
  buildUpdatedResumeData resumeJson analysisJson changeItems changeState = Ok doc →
  ∃ u0 u,
    initial_copy resumeJson = Ok u0 ∧
    for_each (apply_item analysisJson changeState) u0 changeItems = Ok u ∧
    doc = updated_value
            {| rest := rest u; basics := basics u; summary := summary u;
               skills := filter (λ entry, kept_skill entry = true) (skills u);
               experience := experience u; projects := projects u;
               education := education u; certificates := certificates u |}.
Proof.
  intros Hr Ha. unfold buildUpdatedResumeData. rewrite Hr, Ha. simpl.
  destruct (initial_copy resumeJson) as [u0|] eqn:Hcopy; simpl; [|done].
  destruct (for_each _ u0 changeItems) as [u|] eqn:Hfold; simpl; [|done].
  intros [= <-]. by exists u0, u.
Qed.

(** C7, as the code has it. With both documents present, every skill entry
    of the document that [buildUpdatedResumeData] returns passes the final
    filter: it is a non-null object (or array) with at least one own key.
    An entry that only has an ['id'] passes it. *)
Theorem merged_skills_are_nonempty_objects :
  ∀ (resumeJson analysisJson : Value) (changeItems : list ChangeItem)
    (changeState : gmap string bool) (doc : Value),
    truthy resumeJson = true → truthy analysisJson = true →
    buildUpdatedResumeData resumeJson analysisJson changeItems changeState = Ok doc →
    ∃ skills, prop doc "skills" = JArr skills ∧
              Forall (λ entry, truthy entry = true ∧ typeof_object entry = true ∧
                               keys entry ≠ []) skills.
Proof.
  intros resumeJson analysisJson changeItems changeState doc Hr Ha Hdoc.
  apply buildUpdatedResumeData_present in Hdoc as (u0 & u & _ & _ & ->); [|done..].
  eexists. split; [apply updated_value_skills|]. simpl.
  apply Forall_forall. intros entry [Hkept _]%list_elem_of_filter.
  unfold kept_skill in Hkept.
  apply andb_true_iff in Hkept as [[Ht Ho]%andb_true_iff Hk%bool_decide_eq_true].
  split_and!; [done | done |]. intros Hnil. by rewrite Hnil in Hk.
Qed.
End merged_document.

(** ** Searching arrays *)

Section searching.
Import JS.
Context {A : Type}.

(** The first element that satisfies [p], with its index counted from [i]. *)
Fixpoint first_from (p : A → bool) (l : list A) (i : nat) : option (nat * A) :=
  match l with
  | [] => None
  | x :: rest => if p x then Some (i, x) else first_from p rest (S i)
  end.

Lemma find_from_pure (pred : A → result bool) (p : A → bool) l i :
  (∀ x, pred x = Ok (p x)) → find_from pred l i = Ok (first_from p l i).
Proof.
  intros Hp. revert i. induction l as [|x l IH]; intros i; simpl; [done|].
  rewrite Hp. simpl. destruct (p x); [done | apply IH].
Qed.

Lemma find_pure (pred : A → result bool) (p : A → bool) l :
  (∀ x, pred x = Ok (p x)) → find pred l = Ok (first_from p l 0).
Proof. apply find_from_pure. Qed.

Lemma first_from_Some p l i j x :
  first_from p l i = Some (j, x) →
  i ≤ j ∧ l !! (j - i) = Some x ∧ p x = true ∧
  ∀ j' y, j' < j - i → l !! j' = Some y → p y = false.
Proof.
  revert i. induction l as [|y l IH]; intros i; simpl; [done|].
  destruct (p y) eqn:Hy.
  - intros [= <- <-]. rewrite Nat.sub_diag. split_and!; [done | done | done |].
    intros j' z Hj'. lia.
  - intros (Hle & Hx & Hpx & Hbefore)%IH.
    replace (j - i) with (S (j - S i)) by lia.
    split_and!; [lia | done | done |].
    intros [|j'] z Hj' Hz; simpl in Hz.
    + by injection Hz as <-.
    + apply (Hbefore j'); [lia | done].
Qed.

Lemma first_from_None p l i :
  first_from p l i = None → ∀ x, x ∈ l → p x = false.
Proof.
  revert i. induction l as [|y l IH]; intros i; simpl.
  - by intros _ x ?%elem_of_nil.
  - destruct (p y) eqn:Hy; [done|].
    intros Hnone x [->|Hx]%elem_of_cons; [done | by eapply IH].
Qed.

Lemma first_from_shift p l i :
  first_from p l i = (λ '(j, x), (i + j, x)) <$> first_from p l 0.
Proof.
  revert i. induction l as [|y l IH]; intros i; simpl; [done|].
  destruct (p y).
  - simpl. by rewrite Nat.add_0_r.
  - rewrite (IH (S i)), (IH 1). destruct (first_from p l 0) as [[j x]|]; simpl; [|done].
    do 2 f_equal. lia.
Qed.
End searching.

Section merged_skills_examples.
Import JS Backend Frontend.

(** The normal form of the document [{ skills: [{}] }]. *)
Definition lone_skill_document : Value :=
  JObj [("basics", JObj emptyBasics);
        ("summary", JObj [("id", JStr "summary-1"); ("text", JStr "")]);
        ("skills", JArr [JObj [("id", JStr "skill-1")]]);
        ("experience", JArr []); ("projects", JArr []);
        ("education", JArr []); ("certificates", JArr [])].

Lemma merged_skills_are_nonempty_objects_witness :
  ∃ skills, prop lone_skill_document "skills" = JArr skills ∧
            Forall (λ entry, truthy entry = true ∧ typeof_object entry = true ∧
                             keys entry ≠ []) skills.
Proof.
  apply (merged_skills_are_nonempty_objects lone_skill_document lone_skill_document
           [] ∅ lone_skill_document); reflexivity.
Defined.

(** C7, as stated, fails: the normalized document [{ skills: [{}] }] merged
    with itself (no change accepted) keeps the skill entry [{ id: 'skill-1' }],
    whose label and value are both empty. *)
Lemma structurally_empty_skill_survives :
  normalizeResumeJson (JObj [("skills", JArr [JObj []])]) = Ok lone_skill_document ∧
  buildUpdatedResumeData lone_skill_document lone_skill_document [] ∅
    = Ok lone_skill_document ∧
  prop lone_skill_document "skills" = JArr [JObj [("id", JStr "skill-1")]] ∧
  extractSkillLabelValue (JObj [("id", JStr "skill-1")]) = Ok ("", "").
Proof. repeat split; reflexivity. Qed.
End merged_skills_examples.

(** ** Accepted point changes *)

Section accepted_points.
Import JS Frontend.

(** [analysisJson[key]?.[sectionIndex]] *)
Definition candidate_entry (analysisJson : Value) (key : string) (sectionIndex : nat) : Value :=
  match prop analysisJson key with
  | JUndefined | JNull => JUndefined
  | _ => index (prop analysisJson key) sectionIndex
  end.

(** The candidate point that an accepted point item resolves to: the first
    point of the candidate's entry whose id is [pointId], when the entry and
    the point are truthy. *)
Definition candidate_point (analysisJson : Value) (key : string) (sectionIndex : nat)
    (pointId : string) : option Value :=
  let analysisEntry := candidate_entry analysisJson key sectionIndex in
  if truthy analysisEntry then
    match first_from (λ point, bool_decide (point_id point "" = pointId))
            (points_of analysisEntry) 0 with
    | Some (_, point) => if truthy point then Some point else None
    | None => None
    end
  else None.

(** Replace the first point whose id is [pointId], or append. *)
Definition merge_point (points : list Value) (pointId : string) (nextPoint : Value)
    : list Value :=
  match first_from (λ point, bool_decide (point_id point "" = pointId)) points 0 with
  | Some (existingIndex, _) => <[existingIndex := nextPoint]> points
  | None => points ++ [nextPoint]
  end.

(** [entries[sectionIndex].points], or no points when the entry or the
    array is missing. *)
Definition entry_points (entries : list Props) (sectionIndex : nat) : list Value :=
  match entries !! sectionIndex with
  | Some entry => points_of (JObj entry)
  | None => []
  end.

(** The section, entry and point that a point item addresses. *)
Definition point_target (item : ChangeItem) : option (string * nat * string) :=
  match item with
  | ExperienceItem _ _ jobIndex pointId _ _ => Some ("experience", jobIndex, pointId)
  | ProjectItem _ _ projectIndex pointId _ _ => Some ("projects", projectIndex, pointId)
  | _ => None
  end.

Definition section_entries (key : string) (u : Updated) : list Props :=
  if decide (key = "experience") then experience u else projects u.

(** The entries once the [while] loop has synthesized the missing ones. *)
Definition extended_entries (analysisEntry : Value) (sectionIndex : nat)
    (entries : list Props) : list Props :=
  entries ++ replicate (S sectionIndex - length entries)
               (obj_set "points" (JArr []) (spread analysisEntry)).

Lemma extended_entries_length analysisEntry sectionIndex entries :
  sectionIndex < length (extended_entries analysisEntry sectionIndex entries).
Proof. unfold extended_entries. rewrite length_app, length_replicate. lia. Qed.

Lemma extended_entries_points analysisEntry sectionIndex entries :
  entry_points (extended_entries analysisEntry sectionIndex entries) sectionIndex =
  entry_points entries sectionIndex.
Proof.
  unfold entry_points, extended_entries.
  destruct (decide (sectionIndex < length entries)) as [Hlt|Hge].
  - by rewrite lookup_app_l.
  - rewrite lookup_app_r by lia. rewrite (lookup_ge_None_2 entries) by lia.
    rewrite lookup_replicate_2 by lia.
    unfold points_of. by rewrite prop_obj_set_eq.
Qed.

(** What [apply_point] does when the candidate holds the point. *)
Lemma apply_point_found analysisJson key sectionIndex pointId entries analysisPoint :
  truthy analysisJson = true →
  candidate_point analysisJson key sectionIndex pointId = Some analysisPoint →
  ∃ entries',
    apply_point analysisJson key sectionIndex pointId entries = Ok entries' ∧
    length entries' = length (extended_entries
                                (candidate_entry analysisJson key sectionIndex)
                                sectionIndex entries) ∧
    (∀ i, i ≠ sectionIndex →
          entries' !! i = extended_entries (candidate_entry analysisJson key sectionIndex)
                            sectionIndex entries !! i) ∧
    entry_points entries' sectionIndex =
      merge_point (entry_points entries sectionIndex) pointId
        (JObj [("id", JStr (point_id analysisPoint pointId));
               ("text", JStr (point_text analysisPoint))]).
Proof.
  intros Ha Hcand. unfold candidate_point in Hcand.
  set (analysisEntry := candidate_entry analysisJson key sectionIndex) in *.
  destruct (truthy analysisEntry) eqn:Hentry; [|done].
  destruct (first_from _ (points_of analysisEntry) 0) as [[pos point]|] eqn:Hfirst; [|done].
  destruct (truthy point) eqn:Hpoint; [|done]. injection Hcand as ->.
  unfold apply_point. rewrite get_object by done. rewrite bind_Ok. cbv zeta.
  fold (candidate_entry analysisJson key sectionIndex). fold analysisEntry.
  rewrite Hentry. cbn [negb].
  fold (extended_entries analysisEntry sectionIndex entries).
  set (extended := extended_entries analysisEntry sectionIndex entries).
  rewrite get_object by done. rewrite bind_Ok. fold (points_of analysisEntry).
  rewrite (find_pure _ (λ point, bool_decide (point_id point "" = pointId))
             (points_of analysisEntry)) by apply has_point_id_total.
  rewrite Hfirst, bind_Ok, Hpoint. cbn [negb].
  rewrite getPointId_total, bind_Ok, getPointText_total, bind_Ok.
  pose proof (extended_entries_length analysisEntry sectionIndex entries) as Hlen.
  fold extended in Hlen.
  destruct (lookup_lt_is_Some_2 extended sectionIndex Hlen) as [entry0 Hentry0].
  rewrite Hentry0. change (default [] (Some entry0)) with entry0.
  set (entry := match prop (JObj entry0) "points" with
                | JArr _ => entry0
                | _ => obj_set "points" (JArr []) entry0
                end).
  assert (match prop (JObj entry) "points" with JArr l => l | _ => [] end
          = entry_points entries sectionIndex) as Hpoints.
  { rewrite <- (extended_entries_points analysisEntry). fold extended.
    unfold entry_points, points_of. rewrite Hentry0. subst entry.
    destruct (prop (JObj entry0) "points") eqn:Hp; rewrite ?prop_obj_set_eq, ?Hp; done. }
  rewrite Hpoints.
  rewrite (find_pure _ (λ point, bool_decide (point_id point "" = pointId)))
    by apply has_point_id_total.
  rewrite bind_Ok.
  eexists. split; [reflexivity|]. split_and!.
  - by rewrite !length_insert.
  - intros i Hi. by rewrite !list_lookup_insert_ne by done.
  - unfold entry_points at 1.
    rewrite list_lookup_insert_eq by (by rewrite length_insert).
    unfold points_of. rewrite prop_obj_set_eq. unfold merge_point.
    by destruct (first_from _ (entry_points entries sectionIndex) 0) as [[? ?]|].
Qed.

(** C9. An accepted experience or project item whose point the candidate
    holds writes into the working copy exactly the two-field object
    [{ id, text }]: the id is the candidate point's own id, or else the
    item's point id, the text is the candidate point's text, and no other
    field of the candidate point is kept. The object replaces the first
    point of that id in the entry, or is appended. *)
Theorem accepted_point_is_id_text_pair :
  ∀ (analysisJson : Value) (changeState : gmap string bool) (updated : Updated)
    (item : ChangeItem) (key : string) (sectionIndex : nat) (pointId : string)
    (analysisPoint : Value),
    truthy analysisJson = true →
    changeState !! item_id item = Some true →
    point_target item = Some (key, sectionIndex, pointId) →
    candidate_point analysisJson key sectionIndex pointId = Some analysisPoint →
    let nextPoint :=
      JObj [("id", JStr (point_id analysisPoint pointId));
            ("text", JStr (point_text analysisPoint))] in
    ∃ updated',
      apply_item analysisJson changeState updated item = Ok updated' ∧
      entry_points (section_entries key updated') sectionIndex =
        merge_point (entry_points (section_entries key updated) sectionIndex)
          pointId nextPoint ∧
      nextPoint ∈ entry_points (section_entries key updated') sectionIndex.
Proof.
  intros analysisJson changeState updated item key sectionIndex pointId analysisPoint
    Ha Hstate Htarget Hcand nextPoint.
  assert (∀ points, nextPoint ∈ merge_point points pointId nextPoint) as Hin.
  { intros points. unfold merge_point.
    destruct (first_from _ points 0) as [[e x]|] eqn:Hfirst.
    - apply first_from_Some in Hfirst as (_ & Hx & _).
      rewrite Nat.sub_0_r in Hx. apply lookup_lt_Some in Hx.
      apply list_elem_of_lookup. exists e. by apply list_lookup_insert_eq.
    - apply elem_of_app. right. by left. }
  unfold apply_item. rewrite Hstate. simpl.
  destruct item; simpl in Htarget; try done; injection Htarget as <- <- <-.
  - destruct (apply_point_found analysisJson "experience" jobIndex pointId0
                (experience updated) analysisPoint Ha Hcand)
      as (entries' & -> & _ & _ & Hpoints).
    simpl. eexists. split; [reflexivity|]. unfold section_entries. simpl.
    rewrite Hpoints. split; [done | apply Hin].
  - destruct (apply_point_found analysisJson "projects" projectIndex pointId0
                (projects updated) analysisPoint Ha Hcand)
      as (entries' & -> & _ & _ & Hpoints).
    simpl. eexists. split; [reflexivity|]. unfold section_entries. simpl.
    rewrite Hpoints. split; [done | apply Hin].
Qed.
End accepted_points.

Section accepted_point_example.
Import JS Frontend.

(** A candidate point with an extra field, accepted over the original's. *)
Lemma accepted_point_is_id_text_pair_witness :
  let analysisPoint :=
    JObj [("id", JStr "exp-1-1"); ("text", JStr "Built reusable UI components");
          ("score", JNum 5)] in
  let analysisJson := JObj [("experience", JArr [JObj [("points", JArr [analysisPoint])]])] in
  let updated :=
    {| rest := []; basics := []; summary := JUndefined; skills := [];
       experience :=
         [[("points", JArr [JObj [("id", JStr "exp-1-0"); ("text", JStr "Led the team")];
                            JObj [("id", JStr "exp-1-1"); ("text", JStr "Built UI")]])]];
       projects := []; education := []; certificates := [] |} in
  let item := ExperienceItem "exp:0:exp-1-1" "Experience 1" 0 "exp-1-1"
                "Built UI" "Built reusable UI components" in
  let nextPoint :=
    JObj [("id", JStr (point_id analysisPoint "exp-1-1"));
          ("text", JStr (point_text analysisPoint))] in
  ∃ updated',
    apply_item analysisJson {["exp:0:exp-1-1" := true]} updated item = Ok updated' ∧
    entry_points (section_entries "experience" updated') 0 =
      merge_point (entry_points (section_entries "experience" updated) 0)
        "exp-1-1" nextPoint ∧
    nextPoint ∈ entry_points (section_entries "experience" updated') 0.
Proof.
  intros analysisPoint analysisJson updated item.
  apply (accepted_point_is_id_text_pair analysisJson {["exp:0:exp-1-1" := true]}
           updated item "experience" 0 "exp-1-1" analysisPoint).
  - reflexivity.
  - by vm_compute.
  - reflexivity.
  - by vm_compute.
Defined.
End accepted_point_example.

(** ** The normalizer never throws *)

Section normalizer_total.
Import JS Backend.

Definition summary_normal (summary fallbackId : Value) : Value :=
  value_of JUndefined (normalizeSummaryValue summary fallbackId).

Lemma normalizeSummaryValue_total summary fallbackId :
  normalizeSummaryValue summary fallbackId = Ok (summary_normal summary fallbackId).
Proof.
  unfold summary_normal, normalizeSummaryValue.
  destruct summary; simpl; try done; repeat (case_match; simpl; try done).
Qed.

Definition skill_normal (entry : Value) (index : nat) (fallbackId : Value) : Value :=
  value_of JUndefined (normalizeSkillEntry entry index fallbackId).

Lemma normalizeSkillEntry_total entry index fallbackId :
  normalizeSkillEntry entry index fallbackId = Ok (skill_normal entry index fallbackId).
Proof.
  unfold skill_normal, normalizeSkillEntry.
  destruct (negb (truthy entry) || negb (typeof_object entry)); done.
Qed.

(** What the loop of [normalizeSkillsList] pushes at index [i]. *)
Definition skills_pushed (list_ fallback : list Value) (i : nat) : list Value :=
  value_of [] (skills_step list_ fallback [] i).

Lemma skills_step_total list_ fallback normalized i :
  skills_step list_ fallback normalized i = Ok (normalized ++ skills_pushed list_ fallback i).
Proof.
  unfold skills_pushed, skills_step.
  destruct (negb (truthy (at_index list_ i)) && negb (truthy (at_index fallback i)));
    simpl; [by rewrite app_nil_r|].
  destruct (truthy (at_index fallback i) && typeof_object (at_index fallback i)) eqn:Hfb.
  - apply andb_true_iff in Hfb as [Hfb _]. rewrite get_object by done. simpl.
    rewrite normalizeSkillEntry_total. simpl.
    destruct (truthy (skill_normal _ _ _)); simpl; by rewrite ?app_nil_r.
  - simpl. rewrite normalizeSkillEntry_total. simpl.
    destruct (truthy (skill_normal _ _ _)); simpl; by rewrite ?app_nil_r.
Qed.

Lemma normalizeSkillsList_total skills resumeSkills :
  normalizeSkillsList skills resumeSkills =
    Ok (seq 0 (length (array_or_empty skills) `max` length (array_or_empty resumeSkills))
          ≫= skills_pushed (array_or_empty skills) (array_or_empty resumeSkills)).
Proof.
  unfold normalizeSkillsList.
  rewrite (for_each_emit _ (skills_pushed (array_or_empty skills) (array_or_empty resumeSkills)))
    by apply skills_step_total.
  done.
Qed.

Definition backend_point_text (point : Value) : string :=
  value_of "" (Backend.getPointText point).

Lemma backend_getPointText_total point :
  Backend.getPointText point = Ok (backend_point_text point).
Proof.
  unfold backend_point_text, Backend.getPointText.
  destruct point; simpl; try done; repeat (case_match; simpl; try done).
Qed.

Definition trimmed_id_of (point : Value) : Value :=
  value_of JUndefined (own_trimmed_id point).

Lemma own_trimmed_id_total point : own_trimmed_id point = Ok (trimmed_id_of point).
Proof.
  unfold trimmed_id_of, own_trimmed_id.
  destruct point; simpl; try done; repeat (case_match; simpl; try done).
Qed.

(** What the loop of [normalizePointsList] pushes at index [i]. *)
Definition points_pushed (list_ fallback : list Value) (prefix : string) (i : nat)
    : list Value :=
  value_of [] (points_step list_ fallback prefix [] i).

Lemma points_step_total list_ fallback prefix normalized i :
  points_step list_ fallback prefix normalized i =
    Ok (normalized ++ points_pushed list_ fallback prefix i).
Proof.
  unfold points_pushed, points_step.
  destruct (negb (truthy (at_index list_ i)) && negb (truthy (at_index fallback i)));
    simpl; [by rewrite app_nil_r|].
  rewrite !own_trimmed_id_total. simpl. rewrite backend_getPointText_total. done.
Qed.

Definition points_normal (points resumePoints : Value) (prefix : string) : list Value :=
  seq 0 (length (array_or_empty points) `max` length (array_or_empty resumePoints))
    ≫= points_pushed (array_or_empty points) (array_or_empty resumePoints) prefix.

Lemma normalizePointsList_total points resumePoints prefix :
  normalizePointsList points resumePoints prefix = Ok (points_normal points resumePoints prefix).
Proof.
  unfold normalizePointsList, points_normal.
  by rewrite (for_each_emit _ (points_pushed (array_or_empty points)
                                 (array_or_empty resumePoints) prefix))
    by apply points_step_total.
Qed.

(** What the loop of [normalizeArrayObjects] pushes at index [i]. *)
Definition array_objects_pushed (items fallback : list Value) (template : Props) (i : nat)
    : list Value :=
  value_of [] (array_objects_step items fallback template [] i).

Lemma array_objects_step_total items fallback template normalized i :
  array_objects_step items fallback template normalized i =
    Ok (normalized ++ array_objects_pushed items fallback template i).
Proof.
  unfold array_objects_pushed, array_objects_step.
  destruct (negb (truthy (at_index items i)) && negb (truthy (at_index fallback i)));
    simpl; by rewrite ?app_nil_r.
Qed.

Definition array_objects_normal (list_ : Value) (template : Props) (fallbackList : Value)
    : list Value :=
  seq 0 (length (array_or_empty list_) `max` length (array_or_empty fallbackList))
    ≫= array_objects_pushed (array_or_empty list_) (array_or_empty fallbackList) template.

Lemma normalizeArrayObjects_total list_ template fallbackList :
  normalizeArrayObjects list_ template fallbackList =
    Ok (array_objects_normal list_ template fallbackList).
Proof.
  unfold normalizeArrayObjects, array_objects_normal.
  by rewrite (for_each_emit _ (array_objects_pushed (array_or_empty list_)
                                 (array_or_empty fallbackList) template))
    by apply array_objects_step_total.
Qed.

(** What the loop over jobs or projects pushes at index [i]. *)
Definition entries_pushed (template : Props) (prefix : string) (items fallback : list Value)
    (i : nat) : list Value :=
  value_of [] (entries_step template prefix items fallback [] i).

Lemma entries_step_total template prefix items fallback normalized i :
  entries_step template prefix items fallback normalized i =
    Ok (normalized ++ entries_pushed template prefix items fallback i).
Proof.
  unfold entries_pushed, entries_step.
  destruct (negb (truthy (at_index items i)) && negb (truthy (at_index fallback i)));
    simpl; [by rewrite app_nil_r|].
  rewrite normalizePointsList_total. done.
Qed.

Definition entries_normal (template : Props) (prefix : string) (list_ resumeList : Value)
    : list Value :=
  seq 0 (length (array_or_empty list_) `max` length (array_or_empty resumeList))
    ≫= entries_pushed template prefix (array_or_empty list_) (array_or_empty resumeList).

Lemma normalize_entries_total template prefix list_ resumeList :
  normalize_entries template prefix list_ resumeList =
    Ok (entries_normal template prefix list_ resumeList).
Proof.
  unfold normalize_entries, entries_normal.
  by rewrite (for_each_emit _ (entries_pushed template prefix (array_or_empty list_)
                                 (array_or_empty resumeList)))
    by apply entries_step_total.
Qed.

(** The document that [normalizeResumeJson] builds from an object. *)
Definition normal_document (input : Value) : Value :=
  JObj [("basics",
         JObj (assign emptyBasics (own_props (or_else (prop input "basics") (JObj [])))));
        ("summary", summary_normal (prop input "summary") JUndefined);
        ("skills",
         JArr (seq 0 (length (array_or_empty (prop input "skills")) `max` 0)
                 ≫= skills_pushed (array_or_empty (prop input "skills")) []));
        ("experience",
         JArr (entries_normal experienceTemplate "exp" (prop input "experience") JUndefined));
        ("projects",
         JArr (entries_normal projectTemplate "proj" (prop input "projects") JUndefined));
        ("education",
         JArr (array_objects_normal (prop input "education") educationTemplate JUndefined));
        ("certificates",
         JArr (array_objects_normal (prop input "certificates") certificateTemplate
                 JUndefined))].

(** [normalizeResumeJson] returns on every input: the document built from
    an object, and the empty document for anything else. *)
Lemma normalizeResumeJson_total input :
  normalizeResumeJson input =
    Ok (if truthy input && typeof_object input then normal_document input
        else JObj emptyResumeJson).
Proof.
  unfold normalizeResumeJson.
  destruct (truthy input && typeof_object input) eqn:Hinput; [|done].
  apply andb_true_iff in Hinput as [Hinput _].
  rewrite !(get_object input) by done. simpl.
  rewrite normalizeSummaryValue_total. simpl.
  rewrite normalizeSkillsList_total. simpl.
  unfold normalizeExperienceList, normalizeProjectList.
  rewrite !normalize_entries_total. simpl.
  rewrite !normalizeArrayObjects_total. simpl.
  done.
Qed.
End normalizer_total.

(** ** The ids of a normalized document *)

Section normalized_ids.
Import JS Backend.

(** The id that the value of an [id] field gives: a string that is not
    blank, trimmed. *)
Definition id_of (v : Value) : option string :=
  match v with
  | JStr s => if bool_decide (trim s ≠ "") then Some (trim s) else None
  | _ => None
  end.

(** The id that a summary or a point carries itself. *)
Definition own_id (v : Value) : option string :=
  if truthy v && typeof_object v then id_of (prop v "id") else None.

Lemma id_of_nonempty v s : id_of v = Some s → s ≠ "".
Proof.
  destruct v; simpl; try done. case_bool_decide; [|done]. by intros [= <-].
Qed.

Lemma own_id_nonempty v s : own_id v = Some s → s ≠ "".
Proof. unfold own_id. case_match; [apply id_of_nonempty | done]. Qed.

Lemma trimmed_or_id_of x alt :
  trimmed_or x alt = match id_of x with Some s => JStr s | None => alt end.
Proof. destruct x; simpl; try done. by case_bool_decide. Qed.

Lemma or_else_trimmed_id point alt :
  or_else (trimmed_id_of point) alt =
    match own_id point with Some s => JStr s | None => alt end.
Proof.
  unfold trimmed_id_of, own_trimmed_id, own_id, or_else.
  destruct point as [| |b|n|s|items|props]; try done.
  - by destruct b.
  - cbn. case_bool_decide as Hn; simpl; [done|]. by subst n.
  - cbn. case_bool_decide as Hs; simpl; [done|]. by subst s.
  - cbn [truthy typeof_object negb andb]. unfold get. rewrite bind_Ok.
    destruct (prop (JArr items) "id"); simpl; try done. by case_bool_decide.
  - cbn [truthy typeof_object negb andb]. unfold get. rewrite bind_Ok.
    destruct (prop (JObj props) "id"); simpl; try done. by case_bool_decide.
Qed.

Definition has_nonempty_id (v : Value) : Prop :=
  ∃ props s, v = JObj props ∧ assoc "id" props = Some (JStr s) ∧ s ≠ "".

(** A point as the normalizer writes it. *)
Definition is_point (v : Value) : Prop :=
  ∃ id text, v = JObj [("id", JStr id); ("text", JStr text)] ∧ id ≠ "".

Lemma is_point_has_id v : is_point v → has_nonempty_id v.
Proof. intros (id & text & -> & Hid). by exists [("id", JStr id); ("text", JStr text)], id. Qed.

Lemma summary_normal_shape summary :
  summary_normal summary JUndefined =
    JObj [("id", JStr (default "summary-1" (own_id summary)));
          ("text", JStr (match summary with
                         | JStr s => s
                         | _ => if truthy summary && typeof_object summary
                                then match prop summary "text" with JStr s => s | _ => "" end
                                else ""
                         end))].
Proof.
  unfold summary_normal, normalizeSummaryValue, own_id.
  destruct summary as [| |b|n|s|items|props]; try done.
  - by destruct b.
  - cbn. by case_bool_decide.
  - cbn. by case_bool_decide.
  - cbn [truthy typeof_object typeof_string negb andb]. unfold get. rewrite !bind_Ok.
    rewrite trimmed_or_id_of.
    by destruct (prop (JArr items) "text"), (id_of _).
  - cbn [truthy typeof_object typeof_string negb andb]. unfold get. rewrite !bind_Ok.
    rewrite trimmed_or_id_of.
    by destruct (prop (JObj props) "text"), (id_of _).
Qed.

Lemma generated_nonempty prefix rest_ : prefix ≠ "" → prefix +:+ rest_ ≠ "".
Proof. by destruct prefix. Qed.

Lemma get_JObj props k : get (JObj props) k = Ok (prop (JObj props) k).
Proof. done. Qed.

Lemma skill_normal_shape entry i fallbackId :
  skill_normal entry i fallbackId =
    if negb (truthy entry) || negb (typeof_object entry) then JNull
    else JObj (obj_set "id"
                 match id_of (prop (JObj (spread entry)) "id") with
                 | Some s => JStr s
                 | None => or_else fallbackId (JStr ("skill-" +:+ pretty (i + 1)))
                 end
                 (spread entry)).
Proof.
  unfold skill_normal, normalizeSkillEntry.
  destruct (negb (truthy entry) || negb (typeof_object entry)); [done|].
  rewrite get_JObj, bind_Ok. cbn [value_of mret result_ret].
  by rewrite trimmed_or_id_of.
Qed.

(** The fallback id that the loop of [normalizeSkillsList] computes. *)
Definition skill_fallback_id (fallbackEntry : Value) (i : nat) : string :=
  if truthy fallbackEntry && typeof_object fallbackEntry then
    match prop fallbackEntry "id" with
    | JStr s => s
    | _ => "skill-" +:+ pretty (i + 1)
    end
  else "skill-" +:+ pretty (i + 1).

Lemma skills_pushed_eq list_ fallback i :
  skills_pushed list_ fallback i =
    let entry := at_index list_ i in
    let fallbackEntry := at_index fallback i in
    if negb (truthy entry) && negb (truthy fallbackEntry) then []
    else
      let normalizedEntry :=
        skill_normal (or_else entry fallbackEntry) i
          (JStr (skill_fallback_id fallbackEntry i)) in
      if truthy normalizedEntry then [normalizedEntry] else [].
Proof.
  unfold skills_pushed, skills_step. cbv zeta.
  destruct (negb (truthy (at_index list_ i)) && negb (truthy (at_index fallback i)));
    [done|].
  assert ((if truthy (at_index fallback i) && typeof_object (at_index fallback i)
           then id ← get (at_index fallback i) "id";
                mret (if typeof_string id then id
                      else JStr ("skill-" +:+ pretty (i + 1)))
           else mret (JStr ("skill-" +:+ pretty (i + 1))))
          = Ok (JStr (skill_fallback_id (at_index fallback i) i))) as ->.
  { unfold skill_fallback_id.
    destruct (truthy (at_index fallback i) && typeof_object (at_index fallback i)) eqn:Hfb;
      [|done].
    apply andb_true_iff in Hfb as [Hfb _]. rewrite get_object by done. rewrite bind_Ok.
    by destruct (prop (at_index fallback i) "id"). }
  rewrite bind_Ok, normalizeSkillEntry_total, bind_Ok.
  by destruct (truthy (skill_normal _ _ _)).
Qed.

(** Every skill entry that the loop pushes is an object with a non-empty
    string id. *)
Lemma skills_pushed_shape list_ fallback i x :
  x ∈ skills_pushed list_ fallback i → has_nonempty_id x.
Proof.
  rewrite skills_pushed_eq. cbv zeta.
  destruct (negb (truthy (at_index list_ i)) && negb (truthy (at_index fallback i)));
    [by intros ?%elem_of_nil|].
  rewrite skill_normal_shape.
  destruct (negb (truthy _) || negb (typeof_object _)); [by intros ?%elem_of_nil|].
  cbn [truthy]. intros ->%list_elem_of_singleton.
  destruct (id_of _) as [s|] eqn:Hid.
  - eexists _, s. split; [reflexivity|].
    rewrite assoc_obj_set, decide_True by done.
    split; [reflexivity|]. by eapply id_of_nonempty.
  - unfold or_else. cbn [truthy].
    case_bool_decide; (eexists _, _; split; [reflexivity|]);
      rewrite assoc_obj_set, decide_True by done; (split; [reflexivity | done]).
Qed.

(** Without a fallback list, the id of the pushed entry is the entry's own
    id or else generated from the index. *)
Lemma skills_pushed_no_fallback list_ i :
  skills_pushed list_ [] i =
    let entry := at_index list_ i in
    if truthy entry && typeof_object entry then
      [JObj (obj_set "id"
               (JStr (default ("skill-" +:+ pretty (i + 1))
                        (id_of (prop (JObj (spread entry)) "id"))))
               (spread entry))]
    else [].
Proof.
  rewrite skills_pushed_eq. cbv zeta.
  replace (at_index [] i) with JUndefined by by destruct i.
  cbn [truthy negb]. rewrite andb_true_r.
  unfold or_else. destruct (truthy (at_index list_ i)) eqn:Htruthy; [|done].
  cbn [negb andb orb]. rewrite skill_normal_shape, Htruthy. cbn [negb orb].
  destruct (typeof_object (at_index list_ i)); [|done].
  cbn [negb truthy]. by destruct (id_of _).
Qed.

(** What the loop of [normalizePointsList] pushes: nothing where both lists
    have no point, else one [{ id, text }] whose id is the point's own id,
    else the fallback point's, else generated from the index. *)
Lemma points_pushed_eq list_ fallback prefix i :
  points_pushed list_ fallback prefix i =
    let point := at_index list_ i in
    let fallbackPoint := at_index fallback i in
    if negb (truthy point) && negb (truthy fallbackPoint) then []
    else
      [JObj [("id", JStr (default (default (prefix +:+ "-" +:+ pretty (i + 1))
                                     (own_id fallbackPoint))
                            (own_id point)));
             ("text", JStr (backend_point_text (or_else point fallbackPoint)))]].
Proof.
  unfold points_pushed, points_step. cbv zeta.
  destruct (negb (truthy (at_index list_ i)) && negb (truthy (at_index fallback i)));
    [done|].
  rewrite !own_trimmed_id_total, !bind_Ok, backend_getPointText_total, bind_Ok.
  cbn [value_of mret result_ret app]. do 3 f_equal.
  rewrite or_else_trimmed_id.
  destruct (own_id (at_index list_ i)) as [s|] eqn:Hown.
  - apply own_id_nonempty in Hown. unfold or_else. cbn [truthy default].
    by rewrite bool_decide_true.
  - rewrite or_else_trimmed_id. by destruct (own_id (at_index fallback i)).
Qed.

Lemma points_pushed_shape list_ fallback prefix i x :
  x ∈ points_pushed list_ fallback prefix i → is_point x.
Proof.
  rewrite points_pushed_eq. cbv zeta. case_match; [by intros ?%elem_of_nil|].
  intros ->%list_elem_of_singleton. eexists _, _. split; [reflexivity|].
  destruct (own_id (at_index list_ i)) as [s|] eqn:Hown; [by eapply own_id_nonempty|].
  destruct (own_id (at_index fallback i)) as [s|] eqn:Hfb; [by eapply own_id_nonempty|].
  simpl. by destruct prefix.
Qed.

Lemma points_normal_shape points resumePoints prefix :
  Forall is_point (points_normal points resumePoints prefix).
Proof.
  apply Forall_forall. intros x (i & Hx & _)%list_elem_of_bind.
  by eapply points_pushed_shape.
Qed.

Lemma at_index_nil i : at_index [] i = JUndefined.
Proof. by destruct i. Qed.

Lemma at_index_lookup items i x : items !! i = Some x → at_index items i = x.
Proof. unfold at_index. by intros ->. Qed.

(** A point without an own id, normalized without a fallback list, gets the
    generated id. *)
Lemma points_normal_generated points prefix i point :
  array_or_empty points !! i = Some point → truthy point = true → own_id point = None →
  JObj [("id", JStr (prefix +:+ "-" +:+ pretty (i + 1)));
        ("text", JStr (backend_point_text point))]
    ∈ points_normal points JUndefined prefix.
Proof.
  intros Hi Htruthy Hown. unfold points_normal. apply list_elem_of_bind. exists i. split.
  - rewrite points_pushed_eq. cbv zeta. cbn [array_or_empty].
    rewrite at_index_nil, (at_index_lookup _ _ _ Hi), Htruthy, Hown.
    unfold or_else. rewrite Htruthy. by left.
  - apply elem_of_seq. apply lookup_lt_Some in Hi. lia.
Qed.

(** Objects that have every key of a template. *)
Definition has_keys (template props : Props) : Prop :=
  ∀ k, is_Some (assoc k template) → is_Some (assoc k props).

Lemma assign_keeps_keys (target source : Props) k :
  is_Some (assoc k target) → is_Some (assoc k (assign target source)).
Proof.
  unfold assign. revert target. induction source as [|[k' v] source IH]; intros target Hk;
    simpl; [done|].
  apply IH. rewrite assoc_obj_set. by case_decide.
Qed.

Lemma assign_has_source_keys (target source : Props) k :
  is_Some (assoc k source) → is_Some (assoc k (assign target source)).
Proof.
  unfold assign. revert target. induction source as [|[k' v] source IH]; intros target;
    simpl; [by intros [? ?]|].
  destruct (decide (k' = k)) as [->|Hne].
  - intros _. apply (assign_keeps_keys _ source). rewrite assoc_obj_set, decide_True by done.
    eauto.
  - apply IH.
Qed.

Lemma merge_over_has_keys template fallbackItem item :
  has_keys template (merge_over template fallbackItem item).
Proof.
  intros k Hk. unfold merge_over.
  by do 2 apply assign_keeps_keys; apply assign_has_source_keys.
Qed.

Lemma has_keys_obj_set template k v props :
  has_keys template props → has_keys template (obj_set k v props).
Proof.
  intros Hkeys k' Hk'. rewrite assoc_obj_set. case_decide; [eauto | by apply Hkeys].
Qed.

(** A job or project as the normalizer writes it. *)
Definition is_entry (template : Props) (v : Value) : Prop :=
  ∃ props points, v = JObj props ∧ has_keys template props ∧
                  assoc "points" props = Some (JArr points) ∧ Forall is_point points.

(** An education or certificate record as the normalizer writes it. *)
Definition is_record (template : Props) (v : Value) : Prop :=
  ∃ props, v = JObj props ∧ has_keys template props.

Lemma entries_pushed_eq template prefix items fallback i :
  entries_pushed template prefix items fallback i =
    let item := at_index items i in
    let fallbackItem := at_index fallback i in
    if negb (truthy item) && negb (truthy fallbackItem) then []
    else
      [JObj (obj_set "points"
               (JArr (points_normal (get_opt item "points") (get_opt fallbackItem "points")
                        (prefix +:+ "-" +:+ pretty (i + 1))))
               (merge_over template fallbackItem item))].
Proof.
  unfold entries_pushed, entries_step. cbv zeta. case_match; [done|].
  by rewrite normalizePointsList_total, bind_Ok.
Qed.

Lemma entries_normal_shape template prefix list_ resumeList :
  Forall (is_entry template) (entries_normal template prefix list_ resumeList).
Proof.
  apply Forall_forall. intros x (i & Hx & _)%list_elem_of_bind.
  rewrite entries_pushed_eq in Hx. cbv zeta in Hx.
  case_match; [by apply elem_of_nil in Hx|].
  apply list_elem_of_singleton in Hx as ->. eexists _, _. split_and!.
  - reflexivity.
  - apply has_keys_obj_set, merge_over_has_keys.
  - by rewrite assoc_obj_set, decide_True.
  - apply points_normal_shape.
Qed.

Lemma array_objects_pushed_eq items fallback template i :
  array_objects_pushed items fallback template i =
    let item := at_index items i in
    let fallbackItem := at_index fallback i in
    if negb (truthy item) && negb (truthy fallbackItem) then []
    else [JObj (merge_over template fallbackItem item)].
Proof. unfold array_objects_pushed, array_objects_step. cbv zeta. by case_match. Qed.

Lemma array_objects_normal_shape list_ template fallbackList :
  Forall (is_record template) (array_objects_normal list_ template fallbackList).
Proof.
  apply Forall_forall. intros x (i & Hx & _)%list_elem_of_bind.
  rewrite array_objects_pushed_eq in Hx. cbv zeta in Hx.
  case_match; [by apply elem_of_nil in Hx|].
  apply list_elem_of_singleton in Hx as ->. eexists. split; [reflexivity|].
  apply merge_over_has_keys.
Qed.

(** [input.key] when [input] is an object, which is when the normalizer
    reads it. *)
Definition input_field (input : Value) (key : string) : Value :=
  if truthy input && typeof_object input then prop input key else JUndefined.

Definition points_in (entry : Value) : list Value := array_or_empty (prop entry "points").

Lemma string_app_assoc (a b c : string) : (a +:+ b) +:+ c = a +:+ (b +:+ c).
Proof.
  induction a as [|x a IH]; [done|].
  change (String x ((a +:+ b) +:+ c) = String x (a +:+ (b +:+ c))). by f_equal.
Qed.

Lemma entries_normal_generated template prefix list_ j entry i point :
  array_or_empty list_ !! j = Some entry → truthy entry = true →
  array_or_empty (get_opt entry "points") !! i = Some point →
  truthy point = true → own_id point = None →
  ∃ normalized,
    normalized ∈ entries_normal template prefix list_ JUndefined ∧
    JObj [("id", JStr (prefix +:+ "-" +:+ pretty (j + 1) +:+ "-" +:+ pretty (i + 1)));
          ("text", JStr (backend_point_text point))] ∈ points_in normalized.
Proof.
  intros Hj Hentry Hi Hpoint Hown. eexists. split.
  - unfold entries_normal. apply list_elem_of_bind. exists j. split.
    + rewrite entries_pushed_eq. cbv zeta. cbn [array_or_empty].
      rewrite at_index_nil, (at_index_lookup _ _ _ Hj), Hentry. by left.
    + apply elem_of_seq. apply lookup_lt_Some in Hj. lia.
  - unfold points_in. rewrite prop_obj_set_eq. cbn [array_or_empty get_opt].
    pose proof (points_normal_generated (get_opt entry "points")
                  (prefix +:+ "-" +:+ pretty (j + 1)) i point Hi Hpoint Hown) as Hin.
    by rewrite string_app_assoc in Hin.
Qed.

(** The ids of a document: the summary, the skill entries and the points
    of the jobs and projects carry a non-empty string id. *)
Definition has_ids (doc : Value) : Prop :=
  ∃ summary skills experience projects,
    prop doc "summary" = summary ∧ prop doc "skills" = JArr skills ∧
    prop doc "experience" = JArr experience ∧ prop doc "projects" = JArr projects ∧
    is_point summary ∧
    Forall has_nonempty_id skills ∧
    Forall (is_entry experienceTemplate) experience ∧
    Forall (is_entry projectTemplate) projects.

(** The id that the résumé has at a place, on which the normalizer of the
    analysis falls back: that of its summary, of its skill entry at [i], of
    the point at [i] of its job or project at [j]. Without a résumé
    ([undefined]) there is none. *)
Definition resume_summary_id (resumeJson : Value) : option string :=
  own_id (get_opt resumeJson "summary").

Definition resume_skill_id (resumeJson : Value) (i : nat) : option string :=
  own_id (at_index (array_or_empty (get_opt resumeJson "skills")) i).

Definition resume_point_id (resumeJson : Value) (key : string) (j i : nat) : option string :=
  own_id (at_index
            (array_or_empty
               (get_opt (at_index (array_or_empty (get_opt resumeJson key)) j) "points"))
            i).

(** The ids that [doc], normalized from [input] against [resumeJson], has
    where the input carries none (no id, not a string, or blank): the id
    that the résumé has at this place, or else [summary-1], [skill-<n>],
    [exp-<job>-<point>] or [proj-<project>-<point>], counted from 1 by the
    position in the input. *)
Definition ids_assigned (input resumeJson doc : Value) : Prop :=
  (own_id (input_field input "summary") = None →
   prop (prop doc "summary") "id"
     = JStr (default "summary-1" (resume_summary_id resumeJson))) ∧
  (∀ i entry,
     array_or_empty (input_field input "skills") !! i = Some entry →
     truthy entry && typeof_object entry = true →
     id_of (prop (JObj (spread entry)) "id") = None →
     JObj (obj_set "id"
             (JStr (default ("skill-" +:+ pretty (i + 1)) (resume_skill_id resumeJson i)))
             (spread entry))
       ∈ array_or_empty (prop doc "skills")) ∧
  (∀ j job i point,
     array_or_empty (input_field input "experience") !! j = Some job →
     truthy job = true →
     array_or_empty (get_opt job "points") !! i = Some point →
     truthy point = true → own_id point = None →
     ∃ normalized, normalized ∈ array_or_empty (prop doc "experience") ∧
       JObj [("id", JStr (default ("exp-" +:+ pretty (j + 1) +:+ "-" +:+ pretty (i + 1))
                            (resume_point_id resumeJson "experience" j i)));
             ("text", JStr (backend_point_text point))] ∈ points_in normalized) ∧
  (∀ j project i point,
     array_or_empty (input_field input "projects") !! j = Some project →
     truthy project = true →
     array_or_empty (get_opt project "points") !! i = Some point →
     truthy point = true → own_id point = None →
     ∃ normalized, normalized ∈ array_or_empty (prop doc "projects") ∧
       JObj [("id", JStr (default ("proj-" +:+ pretty (j + 1) +:+ "-" +:+ pretty (i + 1))
                            (resume_point_id resumeJson "projects" j i)));
             ("text", JStr (backend_point_text point))] ∈ points_in normalized).

(** The ids of the document that [normalizeResumeJson] returns. *)
Lemma normalized_resume_ids input :
  ∃ doc, normalizeResumeJson input = Ok doc ∧ has_ids doc ∧ ids_assigned input JUndefined doc.
Proof.
  rewrite normalizeResumeJson_total. unfold ids_assigned, input_field.
  destruct (truthy input && typeof_object input) eqn:Hinput.
  - exists (normal_document input). split; [reflexivity|]. split.
    + exists (summary_normal (prop input "summary") JUndefined),
        (seq 0 (length (array_or_empty (prop input "skills")) `max` 0)
           ≫= skills_pushed (array_or_empty (prop input "skills")) []),
        (entries_normal experienceTemplate "exp" (prop input "experience") JUndefined),
        (entries_normal projectTemplate "proj" (prop input "projects") JUndefined).
      split; [reflexivity|]. split; [reflexivity|]. split; [reflexivity|].
      split; [reflexivity|]. split_and!.
      * rewrite summary_normal_shape. eexists _, _. split; [reflexivity|].
        destruct (own_id (prop input "summary")) eqn:Hown; [by eapply own_id_nonempty | done].
      * apply Forall_forall. intros x (i & Hx & _)%list_elem_of_bind.
        by eapply skills_pushed_shape.
      * apply entries_normal_shape.
      * apply entries_normal_shape.
    + split_and!.
      * intros Hown. change (prop (normal_document input) "summary")
          with (summary_normal (prop input "summary") JUndefined).
        rewrite summary_normal_shape, Hown. reflexivity.
      * intros i entry Hi Hobject Hid.
        change (array_or_empty (prop (normal_document input) "skills"))
          with (seq 0 (length (array_or_empty (prop input "skills")) `max` 0)
                  ≫= skills_pushed (array_or_empty (prop input "skills")) []).
        apply list_elem_of_bind. exists i. split.
        -- rewrite skills_pushed_no_fallback. cbv zeta.
           rewrite (at_index_lookup _ _ _ Hi), Hobject, Hid.
           change (resume_skill_id JUndefined i) with (@None string). by left.
        -- apply elem_of_seq. apply lookup_lt_Some in Hi. lia.
      * intros j job i point Hj Hjob Hi Hpoint Hown.
        change (resume_point_id JUndefined "experience" j i) with (@None string).
        by apply (entries_normal_generated experienceTemplate "exp" _ j job i point).
      * intros j project i point Hj Hproject Hi Hpoint Hown.
        change (resume_point_id JUndefined "projects" j i) with (@None string).
        by apply (entries_normal_generated projectTemplate "proj" _ j project i point).
  - exists (JObj emptyResumeJson). split; [reflexivity|]. split.
    + exists (JObj [("id", JStr "summary-1"); ("text", JStr "")]), [], [], [].
      split; [reflexivity|]. split; [reflexivity|]. split; [reflexivity|].
      split; [reflexivity|]. split_and!; try done. by exists "summary-1", "".
    + split_and!; try done.
Qed.

(** The shape of the document that the normalizer returns. *)
Definition document_shape (doc : Value) : Prop :=
  ∃ basics summary skills experience projects education certificates,
    doc = JObj [("basics", JObj basics); ("summary", summary); ("skills", JArr skills);
                ("experience", JArr experience); ("projects", JArr projects);
                ("education", JArr education); ("certificates", JArr certificates)] ∧
    has_keys emptyBasics basics ∧
    is_point summary ∧
    Forall has_nonempty_id skills ∧
    Forall (is_entry experienceTemplate) experience ∧
    Forall (is_entry projectTemplate) projects ∧
    Forall (is_record educationTemplate) education ∧
    Forall (is_record certificateTemplate) certificates.

(** [Array.isArray(v)] *)
Definition is_array (v : Value) : bool :=
  match v with
  | JArr _ => true
  | _ => false
  end.

Lemma seq_bind_empty {A} (f : nat → list A) : seq 0 (length (@nil Value) `max` 0) ≫= f = [].
Proof. done. Qed.

(** The own property [k] of an object given by its properties. A parsed
    object has a key once; were one listed twice, the later would stand. *)
Definition own_property (props : Props) (k : string) : option Value :=
  assoc k (reverse props).

Lemma own_property_cons k k' v props :
  own_property ((k', v) :: props) k =
    match own_property props k with
    | Some v' => Some v'
    | None => if decide (k' = k) then Some v else None
    end.
Proof.
  unfold own_property. rewrite reverse_cons, assoc_app. by destruct (assoc k (reverse props)).
Qed.

(** A property of a spread [{ ...target, ...source }]: that of [source],
    or else that of [target]. *)
Lemma assoc_assign target source k :
  assoc k (assign target source) =
    match own_property source k with
    | Some v => Some v
    | None => assoc k target
    end.
Proof.
  unfold assign. revert target. induction source as [|[k' v] source IH]; intros target.
  - done.
  - cbn [foldl fst snd]. rewrite IH, own_property_cons, assoc_obj_set.
    destruct (own_property source k); [done|].
    destruct (decide (k = k')) as [->|Hne]; [by rewrite decide_True|].
    by rewrite decide_False by done.
Qed.

(** The property [k] of a record that is the spread of [source] over a
    template: the value that [source] has for [k], as it is, or else the
    value of the template. *)
Definition leaf_from (template source : Props) (record : Value) (k : string) : Prop :=
  prop record k = match own_property source k with
                  | Some v => v
                  | None => prop (JObj template) k
                  end.

Lemma assign_leaf template source k :
  leaf_from template source (JObj (assign template source)) k.
Proof.
  unfold leaf_from, prop. cbn [own_props]. rewrite assoc_assign.
  by destruct (own_property source k).
Qed.

Lemma merge_over_leaf template item k :
  assign [] template = template →
  leaf_from template (object_or_empty item) (JObj (merge_over template JUndefined item)) k.
Proof.
  intros Htemplate. unfold merge_over.
  change (object_or_empty JUndefined) with (@nil (string * Value)).
  change (assign (assign [] template) []) with (assign [] template).
  rewrite Htemplate. apply assign_leaf.
Qed.

(** Every record of a normalized section comes from a truthy element of
    the input section, whose leaves it has. *)
Lemma array_objects_normal_leaves list_ template record :
  assign [] template = template →
  record ∈ array_objects_normal list_ template JUndefined →
  ∃ i item, array_or_empty list_ !! i = Some item ∧ truthy item = true ∧
            ∀ k, leaf_from template (object_or_empty item) record k.
Proof.
  intros Htemplate (i & Hrecord & _)%list_elem_of_bind.
  rewrite array_objects_pushed_eq in Hrecord. cbv zeta in Hrecord.
  cbn [array_or_empty] in Hrecord. rewrite at_index_nil in Hrecord.
  cbn [truthy negb] in Hrecord. rewrite andb_true_r in Hrecord.
  destruct (truthy (at_index (array_or_empty list_) i)) eqn:Htruthy;
    [|by apply elem_of_nil in Hrecord].
  apply list_elem_of_singleton in Hrecord as ->.
  unfold at_index in *. destruct (array_or_empty list_ !! i) as [item|] eqn:Hi; [|done].
  exists i, item. split_and!; [done | done |].
  intros k. by apply merge_over_leaf.
Qed.

Lemma entries_normal_leaves template prefix list_ record :
  assign [] template = template →
  record ∈ entries_normal template prefix list_ JUndefined →
  ∃ i item, array_or_empty list_ !! i = Some item ∧ truthy item = true ∧
            ∀ k, k ≠ "points" → leaf_from template (object_or_empty item) record k.
Proof.
  intros Htemplate (i & Hrecord & _)%list_elem_of_bind.
  rewrite entries_pushed_eq in Hrecord. cbv zeta in Hrecord.
  cbn [array_or_empty] in Hrecord. rewrite at_index_nil in Hrecord.
  cbn [truthy negb] in Hrecord. rewrite andb_true_r in Hrecord.
  destruct (truthy (at_index (array_or_empty list_) i)) eqn:Htruthy;
    [|by apply elem_of_nil in Hrecord].
  apply list_elem_of_singleton in Hrecord as ->.
  unfold at_index in *. destruct (array_or_empty list_ !! i) as [item|] eqn:Hi; [|done].
  exists i, item. split_and!; [done | done |].
  intros k Hk. unfold leaf_from. rewrite prop_obj_set_ne by done.
  by apply merge_over_leaf.
Qed.

(** The leaves of the document [doc] normalized from [input]: every
    property of [basics] and of a job, project, education or certificate
    record is the value that the input has for it, as it is, or else the
    empty string of the template. *)
Definition leaves_copied (input doc : Value) : Prop :=
  (∀ k, leaf_from emptyBasics
          (own_props (or_else (input_field input "basics") (JObj [])))
          (prop doc "basics") k) ∧
  (∀ key template record,
     (key, template) ∈ [("education", educationTemplate);
                        ("certificates", certificateTemplate)] →
     record ∈ array_or_empty (prop doc key) →
     ∃ i item, array_or_empty (input_field input key) !! i = Some item ∧
               truthy item = true ∧
               ∀ k, leaf_from template (object_or_empty item) record k) ∧
  (∀ key template record,
     (key, template) ∈ [("experience", experienceTemplate);
                        ("projects", projectTemplate)] →
     record ∈ array_or_empty (prop doc key) →
     ∃ i item, array_or_empty (input_field input key) !! i = Some item ∧
               truthy item = true ∧
               ∀ k, k ≠ "points" → leaf_from template (object_or_empty item) record k).

Lemma normalized_leaves input doc : normalizeResumeJson input = Ok doc → leaves_copied input doc.
Proof.
  rewrite normalizeResumeJson_total. unfold leaves_copied, input_field.
  destruct (truthy input && typeof_object input) eqn:Hinput; intros [= <-].
  - split_and!.
    + intros k. apply assign_leaf.
    + intros key template record Hkey.
      repeat (apply elem_of_cons in Hkey as [[= -> ->]|Hkey]);
        [| |by apply elem_of_nil in Hkey]; by apply array_objects_normal_leaves.
    + intros key template record Hkey.
      repeat (apply elem_of_cons in Hkey as [[= -> ->]|Hkey]);
        [| |by apply elem_of_nil in Hkey]; by apply entries_normal_leaves.
  - split_and!.
    + intros k. unfold leaf_from.
      change (own_props (or_else JUndefined (JObj []))) with (@nil (string * Value)).
      reflexivity.
    + intros key template record Hkey.
      repeat (apply elem_of_cons in Hkey as [[= -> ->]|Hkey]);
        [| |by apply elem_of_nil in Hkey]; by intros ?%elem_of_nil.
    + intros key template record Hkey.
      repeat (apply elem_of_cons in Hkey as [[= -> ->]|Hkey]);
        [| |by apply elem_of_nil in Hkey]; by intros ?%elem_of_nil.
Qed.

(** C4, as the code has it. [normalizeResumeJson] returns on every input,
    and the document has the seven fields: [basics] with every contact key,
    [summary] as [{ id, text }] of strings, [skills] as objects with ids,
    [experience] and [projects] as objects with every template key and
    [{ id, text }] points, [education] and [certificates] as objects with
    every template key. An input that is not an object gives the empty
    document and a section that is not an array gives the empty sequence.
    The leaves of [basics] and of the records are the values that the input
    has for them, as they are, whatever their type; an absent leaf is the
    empty string of the template. *)
Theorem normalize_returns_shaped_document :
  ∀ input : Value,
    ∃ doc,
      normalizeResumeJson input = Ok doc ∧
      document_shape doc ∧
      (truthy input && typeof_object input = false → doc = JObj emptyResumeJson) ∧
      (∀ key, key ∈ ["skills"; "experience"; "projects"; "education"; "certificates"] →
              is_array (input_field input key) = false → prop doc key = JArr []) ∧
      leaves_copied input doc.
Proof.
  intros input.
  destruct (normalizeResumeJson input) as [doc|] eqn:Hdoc;
    [|by rewrite normalizeResumeJson_total in Hdoc].
  pose proof (normalized_leaves input doc Hdoc) as Hleaves.
  exists doc. split; [done|]. revert Hdoc Hleaves.
  rewrite normalizeResumeJson_total. unfold input_field.
  destruct (truthy input && typeof_object input) eqn:Hinput; intros [= <-] Hleaves.
  - split_and!; [|done| |done].
    + exists (assign emptyBasics (own_props (or_else (prop input "basics") (JObj [])))),
        (summary_normal (prop input "summary") JUndefined),
        (seq 0 (length (array_or_empty (prop input "skills")) `max` 0)
           ≫= skills_pushed (array_or_empty (prop input "skills")) []),
        (entries_normal experienceTemplate "exp" (prop input "experience") JUndefined),
        (entries_normal projectTemplate "proj" (prop input "projects") JUndefined),
        (array_objects_normal (prop input "education") educationTemplate JUndefined),
        (array_objects_normal (prop input "certificates") certificateTemplate JUndefined).
      split; [reflexivity|]. split_and!.
      * intros k Hk. by apply assign_keeps_keys.
      * rewrite summary_normal_shape. eexists _, _. split; [reflexivity|].
        destruct (own_id (prop input "summary")) eqn:Hown; [by eapply own_id_nonempty | done].
      * apply Forall_forall. intros x (i & Hx & _)%list_elem_of_bind.
        by eapply skills_pushed_shape.
      * apply entries_normal_shape.
      * apply entries_normal_shape.
      * apply array_objects_normal_shape.
      * apply array_objects_normal_shape.
    + intros key Hkey Harray.
      assert (array_or_empty (prop input key) = []) as Hempty.
      { by destruct (prop input key). }
      repeat (apply elem_of_cons in Hkey as [->|Hkey]);
        [..|by apply elem_of_nil in Hkey];
        unfold normal_document, entries_normal, array_objects_normal;
        rewrite Hempty; reflexivity.
  - split_and!; [|done| |done].
    + exists emptyBasics, (JObj [("id", JStr "summary-1"); ("text", JStr "")]),
        [], [], [], [], [].
      split; [reflexivity|]. split_and!; try (by constructor).
      * by intros k Hk.
      * by exists "summary-1", "".
    + intros key Hkey _.
      repeat (apply elem_of_cons in Hkey as [->|Hkey]);
        [..|by apply elem_of_nil in Hkey]; reflexivity.
Qed.

(** C4, as stated, fails on wrong-typed leaves: the numbers given for a
    contact field and for a job's company are returned as they are, neither
    strings nor degraded to the empty string. *)
Lemma wrong_typed_leaf_is_kept :
  ∃ doc basics job,
    normalizeResumeJson
      (JObj [("basics", JObj [("name", JNum 5)]);
             ("experience", JArr [JObj [("company", JNum 7)]])]) = Ok doc ∧
    prop doc "basics" = basics ∧ prop basics "name" = JNum 5 ∧
    prop doc "experience" = JArr [job] ∧ prop job "company" = JNum 7.
Proof. eexists _, _, _. vm_compute. repeat split; reflexivity. Qed.
End normalized_ids.

(** ** Array-index keys *)

Section array_indices.
Import JS.
Local Open Scope N_scope.

Definition pow10 (n : nat) : N := 10 ^ N.of_nat n.

Lemma pow10_S n : pow10 (S n) = 10 * pow10 n.
Proof. unfold pow10. rewrite Nat2N.inj_succ. apply N.pow_succ_r'. Qed.

Lemma pow10_pos n : 0 < pow10 n.
Proof. unfold pow10. apply N.neq_0_lt_0. by apply N.pow_nonzero. Qed.

Lemma pow10_mono n n' : (n ≤ n')%nat → pow10 n ≤ pow10 n'.
Proof. intros Hn. unfold pow10. apply N.pow_le_mono_r; [done | lia]. Qed.

Lemma digit_value_bound c d : digit_value c = Some d → d ≤ 9.
Proof.
  unfold digit_value. destruct (_ && _) eqn:Hc; [|done]. intros [= <-].
  apply andb_true_iff in Hc as [H1%N.leb_le H2%N.leb_le]. lia.
Qed.

Lemma digit_value_inj c c' d : digit_value c = Some d → digit_value c' = Some d → c = c'.
Proof.
  unfold digit_value. intros Hd Hd'.
  destruct ((48 <=? N_of_ascii c) && (N_of_ascii c <=? 57)) eqn:Hc; [|done].
  destruct ((48 <=? N_of_ascii c') && (N_of_ascii c' <=? 57)) eqn:Hc'; [|done].
  injection Hd as <-. injection Hd' as Heq.
  apply andb_true_iff in Hc as [H1%N.leb_le H2%N.leb_le].
  apply andb_true_iff in Hc' as [H1'%N.leb_le H2'%N.leb_le].
  rewrite <- (ascii_N_embedding c), <- (ascii_N_embedding c'). f_equal. lia.
Qed.

Lemma digit_value_zero c : digit_value c = Some 0 → c = "0"%char.
Proof. intros Hc. by apply (digit_value_inj c "0"%char 0). Qed.

Lemma digits_value_shift s acc :
  digits_value s acc = (λ v, acc * pow10 (String.length s) + v) <$> digits_value s 0.
Proof.
  revert acc. induction s as [|c r IH]; intros acc.
  - simpl. f_equal. unfold pow10. simpl. lia.
  - cbn [digits_value String.length]. destruct (digit_value c) as [d|]; [|done].
    rewrite (IH (10 * acc + d)), (IH (10 * 0 + d)), pow10_S.
    destruct (digits_value r 0) as [v|]; [|done]. simpl. f_equal. lia.
Qed.

Lemma digits_value_lt s v : digits_value s 0 = Some v → v < pow10 (String.length s).
Proof.
  revert v. induction s as [|c r IH]; intros v.
  - intros [= <-]. apply pow10_pos.
  - cbn [digits_value String.length]. destruct (digit_value c) as [d|] eqn:Hd; [|done].
    rewrite digits_value_shift, pow10_S.
    destruct (digits_value r 0) as [w|]; [|done]. intros [= <-].
    apply digit_value_bound in Hd. specialize (IH w eq_refl). nia.
Qed.

Lemma digits_value_cons c r v :
  digits_value (String c r) 0 = Some v →
  ∃ d w, digit_value c = Some d ∧ digits_value r 0 = Some w ∧
         v = d * pow10 (String.length r) + w ∧ w < pow10 (String.length r).
Proof.
  cbn [digits_value]. destruct (digit_value c) as [d|] eqn:Hd; [|done].
  rewrite digits_value_shift.
  destruct (digits_value r 0) as [w|] eqn:Hw; [|done]. intros [= <-].
  exists d, w. split_and!; [done | done | lia | by apply digits_value_lt].
Qed.

Lemma digits_value_inj_length s s' v :
  String.length s = String.length s' →
  digits_value s 0 = Some v → digits_value s' 0 = Some v → s = s'.
Proof.
  revert s' v. induction s as [|c r IH]; intros [|c' r'] v Hlen; try done.
  injection Hlen as Hlen.
  intros (d & w & Hd & Hw & -> & Hlt)%digits_value_cons
         (d' & w' & Hd' & Hw' & Heq & Hlt')%digits_value_cons.
  rewrite <- Hlen in *.
  assert (d = d' ∧ w = w') as [<- <-].
  { apply (N.div_mod_unique (pow10 (String.length r))); [done | done | lia]. }
  f_equal; [by eapply digit_value_inj | by eapply IH].
Qed.

Lemma array_index_inv k n :
  array_index k = Some n →
  ∃ c r, k = String c r ∧ digits_value k 0 = Some n ∧ (r = "" ∨ c ≠ "0"%char).
Proof.
  unfold array_index. destruct k as [|c r]; [done|].
  destruct (bool_decide (c = "0"%char) && bool_decide (r ≠ "")) eqn:Hlead; [done|].
  destruct (digits_value (String c r) 0) as [v|] eqn:Hv; [|done].
  destruct (v <? 4294967295); [|done]. intros [= <-].
  exists c, r. split_and!; [done | done |].
  apply andb_false_iff in Hlead as [Hc%bool_decide_eq_false | Hr%bool_decide_eq_false].
  - by right.
  - left. destruct r; [done|]. by destruct Hr.
Qed.

(** The length of a canonical index is determined by its value. *)
Lemma array_index_length k n :
  array_index k = Some n →
  n < pow10 (String.length k) ∧
  (String.length k = 1%nat ∨ pow10 (String.length k - 1) ≤ n).
Proof.
  intros (c & r & -> & Hv & Hlead)%array_index_inv. split; [by apply digits_value_lt|].
  destruct Hlead as [->|Hc]; [by left|]. right.
  apply digits_value_cons in Hv as (d & w & Hd & _ & -> & _).
  cbn [String.length]. replace (S (String.length r) - 1)%nat with (String.length r) by lia.
  assert (d ≠ 0) as Hd0. { intros ->. by apply Hc, digit_value_zero. }
  pose proof (pow10_pos (String.length r)). nia.
Qed.

Lemma array_index_inj k k' n : array_index k = Some n → array_index k' = Some n → k = k'.
Proof.
  intros Hk Hk'.
  pose proof (array_index_length k n Hk) as [Hlt Hge].
  pose proof (array_index_length k' n Hk') as [Hlt' Hge'].
  apply array_index_inv in Hk as (c & r & -> & Hv & _).
  apply array_index_inv in Hk' as (c' & r' & -> & Hv' & _).
  eapply digits_value_inj_length; [|done..].
  cbn [String.length] in *.
  destruct (decide (String.length r = String.length r')) as [->|Hne]; [done|]. exfalso.
  destruct (decide (String.length r < String.length r')%nat) as [Hlen|Hlen].
  - destruct Hge' as [?|Hge']; [lia|].
    pose proof (pow10_mono (S (String.length r)) (S (String.length r') - 1)). lia.
  - destruct Hge as [?|Hge]; [lia|].
    pose proof (pow10_mono (S (String.length r')) (S (String.length r) - 1)). lia.
Qed.
End array_indices.

(** ** Objects in enumeration order *)

Section canonical_objects.
Import JS.

(** [k] may come before [k'] in the enumeration order of an object. *)
Definition key_before (k k' : string) : Prop :=
  match array_index k' with
  | Some n' => ∃ n, array_index k = Some n ∧ (n < n')%N
  | None => True
  end.

(** Distinct keys, the array indices first and in ascending order. *)
Fixpoint canonical_keys (ks : list string) : Prop :=
  match ks with
  | [] => True
  | k :: ks' => (k ∉ ks') ∧ Forall (key_before k) ks' ∧ canonical_keys ks'
  end.

(** The property lists that are objects: what [JSON.parse], an object
    literal or a spread builds. *)
Definition canonical (props : Props) : Prop := canonical_keys props.*1.

Lemma assoc_None props k : assoc k props = None ↔ k ∉ props.*1.
Proof.
  induction props as [|[k' v] props IH]; simpl.
  - split; [intros _; apply not_elem_of_nil | done].
  - rewrite not_elem_of_cons. destruct (decide (k' = k)) as [->|Hne].
    + split; [done | by intros [? _]].
    + rewrite IH. split; [by intros ? | by intros [_ ?]].
Qed.

Lemma replace_prop_keys k v props : (replace_prop k v props).*1 = props.*1.
Proof.
  induction props as [|[k' v'] props IH]; [done|]. cbn [replace_prop].
  destruct (decide (k' = k)) as [->|Hne]; [done|].
  rewrite !fmap_cons. by rewrite IH.
Qed.

Lemma replace_prop_same k v props : assoc k props = Some v → replace_prop k v props = props.
Proof.
  induction props as [|[k' v'] props IH]; simpl; [done|].
  destruct (decide (k' = k)) as [->|Hne]; [by intros [= ->] | intros Hk; by rewrite IH].
Qed.

(** Writing the value that a property already has changes nothing. *)
Lemma obj_set_same k v props : assoc k props = Some v → obj_set k v props = props.
Proof. intros Hk. unfold obj_set. rewrite Hk. by apply replace_prop_same. Qed.

Lemma insert_index_keys_append n k v props :
  array_index k = Some n →
  Forall (λ k', key_before k' k) props.*1 →
  insert_index n k v props = props ++ [(k, v)].
Proof.
  intros Hk. induction props as [|[k' v'] props IH]; simpl; [done|].
  intros [Hk' Hrest]%Forall_cons. unfold key_before in Hk'. rewrite Hk in Hk'.
  destruct Hk' as (n' & -> & Hlt). apply N.ltb_lt in Hlt as ->. by rewrite IH.
Qed.

Lemma canonical_keys_app_inv ks1 k ks2 :
  canonical_keys (ks1 ++ k :: ks2) →
  (k ∉ ks1) ∧ Forall (λ k', key_before k' k) ks1.
Proof.
  induction ks1 as [|k1 ks1 IH]; simpl.
  - intros _. split; [apply not_elem_of_nil | constructor].
  - intros (Hnotin & Hbefore & Hrest). destruct (IH Hrest) as [Hk Hall]. split.
    + apply not_elem_of_cons. split; [|done].
      intros ->. apply Hnotin, elem_of_app. right. by left.
    + constructor; [|done]. rewrite Forall_app, Forall_cons in Hbefore. tauto.
Qed.

Lemma assign_canonical_from acc rest_ :
  canonical (acc ++ rest_) →
  foldl (λ acc kv, obj_set kv.1 kv.2 acc) acc rest_ = acc ++ rest_.
Proof.
  revert acc. induction rest_ as [|[k v] rest_ IH]; intros acc Hcanon; simpl.
  - by rewrite app_nil_r.
  - assert (obj_set k v acc = acc ++ [(k, v)]) as ->.
    { unfold canonical in Hcanon. rewrite fmap_app, fmap_cons in Hcanon.
      cbn [fst] in Hcanon.
      apply canonical_keys_app_inv in Hcanon as [Hnotin Hbefore].
      unfold obj_set. apply assoc_None in Hnotin as ->.
      destruct (array_index k) as [n|] eqn:Hk; [|done].
      by apply insert_index_keys_append. }
    rewrite IH; rewrite <- app_assoc; done.
Qed.

(** Spreading an object into a fresh literal gives the object back. *)
Lemma assign_canonical props : canonical props → assign [] props = props.
Proof. intros Hcanon. by apply (assign_canonical_from []). Qed.

Lemma canonical_replace_prop k v props : canonical props → canonical (replace_prop k v props).
Proof. unfold canonical. by rewrite replace_prop_keys. Qed.

Lemma canonical_snoc k v props :
  canonical props → k ∉ props.*1 → array_index k = None → canonical (props ++ [(k, v)]).
Proof.
  unfold canonical. intros Hcanon Hnotin Hk. rewrite fmap_app. simpl.
  induction (props.*1) as [|k' ks IH]; simpl.
  - split_and!; [apply not_elem_of_nil | constructor | done].
  - destruct Hcanon as (Hk' & Hbefore & Hrest).
    apply not_elem_of_cons in Hnotin as [Hne Hnotin]. split_and!.
    + rewrite elem_of_app, list_elem_of_singleton. intros [?|?]; [done | congruence].
    + apply Forall_app. split; [done|]. constructor; [|constructor].
      unfold key_before. by rewrite Hk.
    + by apply IH.
Qed.

Lemma insert_index_keys n k v props :
  ∀ x, x ∈ (insert_index n k v props).*1 ↔ x = k ∨ x ∈ props.*1.
Proof.
  induction props as [|[k' v'] props IH]; intros x; simpl.
  - rewrite list_elem_of_singleton. split; [by left | intros [?|?%elem_of_nil]; done].
  - destruct (array_index k') as [n'|]; [destruct (n' <? n)%N|]; simpl;
      rewrite ?elem_of_cons, ?IH; simpl; tauto.
Qed.

Lemma canonical_insert_index n k v props :
  canonical props → k ∉ props.*1 → array_index k = Some n →
  canonical (insert_index n k v props).
Proof.
  unfold canonical. intros Hcanon Hnotin Hk.
  induction props as [|[k' v'] props IH]; simpl.
  - split_and!; [apply not_elem_of_nil | constructor | done].
  - simpl in Hcanon, Hnotin. destruct Hcanon as (Hk' & Hbefore & Hrest).
    apply not_elem_of_cons in Hnotin as [Hne Hnotin].
    assert (∀ n', array_index k' = Some n' → (n' <? n)%N = false →
                  canonical_keys (k :: k' :: props.*1)) as Hfront.
    { intros n' Hn' Hge. apply N.ltb_ge in Hge.
      assert (n ≠ n') as Hnn'. { intros ->. apply Hne. by eapply array_index_inj. }
      split_and!.
      - apply not_elem_of_cons. by split.
      - constructor.
        + unfold key_before. rewrite Hn'. exists n. split; [done | lia].
        + eapply Forall_impl; [exact Hbefore|]. intros k'' Hk''. unfold key_before in *.
          destruct (array_index k'') as [n''|]; [|done].
          destruct Hk'' as (m & Hm & Hlt). rewrite Hn' in Hm. injection Hm as <-.
          exists n. split; [done | lia].
      - done. }
    destruct (array_index k') as [n'|] eqn:Hn'; [destruct (n' <? n)%N eqn:Hlt|].
    + simpl. split_and!.
      * rewrite insert_index_keys. intros [->|?]; [done | done].
      * apply Forall_forall. intros x [->|Hx]%insert_index_keys.
        -- unfold key_before. rewrite Hk. exists n'. split; [done | by apply N.ltb_lt].
        -- rewrite Forall_forall in Hbefore. by apply Hbefore.
      * by apply IH.
    + by apply (Hfront n').
    + simpl. split; [|split].
      * apply not_elem_of_cons. by split.
      * constructor.
        -- rewrite Forall_forall in Hbefore.
           unfold key_before. destruct (array_index k') eqn:?; [done|].
           done.
        -- eapply Forall_impl; [exact Hbefore|]. intros k'' Hk''. unfold key_before in *.
           destruct (array_index k'') as [n''|]; [|done].
           destruct Hk'' as (m & Hm & _). congruence.
      * done.
Qed.

Lemma canonical_obj_set k v props : canonical props → canonical (obj_set k v props).
Proof.
  intros Hcanon. unfold obj_set. destruct (assoc k props) as [v'|] eqn:Hk.
  - by apply canonical_replace_prop.
  - apply assoc_None in Hk. destruct (array_index k) as [n|] eqn:Hidx.
    + by apply canonical_insert_index.
    + by apply canonical_snoc.
Qed.

Lemma canonical_assign target source : canonical target → canonical (assign target source).
Proof.
  unfold assign. revert target. induction source as [|[k v] source IH]; intros target Ht;
    simpl; [done|].
  by apply IH, canonical_obj_set.
Qed.

Lemma canonical_spread v : canonical (spread v).
Proof. by apply canonical_assign. Qed.

(** Spreading twice is spreading once. *)
Lemma spread_spread v : spread (JObj (spread v)) = spread v.
Proof. apply assign_canonical, canonical_spread. Qed.
End canonical_objects.
(** ** The working copy of a normalized document *)

Section working_copy.
Import JS Backend Frontend.

Lemma canonical_fixed props : assign [] props = props → canonical props.
Proof. intros <-. by apply canonical_assign. Qed.

Lemma spread_canonical props : canonical props → spread (JObj props) = props.
Proof. apply assign_canonical. Qed.

Lemma spread_point id text :
  spread (JObj [("id", JStr id); ("text", JStr text)]) = [("id", JStr id); ("text", JStr text)].
Proof. reflexivity. Qed.

Lemma clonePoints_points points : Forall is_point points → clonePoints (JArr points) = points.
Proof.
  intros Hpoints. unfold clonePoints. induction Hpoints as [|point points Hpoint _ IH]; [done|].
  cbn [map]. rewrite IH. destruct Hpoint as (id & text & -> & _).
  cbn [truthy typeof_object andb]. by rewrite spread_point.
Qed.

(** A job or project whose copy is equal to it: an object, the array-index
    keys first, with an array of [{ id, text }] points. *)
Definition plain_entry (v : Value) : Prop :=
  ∃ props points, v = JObj props ∧ canonical props ∧
                  assoc "points" props = Some (JArr points) ∧ Forall is_point points.

Definition plain_record (v : Value) : Prop := ∃ props, v = JObj props ∧ canonical props.

Lemma cloneJobs_entries entries :
  Forall plain_entry entries →
  ∃ copies, cloneJobs (JArr entries) = Ok copies ∧ JObj <$> copies = entries.
Proof.
  intros Hentries. exists (own_props <$> entries). split.
  - unfold cloneJobs. apply map_m_total. intros entry Hentry.
    rewrite Forall_forall in Hentries.
    destruct (Hentries entry Hentry) as (props & points & -> & Hcanon & Hpoints & Hall).
    rewrite get_JObj, bind_Ok. cbv zeta. rewrite spread_canonical by done.
    unfold prop. cbn [own_props]. rewrite Hpoints.
    change (default JUndefined (Some (JArr points))) with (JArr points).
    rewrite clonePoints_points by done. by rewrite obj_set_same.
  - induction Hentries as [|entry entries (props & ? & -> & _) _ IH]; [done|].
    rewrite !fmap_cons, IH. done.
Qed.

Lemma cloneRecords_records records :
  Forall plain_record records → cloneRecords (JArr records) = records.
Proof.
  intros Hrecords. unfold cloneRecords.
  induction Hrecords as [|record records (props & -> & Hcanon) _ IH]; [done|].
  cbn [map]. by rewrite IH, spread_canonical.
Qed.

(** The documents that [buildUpdatedResumeData] copies to an equal
    document. *)
Definition plain_document (doc : Value) : Prop :=
  ∃ basics summary skills experience projects education certificates,
    doc = JObj [("basics", JObj basics); ("summary", summary); ("skills", JArr skills);
                ("experience", JArr experience); ("projects", JArr projects);
                ("education", JArr education); ("certificates", JArr certificates)] ∧
    canonical basics ∧
    is_point summary ∧
    Forall has_nonempty_id skills ∧
    Forall plain_entry experience ∧
    Forall plain_entry projects ∧
    Forall plain_record education ∧
    Forall plain_record certificates.

Lemma plain_document_truthy doc : plain_document doc → truthy doc = true.
Proof. by intros (? & ? & ? & ? & ? & ? & ? & -> & _). Qed.

(** The copy that [buildUpdatedResumeData] starts from denotes the
    document it copies. *)
Lemma initial_copy_plain doc :
  plain_document doc →
  ∃ u, initial_copy doc = Ok u ∧ updated_value u = doc ∧
       summary u = prop doc "summary" ∧ JArr (skills u) = prop doc "skills" ∧
       JArr (JObj <$> experience u) = prop doc "experience" ∧
       JArr (JObj <$> projects u) = prop doc "projects".
Proof.
  intros (basics & summary & skills & experience & projects & education & certificates &
          -> & Hbasics & (id & text & -> & _) & _ & Hexperience & Hprojects &
          Heducation & Hcertificates).
  destruct (cloneJobs_entries experience Hexperience) as (experience' & Hexp & <-).
  destruct (cloneJobs_entries projects Hprojects) as (projects' & Hproj & <-).
  set (d := JObj [("basics", JObj basics);
                  ("summary", JObj [("id", JStr id); ("text", JStr text)]);
                  ("skills", JArr skills); ("experience", JArr (JObj <$> experience'));
                  ("projects", JArr (JObj <$> projects')); ("education", JArr education);
                  ("certificates", JArr certificates)]).
  exists {| rest := own_props d; basics := basics;
            summary := JObj [("id", JStr id); ("text", JStr text)]; skills := skills;
            experience := experience'; projects := projects';
            education := education; certificates := certificates |}.
  split; [|done].
  unfold initial_copy.
  rewrite (get_object d "basics"), bind_Ok by done.
  rewrite (get_object d "summary"), bind_Ok by done.
  rewrite (get_object d "skills"), bind_Ok by done.
  rewrite (get_object d "experience"), bind_Ok by done.
  change (prop d "experience") with (JArr (JObj <$> experience')).
  rewrite Hexp, bind_Ok.
  rewrite (get_object d "projects"), bind_Ok by done.
  change (prop d "projects") with (JArr (JObj <$> projects')).
  rewrite Hproj, bind_Ok.
  rewrite (get_object d "education"), bind_Ok by done.
  rewrite (get_object d "certificates"), bind_Ok by done.
  change (prop d "basics") with (JObj basics).
  change (prop d "summary") with (JObj [("id", JStr id); ("text", JStr text)]).
  change (prop d "skills") with (JArr skills).
  change (prop d "education") with (JArr education).
  change (prop d "certificates") with (JArr certificates).
  change (or_else (JObj basics) (JObj [])) with (JObj basics).
  cbn [truthy typeof_object andb].
  rewrite spread_point, (spread_canonical basics), !cloneRecords_records by done.
  change (spread d) with (own_props d). done.
Qed.

Lemma merge_over_canonical template fallbackItem item :
  canonical (merge_over template fallbackItem item).
Proof. unfold merge_over. by do 3 apply canonical_assign. Qed.

Lemma entries_normal_plain template prefix list_ resumeList :
  Forall plain_entry (entries_normal template prefix list_ resumeList).
Proof.
  apply Forall_forall. intros x (i & Hx & _)%list_elem_of_bind.
  rewrite entries_pushed_eq in Hx. cbv zeta in Hx.
  case_match; [by apply elem_of_nil in Hx|].
  apply list_elem_of_singleton in Hx as ->. eexists _, _. split_and!.
  - reflexivity.
  - apply canonical_obj_set, merge_over_canonical.
  - by rewrite assoc_obj_set, decide_True.
  - apply points_normal_shape.
Qed.

Lemma array_objects_normal_plain list_ template fallbackList :
  Forall plain_record (array_objects_normal list_ template fallbackList).
Proof.
  apply Forall_forall. intros x (i & Hx & _)%list_elem_of_bind.
  rewrite array_objects_pushed_eq in Hx. cbv zeta in Hx.
  case_match; [by apply elem_of_nil in Hx|].
  apply list_elem_of_singleton in Hx as ->. eexists. split; [reflexivity|].
  apply merge_over_canonical.
Qed.

(** Every document that the normalizer returns is copied to an equal
    document. *)
Lemma normalized_plain raw doc : normalizeResumeJson raw = Ok doc → plain_document doc.
Proof.
  rewrite normalizeResumeJson_total. intros [= <-].
  destruct (truthy raw && typeof_object raw).
  - exists (assign emptyBasics (own_props (or_else (prop raw "basics") (JObj [])))),
      (summary_normal (prop raw "summary") JUndefined),
      (seq 0 (length (array_or_empty (prop raw "skills")) `max` 0)
         ≫= skills_pushed (array_or_empty (prop raw "skills")) []),
      (entries_normal experienceTemplate "exp" (prop raw "experience") JUndefined),
      (entries_normal projectTemplate "proj" (prop raw "projects") JUndefined),
      (array_objects_normal (prop raw "education") educationTemplate JUndefined),
      (array_objects_normal (prop raw "certificates") certificateTemplate JUndefined).
    split; [reflexivity|]. split_and!.
    + by apply canonical_assign, canonical_fixed.
    + rewrite summary_normal_shape. eexists _, _. split; [reflexivity|].
      destruct (own_id (prop raw "summary")) eqn:Hown; [by eapply own_id_nonempty | done].
    + apply Forall_forall. intros x (i & Hx & _)%list_elem_of_bind.
      by eapply skills_pushed_shape.
    + apply entries_normal_plain.
    + apply entries_normal_plain.
    + apply array_objects_normal_plain.
    + apply array_objects_normal_plain.
  - exists emptyBasics, (JObj [("id", JStr "summary-1"); ("text", JStr "")]),
      [], [], [], [], [].
    split; [reflexivity|]. split_and!; try (by constructor).
    + by apply canonical_fixed.
    + by exists "summary-1", "".
Qed.

(** Whatever the change items and the decisions, without a candidate a
    normalized document comes back as it is. *)
Lemma buildUpdatedResumeData_absent doc analysisJson changeItems changeState :
  plain_document doc → truthy analysisJson = false →
  buildUpdatedResumeData doc analysisJson changeItems changeState = Ok doc.
Proof.
  intros Hdoc Ha. unfold buildUpdatedResumeData.
  rewrite (plain_document_truthy doc Hdoc), Ha. cbn [negb].
  destruct (initial_copy_plain doc Hdoc) as (u & -> & Hu & _).
  by rewrite bind_Ok, Hu.
Qed.

(** C6, as the code has it. When either document is absent
    [buildChangeItems] returns the empty sequence. When the candidate is
    absent [buildUpdatedResumeData] returns its copy of the original; the
    copy is made before the candidate is looked at, and for an original that
    went through the normalizer it is made without throwing and is a
    document equal to the original. *)
Theorem absent_document_gives_empty_or_copy :
  ∀ (exponent_text : Z → string) (string_to_number : string → option Z)
    (resumeJson analysisJson : Value),
    (truthy resumeJson = false ∨ truthy analysisJson = false →
     buildChangeItems exponent_text string_to_number resumeJson analysisJson = Ok []) ∧
    (∀ (raw : Value) (changeItems : list ChangeItem) (changeState : gmap string bool),
       normalizeResumeJson raw = Ok resumeJson → truthy analysisJson = false →
       buildUpdatedResumeData resumeJson analysisJson changeItems changeState
         = Ok resumeJson).
Proof.
  intros exponent_text string_to_number resumeJson analysisJson. split.
  - apply buildChangeItems_absent.
  - intros raw changeItems changeState Hraw Ha.
    apply buildUpdatedResumeData_absent; [by eapply normalized_plain | done].
Qed.
End working_copy.

Section absent_document_example.
Import JS Backend Frontend.

(** No original gives no change item, and a normalized résumé without a
    candidate comes back as it is. *)
Lemma absent_document_gives_empty_or_copy_witness :
  let raw := JObj [("summary", JStr "Engineer");
                   ("skills", JArr [JObj [("Languages", JStr "Go")]]);
                   ("experience",
                    JArr [JObj [("company", JStr "Acme");
                                ("points", JArr [JStr "Built the billing service"])]])] in
  buildChangeItems (λ _, "") (λ _, None) JNull raw = Ok [] ∧
  ∃ resumeJson,
    normalizeResumeJson raw = Ok resumeJson ∧
    buildUpdatedResumeData resumeJson JUndefined
      [SummaryItem "summary:summary-1" (JStr "") (JStr "Engineer") (JStr "summary-1")]
      {["summary:summary-1" := true]} = Ok resumeJson.
Proof.
  intros raw. split.
  - apply (absent_document_gives_empty_or_copy (λ _, "") (λ _, None) JNull raw). by left.
  - eexists. split; [vm_compute; reflexivity|].
    apply (absent_document_gives_empty_or_copy (λ _, "") (λ _, None) _ JUndefined)
      with (raw := raw); [vm_compute; reflexivity | reflexivity].
Defined.

(** C6, as stated, fails on an original that did not go through the
    normalizer: the copy reads [item.points] of every job, so a job that is
    [null] makes [buildUpdatedResumeData] throw although the candidate is
    absent. *)
Lemma absent_candidate_copy_throws :
  buildUpdatedResumeData (JObj [("experience", JArr [JNull])]) JUndefined [] ∅ = TypeError.
Proof. reflexivity. Qed.
End absent_document_example.

(** ** Replacing and removing the first match *)

Section first_match.
Import JS Frontend.
Context {A : Type}.
Implicit Types (p q : A → bool) (l : list A).

(** [i = l.findIndex(p); if (i >= 0) l[i] = a; else l.push(a)] *)
Definition merge_first p l (a : A) : list A :=
  match first_from p l 0 with
  | Some (i, _) => <[i := a]> l
  | None => l ++ [a]
  end.

(** [i = l.findIndex(p); if (i >= 0) l.splice(i, 1)] *)
Definition remove_first p l : list A :=
  match first_from p l 0 with
  | Some (i, _) => splice_one i l
  | None => l
  end.

(** The elements that satisfy [p], in their order. *)
Definition matching p l : list A := filter (λ x, p x = true) l.

Lemma first_from_cons p x l :
  first_from p (x :: l) 0 =
    if p x then Some (0, x) else (λ '(j, y), (S j, y)) <$> first_from p l 0.
Proof. simpl. destruct (p x); [done|]. by rewrite first_from_shift. Qed.

Lemma merge_first_cons p x l a :
  merge_first p (x :: l) a = if p x then a :: l else x :: merge_first p l a.
Proof.
  unfold merge_first. rewrite first_from_cons. destruct (p x); [done|].
  by destruct (first_from p l 0) as [[j y]|].
Qed.

Lemma remove_first_cons p x l :
  remove_first p (x :: l) = if p x then l else x :: remove_first p l.
Proof.
  unfold remove_first. rewrite first_from_cons. destruct (p x).
  - unfold splice_one. simpl. by rewrite drop_0.
  - by destruct (first_from p l 0) as [[j y]|].
Qed.

Lemma matching_cons p x l :
  matching p (x :: l) = if p x then x :: matching p l else matching p l.
Proof.
  unfold matching. rewrite filter_cons. destruct (p x); by case_decide.
Qed.

Lemma matching_app p l1 l2 : matching p (l1 ++ l2) = matching p l1 ++ matching p l2.
Proof. apply filter_app. Qed.

(** The first match is the head of the matches. *)
Lemma first_from_matching p l :
  snd <$> first_from p l 0 = head (matching p l).
Proof.
  induction l as [|x l IH]; [done|].
  rewrite first_from_cons, matching_cons. destruct (p x); [done|].
  rewrite <- IH. by destruct (first_from p l 0) as [[j y]|].
Qed.

(** Merging [a] under its own predicate puts it first among the matches. *)
Lemma matching_merge_first p l a :
  p a = true → matching p (merge_first p l a) = a :: tail (matching p l).
Proof.
  intros Ha. induction l as [|x l IH].
  - unfold merge_first. simpl. by rewrite matching_cons, Ha.
  - rewrite merge_first_cons, (matching_cons p x l). destruct (p x) eqn:Hx.
    + by rewrite matching_cons, Ha.
    + by rewrite matching_cons, Hx, IH.
Qed.

Lemma matching_remove_first p l : matching p (remove_first p l) = tail (matching p l).
Proof.
  induction l as [|x l IH]; [done|].
  rewrite remove_first_cons, (matching_cons p x l). destruct (p x) eqn:Hx; [done|].
  by rewrite matching_cons, Hx, IH.
Qed.

(** Merging or removing under a predicate [q] that excludes [p] leaves the
    matches of [p] as they are. *)
Lemma matching_merge_first_other p q l a :
  (∀ x, q x = true → p x = false) → p a = false →
  matching p (merge_first q l a) = matching p l.
Proof.
  intros Hpq Ha. induction l as [|x l IH].
  - unfold merge_first. simpl. by rewrite matching_cons, Ha.
  - rewrite merge_first_cons. destruct (q x) eqn:Hx.
    + by rewrite !matching_cons, Ha, (Hpq x Hx).
    + by rewrite !matching_cons, IH.
Qed.

Lemma matching_remove_first_other p q l :
  (∀ x, q x = true → p x = false) → matching p (remove_first q l) = matching p l.
Proof.
  intros Hpq. induction l as [|x l IH]; [done|].
  rewrite remove_first_cons. destruct (q x) eqn:Hx.
  - by rewrite matching_cons, (Hpq x Hx).
  - by rewrite !matching_cons, IH.
Qed.

(** A filter keeps the matches that pass it, in their order. *)
Lemma matching_filter p (f : A → bool) l :
  matching p (filter (λ x, f x = true) l) = filter (λ x, f x = true) (matching p l).
Proof.
  induction l as [|x l IH]; [done|].
  rewrite filter_cons, (matching_cons p x l).
  destruct (f x) eqn:Hf, (p x) eqn:Hp; case_decide; try done;
    rewrite ?matching_cons, ?filter_cons, ?Hp, ?Hf, IH; try done; by case_decide.
Qed.
End first_match.
(** ** One accepted change at a time *)

Section accepted_changes.
Import JS Frontend.
Context (analysisJson : Value) (changeState : gmap string bool).
Hypothesis candidate_present : truthy analysisJson = true.

(** [changeState[item.id]] as a condition *)
Definition accepts (item : ChangeItem) : bool := default false (changeState !! item_id item).

(** [entry?.id || ''] *)
Definition skill_id (entry : Value) : Value := or_else (get_opt entry "id") (JStr "").

Definition has_id (skillId : Value) (entry : Value) : bool :=
  strict_equal (skill_id entry) skillId.

Lemma has_skill_id_total skillId entry : has_skill_id skillId entry = Ok (has_id skillId entry).
Proof. done. Qed.

(** The candidate entry that an accepted skill item writes: the first entry
    of the candidate's skills with the item's id, when it is an object with
    a key. Without one the item removes. *)
Definition candidate_skill (skillId : Value) : option Value :=
  match prop analysisJson "skills" with
  | JArr l =>
      match first_from (has_id skillId) l 0 with
      | Some (_, entry) => if kept_skill entry then Some entry else None
      | None => None
      end
  | _ => None
  end.

Definition merge_skill (skillId : Value) (skills : list Value) : list Value :=
  match candidate_skill skillId with
  | Some entry => merge_first (has_id skillId) skills entry
  | None => remove_first (has_id skillId) skills
  end.

Lemma candidate_skill_has_id skillId entry :
  candidate_skill skillId = Some entry → has_id skillId entry = true ∧ kept_skill entry = true.
Proof.
  unfold candidate_skill. destruct (prop analysisJson "skills"); try done.
  destruct (first_from _ _ 0) as [[i x]|] eqn:Hfirst; [|done].
  apply first_from_Some in Hfirst as (_ & _ & Hx & _).
  destruct (kept_skill x) eqn:Hkept; [|done]. by intros [= <-].
Qed.

Lemma apply_skill_total skillId skills :
  apply_skill analysisJson skillId skills = Ok (merge_skill skillId skills).
Proof.
  unfold apply_skill, merge_skill, candidate_skill, merge_first, remove_first.
  rewrite get_object, bind_Ok by done.
  rewrite (find_pure _ (has_id skillId) skills) by apply has_skill_id_total.
  destruct (prop analysisJson "skills") as [| | | | |l|] eqn:Hskills;
    rewrite ?bind_Ok; cbv zeta; cbn [truthy typeof_object andb];
    try (by destruct (first_from _ skills 0) as [[? ?]|]).
  rewrite (find_pure _ (has_id skillId) l) by apply has_skill_id_total.
  rewrite bind_Ok. destruct (first_from _ l 0) as [[i x]|].
  - fold (kept_skill x). destruct (kept_skill x); by destruct (first_from _ skills 0) as [[? ?]|].
  - cbn [truthy andb]. by destruct (first_from _ skills 0) as [[? ?]|].
Qed.

Definition has_point (pointId : string) (point : Value) : bool :=
  bool_decide (point_id point "" = pointId).

(** The point that an accepted point item writes. *)
Definition next_point (analysisPoint : Value) (pointId : string) : Value :=
  JObj [("id", JStr (point_id analysisPoint pointId)); ("text", JStr (point_text analysisPoint))].

Definition merge_candidate_point (key : string) (sectionIndex : nat) (pointId : string)
    (points : list Value) : list Value :=
  match candidate_point analysisJson key sectionIndex pointId with
  | Some analysisPoint => merge_point points pointId (next_point analysisPoint pointId)
  | None => points
  end.

Lemma extended_entries_points_at analysisEntry sectionIndex entries i :
  entry_points (extended_entries analysisEntry sectionIndex entries) i = entry_points entries i.
Proof.
  unfold entry_points, extended_entries.
  destruct (decide (i < length entries)) as [Hlt|Hge].
  - by rewrite lookup_app_l.
  - rewrite lookup_app_r by lia. rewrite (lookup_ge_None_2 entries) by lia.
    destruct (replicate _ _ !! _) as [entry|] eqn:Hentry; [|done].
    apply lookup_replicate in Hentry as [-> _].
    unfold points_of. by rewrite prop_obj_set_eq.
Qed.

(** The entries once the missing ones are synthesized and [points] of the
    addressed one is an array. *)
Definition prepared_entries (analysisEntry : Value) (sectionIndex : nat)
    (entries : list Props) : list Props :=
  let entries := extended_entries analysisEntry sectionIndex entries in
  let entry := default [] (entries !! sectionIndex) in
  let entry :=
    match prop (JObj entry) "points" with
    | JArr _ => entry
    | _ => obj_set "points" (JArr []) entry
    end in
  <[sectionIndex := entry]> entries.

Lemma prepared_entries_points analysisEntry sectionIndex entries i :
  entry_points (prepared_entries analysisEntry sectionIndex entries) i = entry_points entries i.
Proof.
  rewrite <- (extended_entries_points_at analysisEntry sectionIndex entries i).
  unfold prepared_entries. cbv zeta.
  set (extended := extended_entries analysisEntry sectionIndex entries).
  destruct (decide (i = sectionIndex)) as [->|Hne].
  - pose proof (extended_entries_length analysisEntry sectionIndex entries) as Hlen.
    fold extended in Hlen.
    destruct (lookup_lt_is_Some_2 extended sectionIndex Hlen) as [entry0 Hentry0].
    unfold entry_points. rewrite list_lookup_insert_eq by done. rewrite Hentry0.
    change (default [] (Some entry0)) with entry0. unfold points_of.
    destruct (prop (JObj entry0) "points") eqn:Hp; rewrite ?prop_obj_set_eq, ?Hp; done.
  - unfold entry_points. by rewrite list_lookup_insert_ne.
Qed.

(** What [apply_point] does when the candidate does not hold the point. *)
Lemma apply_point_missing key sectionIndex pointId entries :
  candidate_point analysisJson key sectionIndex pointId = None →
  ∃ entries',
    apply_point analysisJson key sectionIndex pointId entries = Ok entries' ∧
    ∀ i, entry_points entries' i = entry_points entries i.
Proof.
  intros Hcand. unfold candidate_point in Hcand.
  set (analysisEntry := candidate_entry analysisJson key sectionIndex) in *.
  unfold apply_point. rewrite get_object by done. rewrite bind_Ok. cbv zeta.
  fold (candidate_entry analysisJson key sectionIndex). fold analysisEntry.
  destruct (truthy analysisEntry) eqn:Hentry; cbn [negb]; [|by eexists].
  fold (extended_entries analysisEntry sectionIndex entries).
  rewrite get_object by done. rewrite bind_Ok. fold (points_of analysisEntry).
  rewrite (find_pure _ (λ point, bool_decide (point_id point "" = pointId))
             (points_of analysisEntry)) by apply has_point_id_total.
  rewrite bind_Ok.
  assert (truthy match first_from (λ point, bool_decide (point_id point "" = pointId))
                         (points_of analysisEntry) 0 with
                 | Some (_, point) => point
                 | None => JUndefined
                 end = false) as ->.
  { destruct (first_from _ (points_of analysisEntry) 0) as [[pos point]|]; [|done].
    by destruct (truthy point). }
  cbn [negb]. eexists. split; [reflexivity|]. intros i.
  apply (prepared_entries_points analysisEntry sectionIndex entries i).
Qed.

Lemma apply_point_total key sectionIndex pointId entries :
  ∃ entries',
    apply_point analysisJson key sectionIndex pointId entries = Ok entries' ∧
    ∀ i, entry_points entries' i =
         if decide (i = sectionIndex)
         then merge_candidate_point key sectionIndex pointId (entry_points entries i)
         else entry_points entries i.
Proof.
  unfold merge_candidate_point.
  destruct (candidate_point analysisJson key sectionIndex pointId) as [analysisPoint|] eqn:Hcand.
  - destruct (apply_point_found analysisJson key sectionIndex pointId entries analysisPoint
                candidate_present Hcand) as (entries' & Happly & _ & Hother & Hpoints).
    exists entries'. split; [done|]. intros i. case_decide as Hi; [by subst i|].
    unfold entry_points at 1. rewrite (Hother i Hi).
    apply (extended_entries_points_at _ sectionIndex entries i).
  - destruct (apply_point_missing key sectionIndex pointId entries Hcand)
      as (entries' & Happly & Hpoints).
    exists entries'. split; [done|]. intros i. rewrite Hpoints. by case_decide.
Qed.

(** What the callback of [changeItems.forEach] leaves in [updated]. *)
Definition applied (updated : Updated) (item : ChangeItem) : Updated :=
  value_of updated (apply_item analysisJson changeState updated item).

Lemma apply_item_total updated item :
  apply_item analysisJson changeState updated item = Ok (applied updated item).
Proof.
  unfold applied, apply_item. destruct (negb _); [done|]. destruct item.
  - by rewrite get_object by done.
  - by rewrite apply_skill_total.
  - by destruct (apply_point_total "experience" jobIndex pointId (experience updated))
      as (entries' & -> & _).
  - by destruct (apply_point_total "projects" projectIndex pointId (projects updated))
      as (entries' & -> & _).
Qed.

Lemma applied_rejected updated item : accepts item = false → applied updated item = updated.
Proof. unfold applied, apply_item, accepts. by intros ->. Qed.

Definition skill_target (item : ChangeItem) : option Value :=
  match item with
  | SkillItem _ _ skillId _ _ => Some skillId
  | _ => None
  end.

Definition is_summary_item (item : ChangeItem) : bool :=
  match item with
  | SummaryItem _ _ _ _ => true
  | _ => false
  end.

(** The summary that an accepted summary item writes over [current]. *)
Definition accepted_summary (current : Value) : Value :=
  let analysisSummary := prop analysisJson "summary" in
  if truthy analysisSummary && typeof_object analysisSummary
  then JObj (spread analysisSummary)
  else or_else analysisSummary current.

Lemma applied_summary updated item :
  summary (applied updated item) =
    if accepts item && is_summary_item item then accepted_summary (summary updated)
    else summary updated.
Proof.
  unfold applied, apply_item, accepts. destruct (default false _); [|done]. cbn [negb andb].
  destruct item; cbn [is_summary_item].
  - by rewrite get_object by done.
  - by rewrite apply_skill_total.
  - by destruct (apply_point_total "experience" jobIndex pointId (experience updated))
      as (entries' & -> & _).
  - by destruct (apply_point_total "projects" projectIndex pointId (projects updated))
      as (entries' & -> & _).
Qed.

Lemma applied_skills updated item :
  skills (applied updated item) =
    match skill_target item with
    | Some skillId => if accepts item then merge_skill skillId (skills updated)
                      else skills updated
    | None => skills updated
    end.
Proof.
  unfold applied, apply_item, accepts.
  destruct (default false _); cbn [negb]; [|by destruct item].
  destruct item; cbn [skill_target].
  - by rewrite get_object by done.
  - by rewrite apply_skill_total.
  - by destruct (apply_point_total "experience" jobIndex pointId (experience updated))
      as (entries' & -> & _).
  - by destruct (apply_point_total "projects" projectIndex pointId (projects updated))
      as (entries' & -> & _).
Qed.

Lemma applied_points key updated item i :
  key = "experience" ∨ key = "projects" →
  entry_points (section_entries key (applied updated item)) i =
    match point_target item with
    | Some (key', sectionIndex, pointId) =>
        if accepts item && bool_decide (key' = key ∧ sectionIndex = i)
        then merge_candidate_point key sectionIndex pointId
               (entry_points (section_entries key updated) i)
        else entry_points (section_entries key updated) i
    | None => entry_points (section_entries key updated) i
    end.
Proof.
  intros Hkey. unfold applied, apply_item, accepts.
  destruct (default false _); cbn [negb andb]; [|by destruct item as [| | |]].
  destruct item; cbn [point_target].
  - by rewrite get_object by done.
  - by rewrite apply_skill_total.
  - destruct (apply_point_total "experience" jobIndex pointId (experience updated))
      as (entries' & -> & Hpoints).
    rewrite bind_Ok. cbn [value_of mret result_ret].
    destruct Hkey as [-> | ->]; unfold section_entries; cbn [decide experience projects].
    + rewrite decide_True by done. cbn [experience]. rewrite Hpoints.
      destruct (decide (i = jobIndex)) as [->|Hi].
      * by rewrite bool_decide_true.
      * rewrite bool_decide_false; [done | by intros [_ ->]].
    + rewrite !decide_False by done. cbn [projects].
      rewrite bool_decide_false; [done | by intros [? _]].
  - destruct (apply_point_total "projects" projectIndex pointId (projects updated))
      as (entries' & -> & Hpoints).
    rewrite bind_Ok. cbn [value_of mret result_ret].
    destruct Hkey as [-> | ->]; unfold section_entries.
    + rewrite !decide_True by done. cbn [experience].
      rewrite bool_decide_false; [done | by intros [? _]].
    + rewrite !decide_False by done. cbn [projects]. rewrite Hpoints.
      destruct (decide (i = projectIndex)) as [->|Hi].
      * by rewrite bool_decide_true.
      * rewrite bool_decide_false; [done | by intros [_ ->]].
Qed.

(** The callback writes [summary], [skills], [experience] and [projects]
    and nothing else. *)
Lemma applied_frame updated item :
  rest (applied updated item) = rest updated ∧
  basics (applied updated item) = basics updated ∧
  education (applied updated item) = education updated ∧
  certificates (applied updated item) = certificates updated.
Proof.
  unfold applied, apply_item. destruct (negb _); [done|]. destruct item.
  - by rewrite get_object by done.
  - by rewrite apply_skill_total.
  - by destruct (apply_point_total "experience" jobIndex pointId (experience updated))
      as (entries' & -> & _).
  - by destruct (apply_point_total "projects" projectIndex pointId (projects updated))
      as (entries' & -> & _).
Qed.
End accepted_changes.
(** ** What a loop leaves in one field *)

Section views.
Context {St X B : Type} (step : St → X → St) (view : St → B) (hits : X → bool) (f : B → B).
Hypothesis view_step : ∀ s y, view (step s y) = if hits y then f (view s) else view s.

Lemma foldl_view_inv (I : B → Prop) s l :
  I (view s) → (∀ b, I b → I (f b)) → I (view (foldl step s l)).
Proof.
  intros Hs Hf. revert s Hs. induction l as [|y l IH]; intros s Hs; simpl; [done|].
  apply IH. rewrite view_step. destruct (hits y); [by apply Hf | done].
Qed.

(** Once an element hits the field, the field has what the hit gives. *)
Lemma foldl_view_hit (I Q : B → Prop) s l y :
  I (view s) → (∀ b, I b → I (f b)) → (∀ b, I b → Q (f b)) →
  y ∈ l → hits y = true → Q (view (foldl step s l)).
Proof.
  intros Hs HI HQ Hy Hhit. revert Hy. induction l as [|z l IH] using rev_ind.
  - by intros ?%elem_of_nil.
  - rewrite foldl_app. simpl. rewrite view_step. intros [Hy|Hy]%elem_of_app.
    + destruct (hits z); [|by apply IH]. by apply HQ, foldl_view_inv.
    + apply list_elem_of_singleton in Hy as <-. rewrite Hhit.
      by apply HQ, foldl_view_inv.
Qed.
End views.

(** ** Accepting and rejecting every change *)

Section merge_selectivity.
Import JS Backend Frontend.

Lemma for_each_rejected analysisJson changeState updated changeItems :
  (∀ item, item ∈ changeItems → accepts changeState item = false) →
  for_each (apply_item analysisJson changeState) updated changeItems = Ok updated.
Proof.
  intros Hrejected.
  rewrite (for_each_total_in _ (λ updated _, updated)).
  - f_equal. clear Hrejected. by induction changeItems.
  - intros u item Hitem. unfold apply_item.
    specialize (Hrejected item Hitem). unfold accepts in Hrejected. by rewrite Hrejected.
Qed.

Lemma has_nonempty_id_kept entry : has_nonempty_id entry → kept_skill entry = true.
Proof.
  intros (props & s & -> & Hid & _). unfold kept_skill, keys. cbn [truthy typeof_object andb].
  apply bool_decide_eq_true. by destruct props.
Qed.

Lemma plain_document_skills doc :
  plain_document doc →
  ∃ skills, prop doc "skills" = JArr skills ∧ Forall has_nonempty_id skills.
Proof. intros (? & ? & skills & ? & ? & ? & ? & -> & _ & _ & Hskills & _). by exists skills. Qed.

(** With every change rejected, a normalized document comes back as it
    is. *)
Lemma buildUpdatedResumeData_rejected doc analysisJson changeItems changeState :
  plain_document doc →
  (∀ item, item ∈ changeItems → accepts changeState item = false) →
  buildUpdatedResumeData doc analysisJson changeItems changeState = Ok doc.
Proof.
  intros Hdoc Hrejected.
  destruct (truthy analysisJson) eqn:Ha; [|by apply buildUpdatedResumeData_absent].
  unfold buildUpdatedResumeData. rewrite (plain_document_truthy doc Hdoc), Ha. cbn [negb].
  destruct (initial_copy_plain doc Hdoc) as (u & -> & Hu & _ & Hskills & _).
  rewrite bind_Ok, for_each_rejected, bind_Ok by done.
  destruct (plain_document_skills doc Hdoc) as (skills & Hprop & Hall).
  rewrite Hprop in Hskills. injection Hskills as Hskills.
  rewrite filter_all.
  - cbn [mret result_ret]. f_equal. rewrite <- Hu. by destruct u.
  - intros entry Hentry. apply has_nonempty_id_kept. rewrite Hskills in Hentry.
    by eapply Forall_forall in Hall.
Qed.

(** [doc[key][sectionIndex].points], or no points *)
Definition document_points (doc : Value) (key : string) (sectionIndex : nat) : list Value :=
  points_of (index (prop doc key) sectionIndex).

Definition document_skills (doc : Value) : list Value := array_or_empty (prop doc "skills").

Lemma entry_points_document entries sectionIndex :
  points_of (index (JArr (JObj <$> entries)) sectionIndex) = entry_points entries sectionIndex.
Proof.
  unfold entry_points. cbn [index]. unfold at_index. rewrite list_lookup_fmap.
  by destruct (entries !! sectionIndex).
Qed.

Lemma point_id_found analysisPoint pointId :
  has_point pointId analysisPoint = true → point_id analysisPoint pointId = pointId.
Proof.
  unfold has_point. intros Hid%bool_decide_eq_true. revert Hid.
  unfold point_id, getPointId.
  destruct (truthy analysisPoint && typeof_object analysisPoint) eqn:Hobject; [|done].
  apply andb_true_iff in Hobject as [Htruthy _]. rewrite get_object by done.
  rewrite !bind_Ok. destruct (prop analysisPoint "id"); try done.
  cbn [value_of mret result_ret]. by case_bool_decide.
Qed.

Lemma has_point_next pointId text :
  has_point pointId (JObj [("id", JStr pointId); ("text", JStr text)]) = true.
Proof.
  unfold has_point. apply bool_decide_eq_true. unfold point_id, getPointId.
  cbn [truthy typeof_object andb]. rewrite get_JObj, bind_Ok.
  change (prop (JObj [("id", JStr pointId); ("text", JStr text)]) "id") with (JStr pointId).
  cbn [value_of mret result_ret]. case_bool_decide as Hid; [done|].
  destruct pointId; [done|]. by destruct Hid.
Qed.

Lemma candidate_point_found analysisJson key sectionIndex pointId analysisPoint :
  candidate_point analysisJson key sectionIndex pointId = Some analysisPoint →
  has_point pointId analysisPoint = true.
Proof.
  unfold candidate_point. destruct (truthy _); [|done].
  destruct (first_from _ _ 0) as [[i x]|] eqn:Hfirst; [|done].
  apply first_from_Some in Hfirst as (_ & _ & Hx & _).
  destruct (truthy x); [|done]. by intros [= <-].
Qed.

Section fields.
Context (analysisJson : Value) (changeState : gmap string bool).
Hypothesis candidate_present : truthy analysisJson = true.

Lemma has_id_other skillId skillId' entry :
  skillId' ≠ skillId → has_id skillId' entry = true → has_id skillId entry = false.
Proof.
  unfold has_id, strict_equal. intros Hne Hid%bool_decide_eq_true.
  apply bool_decide_eq_false. congruence.
Qed.

Lemma has_point_other pointId pointId' point :
  pointId' ≠ pointId → has_point pointId' point = true → has_point pointId point = false.
Proof.
  unfold has_point. intros Hne Hid%bool_decide_eq_true.
  apply bool_decide_eq_false. congruence.
Qed.

(** An accepted skill item rewrites the entries of its id and no other. *)
Lemma skills_view_step skillId updated item :
  matching (has_id skillId) (skills (applied analysisJson changeState updated item)) =
    if accepts changeState item && bool_decide (skill_target item = Some skillId)
    then match candidate_skill analysisJson skillId with
         | Some entry => entry :: tail (matching (has_id skillId) (skills updated))
         | None => tail (matching (has_id skillId) (skills updated))
         end
    else matching (has_id skillId) (skills updated).
Proof.
  rewrite applied_skills by done.
  destruct (skill_target item) as [skillId'|]; [|by rewrite andb_false_r].
  destruct (accepts changeState item); [|done]. cbn [andb].
  unfold merge_skill. case_bool_decide as Hid.
  - injection Hid as ->.
    destruct (candidate_skill analysisJson skillId) as [entry|] eqn:Hentry.
    + apply matching_merge_first. by apply candidate_skill_has_id in Hentry as [? _].
    + apply matching_remove_first.
  - assert (skillId' ≠ skillId) as Hne by congruence.
    destruct (candidate_skill analysisJson skillId') as [entry|] eqn:Hentry.
    + apply candidate_skill_has_id in Hentry as [Hentry _].
      apply matching_merge_first_other.
      * intros x. by apply has_id_other.
      * by eapply has_id_other.
    + apply matching_remove_first_other. intros x. by apply has_id_other.
Qed.

Lemma next_point_found key sectionIndex pointId analysisPoint :
  candidate_point analysisJson key sectionIndex pointId = Some analysisPoint →
  next_point analysisPoint pointId =
    JObj [("id", JStr pointId); ("text", JStr (point_text analysisPoint))].
Proof.
  intros Hfound%candidate_point_found. unfold next_point. by rewrite point_id_found.
Qed.

(** An accepted point item rewrites the points of its id in its entry and
    no other. *)
Lemma points_view_step key sectionIndex pointId updated item :
  key = "experience" ∨ key = "projects" →
  matching (has_point pointId)
    (entry_points (section_entries key (applied analysisJson changeState updated item)) sectionIndex) =
    let current :=
      matching (has_point pointId) (entry_points (section_entries key updated) sectionIndex) in
    if accepts changeState item
       && bool_decide (point_target item = Some (key, sectionIndex, pointId))
    then match candidate_point analysisJson key sectionIndex pointId with
         | Some analysisPoint =>
             JObj [("id", JStr pointId); ("text", JStr (point_text analysisPoint))]
               :: tail current
         | None => current
         end
    else current.
Proof.
  intros Hkey. cbv zeta. rewrite applied_points by done.
  destruct (point_target item) as [[[key' sectionIndex'] pointId']|];
    [|by rewrite andb_false_r].
  destruct (accepts changeState item); [|done]. cbn [andb].
  case_bool_decide as Hentry.
  - destruct Hentry as [-> ->]. unfold merge_candidate_point. case_bool_decide as Hid.
    + injection Hid as ->.
      destruct (candidate_point analysisJson key sectionIndex pointId)
        as [analysisPoint|] eqn:Hcand; [|done].
      rewrite (next_point_found _ _ _ _ Hcand).
      apply (matching_merge_first (has_point pointId)), has_point_next.
    + assert (pointId' ≠ pointId) as Hne by congruence.
      destruct (candidate_point analysisJson key sectionIndex pointId')
        as [analysisPoint|] eqn:Hcand; [|done].
      rewrite (next_point_found _ _ _ _ Hcand).
      apply (matching_merge_first_other (has_point pointId) (has_point pointId')).
      * intros x. by apply has_point_other.
      * eapply has_point_other; [done | apply has_point_next].
  - rewrite bool_decide_false; [done|]. intros [= -> -> ->]. by apply Hentry.
Qed.

Lemma summary_view_step updated item :
  summary (applied analysisJson changeState updated item) =
    if accepts changeState item && is_summary_item item
    then accepted_summary analysisJson (summary updated)
    else summary updated.
Proof. by apply applied_summary. Qed.
End fields.

(** The points of one id in an entry of [doc], as an accepted point item
    leaves them: led by the candidate's point as [{ id, text }], or as they
    were in [resumeJson] when the candidate's entry has no such point. *)
Definition point_taken (resumeJson analysisJson doc : Value) (key : string)
    (sectionIndex : nat) (pointId : string) : Prop :=
  match candidate_point analysisJson key sectionIndex pointId with
  | Some analysisPoint =>
      head (matching (has_point pointId) (document_points doc key sectionIndex)) =
        Some (JObj [("id", JStr pointId); ("text", JStr (point_text analysisPoint))])
  | None =>
      matching (has_point pointId) (document_points doc key sectionIndex) =
        matching (has_point pointId) (document_points resumeJson key sectionIndex)
  end.

(** What an accepted item leaves in the document [doc] merged from
    [resumeJson] and [analysisJson]. *)
Definition takes_candidate_value (resumeJson analysisJson doc : Value) (item : ChangeItem)
    : Prop :=
  match item with
  | SummaryItem _ _ _ _ =>
      let analysisSummary := prop analysisJson "summary" in
      truthy analysisSummary = true →
      prop doc "summary" =
        if typeof_object analysisSummary then JObj (spread analysisSummary)
        else analysisSummary
  | SkillItem _ _ skillId _ _ =>
      match candidate_skill analysisJson skillId with
      | Some entry => head (matching (has_id skillId) (document_skills doc)) = Some entry
      | None =>
          length (matching (has_id skillId) (document_skills resumeJson)) ≤ 1 →
          matching (has_id skillId) (document_skills doc) = []
      end
  | ExperienceItem _ _ jobIndex pointId _ _ =>
      point_taken resumeJson analysisJson doc "experience" jobIndex pointId
  | ProjectItem _ _ projectIndex pointId _ _ =>
      point_taken resumeJson analysisJson doc "projects" projectIndex pointId
  end.

Lemma point_taken_accepted resumeJson analysisJson changeState changeItems u0 doc item
    key sectionIndex pointId :
  truthy analysisJson = true →
  key = "experience" ∨ key = "projects" →
  prop resumeJson key = JArr (JObj <$> section_entries key u0) →
  prop doc key
    = JArr (JObj <$> section_entries key (foldl (applied analysisJson changeState)
                                            u0 changeItems)) →
  item ∈ changeItems → accepts changeState item = true →
  point_target item = Some (key, sectionIndex, pointId) →
  point_taken resumeJson analysisJson doc key sectionIndex pointId.
Proof.
  intros Ha Hkey Hu0 Hu Hitem Haccepted Htarget. unfold point_taken, document_points.
  rewrite Hu0, Hu.
  rewrite !entry_points_document.
  set (view := λ u, matching (has_point pointId)
                      (entry_points (section_entries key u) sectionIndex)).
  set (hits := λ item, accepts changeState item
                       && bool_decide (point_target item = Some (key, sectionIndex, pointId))).
  destruct (candidate_point analysisJson key sectionIndex pointId)
    as [analysisPoint|] eqn:Hcand.
  - set (f := λ b : list Value,
                JObj [("id", JStr pointId); ("text", JStr (point_text analysisPoint))]
                  :: tail b).
    assert (∀ u x, view (applied analysisJson changeState u x)
                   = if hits x then f (view u) else view u) as Hstep.
    { intros u' x. unfold view, hits. rewrite points_view_step by done.
      cbv zeta. by rewrite Hcand. }
    apply (foldl_view_hit _ view hits f Hstep (λ _, True)
             (λ b, head b = Some (JObj [("id", JStr pointId);
                                        ("text", JStr (point_text analysisPoint))]))
             u0 changeItems item); try done.
    unfold hits. rewrite Haccepted, Htarget. by rewrite bool_decide_true.
  - assert (∀ u x, view (applied analysisJson changeState u x)
                   = if hits x then view u else view u) as Hstep.
    { intros u' x. unfold view, hits. rewrite points_view_step by done.
      cbv zeta. by rewrite Hcand. }
    by apply (foldl_view_inv _ view hits (λ b, b) Hstep (λ b, b = view u0) u0 changeItems).
Qed.

Lemma skill_taken_accepted resumeJson analysisJson changeState changeItems u0 doc item
    skillId :
  truthy analysisJson = true →
  prop resumeJson "skills" = JArr (skills u0) →
  prop doc "skills"
    = JArr (filter (λ entry, kept_skill entry = true)
              (skills (foldl (applied analysisJson changeState) u0 changeItems))) →
  item ∈ changeItems → accepts changeState item = true →
  skill_target item = Some skillId →
  match candidate_skill analysisJson skillId with
  | Some entry => head (matching (has_id skillId) (document_skills doc)) = Some entry
  | None =>
      length (matching (has_id skillId) (document_skills resumeJson)) ≤ 1 →
      matching (has_id skillId) (document_skills doc) = []
  end.
Proof.
  intros Ha Hu0 Hu Hitem Haccepted Htarget. unfold document_skills.
  rewrite Hu0, Hu. cbn [array_or_empty]. rewrite matching_filter.
  set (view := λ u, matching (has_id skillId) (skills u)).
  set (hits := λ item, accepts changeState item
                       && bool_decide (skill_target item = Some skillId)).
  assert (hits item = true) as Hhit.
  { unfold hits. rewrite Haccepted, Htarget. by rewrite bool_decide_true. }
  destruct (candidate_skill analysisJson skillId) as [entry|] eqn:Hcand.
  - assert (∀ u x, view (applied analysisJson changeState u x)
                   = if hits x then entry :: tail (view u) else view u) as Hstep.
    { intros u' x. unfold view, hits. rewrite skills_view_step by done. by rewrite Hcand. }
    apply candidate_skill_has_id in Hcand as [_ Hkept].
    apply (foldl_view_hit _ view hits (λ b, entry :: tail b) Hstep (λ _, True)
             (λ b, head (filter (λ entry, kept_skill entry = true) b) = Some entry)
             u0 changeItems item); try done.
    intros b _. by rewrite filter_cons_True.
  - intros Hone.
    assert (∀ u x, view (applied analysisJson changeState u x)
                   = if hits x then tail (view u) else view u) as Hstep.
    { intros u' x. unfold view, hits. rewrite skills_view_step by done. by rewrite Hcand. }
    apply (foldl_view_hit _ view hits tail Hstep (λ b, length b ≤ 1)
             (λ b, filter (λ entry, kept_skill entry = true) b = [])
             u0 changeItems item); try done.
    + intros b Hb. destruct b; simpl in *; lia.
    + intros b Hb. destruct b as [|x [|y b]]; simpl in *; [done | done | lia].
Qed.

Lemma summary_taken_accepted analysisJson changeState changeItems u0 item :
  truthy analysisJson = true →
  item ∈ changeItems → accepts changeState item = true → is_summary_item item = true →
  truthy (prop analysisJson "summary") = true →
  summary (foldl (applied analysisJson changeState) u0 changeItems) =
    if typeof_object (prop analysisJson "summary")
    then JObj (spread (prop analysisJson "summary"))
    else prop analysisJson "summary".
Proof.
  intros Ha Hitem Haccepted Hsummary Htruthy.
  apply (foldl_view_hit _ summary
           (λ item, accepts changeState item && is_summary_item item)
           (accepted_summary analysisJson)
           (summary_view_step analysisJson changeState Ha) (λ _, True)
           (λ b, b = if typeof_object (prop analysisJson "summary")
                     then JObj (spread (prop analysisJson "summary"))
                     else prop analysisJson "summary")
           u0 changeItems item); try done.
  - intros b _. unfold accepted_summary, or_else. cbv zeta. by rewrite Htruthy.
  - by rewrite Haccepted, Hsummary.
Qed.

(** C2, as the code has it. For an original that went through the
    normalizer: with every change rejected the merged document is equal to
    that normalized original. With every change accepted and a candidate,
    the merge returns a document in which a summary item has put the
    candidate's summary (a copy of it when an object), a skill item has put
    the candidate's entry of its id first among the entries of that id (or,
    when the candidate holds no such non-empty object, removed the one entry
    the original had), and a point item has put [{ id, text }] of the
    candidate's point first among the points of that id in its entry. A point
    item whose point the candidate lacks leaves the original's points of
    that id in place. *)
Theorem merge_takes_accepted_values :
  ∀ (raw resumeJson analysisJson : Value) (changeItems : list ChangeItem)
    (changeState : gmap string bool),
    normalizeResumeJson raw = Ok resumeJson →
    ((∀ item, item ∈ changeItems → accepts changeState item = false) →
     buildUpdatedResumeData resumeJson analysisJson changeItems changeState
       = Ok resumeJson) ∧
    (truthy analysisJson = true →
     (∀ item, item ∈ changeItems → accepts changeState item = true) →
     ∃ doc,
       buildUpdatedResumeData resumeJson analysisJson changeItems changeState = Ok doc ∧
       ∀ item, item ∈ changeItems → takes_candidate_value resumeJson analysisJson doc item).
Proof.
  intros raw resumeJson analysisJson changeItems changeState Hdoc%normalized_plain. split.
  - by apply buildUpdatedResumeData_rejected.
  - intros Ha Haccepted. unfold buildUpdatedResumeData.
    rewrite (plain_document_truthy resumeJson Hdoc), Ha. cbn [negb].
    destruct (initial_copy_plain resumeJson Hdoc)
      as (u0 & -> & _ & _ & Hskills & Hexperience & Hprojects).
    rewrite bind_Ok.
    rewrite (for_each_total _ (applied analysisJson changeState))
      by (intros; by apply apply_item_total).
    rewrite bind_Ok. eexists. split; [reflexivity|].
    intros item Hitem. specialize (Haccepted item Hitem).
    destruct item; cbn [takes_candidate_value].
    + intros Htruthy. rewrite updated_value_summary. cbn [summary].
      by eapply summary_taken_accepted.
    + eapply skill_taken_accepted; [done | done | | done | done | done].
      by rewrite updated_value_skills.
    + eapply (point_taken_accepted _ _ _ _ u0); [done | by left | done | | done | done | done].
      by rewrite updated_value_experience.
    + eapply (point_taken_accepted _ _ _ _ u0); [done | by right | done | | done | done | done].
      by rewrite updated_value_projects.
Qed.
End merge_selectivity.

Section merge_examples.
Import JS Backend Frontend.

(** A résumé with one job of two points, and a candidate that keeps only
    the first point. *)
Definition two_point_resume : Value :=
  JObj [("experience",
         JArr [JObj [("company", JStr "Acme");
                     ("points", JArr [JStr "Built the billing service";
                                      JStr "Led a team"])]])].

Definition one_point_candidate : Value :=
  JObj [("experience",
         JArr [JObj [("company", JStr "Acme");
                     ("points", JArr [JStr "Built the billing service"])]])].

(** C2, as stated, fails: the change set of the two normalized documents is
    the one item for the point that the candidate dropped, with the empty
    text as the candidate's value; accepting it returns the original, which
    still holds that point. *)
Lemma accepted_point_removal_keeps_point :
  ∃ original candidate,
    normalizeResumeJson two_point_resume = Ok original ∧
    normalizeResumeJson one_point_candidate = Ok candidate ∧
    buildChangeItems (λ _, "") (λ _, None) original candidate
      = Ok [ExperienceItem "exp:0:exp-1-2" "Acme" 0 "exp-1-2" "Led a team" ""] ∧
    buildUpdatedResumeData original candidate
      [ExperienceItem "exp:0:exp-1-2" "Acme" 0 "exp-1-2" "Led a team" ""]
      {["exp:0:exp-1-2" := true]} = Ok original ∧
    document_points candidate "experience" 0
      = [JObj [("id", JStr "exp-1-1"); ("text", JStr "Built the billing service")]] ∧
    document_points original "experience" 0
      = [JObj [("id", JStr "exp-1-1"); ("text", JStr "Built the billing service")];
         JObj [("id", JStr "exp-1-2"); ("text", JStr "Led a team")]].
Proof.
  exists (value_of JNull (normalizeResumeJson two_point_resume)),
    (value_of JNull (normalizeResumeJson one_point_candidate)).
  vm_compute. repeat split; reflexivity.
Qed.

Definition sample_resume : Value :=
  JObj [("summary", JStr "Engineer");
        ("skills", JArr [JObj [("Languages", JStr "Go")]; JObj [("Tools", JStr "Git")]]);
        ("experience",
         JArr [JObj [("company", JStr "Acme");
                     ("points", JArr [JStr "Built the billing service";
                                      JStr "Led a team"])]])].

Definition sample_candidate : Value :=
  JObj [("summary", JObj [("id", JStr "summary-1"); ("text", JStr "Backend engineer")]);
        ("skills", JArr [JObj [("Languages", JStr "Go, Rust"); ("id", JStr "skill-1")]]);
        ("experience",
         JArr [JObj [("company", JStr "Acme");
                     ("points",
                      JArr [JObj [("id", JStr "exp-1-1");
                                  ("text", JStr "Built the billing service for 2M users")]])]])].

Definition sample_items : list ChangeItem :=
  [SummaryItem "summary:summary-1" (JStr "Engineer") (JStr "Backend engineer")
     (JStr "summary-1");
   SkillItem "skill:skill-1" "Languages" (JStr "skill-1") "Languages: Go" "Languages: Go, Rust";
   SkillItem "skill:skill-2" "Tools" (JStr "skill-2") "Tools: Git" "";
   ExperienceItem "exp:0:exp-1-1" "Acme" 0 "exp-1-1" "Built the billing service"
     "Built the billing service for 2M users";
   ExperienceItem "exp:0:exp-1-2" "Acme" 0 "exp-1-2" "Led a team" ""].

(** The sample résumé against the sample candidate: nothing accepted gives
    the normalized résumé, everything accepted gives a document that holds
    the candidate's value for every item. *)
Lemma merge_takes_accepted_values_witness :
  ∃ resumeJson,
    normalizeResumeJson sample_resume = Ok resumeJson ∧
    buildUpdatedResumeData resumeJson sample_candidate sample_items ∅ = Ok resumeJson ∧
    ∃ doc,
      buildUpdatedResumeData resumeJson sample_candidate sample_items
        (list_to_map ((λ item, (item_id item, true)) <$> sample_items)) = Ok doc ∧
      ∀ item, item ∈ sample_items →
              takes_candidate_value resumeJson sample_candidate doc item.
Proof.
  exists (value_of JNull (normalizeResumeJson sample_resume)).
  split; [vm_compute; reflexivity|]. split.
  - apply (merge_takes_accepted_values sample_resume _ sample_candidate sample_items ∅);
      [vm_compute; reflexivity|].
    intros item _. unfold accepts. by rewrite lookup_empty.
  - apply (merge_takes_accepted_values sample_resume _ sample_candidate sample_items
             (list_to_map ((λ item, (item_id item, true)) <$> sample_items)));
      [vm_compute; reflexivity | reflexivity |].
    intros item Hitem. unfold sample_items in Hitem.
    repeat (apply elem_of_cons in Hitem as [->|Hitem]);
      try (vm_compute; reflexivity). by apply elem_of_nil in Hitem.
Defined.
End merge_examples.

(** * Further properties *)

(** ** The edit script spells both texts *)

Section edit_script.
Import JS Diff.
Variables beforeWords afterWords : list string.

(** The words that the original view and the suggested view show. *)
Definition before_view (ops : list operation) : list string :=
  value <$> filter (λ op, type op ≠ add) ops.

Definition after_view (ops : list operation) : list string :=
  value <$> filter (λ op, type op ≠ remove) ops.

Lemma before_view_cons op ops :
  before_view (op :: ops) =
    if decide (type op = add) then before_view ops else value op :: before_view ops.
Proof. unfold before_view. rewrite filter_cons. by repeat case_decide. Qed.

Lemma after_view_cons op ops :
  after_view (op :: ops) =
    if decide (type op = remove) then after_view ops else value op :: after_view ops.
Proof. unfold after_view. rewrite filter_cons. by repeat case_decide. Qed.

Lemma drop_take_cons (l : list string) i :
  i < length l → drop i (take (S i) l) = [word_at l i].
Proof.
  intros Hi. rewrite take_snoc by done.
  rewrite drop_app_length'; [done|]. rewrite length_take. lia.
Qed.

Lemma word_at_cons_drop (l : list string) i :
  i < length l → word_at l i :: drop (S i) l = drop i l.
Proof.
  intros Hi. destruct (lookup_lt_is_Some_2 l i Hi) as [x Hx].
  unfold word_at. rewrite Hx. symmetry. by apply drop_S.
Qed.

(** Whatever the table holds, the first loop leaves at [(i1, j1)] with an
    edit script whose two views are the words it walked over. *)
Lemma backtrack_views dp i j ops :
  i ≤ length beforeWords → j ≤ length afterWords →
  let r := backtrack beforeWords afterWords dp i j ops in
  r.1.1 ≤ i ∧ r.1.2 ≤ j ∧
  before_view r.2 = drop r.1.1 (take i beforeWords) ++ before_view ops ∧
  after_view r.2 = drop r.1.2 (take j afterWords) ++ after_view ops.
Proof.
  cbv zeta. revert j ops. induction i as [|i IHi].
  - intros j ops _ Hj. rewrite backtrack_0. cbn [fst snd].
    rewrite take_0, drop_nil, drop_ge; [done|]. rewrite length_take. lia.
  - induction j as [|j IHj]; intros ops Hi Hj.
    + rewrite backtrack_S_0. cbn [fst snd].
      rewrite take_0, drop_nil, drop_ge; [done|]. rewrite length_take. lia.
    + rewrite backtrack_S_S. destruct (decide (beforeWords !! i = afterWords !! j)) as [Heq|Hne].
      * destruct (IHi j (Op equal (word_at beforeWords i) :: ops))
          as (Hi1 & Hj1 & -> & ->); [lia | lia |].
        split_and!; [lia | lia | |].
        -- rewrite before_view_cons. cbn [type value].
           rewrite (take_snoc beforeWords i), drop_app_le by (rewrite ?length_take; lia).
           by rewrite <- app_assoc.
        -- rewrite after_view_cons. cbn [type value].
           rewrite (take_snoc afterWords j), drop_app_le by (rewrite ?length_take; lia).
           assert (word_at afterWords j = word_at beforeWords i) as ->.
           { unfold word_at. by rewrite Heq. }
           by rewrite <- app_assoc.
      * destruct (decide (cell dp (S i) j ≤ cell dp i (S j))).
        -- destruct (IHi (S j) (Op remove (word_at beforeWords i) :: ops))
             as (Hi1 & Hj1 & -> & ->); [lia | lia |].
           split_and!; [lia | lia | | done].
           rewrite before_view_cons. cbn [type value].
           rewrite (take_snoc beforeWords i), drop_app_le by (rewrite ?length_take; lia).
           by rewrite <- app_assoc.
        -- destruct (IHj (Op add (word_at afterWords j) :: ops))
             as (Hi1 & Hj1 & -> & ->); [lia | lia |].
           split_and!; [lia | lia | done |].
           rewrite after_view_cons. cbn [type value].
           rewrite (take_snoc afterWords j), drop_app_le by (rewrite ?length_take; lia).
           by rewrite <- app_assoc.
Qed.

Lemma remove_rest_views i ops :
  i ≤ length beforeWords →
  before_view (remove_rest beforeWords i ops) = take i beforeWords ++ before_view ops ∧
  after_view (remove_rest beforeWords i ops) = after_view ops.
Proof.
  revert ops. induction i as [|i IH]; intros ops Hi; simpl; [done|].
  destruct (IH (Op remove (word_at beforeWords i) :: ops)) as [-> ->]; [lia|].
  rewrite before_view_cons, after_view_cons. cbn [type value].
  rewrite (take_snoc beforeWords i) by lia. by rewrite <- app_assoc.
Qed.

Lemma add_rest_views j ops :
  j ≤ length afterWords →
  before_view (add_rest afterWords j ops) = before_view ops ∧
  after_view (add_rest afterWords j ops) = take j afterWords ++ after_view ops.
Proof.
  revert ops. induction j as [|j IH]; intros ops Hj; simpl; [done|].
  destruct (IH (Op add (word_at afterWords j) :: ops)) as [-> ->]; [lia|].
  rewrite before_view_cons, after_view_cons. cbn [type value].
  rewrite (take_snoc afterWords j) by lia. by rewrite <- app_assoc.
Qed.

Lemma operations_views :
  before_view (operations beforeWords afterWords) = beforeWords ∧
  after_view (operations beforeWords afterWords) = afterWords.
Proof.
  unfold operations. cbv zeta.
  set (dp := fill_table _ _ _ _).
  destruct (backtrack_views dp (length beforeWords) (length afterWords) [])
    as (Hi1 & Hj1 & Hbefore & Hafter); [done | done |].
  destruct (backtrack _ _ dp _ _ []) as [[i1 j1] ops]. cbn [fst snd] in *.
  destruct (remove_rest_views i1 ops Hi1) as [Hb1 Ha1].
  destruct (add_rest_views j1 (remove_rest beforeWords i1 ops) Hj1) as [-> ->].
  rewrite Hb1, Ha1, Hbefore, Hafter. rewrite !firstn_all. unfold before_view, after_view.
  simpl. by rewrite !app_nil_r, !take_drop.
Qed.
End edit_script.

Section diff_views.
Import JS Diff.

Lemma before_view_length ops :
  length (before_view ops) = count_type equal ops + count_type remove ops.
Proof.
  induction ops as [|[[] w] ops IH]; [done|..];
    rewrite before_view_cons, !count_type_cons; cbn [type decide]; simpl; lia.
Qed.

Lemma after_view_length ops :
  length (after_view ops) = count_type equal ops + count_type add ops.
Proof.
  induction ops as [|[[] w] ops IH]; [done|..];
    rewrite after_view_cons, !count_type_cons; cbn [type decide]; simpl; lia.
Qed.

(** X1. The edit script of [diffWords] spells both texts: the operations
    shown in the original view (all but the additions) carry the words of
    the original text in their order, and the operations shown in the
    suggested view (all but the removals) carry the words of the suggested
    text in their order. So the removals are the original's words outside
    the common subsequence, and the additions are the suggested text's. *)
Theorem diff_views_spell_both_texts :
  ∀ beforeText afterText : string,
    let ops := diffOperations beforeText afterText in
    before_view ops = words beforeText ∧
    after_view ops = words afterText ∧
    count_type equal ops + count_type remove ops = length (words beforeText) ∧
    count_type equal ops + count_type add ops = length (words afterText).
Proof.
  intros beforeText afterText ops.
  destruct (operations_views (words beforeText) (words afterText)) as [Hbefore Hafter].
  fold (diffOperations beforeText afterText) in Hbefore, Hafter. fold ops in Hbefore, Hafter.
  split_and!; [done | done | |].
  - by rewrite <- before_view_length, Hbefore.
  - by rewrite <- after_view_length, Hafter.
Qed.
End diff_views.

(** ** Words *)

Section tokens.
Import JS Diff.

Fixpoint has_space (s : string) : bool :=
  match s with
  | EmptyString => false
  | String c rest => is_space c || has_space rest
  end.

Lemma has_space_app a b : has_space (a +:+ b) = has_space a || has_space b.
Proof.
  induction a as [|c a IH]; [done|].
  change (has_space (String c (a +:+ b)) = has_space (String c a) || has_space b).
  simpl. by rewrite IH, orb_assoc.
Qed.

Lemma split_ws_from_spaceless s cur in_ws :
  has_space cur = false →
  Forall (λ w, has_space w = false) (split_ws_from s cur in_ws).
Proof.
  revert cur in_ws. induction s as [|c s IH]; intros cur in_ws Hcur; simpl.
  - by constructor.
  - destruct (is_space c) eqn:Hc.
    + destruct in_ws; [by apply IH|]. constructor; [done | by apply IH].
    + apply IH. rewrite has_space_app, Hcur. simpl. by rewrite Hc.
Qed.

Lemma string_app_nil_r (s : string) : s +:+ "" = s.
Proof.
  induction s as [|c s IH]; [done|]. change (String c (s +:+ "") = String c s). by f_equal.
Qed.

(** Reading a word that has no white space only extends the current
    piece. *)
Lemma split_ws_from_word w s cur in_ws :
  has_space w = false →
  split_ws_from (w +:+ s) cur in_ws =
    match w with
    | EmptyString => split_ws_from s cur in_ws
    | _ => split_ws_from s (cur +:+ w) false
    end.
Proof.
  revert cur in_ws. induction w as [|c w IH]; intros cur in_ws Hw; [done|].
  simpl in Hw. apply orb_false_iff in Hw as [Hc Hw].
  change (String c w +:+ s) with (String c (w +:+ s)). cbn [split_ws_from]. rewrite Hc.
  rewrite IH by done. destruct w as [|c' w]; [done|].
  by rewrite string_app_assoc.
Qed.

Lemma words_after_space s :
  filter (λ w : string, w ≠ "") (split_ws_from s "" true) = words s.
Proof.
  unfold words, split_ws. destruct s as [|c s]; [done|]. simpl.
  destruct (is_space c); [|done]. by rewrite filter_cons_False by naive_solver.
Qed.

Lemma words_cons w s :
  w ≠ "" → has_space w = false → words (w +:+ " " +:+ s) = w :: words s.
Proof.
  intros Hne Hw. unfold words at 1. unfold split_ws.
  rewrite split_ws_from_word by done. destruct w as [|c w]; [done|].
  change ("" +:+ String c w) with (String c w).
  change (" " +:+ s) with (String " " s). cbn [split_ws_from].
  change (is_space " ") with true. cbv iota.
  rewrite filter_cons_True by done. by rewrite words_after_space.
Qed.

Lemma words_single w : w ≠ "" → has_space w = false → words w = [w].
Proof.
  intros Hne Hw. unfold words, split_ws.
  rewrite <- (string_app_nil_r w) at 1. rewrite split_ws_from_word by done.
  destruct w as [|c w]; [done|]. simpl. by rewrite filter_cons_True, filter_nil.
Qed.

Lemma words_join ws :
  Forall (λ w, w ≠ "" ∧ has_space w = false) ws → words (join " " ws) = ws.
Proof.
  induction 1 as [|w ws [Hne Hw] Hws IH]; [done|].
  destruct ws as [|w' ws].
  - by apply words_single.
  - change (join " " (w :: w' :: ws)) with (w +:+ " " +:+ join " " (w' :: ws)).
    by rewrite words_cons, IH.
Qed.

(** X2. The words that [diffWords] compares are the maximal runs without
    white space: none is empty, none holds a white-space character, and
    joining them with single spaces gives a text with the same words. *)
Theorem words_are_spaceless_runs :
  ∀ text : string,
    Forall (λ w, w ≠ "" ∧ has_space w = false) (words text) ∧
    words (join " " (words text)) = words text.
Proof.
  intros text.
  assert (Forall (λ w, w ≠ "" ∧ has_space w = false) (words text)) as Hwords.
  { unfold words, split_ws. apply Forall_forall. intros w [Hne Hw]%list_elem_of_filter.
    split; [done|].
    pose proof (split_ws_from_spaceless text "" false eq_refl) as Hall.
    by eapply Forall_forall in Hall. }
  split; [done | by apply words_join].
Qed.
End tokens.

(** ** Escaping *)

Module Html.
Import JS.

(** [s.replace(/c/g, replacement)] for a pattern of one character *)
Fixpoint replace_all (c : ascii) (replacement : string) (s : string) : string :=
  match s with
  | EmptyString => ""
  | String x rest =>
      (if decide (x = c) then replacement else String x "") +:+ replace_all c replacement rest
  end.

(** [escapeHtml] as it is written, one pass after the other. *)
Definition escapeHtml (value : string) : string :=
  replace_all "'" "&#39;"
    (replace_all (ascii_of_nat 34) "&quot;"
       (replace_all ">" "&gt;"
          (replace_all "<" "&lt;"
             (replace_all "&" "&amp;" value)))).

End Html.

Section escaping.
Import JS.

Lemma replace_all_app c replacement a b :
  Html.replace_all c replacement (a +:+ b) =
    Html.replace_all c replacement a +:+ Html.replace_all c replacement b.
Proof.
  induction a as [|x a IH]; [done|].
  change (String x a +:+ b) with (String x (a +:+ b)). cbn [Html.replace_all].
  by rewrite IH, string_app_assoc.
Qed.

Lemma escapeHtml_passes_app a b :
  Html.escapeHtml (a +:+ b) = Html.escapeHtml a +:+ Html.escapeHtml b.
Proof. unfold Html.escapeHtml. by rewrite !replace_all_app. Qed.

Lemma escapeHtml_passes_char c : Html.escapeHtml (String c "") = Diff.escape_char c.
Proof. destruct c as [[] [] [] [] [] [] [] []]; reflexivity. Qed.

Lemma escapeHtml_app a b : Diff.escapeHtml (a +:+ b) = Diff.escapeHtml a +:+ Diff.escapeHtml b.
Proof.
  induction a as [|x a IH]; [done|].
  change (String x a +:+ b) with (String x (a +:+ b)). cbn [Diff.escapeHtml].
  by rewrite IH, string_app_assoc.
Qed.

(** The characters that end or start markup, or a quoted attribute. *)
Definition is_markup (c : ascii) : bool :=
  match nat_of_ascii c with
  | 60 | 62 | 34 | 39 => true
  | _ => false
  end.

Fixpoint has_markup (s : string) : bool :=
  match s with
  | EmptyString => false
  | String c rest => is_markup c || has_markup rest
  end.

Lemma has_markup_app a b : has_markup (a +:+ b) = has_markup a || has_markup b.
Proof.
  induction a as [|c a IH]; [done|].
  change (has_markup (String c (a +:+ b)) = has_markup (String c a) || has_markup b).
  simpl. by rewrite IH, orb_assoc.
Qed.

Lemma escape_char_plain c : has_markup (Diff.escape_char c) = false.
Proof. destruct c as [[] [] [] [] [] [] [] []]; reflexivity. Qed.

(** X3. The five replacements of [escapeHtml], made one after the other,
    act as one substitution on the characters of the input: a replacement
    is never escaped again. The escaped text holds none of the characters
    [<], [>], the double quote and the single quote, and escaping goes
    through concatenation. *)
Theorem escapeHtml_is_one_substitution :
  ∀ value : string,
    Html.escapeHtml value = Diff.escapeHtml value ∧
    has_markup (Html.escapeHtml value) = false ∧
    ∀ rest : string,
      Html.escapeHtml (value +:+ rest) = Html.escapeHtml value +:+ Html.escapeHtml rest.
Proof.
  intros value.
  assert (∀ s, Html.escapeHtml s = Diff.escapeHtml s) as Hsame.
  { induction s as [|c s IH]; [done|].
    change (String c s) with (String c "" +:+ s).
    rewrite escapeHtml_passes_app, escapeHtml_passes_char, IH. done. }
  split_and!; [done | | apply escapeHtml_passes_app].
  rewrite Hsame. induction value as [|c value IH]; [done|].
  cbn [Diff.escapeHtml]. by rewrite has_markup_app, escape_char_plain, IH.
Qed.
End escaping.

(** ** The change set *)

Section change_set_shape.
Import JS Backend Frontend.
Variable exponent_text : Z → string.
Variable string_to_number : string → option Z.

Lemma bind_nil_all {A B} (f : A → list B) (l : list A) :
  (∀ x, x ∈ l → f x = []) → l ≫= f = [].
Proof.
  induction l as [|x l IH]; intros Hf; [done|].
  rewrite bind_cons, Hf by left. apply IH. intros y Hy. apply Hf. by right.
Qed.

Definition is_skill_change (item : ChangeItem) : bool :=
  match item with
  | SkillItem _ _ _ _ _ => true
  | _ => false
  end.

Definition is_experience_change (item : ChangeItem) : bool :=
  match item with
  | ExperienceItem _ _ _ _ _ _ => true
  | _ => false
  end.

Definition is_project_change (item : ChangeItem) : bool :=
  match item with
  | ProjectItem _ _ _ _ _ _ => true
  | _ => false
  end.

Lemma summary_emitted_shape resumeJson analysisJson :
  length (summary_emitted exponent_text resumeJson analysisJson) ≤ 1 ∧
  Forall (λ item, is_summary_item item = true)
    (summary_emitted exponent_text resumeJson analysisJson).
Proof.
  unfold summary_emitted. cbv zeta. case_match; [|by split; [simpl; lia | constructor]].
  split; [done|]. by repeat constructor.
Qed.

Lemma skills_emitted_shape resumeJson analysisJson :
  Forall (λ item, is_skill_change item = true)
    (skills_emitted exponent_text resumeJson analysisJson).
Proof.
  apply Forall_forall. intros item (indexed & Hitem & _)%list_elem_of_bind.
  by apply skill_emitted_inv in Hitem as (? & ? & ? & ? & -> & _).
Qed.

Lemma experiences_emitted_shape resumeJson analysisJson :
  Forall (λ item, is_experience_change item = true)
    (experiences_emitted exponent_text string_to_number resumeJson analysisJson).
Proof.
  apply Forall_forall. intros item Hitem.
  by apply experiences_emitted_inv in Hitem as (? & ? & ? & ? & ? & ? & ->).
Qed.

Lemma projects_emitted_shape resumeJson analysisJson :
  Forall (λ item, is_project_change item = true)
    (projects_emitted exponent_text string_to_number resumeJson analysisJson).
Proof.
  apply Forall_forall. intros item Hitem.
  by apply projects_emitted_inv in Hitem as (? & ? & ? & ? & ? & ? & ->).
Qed.

(** The text or value that an item shows as changed. The two summaries
    of a summary item are not the same primitive value; two objects are
    always two values. *)
Definition is_real_change (item : ChangeItem) : Prop :=
  match item with
  | SummaryItem _ before after _ =>
      truthy after = true ∧ ¬ (is_primitive after = true ∧ after = before)
  | SkillItem _ _ _ before after => before ≠ after
  | ExperienceItem _ _ _ _ before after => before ≠ after
  | ProjectItem _ _ _ _ before after => before ≠ after
  end.

Lemma section_emitted_changed prefix make_item sectionIndex resumeEntry analysisEntry item :
  item ∈ section_emitted prefix make_item sectionIndex resumeEntry analysisEntry →
  ∃ pointId before after, item = make_item pointId before after ∧ before ≠ after.
Proof.
  unfold section_emitted. intros (k & Hitem & _)%list_elem_of_bind.
  unfold point_emitted in Hitem. case_bool_decide; [by apply elem_of_nil in Hitem|].
  apply list_elem_of_singleton in Hitem. eauto.
Qed.

Lemma change_set_changes resumeJson analysisJson :
  Forall is_real_change (change_set exponent_text string_to_number resumeJson analysisJson).
Proof.
  unfold change_set. destruct (truthy resumeJson && truthy analysisJson); [|constructor].
  rewrite !Forall_app. split_and!; apply Forall_forall; intros item Hitem.
  - unfold summary_emitted in Hitem. cbv zeta in Hitem.
    destruct (truthy (getSummaryText (prop analysisJson "summary"))
              && negb (strict_equal_apart (getSummaryText (prop analysisJson "summary"))
                         (getSummaryText (prop resumeJson "summary")))) eqn:Hchanged;
      [|by apply elem_of_nil in Hitem].
    apply list_elem_of_singleton in Hitem as ->.
    apply andb_true_iff in Hchanged as [Htruthy Hne%negb_true_iff].
    split; [done|]. intros [Hp Heq]. unfold strict_equal_apart in Hne.
    by rewrite Hp, bool_decide_true in Hne.
  - apply list_elem_of_bind in Hitem as (indexed & Hitem & _).
    by apply skill_emitted_inv in Hitem as (? & ? & ? & ? & -> & _ & _ & Hne).
  - apply list_elem_of_bind in Hitem as (jobIndex & Hitem & _).
    unfold experience_emitted in Hitem.
    by apply section_emitted_changed in Hitem as (? & ? & ? & -> & Hne).
  - apply list_elem_of_bind in Hitem as (projectIndex & Hitem & _).
    unfold project_emitted in Hitem.
    by apply section_emitted_changed in Hitem as (? & ? & ? & -> & Hne).
Qed.

(** The field of the document that an item addresses. *)
Definition addressed (item : ChangeItem) : string * nat * Value :=
  match item with
  | SummaryItem _ _ _ _ => ("summary", 0, JNull)
  | SkillItem _ _ skillId _ _ => ("skills", 0, skillId)
  | ExperienceItem _ _ jobIndex pointId _ _ => ("experience", jobIndex, JStr pointId)
  | ProjectItem _ _ projectIndex pointId _ _ => ("projects", projectIndex, JStr pointId)
  end.

(** The items that address a field by value: all but the skill items
    whose id is an object or an array, which is a reference. *)
Definition addresses_by_value (item : ChangeItem) : Prop :=
  match item with
  | SkillItem _ _ skillId _ _ => is_primitive skillId = true
  | _ => True
  end.

Global Instance addresses_by_value_dec item : Decision (addresses_by_value item).
Proof. destruct item; simpl; apply _. Defined.

Lemma fmap_bind_list {A B C} (f : A → list B) (g : B → C) (l : list A) :
  g <$> (l ≫= f) = l ≫= (λ x, g <$> f x).
Proof.
  induction l as [|x l IH]; [done|]. by rewrite !bind_cons, fmap_app, IH.
Qed.

Lemma filter_bind_list {A B} (P : B → Prop) `{!∀ x, Decision (P x)} (f : A → list B)
    (l : list A) :
  filter P (l ≫= f) = l ≫= (λ x, filter P (f x)).
Proof.
  induction l as [|x l IH]; [done|]. by rewrite !bind_cons, filter_app, IH.
Qed.

Lemma NoDup_short {A} (l : list A) : length l ≤ 1 → NoDup l.
Proof.
  destruct l as [|x [|y l]]; simpl; intros Hl; [constructor | | lia].
  apply NoDup_singleton.
Qed.

Lemma imap_snd {A} (f : nat → A → nat * A) (l : list A) :
  (∀ i x, (f i x).2 = x) → snd <$> imap f l = l.
Proof.
  revert f. induction l as [|x l IH]; intros f Hf; [done|].
  simpl. rewrite Hf. f_equal. apply IH. intros i y. apply Hf.
Qed.

Lemma imap_pair_NoDup {A} (l : list A) : NoDup l → NoDup (imap pair l).
Proof. intros Hl. apply (NoDup_fmap_1 snd). by rewrite imap_snd. Qed.

Lemma filter_all_by_value (items : list ChangeItem) :
  Forall (λ item, is_skill_change item = false) items →
  filter addresses_by_value items = items.
Proof.
  intros Hitems. apply filter_all. intros item Hitem.
  eapply Forall_forall in Hitems; [|done]. by destruct item.
Qed.

Lemma skills_emitted_NoDup resumeJson analysisJson :
  NoDup (addressed <$> filter addresses_by_value
                         (skills_emitted exponent_text resumeJson analysisJson)).
Proof.
  unfold skills_emitted. cbv zeta. rewrite filter_bind_list, fmap_bind_list.
  set (rm := held_skills false (skills_of resumeJson)).
  set (am := held_skills true (skills_of analysisJson)).
  assert (∀ indexed y,
            indexed ∈ imap pair (ordered_ids rm am) →
            y ∈ addressed <$> filter addresses_by_value
                                (skill_emitted exponent_text rm am indexed) →
            y = ("skills", 0, key_value indexed.2) ∧
            indexed.2 = ByValue (key_value indexed.2)) as Hform.
  { intros [idx k] y Hin (item & -> & [Hvalue Hitem]%list_elem_of_filter)%list_elem_of_fmap.
    apply skill_emitted_inv in Hitem as (? & ? & ? & ? & -> & _).
    split; [done|]. cbn [snd addresses_by_value] in *.
    apply ordered_skill_key in Hin as (inAnalysis & i & e & _ & ->).
    unfold skill_key in *. rewrite key_of_value in *.
    by apply key_of_primitive. }
  apply NoDup_bind.
  - intros [i1 k1] [i2 k2] y Hx1 Hx2 Hy1 Hy2.
    destruct (Hform _ _ Hx1 Hy1) as [-> Hk1]. destruct (Hform _ _ Hx2 Hy2) as [[= Hk] Hk2].
    simpl in *. assert (k1 = k2) as <- by congruence.
    apply elem_of_lookup_imap in Hx1 as (j1 & z1 & [= -> ->] & Hz1).
    apply elem_of_lookup_imap in Hx2 as (j2 & z2 & [= -> ->] & Hz2).
    f_equal. eapply NoDup_lookup; [|done..].
    apply ordered_ids_NoDup; apply held_skills_NoDup.
  - intros indexed _. apply NoDup_short. rewrite length_fmap.
    etransitivity; [apply length_filter|].
    unfold skill_emitted. cbv zeta. case_bool_decide; simpl; lia.
  - apply imap_pair_NoDup, ordered_ids_NoDup; apply held_skills_NoDup.
Qed.

Lemma section_emitted_NoDup prefix make_item sectionIndex resumeEntry analysisEntry
    (key : string) :
  (∀ pointId before after,
     addressed (make_item pointId before after) = (key, sectionIndex, JStr pointId)) →
  NoDup (addressed <$> section_emitted prefix make_item sectionIndex resumeEntry
                         analysisEntry).
Proof.
  intros Hmake. unfold section_emitted. cbv zeta. rewrite fmap_bind_list.
  set (rm := held_points prefix sectionIndex (points_of resumeEntry)).
  set (am := held_points prefix sectionIndex (points_of analysisEntry)).
  assert (∀ pointId y, y ∈ addressed <$> point_emitted make_item rm am pointId →
                       y = (key, sectionIndex, JStr pointId)) as Hform.
  { intros pointId y (item & -> & Hitem)%list_elem_of_fmap.
    unfold point_emitted in Hitem. cbv zeta in Hitem.
    case_bool_decide; [by apply elem_of_nil in Hitem|].
    apply list_elem_of_singleton in Hitem as ->. apply Hmake. }
  apply NoDup_bind.
  - intros k1 k2 y _ _ Hy1%Hform Hy2%Hform. congruence.
  - intros pointId _. apply NoDup_short. rewrite length_fmap.
    unfold point_emitted. cbv zeta. case_bool_decide; simpl; lia.
  - apply ordered_ids_NoDup; apply held_points_NoDup.
Qed.

Lemma visited_NoDup a b : NoDup (visited exponent_text string_to_number a b).
Proof.
  unfold visited, loop_indices.
  destruct (get a "length") as [la|]; [|constructor]. rewrite bind_Ok.
  destruct (get b "length") as [lb|]; [|constructor]. rewrite bind_Ok.
  destruct (to_number exponent_text string_to_number la) as [[x|]|]; [| |by constructor];
    rewrite bind_Ok;
    (destruct (to_number exponent_text string_to_number lb) as [[y|]|];
     [| |by constructor]); rewrite bind_Ok; try constructor; apply NoDup_seq.
Qed.

Lemma experiences_emitted_NoDup resumeJson analysisJson :
  NoDup (addressed <$> experiences_emitted exponent_text string_to_number resumeJson
                         analysisJson).
Proof.
  unfold experiences_emitted. cbv zeta. rewrite fmap_bind_list.
  apply NoDup_bind; [| |apply visited_NoDup].
  - intros j1 j2 y _ _ (item1 & -> & Hitem1)%list_elem_of_fmap
      (item2 & Hy & Hitem2)%list_elem_of_fmap.
    unfold experience_emitted in Hitem1, Hitem2.
    apply section_emitted_inv in Hitem1 as (? & ? & ? & ->).
    apply section_emitted_inv in Hitem2 as (? & ? & ? & ->).
    simpl in Hy. congruence.
  - intros jobIndex _. unfold experience_emitted. cbv zeta.
    by apply section_emitted_NoDup with (key := "experience").
Qed.

Lemma projects_emitted_NoDup resumeJson analysisJson :
  NoDup (addressed <$> projects_emitted exponent_text string_to_number resumeJson
                         analysisJson).
Proof.
  unfold projects_emitted. cbv zeta. rewrite fmap_bind_list.
  apply NoDup_bind; [| |apply visited_NoDup].
  - intros j1 j2 y _ _ (item1 & -> & Hitem1)%list_elem_of_fmap
      (item2 & Hy & Hitem2)%list_elem_of_fmap.
    unfold project_emitted in Hitem1, Hitem2.
    apply section_emitted_inv in Hitem1 as (? & ? & ? & ->).
    apply section_emitted_inv in Hitem2 as (? & ? & ? & ->).
    simpl in Hy. congruence.
  - intros projectIndex _. unfold project_emitted. cbv zeta.
    by apply section_emitted_NoDup with (key := "projects").
Qed.

Lemma addressed_section (kind : ChangeItem → bool) (key : string) items y :
  (∀ item, kind item = true → (addressed item).1.1 = key) →
  Forall (λ item, kind item = true) items → y ∈ addressed <$> items → y.1.1 = key.
Proof.
  intros Hkind Hitems (item & -> & Hitem)%list_elem_of_fmap.
  apply Hkind. by eapply Forall_forall in Hitems.
Qed.

Lemma change_set_NoDup resumeJson analysisJson :
  NoDup (addressed <$> filter addresses_by_value
                         (change_set exponent_text string_to_number resumeJson analysisJson)).
Proof.
  unfold change_set. destruct (truthy resumeJson && truthy analysisJson); [|constructor].
  destruct (summary_emitted_shape resumeJson analysisJson) as [Hone Hsummary].
  pose proof (skills_emitted_shape resumeJson analysisJson) as Hskills.
  pose proof (experiences_emitted_shape resumeJson analysisJson) as Hexperience.
  pose proof (projects_emitted_shape resumeJson analysisJson) as Hprojects.
  rewrite !filter_app.
  rewrite (filter_all_by_value (summary_emitted _ _ _))
    by (eapply Forall_impl; [done | by intros []]).
  rewrite (filter_all_by_value (experiences_emitted _ _ _ _))
    by (eapply Forall_impl; [done | by intros []]).
  rewrite (filter_all_by_value (projects_emitted _ _ _ _))
    by (eapply Forall_impl; [done | by intros []]).
  assert (∀ y, y ∈ addressed <$> summary_emitted exponent_text resumeJson analysisJson →
               y.1.1 = "summary") as Hs.
  { intros y. apply (addressed_section is_summary_item); [by intros []|done]. }
  assert (∀ y, y ∈ addressed <$> filter addresses_by_value
                                   (skills_emitted exponent_text resumeJson analysisJson) →
               y.1.1 = "skills") as Hk.
  { intros y. apply (addressed_section is_skill_change); [by intros []|].
    apply Forall_forall. intros item [_ Hitem]%list_elem_of_filter.
    by eapply Forall_forall in Hskills. }
  assert (∀ y, y ∈ addressed <$> experiences_emitted exponent_text string_to_number
                                   resumeJson analysisJson → y.1.1 = "experience") as He.
  { intros y. apply (addressed_section is_experience_change); [by intros []|done]. }
  assert (∀ y, y ∈ addressed <$> projects_emitted exponent_text string_to_number resumeJson
                                   analysisJson → y.1.1 = "projects") as Hp.
  { intros y. apply (addressed_section is_project_change); [by intros []|done]. }
  rewrite !fmap_app. repeat (apply NoDup_app; split_and!).
  - apply NoDup_short. by rewrite length_fmap.
  - intros y Hy%Hs [Hy'%Hk|[Hy'%He|Hy'%Hp]%elem_of_app]%elem_of_app; congruence.
  - apply skills_emitted_NoDup.
  - intros y Hy%Hk [Hy'%He|Hy'%Hp]%elem_of_app; congruence.
  - apply experiences_emitted_NoDup.
  - intros y Hy%He Hy'%Hp. congruence.
  - apply projects_emitted_NoDup.
Qed.

Lemma skill_id_at_own index props id :
  assoc "id" props = Some (JStr id) → id ≠ "" → skill_id_at index (JObj props) = JStr id.
Proof.
  intros Hid Hne. unfold skill_id_at, prop. cbn [truthy own_props]. rewrite Hid.
  change (default JUndefined (Some (JStr id))) with (JStr id).
  unfold or_else. cbn [truthy]. by rewrite bool_decide_true.
Qed.

(** The skill maps of the two documents are built alike from ids that are
    primitive values. *)
Lemma held_skills_primitive skills :
  Forall has_nonempty_id skills → held_skills true skills = held_skills false skills.
Proof.
  intros Hskills. rewrite !held_skills_filled. unfold filled_map.
  assert (Forall (λ x : nat * Value, skill_key true x.1 x.2 = skill_key false x.1 x.2)
            (imap pair skills)) as Hkeys.
  { apply Forall_forall. intros [i e] (j & y & [= -> ->] & Hy)%elem_of_lookup_imap.
    rewrite Forall_forall in Hskills.
    destruct (Hskills y) as (props & s & -> & Hid & Hne); [by eapply list_elem_of_lookup_2|].
    cbn [fst snd]. unfold skill_key. by rewrite (skill_id_at_own j props s). }
  generalize (@nil (Key * (Value * nat))).
  induction Hkeys as [|x l Hx _ IH]; intros m; [done|].
  cbn [foldl]. rewrite Hx. apply IH.
Qed.

Lemma change_set_same doc :
  plain_document doc → change_set exponent_text string_to_number doc doc = [].
Proof.
  intros (basics & summary & skills & experience & projects & education & certificates &
          -> & _ & (id & text & -> & _) & Hskills & _).
  unfold change_set. cbn [truthy andb].
  set (doc := JObj _).
  assert (summary_emitted exponent_text doc doc = []) as ->.
  { unfold summary_emitted, strict_equal_apart. cbv zeta.
    assert (getSummaryText (prop doc "summary") = JStr text) as ->.
    { change (prop doc "summary") with (JObj [("id", JStr id); ("text", JStr text)]).
      by destruct text. }
    cbn [is_primitive]. by rewrite bool_decide_true, andb_false_r. }
  assert (skills_emitted exponent_text doc doc = []) as ->.
  { unfold skills_emitted. cbv zeta. change (skills_of doc) with skills.
    rewrite held_skills_primitive by done.
    apply bind_nil_all. intros indexed _.
    unfold skill_emitted. cbv zeta. by rewrite bool_decide_true. }
  assert (∀ prefix make_item sectionIndex entry,
            section_emitted prefix make_item sectionIndex entry entry = []) as Hsection.
  { intros prefix make_item sectionIndex entry. unfold section_emitted. cbv zeta.
    apply bind_nil_all. intros pointId _. unfold point_emitted. cbv zeta.
    by rewrite bool_decide_true. }
  assert (experiences_emitted exponent_text string_to_number doc doc = []) as ->.
  { unfold experiences_emitted. cbv zeta. apply bind_nil_all. intros jobIndex _.
    unfold experience_emitted. cbv zeta. apply Hsection. }
  assert (projects_emitted exponent_text string_to_number doc doc = []) as ->.
  { unfold projects_emitted. cbv zeta. apply bind_nil_all. intros projectIndex _.
    unfold project_emitted. cbv zeta. apply Hsection. }
  done.
Qed.

(** X4. The items that [buildChangeItems] returns come grouped in the
    order of the sections: at most one summary item, then the skill items,
    then the experience items, then the project items. *)
Theorem change_items_follow_section_order :
  ∀ (resumeJson analysisJson : Value) (items : list ChangeItem),
    buildChangeItems exponent_text string_to_number resumeJson analysisJson = Ok items →
    ∃ summaryItems skillItems experienceItems projectItems,
      items = summaryItems ++ skillItems ++ experienceItems ++ projectItems ∧
      length summaryItems ≤ 1 ∧
      Forall (λ item, is_summary_item item = true) summaryItems ∧
      Forall (λ item, is_skill_change item = true) skillItems ∧
      Forall (λ item, is_experience_change item = true) experienceItems ∧
      Forall (λ item, is_project_change item = true) projectItems.
Proof.
  intros resumeJson analysisJson items ->%buildChangeItems_change_set. unfold change_set.
  destruct (truthy resumeJson && truthy analysisJson).
  - exists (summary_emitted exponent_text resumeJson analysisJson),
      (skills_emitted exponent_text resumeJson analysisJson),
      (experiences_emitted exponent_text string_to_number resumeJson analysisJson),
      (projects_emitted exponent_text string_to_number resumeJson analysisJson).
    destruct (summary_emitted_shape resumeJson analysisJson) as [Hone Hsummary].
    split_and!; [done | done | done | apply skills_emitted_shape
                | apply experiences_emitted_shape | apply projects_emitted_shape].
  - exists [], [], [], []. split_and!; [done | simpl; lia | by constructor..].
Qed.

(** X5. Every item that [buildChangeItems] returns is a change: the
    before and after texts of a skill or point item differ, and a summary
    item has a summary to suggest, which is not the same primitive value as
    the original's. *)
Theorem change_items_are_changes :
  ∀ (resumeJson analysisJson : Value) (items : list ChangeItem),
    buildChangeItems exponent_text string_to_number resumeJson analysisJson = Ok items →
    Forall is_real_change items.
Proof.
  intros resumeJson analysisJson items ->%buildChangeItems_change_set.
  apply change_set_changes.
Qed.

(** X6. A normalized document compared with itself, or with an equal
    document, has no change: when [buildChangeItems] returns, it returns
    the empty sequence. *)
Theorem change_set_of_one_document_is_empty :
  ∀ (raw doc : Value) (items : list ChangeItem),
    normalizeResumeJson raw = Ok doc →
    buildChangeItems exponent_text string_to_number doc doc = Ok items →
    items = [].
Proof.
  intros raw doc items Hraw ->%buildChangeItems_change_set.
  by apply change_set_same, (normalized_plain raw).
Qed.

(** X7. No two items that [buildChangeItems] returns address the same
    field: there is at most one summary item, the skill items whose id is a
    primitive value carry pairwise different ids, and the point items of one
    job or project carry pairwise different point ids. So a decision on one
    item is a decision on one field. *)
Theorem change_items_address_distinct_fields :
  ∀ (resumeJson analysisJson : Value) (items : list ChangeItem),
    buildChangeItems exponent_text string_to_number resumeJson analysisJson = Ok items →
    NoDup (addressed <$> filter addresses_by_value items).
Proof.
  intros resumeJson analysisJson items ->%buildChangeItems_change_set.
  apply change_set_NoDup.
Qed.
End change_set_shape.

Section change_set_examples.
Import JS Backend Frontend.

Lemma sample_change_set :
  ∃ resumeJson analysisJson,
    normalizeResumeJson sample_resume = Ok resumeJson ∧
    normalizeResumeJson sample_candidate = Ok analysisJson ∧
    buildChangeItems (λ _, "") (λ _, None) resumeJson analysisJson = Ok sample_items.
Proof.
  exists (value_of JNull (normalizeResumeJson sample_resume)),
    (value_of JNull (normalizeResumeJson sample_candidate)).
  split_and!; vm_compute; reflexivity.
Qed.

(** The change set of the sample résumé and candidate: a summary item, two
    skill items and two experience items, in this order. *)
Lemma change_items_follow_section_order_witness :
  ∃ resumeJson analysisJson,
    normalizeResumeJson sample_resume = Ok resumeJson ∧
    normalizeResumeJson sample_candidate = Ok analysisJson ∧
    buildChangeItems (λ _, "") (λ _, None) resumeJson analysisJson = Ok sample_items ∧
    ∃ summaryItems skillItems experienceItems projectItems,
      sample_items = summaryItems ++ skillItems ++ experienceItems ++ projectItems ∧
      length summaryItems ≤ 1 ∧
      Forall (λ item, is_summary_item item = true) summaryItems ∧
      Forall (λ item, is_skill_change item = true) skillItems ∧
      Forall (λ item, is_experience_change item = true) experienceItems ∧
      Forall (λ item, is_project_change item = true) projectItems.
Proof.
  destruct sample_change_set as (resumeJson & analysisJson & Hr & Ha & Hitems).
  exists resumeJson, analysisJson. split_and!; [done..|].
  exact (change_items_follow_section_order (λ _, "") (λ _, None) resumeJson analysisJson
           sample_items Hitems).
Defined.

Lemma change_items_are_changes_witness :
  ∃ resumeJson analysisJson,
    normalizeResumeJson sample_resume = Ok resumeJson ∧
    normalizeResumeJson sample_candidate = Ok analysisJson ∧
    buildChangeItems (λ _, "") (λ _, None) resumeJson analysisJson = Ok sample_items ∧
    Forall is_real_change sample_items.
Proof.
  destruct sample_change_set as (resumeJson & analysisJson & Hr & Ha & Hitems).
  exists resumeJson, analysisJson. split_and!; [done..|].
  exact (change_items_are_changes (λ _, "") (λ _, None) resumeJson analysisJson
           sample_items Hitems).
Defined.

Lemma change_set_of_one_document_is_empty_witness :
  ∃ doc items,
    normalizeResumeJson sample_resume = Ok doc ∧
    buildChangeItems (λ _, "") (λ _, None) doc doc = Ok items ∧
    items = [].
Proof.
  exists (value_of JNull (normalizeResumeJson sample_resume)),
    (value_of [] (buildChangeItems (λ _, "") (λ _, None)
                    (value_of JNull (normalizeResumeJson sample_resume))
                    (value_of JNull (normalizeResumeJson sample_resume)))).
  assert (normalizeResumeJson sample_resume
            = Ok (value_of JNull (normalizeResumeJson sample_resume))) as Hraw
    by (vm_compute; reflexivity).
  assert (buildChangeItems (λ _, "") (λ _, None)
            (value_of JNull (normalizeResumeJson sample_resume))
            (value_of JNull (normalizeResumeJson sample_resume))
          = Ok (value_of [] (buildChangeItems (λ _, "") (λ _, None)
                               (value_of JNull (normalizeResumeJson sample_resume))
                               (value_of JNull (normalizeResumeJson sample_resume)))))
    as Hitems by (vm_compute; reflexivity).
  split_and!; [exact Hraw | exact Hitems |].
  exact (change_set_of_one_document_is_empty (λ _, "") (λ _, None) sample_resume _ _
           Hraw Hitems).
Defined.

Lemma change_items_address_distinct_fields_witness :
  ∃ resumeJson analysisJson,
    normalizeResumeJson sample_resume = Ok resumeJson ∧
    normalizeResumeJson sample_candidate = Ok analysisJson ∧
    buildChangeItems (λ _, "") (λ _, None) resumeJson analysisJson = Ok sample_items ∧
    NoDup (addressed <$> filter addresses_by_value sample_items).
Proof.
  destruct sample_change_set as (resumeJson & analysisJson & Hr & Ha & Hitems).
  exists resumeJson, analysisJson. split_and!; [done..|].
  exact (change_items_address_distinct_fields (λ _, "") (λ _, None) resumeJson analysisJson
           sample_items Hitems).
Defined.
End change_set_examples.

(** ** Decisions and the merge *)

Module Decisions.
Import JS Frontend.

(** [buildInitialChangeState]: the object of decisions, one key per item
    id, as a finite map. *)
Definition buildInitialChangeState (items : list ChangeItem) : gmap string bool :=
  foldl (λ acc item, <[item_id item := false]> acc) ∅ items.

End Decisions.

Section merge_facts.
Import JS Backend Frontend Decisions.

Lemma initial_state_lookup items (acc : gmap string bool) k :
  foldl (λ acc item, <[item_id item := false]> acc) acc items !! k =
    if decide (k ∈ item_id <$> items) then Some false else acc !! k.
Proof.
  revert acc. induction items as [|item items IH]; intros acc; [done|].
  cbn [foldl]. rewrite IH, fmap_cons.
  destruct (decide (k ∈ item_id <$> items)) as [Hin|Hnotin].
  - rewrite decide_True; [done | by right].
  - destruct (decide (k = item_id item)) as [->|Hne].
    + rewrite lookup_insert_eq. rewrite decide_True; [done | by left].
    + rewrite lookup_insert_ne by done. rewrite decide_False; [done|].
      by intros [?|?]%elem_of_cons.
Qed.

(** X8. The initial decisions hold [false] for the id of every item and no
    other key, and with them the merge of a normalized résumé returns that
    résumé: the review starts from the original, whatever the candidate. *)
Theorem initial_decisions_give_the_original :
  ∀ (raw analysisJson : Value) (changeItems : list ChangeItem),
    (∀ key, buildInitialChangeState changeItems !! key =
            if decide (key ∈ item_id <$> changeItems) then Some false else None) ∧
    ∃ resumeJson,
      normalizeResumeJson raw = Ok resumeJson ∧
      buildUpdatedResumeData resumeJson analysisJson changeItems
        (buildInitialChangeState changeItems) = Ok resumeJson.
Proof.
  intros raw analysisJson changeItems.
  assert (∀ key, buildInitialChangeState changeItems !! key =
                 if decide (key ∈ item_id <$> changeItems) then Some false else None)
    as Hstate.
  { intros key. unfold buildInitialChangeState. by rewrite initial_state_lookup. }
  split; [done|].
  rewrite normalizeResumeJson_total. eexists. split; [reflexivity|].
  apply buildUpdatedResumeData_rejected.
  - apply (normalized_plain raw). by rewrite normalizeResumeJson_total.
  - intros item Hitem. unfold accepts. rewrite Hstate, decide_True; [done|].
    by apply list_elem_of_fmap_2.
Qed.

Lemma for_each_filter {A St} (body : St → A → result St) (P : A → Prop)
    `{!∀ x, Decision (P x)} s l :
  (∀ s x, ¬ P x → body s x = Ok s) →
  for_each body s l = for_each body s (filter P l).
Proof.
  intros Hskip. revert s. induction l as [|x l IH]; intros s; [done|].
  rewrite filter_cons. destruct (decide (P x)) as [Hx|Hx]; simpl.
  - destruct (body s x) as [s'|]; [|done]. simpl. apply IH.
  - rewrite (Hskip s x Hx). simpl. apply IH.
Qed.

(** X9. The items that are not accepted play no part in the merge: the
    merged document is the one that the accepted items alone give. This
    holds on all values, also where the merge throws. *)
Theorem merge_ignores_rejected_items :
  ∀ (resumeJson analysisJson : Value) (changeItems : list ChangeItem)
    (changeState : gmap string bool),
    buildUpdatedResumeData resumeJson analysisJson changeItems changeState =
    buildUpdatedResumeData resumeJson analysisJson
      (filter (λ item, accepts changeState item = true) changeItems) changeState.
Proof.
  intros resumeJson analysisJson changeItems changeState. unfold buildUpdatedResumeData.
  destruct (negb (truthy resumeJson)); [done|].
  destruct (initial_copy resumeJson) as [u0|]; [|done]. rewrite !bind_Ok.
  destruct (negb (truthy analysisJson)); [done|].
  rewrite (for_each_filter _ (λ item, accepts changeState item = true)); [done|].
  intros u item Hitem. unfold apply_item. unfold accepts in Hitem.
  by destruct (default false (changeState !! item_id item)).
Qed.

Lemma updated_value_basics u : prop (updated_value u) "basics" = JObj (basics u).
Proof. unfold updated_value. rewrite !prop_obj_set_ne by done. apply prop_obj_set_eq. Qed.

Lemma updated_value_education u : prop (updated_value u) "education" = JArr (education u).
Proof. unfold updated_value. rewrite !prop_obj_set_ne by done. apply prop_obj_set_eq. Qed.

Lemma updated_value_certificates u :
  prop (updated_value u) "certificates" = JArr (certificates u).
Proof. unfold updated_value. apply prop_obj_set_eq. Qed.

Lemma foldl_applied_frame analysisJson changeState u0 changeItems :
  truthy analysisJson = true →
  let u := foldl (applied analysisJson changeState) u0 changeItems in
  basics u = basics u0 ∧ education u = education u0 ∧ certificates u = certificates u0.
Proof.
  intros Ha. cbv zeta. revert u0. induction changeItems as [|item items IH]; intros u0; [done|].
  simpl. destruct (IH (applied analysisJson changeState u0 item)) as (-> & -> & ->).
  by destruct (applied_frame analysisJson changeState Ha u0 item) as (_ & -> & -> & ->).
Qed.

Lemma merge_first_length {A} (p : A → bool) l a : length l ≤ length (merge_first p l a).
Proof.
  unfold merge_first. destruct (first_from p l 0) as [[i x]|].
  - by rewrite length_insert.
  - rewrite length_app. simpl. lia.
Qed.

Lemma foldl_applied_points analysisJson changeState u0 changeItems key i :
  truthy analysisJson = true → key = "experience" ∨ key = "projects" →
  length (entry_points (section_entries key u0) i) ≤
  length (entry_points (section_entries key
                          (foldl (applied analysisJson changeState) u0 changeItems)) i).
Proof.
  intros Ha Hkey. revert u0. induction changeItems as [|item items IH]; intros u0; [done|].
  simpl. etrans; [|apply IH]. rewrite applied_points by done.
  destruct (point_target item) as [[[key' sectionIndex] pointId]|]; [|done].
  destruct (accepts changeState item && bool_decide (key' = key ∧ sectionIndex = i)); [|done].
  unfold merge_candidate_point.
  destruct (candidate_point analysisJson key sectionIndex pointId); [|done].
  apply (merge_first_length (λ point, bool_decide (point_id point "" = pointId))).
Qed.

(** X10. On a normalized résumé the merge returns a document for every
    candidate, every list of items and every decision; the contact block,
    the education and the certificates of the result are the original's,
    and no job or project has fewer points than it had: accepting changes
    replaces or adds points and never removes one. *)
Theorem merge_returns_and_keeps_the_rest :
  ∀ (raw analysisJson : Value) (changeItems : list ChangeItem)
    (changeState : gmap string bool),
    ∃ resumeJson doc,
      normalizeResumeJson raw = Ok resumeJson ∧
      buildUpdatedResumeData resumeJson analysisJson changeItems changeState = Ok doc ∧
      prop doc "basics" = prop resumeJson "basics" ∧
      prop doc "education" = prop resumeJson "education" ∧
      prop doc "certificates" = prop resumeJson "certificates" ∧
      ∀ sectionIndex,
        length (document_points resumeJson "experience" sectionIndex)
          ≤ length (document_points doc "experience" sectionIndex) ∧
        length (document_points resumeJson "projects" sectionIndex)
          ≤ length (document_points doc "projects" sectionIndex).
Proof.
  intros raw analysisJson changeItems changeState.
  rewrite normalizeResumeJson_total.
  set (resumeJson := if truthy raw && typeof_object raw then normal_document raw
                     else JObj emptyResumeJson).
  assert (plain_document resumeJson) as Hdoc.
  { apply (normalized_plain raw). by rewrite normalizeResumeJson_total. }
  exists resumeJson.
  destruct (truthy analysisJson) eqn:Ha.
  - unfold buildUpdatedResumeData. rewrite (plain_document_truthy resumeJson Hdoc), Ha.
    cbn [negb].
    destruct (initial_copy_plain resumeJson Hdoc)
      as (u0 & -> & Hu0 & _ & _ & Hexperience & Hprojects).
    rewrite bind_Ok.
    rewrite (for_each_total _ (applied analysisJson changeState))
      by (intros; by apply apply_item_total).
    rewrite bind_Ok. eexists. split; [reflexivity|]. split; [reflexivity|].
    destruct (foldl_applied_frame analysisJson changeState u0 changeItems Ha)
      as (Hbasics & Heducation & Hcertificates).
    rewrite updated_value_basics, updated_value_education, updated_value_certificates.
    cbn [basics education certificates].
    rewrite Hbasics, Heducation, Hcertificates, <- Hu0.
    rewrite updated_value_basics, updated_value_education, updated_value_certificates.
    split_and!; [done | done | done |].
    intros sectionIndex. unfold document_points.
    pose proof (foldl_applied_points analysisJson changeState u0 changeItems "experience"
                  sectionIndex Ha (or_introl eq_refl)) as Hexp.
    pose proof (foldl_applied_points analysisJson changeState u0 changeItems "projects"
                  sectionIndex Ha (or_intror eq_refl)) as Hproj.
    rewrite !updated_value_experience, !updated_value_projects. cbn [experience projects].
    by rewrite !entry_points_document.
  - exists resumeJson. split; [reflexivity|].
    split; [by apply buildUpdatedResumeData_absent|]. done.
Qed.
End merge_facts.

(** ** Trimmed strings *)

Section trimming.
Import JS.

(** Strings that do not start with white space. *)
Definition starts_clean (s : string) : Prop :=
  match s with
  | EmptyString => True
  | String c _ => is_space c = false
  end.

Lemma trim_start_clean s : starts_clean (trim_start s).
Proof.
  induction s as [|c s IH]; [done|]. cbn [trim_start].
  by destruct (is_space c) eqn:Hc.
Qed.

Lemma trim_start_fixed s : starts_clean s → trim_start s = s.
Proof. destruct s as [|c s]; [done|]. simpl. by intros ->. Qed.

Lemma trim_end_clean s : starts_clean s → starts_clean (trim_end s).
Proof.
  destruct s as [|c s]; [done|]. cbn [trim_end starts_clean]. cbv zeta.
  intros Hc. by rewrite Hc.
Qed.

Lemma trim_end_idempotent s : trim_end (trim_end s) = trim_end s.
Proof.
  induction s as [|c s IH]; [done|]. cbn [trim_end]. cbv zeta.
  destruct (is_space c && bool_decide (trim_end s = "")) eqn:Hc; [done|].
  cbn [trim_end]. cbv zeta. by rewrite IH, Hc.
Qed.

Lemma trim_idempotent s : trim (trim s) = trim s.
Proof.
  unfold trim. rewrite (trim_start_fixed (trim_end (trim_start s))).
  - apply trim_end_idempotent.
  - apply trim_end_clean, trim_start_clean.
Qed.

Lemma trim_end_spaceless s : has_space s = false → trim_end s = s.
Proof.
  induction s as [|c s IH]; [done|]. simpl.
  intros [Hc Hs]%orb_false_iff. by rewrite Hc, IH.
Qed.

Lemma trim_spaceless s : has_space s = false → trim s = s.
Proof.
  intros Hs. unfold trim. rewrite trim_start_fixed.
  - by apply trim_end_spaceless.
  - destruct s as [|c s]; [done|]. simpl in *. by apply orb_false_iff in Hs as [? _].
Qed.

Lemma pretty_N_go_spaceless x s : has_space s = false → has_space (pretty_N_go x s) = false.
Proof.
  revert s. induction (N.lt_wf_0 x) as [x _ IH]; intros s Hs.
  assert (x = 0 ∨ 0 < x)%N as [->|Hx] by lia.
  - by rewrite pretty_N_go_0.
  - rewrite pretty_N_go_step by done. apply IH.
    { by apply N.div_lt. }
    simpl. rewrite Hs, orb_false_r. unfold pretty_N_char. by repeat case_match.
Qed.

Lemma pretty_nat_spaceless (n : nat) : has_space (pretty n) = false.
Proof.
  unfold pretty, pretty_nat, pretty, pretty_N.
  case_decide; [done|]. by apply pretty_N_go_spaceless.
Qed.
End trimming.

(** ** Keyword lists and grades *)

Section keywords.
Import JS Keywords.

(** The grades, from the lowest. *)
Definition grade_rank (grade : string) : nat :=
  if decide (grade = "A") then 4
  else if decide (grade = "B+") then 3
  else if decide (grade = "B") then 2
  else if decide (grade = "C") then 1
  else 0.

(** X11. [gradeFromScore] is monotone: a higher score never gets a lower
    grade; [A] is given from 90 on and [D] below 60. *)
Theorem grade_is_monotone :
  ∀ low high : Z,
    (low ≤ high)%Z →
    grade_rank (gradeFromScore low) ≤ grade_rank (gradeFromScore high) ∧
    (gradeFromScore high = "A" ↔ (90 ≤ high)%Z) ∧
    (gradeFromScore low = "D" ↔ (low < 60)%Z).
Proof.
  intros low high Hle. unfold gradeFromScore.
  repeat (match goal with |- context [(?a <=? ?b)%Z] => destruct (Z.leb_spec a b) end);
    try lia; split_and!; try (cbv; lia); split; try done; try lia.
Qed.

Lemma grade_is_monotone_witness :
  grade_rank (gradeFromScore 72) ≤ grade_rank (gradeFromScore 91) ∧
  (gradeFromScore 91 = "A" ↔ (90 ≤ 91)%Z) ∧
  (gradeFromScore 72 = "D" ↔ (72 < 60)%Z).
Proof. apply (grade_is_monotone 72 91). lia. Defined.

Definition add_unseen (seen : list string) (x : string) : list string :=
  if decide (x ∈ seen) then seen else seen ++ [x].

Lemma unique_from_elem seen xs x :
  x ∈ foldl add_unseen seen xs ↔ x ∈ seen ∨ x ∈ xs.
Proof.
  revert seen. induction xs as [|y xs IH]; intros seen; simpl.
  - rewrite elem_of_nil. tauto.
  - rewrite IH, elem_of_cons. unfold add_unseen. case_decide as Hy.
    + split; [tauto|]. intros [?|[->|?]]; tauto.
    + rewrite elem_of_app, list_elem_of_singleton. tauto.
Qed.

Lemma unique_from_NoDup seen xs : NoDup seen → NoDup (foldl add_unseen seen xs).
Proof.
  revert seen. induction xs as [|y xs IH]; intros seen Hseen; simpl; [done|].
  apply IH. unfold add_unseen. case_decide as Hy; [done|].
  apply NoDup_app. split_and!; [done | | apply NoDup_singleton].
  intros x Hx ->%list_elem_of_singleton. done.
Qed.

Lemma unique_from_fresh seen xs :
  NoDup (seen ++ xs) → foldl add_unseen seen xs = seen ++ xs.
Proof.
  revert seen. induction xs as [|y xs IH]; intros seen Hall; simpl.
  - by rewrite app_nil_r.
  - assert (add_unseen seen y = seen ++ [y]) as ->.
    { unfold add_unseen. rewrite decide_False; [done|].
      apply NoDup_app in Hall as (_ & Hdisjoint & _). intros Hy.
      apply (Hdisjoint y Hy). by left. }
    rewrite IH; rewrite <- app_assoc; done.
Qed.

Lemma unique_fixed xs : NoDup xs → unique xs = xs.
Proof. intros Hxs. by apply (unique_from_fresh []). Qed.

Lemma map_m_texts exponent_text (xs : list string) :
  Forall (λ s, s ≠ "" ∧ trim s = s) xs →
  map_m (trimmed_text exponent_text) (JStr <$> xs) = Ok xs.
Proof.
  induction 1 as [|x xs [Hne Htrim] _ IH]; [done|].
  cbn [fmap list_fmap map_m]. rewrite IH. unfold trimmed_text. cbn [to_string].
  rewrite !bind_Ok. cbn [mret result_ret]. by rewrite Htrim.
Qed.

Lemma map_m_elem {A B} (f : A → result B) (l : list A) (ys : list B) (y : B) :
  map_m f l = Ok ys → (y ∈ ys ↔ ∃ x, x ∈ l ∧ f x = Ok y).
Proof.
  revert ys. induction l as [|x l IH]; intros ys; simpl.
  - intros [= <-]. split; [by intros ?%elem_of_nil | by intros (? & ?%elem_of_nil & _)].
  - destruct (f x) as [y'|] eqn:Hx; [|done]. rewrite bind_Ok.
    destruct (map_m f l) as [ys'|]; [|done]. rewrite bind_Ok. intros [= <-].
    rewrite elem_of_cons, (IH ys' eq_refl). split.
    + intros [->|(x' & Hin & Hy)]; [exists x; split; [by left | done]|].
      exists x'. split; [by right | done].
    + intros (x' & [->|Hin]%elem_of_cons & Hy); [left; congruence | right; eauto].
Qed.

Lemma map_m_returns_iff {A B} (f : A → result B) (l : list A) :
  (∃ ys, map_m f l = Ok ys) ↔ Forall (λ x, ∃ y, f x = Ok y) l.
Proof.
  induction l as [|x l IH]; simpl.
  - split; [constructor | by eauto].
  - rewrite Forall_cons, <- IH. destruct (f x) as [y|]; simpl.
    + destruct (map_m f l) as [ys|]; simpl.
      * split; [by eauto | by eauto].
      * split; [by intros [? ?] | by intros [_ [? ?]]].
    + split; [by intros [? ?] | by intros [[? ?] _]].
Qed.

(** X12. [normalizeList] returns exactly when every element of the array
    converts to a string. The list that it returns holds the trimmed texts
    of the elements, each once and none empty, and holds nothing else;
    normalizing it again, as the analysis route does, changes nothing. *)
Theorem normalizeList_is_a_clean_set :
  ∀ (exponent_text : Z → string) (list_ : Value),
    ((∃ texts, normalizeList exponent_text list_ = Ok texts) ↔
     Forall (λ item, ∃ text, to_string exponent_text item = Ok text)
       (Backend.array_or_empty list_)) ∧
    ∀ texts, normalizeList exponent_text list_ = Ok texts →
      NoDup texts ∧
      Forall (λ s, s ≠ "" ∧ trim s = s) texts ∧
      (∀ s, s ∈ texts ↔
            s ≠ "" ∧ ∃ item, item ∈ Backend.array_or_empty list_
                             ∧ trimmed_text exponent_text item = Ok s) ∧
      normalizeList exponent_text (JArr (JStr <$> texts)) = Ok texts.
Proof.
  intros exponent_text list_. split.
  { unfold normalizeList.
    destruct list_ as [| | | | |items|]; cbn [Backend.array_or_empty];
      try (split; [constructor | by eauto]).
    transitivity (∃ ys, map_m (trimmed_text exponent_text) items = Ok ys).
    - destruct (map_m _ items) as [ys|]; [|split; intros [? ?]; done].
      rewrite bind_Ok. split; eauto.
    - rewrite map_m_returns_iff. apply Forall_iff. intros item. unfold trimmed_text.
      destruct (to_string exponent_text item) as [text|]; [|split; intros [? ?]; done].
      rewrite bind_Ok. split; eauto. }
  intros texts Htexts.
  assert (∀ s, s ∈ texts ↔
               s ≠ "" ∧ ∃ item, item ∈ Backend.array_or_empty list_
                                ∧ trimmed_text exponent_text item = Ok s) as Helem.
  { intros s. unfold normalizeList in Htexts.
    destruct list_ as [| | | | |items|]; cbn [Backend.array_or_empty];
      try (injection Htexts as <-;
           split; [by intros ?%elem_of_nil | by intros (_ & ? & ?%elem_of_nil & _)]).
    destruct (map_m _ items) as [all|] eqn:Hall; [|done].
    rewrite bind_Ok in Htexts. injection Htexts as <-.
    unfold unique. fold add_unseen. rewrite unique_from_elem, elem_of_nil.
    rewrite list_elem_of_filter, (map_m_elem _ _ _ s Hall). tauto. }
  assert (NoDup texts) as Hnodup.
  { unfold normalizeList in Htexts. destruct list_; try (injection Htexts as <-; constructor).
    destruct (map_m _ items) as [all|]; [|done].
    rewrite bind_Ok in Htexts. injection Htexts as <-.
    apply (unique_from_NoDup []). constructor. }
  assert (Forall (λ s, s ≠ "" ∧ trim s = s) texts) as Hclean.
  { apply Forall_forall. intros s (Hne & item & _ & Hs)%Helem.
    split; [done|]. unfold trimmed_text in Hs.
    destruct (to_string exponent_text item) as [text|]; [|done].
    injection Hs as <-. apply trim_idempotent. }
  split_and!; [done | done | done |].
  unfold normalizeList. rewrite map_m_texts, bind_Ok by done.
  cbn [mret result_ret]. f_equal.
  rewrite filter_all by (intros s Hs; eapply Forall_forall in Hclean; [|done]; tauto).
  by apply unique_fixed.
Qed.
End keywords.

(** ** Objects over a template *)

Section template_objects.
Import JS.
Implicit Types (T P : Props) (k : string) (v : Value).

Lemma canonical_keys_app_l ks1 ks2 : canonical_keys (ks1 ++ ks2) → canonical_keys ks1.
Proof.
  induction ks1 as [|k ks1 IH]; [done|]. simpl.
  intros (Hnotin & Hbefore & Hrest). split_and!.
  - intros Hk. apply Hnotin, elem_of_app. by left.
  - by apply Forall_app in Hbefore as [? _].
  - by apply IH.
Qed.

Lemma canonical_keys_app_r ks1 ks2 : canonical_keys (ks1 ++ ks2) → canonical_keys ks2.
Proof. induction ks1 as [|k ks1 IH]; [done|]. simpl. intros (_ & _ & Hrest). by apply IH. Qed.

Lemma canonical_keys_delete ks1 k ks2 :
  canonical_keys (ks1 ++ k :: ks2) → canonical_keys (ks1 ++ ks2).
Proof.
  induction ks1 as [|k1 ks1 IH]; simpl.
  - by intros (_ & _ & ?).
  - intros (Hnotin & Hbefore & Hrest). split_and!.
    + rewrite elem_of_app in *. rewrite elem_of_cons in Hnotin. tauto.
    + apply Forall_app in Hbefore as [Hl [_ Hr]%Forall_cons]. by apply Forall_app.
    + by apply IH.
Qed.

Lemma canonical_keys_NoDup ks : canonical_keys ks → NoDup ks.
Proof.
  induction ks as [|k ks IH]; [constructor|]. simpl.
  intros (Hnotin & _ & Hrest). constructor; [done | by apply IH].
Qed.

Lemma replace_prop_app_r k v (A B : Props) :
  k ∉ A.*1 → replace_prop k v (A ++ B) = A ++ replace_prop k v B.
Proof.
  induction A as [|[k' v'] A IH]; [done|]. simpl.
  intros [Hne Hk]%not_elem_of_cons. rewrite decide_False by done. by rewrite IH.
Qed.

(** A new array-index key goes after the smaller ones and before the
    keys that are not array indices. *)
Lemma insert_index_prefix n k v (A R : Props) :
  array_index k = Some n →
  Forall (λ k', key_before k' k) A.*1 →
  Forall (λ k', array_index k' = None) R.*1 →
  insert_index n k v (A ++ R) = A ++ (k, v) :: R.
Proof.
  intros Hk HA HR. induction A as [|[k' v'] A IH]; simpl.
  - destruct R as [|[k' v'] R]; [done|]. simpl in *.
    apply Forall_cons in HR as [-> _]. done.
  - simpl in HA. apply Forall_cons in HA as [Hk' HA]. unfold key_before in Hk'.
    rewrite Hk in Hk'. destruct Hk' as (n' & -> & Hlt). apply N.ltb_lt in Hlt as ->.
    by rewrite IH.
Qed.

(** The array-index keys of an object, spread over a template without
    such keys, come first. *)
Lemma assign_index_keys T (I : Props) :
  canonical_keys (I.*1 ++ T.*1) →
  Forall (λ k, is_Some (array_index k)) I.*1 →
  Forall (λ k, array_index k = None) T.*1 →
  assign T I = I ++ T.
Proof.
  unfold assign. induction I as [|[k v] I IH] using rev_ind; intros Hcanon HI HT; [done|].
  rewrite fmap_app in Hcanon, HI. simpl in Hcanon, HI.
  apply Forall_app in HI as [HI [[n Hk] _]%Forall_cons].
  rewrite foldl_app. simpl. rewrite IH; [|by rewrite <- app_assoc in Hcanon;
                                            apply canonical_keys_delete in Hcanon | done | done].
  rewrite <- app_assoc in Hcanon. simpl in Hcanon.
  pose proof (canonical_keys_app_inv _ _ _ Hcanon) as [Hnotin Hbefore].
  apply canonical_keys_app_r in Hcanon. simpl in Hcanon. destruct Hcanon as (HnotinT & _ & _).
  unfold obj_set.
  assert (assoc k (I ++ T) = None) as ->.
  { apply assoc_None. rewrite fmap_app, elem_of_app. tauto. }
  rewrite Hk. rewrite insert_index_prefix by done. by rewrite <- app_assoc.
Qed.

(** Writing the properties of a template again, in its order, replaces
    them in place. *)
Lemma assign_in_place (A B B' C : Props) :
  B'.*1 = B.*1 → NoDup (A ++ B ++ C).*1 →
  assign (A ++ B ++ C) B' = A ++ B' ++ C.
Proof.
  unfold assign. revert A B'. induction B as [|[k v] B IH]; intros A B' Hkeys Hnodup.
  - by destruct B'.
  - destruct B' as [|[k' v'] B']; [done|]. simpl in Hkeys. injection Hkeys as -> Hkeys.
    simpl.
    assert (k ∉ A.*1) as HA.
    { rewrite fmap_app in Hnodup. apply NoDup_app in Hnodup as (_ & Hdisjoint & _).
      intros Hk. apply (Hdisjoint k Hk). simpl. by left. }
    assert (obj_set k v' (A ++ (k, v) :: B ++ C) = (A ++ [(k, v')]) ++ B ++ C) as ->.
    { unfold obj_set. rewrite assoc_app, (proj2 (assoc_None A k) HA). cbn [assoc].
      destruct (decide (k = k)) as [_|?]; [|done].
      rewrite replace_prop_app_r by done. cbn [replace_prop].
      destruct (decide (k = k)) as [_|?]; [|done]. by rewrite <- app_assoc. }
    rewrite IH; [by rewrite <- app_assoc | done |].
    revert Hnodup. by rewrite !fmap_app, <- !app_assoc.
Qed.

(** [P] has the keys of the template [T] in the template's order, after
    its array-index keys and before its other keys: the shape of
    [{ ...T, ...anything }]. *)
Definition over_template T P : Prop :=
  canonical P ∧
  ∃ I E, P.*1 = I ++ T.*1 ++ E ∧
         Forall (λ k, is_Some (array_index k)) I ∧
         Forall (λ k, array_index k = None) (T.*1 ++ E).

Lemma over_template_refl T :
  canonical T → Forall (λ k, array_index k = None) T.*1 → over_template T T.
Proof.
  intros Hcanon HT. split; [done|]. exists [], []. rewrite !app_nil_r. by split_and!.
Qed.

Lemma insert_index_keys_split n k v P (I R : list string) :
  P.*1 = I ++ R →
  Forall (λ k, is_Some (array_index k)) I → Forall (λ k, array_index k = None) R →
  array_index k = Some n →
  ∃ I', (insert_index n k v P).*1 = I' ++ R ∧ Forall (λ k, is_Some (array_index k)) I'.
Proof.
  intros HP HI HR Hk. revert I HP HI. induction P as [|[k' v'] P IH]; intros I HP HI.
  - destruct I; [|done]. destruct R; [|done]. exists [k]. split; [done|].
    constructor; [by rewrite Hk | constructor].
  - simpl in HP. destruct I as [|k0 I]; simpl in HP.
    + destruct R as [|r R]; [done|]. injection HP as -> HP.
      apply Forall_cons in HR as [Hr HR]. simpl. rewrite Hr.
      exists [k]. split; [simpl; by rewrite HP|].
      constructor; [by rewrite Hk | constructor].
    + injection HP as <- HP. apply Forall_cons in HI as [[n' Hk'] HI]. simpl. rewrite Hk'.
      destruct (n' <? n)%N.
      * destruct (IH I HP HI) as (I' & HI' & Hall). exists (k' :: I').
        split; [by rewrite fmap_cons, HI'|]. constructor; [by rewrite Hk' | done].
      * exists (k :: k' :: I). split; [simpl; by rewrite HP|].
        constructor; [by rewrite Hk|]. constructor; [by rewrite Hk' | done].
Qed.

Lemma over_template_obj_set T k v P : over_template T P → over_template T (obj_set k v P).
Proof.
  intros (Hcanon & I & E & HP & HI & HTE). split; [by apply canonical_obj_set|].
  unfold obj_set. destruct (assoc k P) as [v'|] eqn:Hassoc.
  - exists I, E. by rewrite replace_prop_keys.
  - destruct (array_index k) as [n|] eqn:Hk.
    + destruct (insert_index_keys_split n k v P I (T.*1 ++ E) HP HI HTE Hk) as (I' & -> & HI').
      by exists I', E.
    + exists I, (E ++ [k]). rewrite fmap_app, HP, <- !app_assoc. split_and!; [done | done |].
      rewrite app_assoc. apply Forall_app. split; [done|]. by constructor.
Qed.

Lemma over_template_assign T P source :
  over_template T P → over_template T (assign P source).
Proof.
  unfold assign. revert P. induction source as [|[k v] source IH]; intros P HP; [done|].
  simpl. by apply IH, over_template_obj_set.
Qed.

(** Spreading an object of that shape over the template gives the object
    back. *)
Lemma assign_over_template T P : over_template T P → assign T P = P.
Proof.
  intros (Hcanon & I & E & HP & HI & HTE).
  apply fmap_app_inv in HP as (PI & PR & -> & HPR & ->).
  symmetry in HPR. apply fmap_app_inv in HPR as (PT & PE & HPT & -> & ->).
  apply Forall_app in HTE as [HT HE].
  unfold canonical in Hcanon. rewrite !fmap_app in Hcanon.
  unfold assign. rewrite !foldl_app.
  fold (assign T PI). rewrite (assign_index_keys T PI); [| |exact HI|exact HT].
  - fold (assign (PI ++ T) PT).
    rewrite <- (app_nil_r T) at 1. rewrite (assign_in_place PI T PT []); [| done |].
    + rewrite app_nil_r.
      rewrite (assign_canonical_from (PI ++ PT) PE); [by rewrite <- app_assoc|].
      unfold canonical. by rewrite !fmap_app, <- app_assoc.
    + rewrite app_nil_r, fmap_app, HPT. apply canonical_keys_NoDup.
      rewrite app_assoc in Hcanon. by apply canonical_keys_app_l in Hcanon.
  - rewrite HPT. rewrite app_assoc in Hcanon. by apply canonical_keys_app_l in Hcanon.
Qed.
End template_objects.

(** ** Normal forms *)

Section normal_forms.
Import JS Backend.

(** An id as the normalizer leaves it: not empty, and trimmed. *)
Definition is_clean_id (s : string) : Prop := s ≠ "" ∧ trim s = s.

Lemma spaceless_clean s : s ≠ "" → has_space s = false → is_clean_id s.
Proof. intros Hne Hs. split; [done | by apply trim_spaceless]. Qed.

Lemma id_of_clean v s : id_of v = Some s → is_clean_id s.
Proof.
  destruct v; try done. simpl. case_bool_decide as Hne; [|done]. intros [= <-].
  split; [done | apply trim_idempotent].
Qed.

Lemma own_id_clean v s : own_id v = Some s → is_clean_id s.
Proof. unfold own_id. case_match; [apply id_of_clean | done]. Qed.

Lemma id_of_clean_id s : is_clean_id s → id_of (JStr s) = Some s.
Proof. intros [Hne Htrim]. simpl. rewrite Htrim. by rewrite bool_decide_true. Qed.

Lemma generated_clean prefix (n : nat) :
  prefix ≠ "" → has_space prefix = false → is_clean_id (prefix +:+ "-" +:+ pretty n).
Proof.
  intros Hne Hs. apply spaceless_clean; [by destruct prefix|].
  by rewrite !has_space_app, Hs, pretty_nat_spaceless.
Qed.

Definition normal_point (v : Value) : Prop :=
  ∃ id text, v = JObj [("id", JStr id); ("text", JStr text)] ∧ is_clean_id id.

Definition normal_skill (v : Value) : Prop :=
  ∃ props id, v = JObj props ∧ canonical props ∧
              assoc "id" props = Some (JStr id) ∧ is_clean_id id.

Definition normal_entry (template : Props) (v : Value) : Prop :=
  ∃ props points, v = JObj props ∧ over_template template props ∧
                  assoc "points" props = Some (JArr points) ∧ Forall normal_point points.

Definition normal_record (template : Props) (v : Value) : Prop :=
  ∃ props, v = JObj props ∧ over_template template props.

(** The documents that the normalizer leaves as they are. *)
Definition normal_form (doc : Value) : Prop :=
  ∃ basics summary skills experience projects education certificates,
    doc = JObj [("basics", JObj basics); ("summary", summary); ("skills", JArr skills);
                ("experience", JArr experience); ("projects", JArr projects);
                ("education", JArr education); ("certificates", JArr certificates)] ∧
    over_template emptyBasics basics ∧
    normal_point summary ∧
    Forall normal_skill skills ∧
    Forall (normal_entry experienceTemplate) experience ∧
    Forall (normal_entry projectTemplate) projects ∧
    Forall (normal_record educationTemplate) education ∧
    Forall (normal_record certificateTemplate) certificates.

(** *** What the normalizer returns is in normal form *)

Lemma points_pushed_normal list_ fallback prefix i x :
  prefix ≠ "" → has_space prefix = false →
  x ∈ points_pushed list_ fallback prefix i → normal_point x.
Proof.
  intros Hne Hs. rewrite points_pushed_eq. cbv zeta.
  case_match; [by intros ?%elem_of_nil|].
  intros ->%list_elem_of_singleton. eexists _, _. split; [reflexivity|].
  destruct (own_id (at_index list_ i)) as [s|] eqn:Hown; [by eapply own_id_clean|].
  destruct (own_id (at_index fallback i)) as [s|] eqn:Hfb; [by eapply own_id_clean|].
  by apply generated_clean.
Qed.

Lemma points_normal_normal points resumePoints prefix :
  prefix ≠ "" → has_space prefix = false →
  Forall normal_point (points_normal points resumePoints prefix).
Proof.
  intros Hne Hs. apply Forall_forall. intros x (i & Hx & _)%list_elem_of_bind.
  by eapply points_pushed_normal.
Qed.

Lemma template_over (template : Props) :
  assign [] template = template → Forall (λ k, array_index k = None) template.*1 →
  over_template template (assign [] template).
Proof. intros Hfixed Hkeys. rewrite Hfixed. apply over_template_refl; [by apply canonical_fixed | done]. Qed.

Lemma merge_over_template template fallbackItem item :
  assign [] template = template → Forall (λ k, array_index k = None) template.*1 →
  over_template template (merge_over template fallbackItem item).
Proof.
  intros Hfixed Hkeys. unfold merge_over. by do 2 apply over_template_assign; apply template_over.
Qed.

Lemma entries_normal_normal template prefix list_ resumeList :
  assign [] template = template → Forall (λ k, array_index k = None) template.*1 →
  prefix ≠ "" → has_space prefix = false →
  Forall (normal_entry template) (entries_normal template prefix list_ resumeList).
Proof.
  intros Hfixed Hkeys Hne Hs.
  apply Forall_forall. intros x (i & Hx & _)%list_elem_of_bind.
  rewrite entries_pushed_eq in Hx. cbv zeta in Hx.
  case_match; [by apply elem_of_nil in Hx|].
  apply list_elem_of_singleton in Hx as ->. eexists _, _. split_and!.
  - reflexivity.
  - by apply over_template_obj_set, merge_over_template.
  - by rewrite assoc_obj_set, decide_True.
  - apply points_normal_normal; [by destruct prefix|].
    by rewrite !has_space_app, Hs, pretty_nat_spaceless.
Qed.

Lemma array_objects_normal_normal list_ template fallbackList :
  assign [] template = template → Forall (λ k, array_index k = None) template.*1 →
  Forall (normal_record template) (array_objects_normal list_ template fallbackList).
Proof.
  intros Hfixed Hkeys.
  apply Forall_forall. intros x (i & Hx & _)%list_elem_of_bind.
  rewrite array_objects_pushed_eq in Hx. cbv zeta in Hx.
  case_match; [by apply elem_of_nil in Hx|].
  apply list_elem_of_singleton in Hx as ->. eexists. split; [reflexivity|].
  by apply merge_over_template.
Qed.

Lemma skills_pushed_normal list_ i x : x ∈ skills_pushed list_ [] i → normal_skill x.
Proof.
  rewrite skills_pushed_no_fallback. cbv zeta. case_match; [|by intros ?%elem_of_nil].
  intros ->%list_elem_of_singleton. eexists _, _. split_and!.
  - reflexivity.
  - apply canonical_obj_set, canonical_spread.
  - by rewrite assoc_obj_set, decide_True.
  - destruct (id_of _) as [s|] eqn:Hid; [by eapply id_of_clean|].
    change (is_clean_id ("skill-" +:+ pretty (i + 1))).
    apply spaceless_clean; [done|].
    by rewrite has_space_app, pretty_nat_spaceless.
Qed.

Ltac plain_keys := repeat constructor.

Lemma normalized_normal_form raw doc : normalizeResumeJson raw = Ok doc → normal_form doc.
Proof.
  rewrite normalizeResumeJson_total. intros [= <-].
  destruct (truthy raw && typeof_object raw).
  - exists (assign emptyBasics (own_props (or_else (prop raw "basics") (JObj [])))),
      (summary_normal (prop raw "summary") JUndefined),
      (seq 0 (length (array_or_empty (prop raw "skills")) `max` 0)
         ≫= skills_pushed (array_or_empty (prop raw "skills")) []),
      (entries_normal experienceTemplate "exp" (prop raw "experience") JUndefined),
      (entries_normal projectTemplate "proj" (prop raw "projects") JUndefined),
      (array_objects_normal (prop raw "education") educationTemplate JUndefined),
      (array_objects_normal (prop raw "certificates") certificateTemplate JUndefined).
    split; [reflexivity|]. split_and!.
    + apply over_template_assign, over_template_refl; [by apply canonical_fixed | plain_keys].
    + rewrite summary_normal_shape. eexists _, _. split; [reflexivity|].
      destruct (own_id (prop raw "summary")) eqn:Hown; [by eapply own_id_clean|].
      by apply spaceless_clean.
    + apply Forall_forall. intros x (i & Hx & _)%list_elem_of_bind.
      by eapply skills_pushed_normal.
    + apply entries_normal_normal; [done | plain_keys | done | done].
    + apply entries_normal_normal; [done | plain_keys | done | done].
    + apply array_objects_normal_normal; [done | plain_keys].
    + apply array_objects_normal_normal; [done | plain_keys].
  - exists emptyBasics, (JObj [("id", JStr "summary-1"); ("text", JStr "")]),
      [], [], [], [], [].
    split; [reflexivity|]. split_and!; try (by constructor).
    + apply over_template_refl; [by apply canonical_fixed | plain_keys].
    + exists "summary-1", "". split; [done|]. by apply spaceless_clean.
Qed.

(** *** The normalizer leaves normal forms as they are *)

Lemma bind_seq_elements (f : nat → list Value) (l : list Value) :
  (∀ i x, l !! i = Some x → f i = [x]) → seq 0 (length l) ≫= f = l.
Proof.
  induction l as [|x l IH] using rev_ind; intros Hf; [done|].
  rewrite length_app, Nat.add_1_r, seq_S, bind_app. simpl.
  rewrite IH.
  - rewrite (Hf (length l) x); [by rewrite app_nil_r|].
    by rewrite lookup_app_r, Nat.sub_diag.
  - intros i y Hy. apply Hf. by rewrite lookup_app_l by (by eapply lookup_lt_Some).
Qed.

Lemma own_id_normal_point id text :
  is_clean_id id → own_id (JObj [("id", JStr id); ("text", JStr text)]) = Some id.
Proof. intros Hid. unfold own_id. cbn [truthy typeof_object andb]. by apply id_of_clean_id. Qed.

Lemma points_normal_fixed points prefix :
  Forall normal_point points → points_normal (JArr points) JUndefined prefix = points.
Proof.
  intros Hpoints. unfold points_normal. cbn [array_or_empty length].
  rewrite Nat.max_0_r. apply bind_seq_elements. intros i x Hx.
  rewrite Forall_forall in Hpoints.
  destruct (Hpoints x) as (id & text & -> & Hid); [by eapply list_elem_of_lookup_2|].
  rewrite points_pushed_eq. cbv zeta.
  rewrite at_index_nil, (at_index_lookup _ _ _ Hx). cbn [truthy negb andb].
  by rewrite own_id_normal_point.
Qed.

Lemma skills_normal_fixed skills :
  Forall normal_skill skills →
  seq 0 (length (array_or_empty (JArr skills)) `max` 0)
    ≫= skills_pushed (array_or_empty (JArr skills)) [] = skills.
Proof.
  intros Hskills. cbn [array_or_empty]. rewrite Nat.max_0_r.
  apply bind_seq_elements. intros i x Hx.
  rewrite Forall_forall in Hskills.
  destruct (Hskills x) as (props & id & -> & Hcanon & Hassoc & Hid);
    [by eapply list_elem_of_lookup_2|].
  rewrite skills_pushed_no_fallback. cbv zeta. rewrite (at_index_lookup _ _ _ Hx).
  cbn [truthy typeof_object andb]. rewrite spread_canonical by done.
  unfold prop. cbn [own_props]. rewrite Hassoc.
  change (default JUndefined (Some (JStr id))) with (JStr id).
  rewrite id_of_clean_id by done.
  change (default ("skill-" +:+ pretty (i + 1)) (Some id)) with id.
  by rewrite obj_set_same.
Qed.

Lemma merge_over_fixed template props :
  assign [] template = template → over_template template props →
  merge_over template JUndefined (JObj props) = props.
Proof.
  intros Hfixed Hprops. unfold merge_over, object_or_empty.
  cbn [truthy typeof_object andb own_props]. rewrite Hfixed.
  change (assign template []) with template. by apply assign_over_template.
Qed.

Lemma entries_normal_fixed template prefix entries :
  assign [] template = template →
  Forall (normal_entry template) entries →
  entries_normal template prefix (JArr entries) JUndefined = entries.
Proof.
  intros Hfixed Hentries. unfold entries_normal. cbn [array_or_empty length].
  rewrite Nat.max_0_r. apply bind_seq_elements. intros i x Hx.
  rewrite Forall_forall in Hentries.
  destruct (Hentries x) as (props & points & -> & Hprops & Hassoc & Hpoints);
    [by eapply list_elem_of_lookup_2|].
  rewrite entries_pushed_eq. cbv zeta.
  rewrite at_index_nil, (at_index_lookup _ _ _ Hx). cbn [truthy negb andb get_opt].
  rewrite merge_over_fixed by done.
  unfold prop at 1. cbn [own_props]. rewrite Hassoc.
  change (default JUndefined (Some (JArr points))) with (JArr points).
  rewrite points_normal_fixed by done. by rewrite obj_set_same.
Qed.

Lemma array_objects_normal_fixed template records :
  assign [] template = template →
  Forall (normal_record template) records →
  array_objects_normal (JArr records) template JUndefined = records.
Proof.
  intros Hfixed Hrecords. unfold array_objects_normal. cbn [array_or_empty length].
  rewrite Nat.max_0_r. apply bind_seq_elements. intros i x Hx.
  rewrite Forall_forall in Hrecords.
  destruct (Hrecords x) as (props & -> & Hprops); [by eapply list_elem_of_lookup_2|].
  rewrite array_objects_pushed_eq. cbv zeta.
  rewrite at_index_nil, (at_index_lookup _ _ _ Hx). cbn [truthy negb andb].
  by rewrite merge_over_fixed.
Qed.

Lemma normal_form_fixed doc : normal_form doc → normalizeResumeJson doc = Ok doc.
Proof.
  intros (basics & summary & skills & experience & projects & education & certificates &
          -> & Hbasics & (id & text & -> & Hid) & Hskills & Hexperience & Hprojects &
          Heducation & Hcertificates).
  rewrite normalizeResumeJson_total. cbn [truthy typeof_object andb]. f_equal.
  set (d := JObj [("basics", JObj basics);
                  ("summary", JObj [("id", JStr id); ("text", JStr text)]);
                  ("skills", JArr skills); ("experience", JArr experience);
                  ("projects", JArr projects); ("education", JArr education);
                  ("certificates", JArr certificates)]).
  unfold normal_document.
  change (prop d "basics") with (JObj basics).
  change (prop d "summary") with (JObj [("id", JStr id); ("text", JStr text)]).
  change (prop d "skills") with (JArr skills).
  change (prop d "experience") with (JArr experience).
  change (prop d "projects") with (JArr projects).
  change (prop d "education") with (JArr education).
  change (prop d "certificates") with (JArr certificates).
  change (or_else (JObj basics) (JObj [])) with (JObj basics). cbn [own_props].
  rewrite (assign_over_template emptyBasics basics) by done.
  rewrite summary_normal_shape, own_id_normal_point by done.
  rewrite skills_normal_fixed by done.
  rewrite !entries_normal_fixed, !array_objects_normal_fixed by done.
  done.
Qed.

(** X13. The normalizer is idempotent: the document that
    [normalizeResumeJson] returns for any input is returned unchanged when
    it is normalized again. The ids it assigned, the template keys it
    filled in and the order of all keys stay as they are. *)
Theorem normalizeResumeJson_is_idempotent :
  ∀ input : Value,
    ∃ doc, normalizeResumeJson input = Ok doc ∧ normalizeResumeJson doc = Ok doc.
Proof.
  intros input. rewrite normalizeResumeJson_total. eexists. split; [reflexivity|].
  apply normal_form_fixed, (normalized_normal_form input), normalizeResumeJson_total.
Qed.
End normal_forms.

(** ** The normalized analysis *)

Section analysis_facts.
Import JS Backend Keywords Analysis.
Variable exponent_text : Z → string.

(** [v.length ? v : alt] on an array. *)
Definition list_or (l : list Value) (alt : Value) : Value :=
  match l with
  | [] => alt
  | _ => JArr l
  end.

Lemma nonempty_or_array l alt : nonempty_or (JArr l) (Ok alt) = Ok (list_or l alt).
Proof. by destruct l. Qed.

Definition skills_normal (skills resumeSkills : Value) : list Value :=
  seq 0 (length (array_or_empty skills) `max` length (array_or_empty resumeSkills))
    ≫= skills_pushed (array_or_empty skills) (array_or_empty resumeSkills).

(** The fields of the analysis that [normalizeAnalysisJson] builds for a
    résumé that is an object. *)
Definition analysis_summary (input resumeJson : Value) : Value :=
  let summary :=
    if truthy input && typeof_object input
    then summary_normal (prop input "summary")
           (or_else (get_opt (prop resumeJson "summary") "id") (JStr "summary-1"))
    else JObj [("id", JStr "summary-1"); ("text", JStr "")] in
  if truthy (get_opt summary "text") then summary else prop resumeJson "summary".

Definition analysis_skills (input resumeJson : Value) : Value :=
  list_or (if truthy input && typeof_object input
           then skills_normal (prop input "skills") (prop resumeJson "skills")
           else [])
          (prop resumeJson "skills").

Definition analysis_entries (template : Props) (prefix : string) (key : string)
    (input resumeJson : Value) : Value :=
  list_or (if truthy input && typeof_object input
           then entries_normal template prefix (prop input key) (prop resumeJson key)
           else [])
          (prop resumeJson key).

Definition analysis_records (template : Props) (key : string) (input resumeJson : Value)
    : Value :=
  list_or (if truthy input && typeof_object input
           then array_objects_normal (prop input key) template (prop resumeJson key)
           else [])
          (prop resumeJson key).

Definition analysis_document (input resumeJson required matching missing analysis : Value)
    : Value :=
  JObj [("Required Keywords", required); ("Matching Keywords", matching);
        ("Missing Keywords", missing); ("Analysis", analysis);
        ("summary", analysis_summary input resumeJson);
        ("skills", analysis_skills input resumeJson);
        ("experience",
         analysis_entries experienceTemplate "exp" "experience" input resumeJson);
        ("projects", analysis_entries projectTemplate "proj" "projects" input resumeJson);
        ("education", analysis_records educationTemplate "education" input resumeJson);
        ("certificates",
         analysis_records certificateTemplate "certificates" input resumeJson)].

Ltac run_normalizers :=
  first [ rewrite bind_Ok
        | rewrite normalizeSummaryValue_total
        | rewrite normalizeSkillsList_total
        | rewrite normalize_entries_total
        | rewrite normalizeArrayObjects_total ];
  cbv beta zeta.

Ltac read_prop :=
  match goal with
  | |- context [prop (JObj ?props) ?k] =>
      let v := eval vm_compute in (prop (JObj props) k) in
      change (prop (JObj props) k) with v
  end.

Ltac run_fallbacks :=
  first [ rewrite bind_Ok | rewrite get_JObj | rewrite nonempty_or_array | read_prop ];
  cbv beta zeta.

(** [normalizeAnalysisJson], on a résumé that is an object, throws when a
    keyword list does, and else returns the document of these fields. *)
Lemma normalizeAnalysisJson_eq input resumeJson :
  truthy resumeJson = true →
  normalizeAnalysisJson exponent_text input resumeJson =
    if truthy input && typeof_object input then
      required ← keyword_list exponent_text (prop input "Required Keywords");
      matching ← keyword_list exponent_text (prop input "Matching Keywords");
      missing ← keyword_list exponent_text (prop input "Missing Keywords");
      analysis ← keyword_list exponent_text (prop input "Analysis");
      Ok (analysis_document input resumeJson required matching missing analysis)
    else
      Ok (analysis_document input resumeJson (JArr []) (JArr []) (JArr []) (JArr [])).
Proof.
  intros Hr. unfold normalizeAnalysisJson, analysis_document, analysis_summary,
    analysis_skills, analysis_entries, analysis_records, skills_normal. cbv zeta.
  unfold normalizeExperienceList, normalizeProjectList.
  rewrite !(get_object resumeJson) by done.
  destruct (truthy input && typeof_object input) eqn:Hinput.
  - apply andb_true_iff in Hinput as [Hinput _].
    rewrite !(get_object input) by done. rewrite bind_Ok. cbv beta.
    destruct (keyword_list exponent_text (prop input "Required Keywords")) as [required|];
      [|done].
    rewrite !bind_Ok. cbv beta zeta.
    destruct (keyword_list exponent_text (prop input "Matching Keywords")) as [matching|];
      [|done].
    rewrite !bind_Ok. cbv beta zeta.
    destruct (keyword_list exponent_text (prop input "Missing Keywords")) as [missing|];
      [|done].
    rewrite !bind_Ok. cbv beta zeta.
    destruct (keyword_list exponent_text (prop input "Analysis")) as [analysis|];
      [|done].
    repeat run_normalizers.
    generalize (entries_normal experienceTemplate "exp" (prop input "experience")
                  (prop resumeJson "experience")).
    generalize (entries_normal projectTemplate "proj" (prop input "projects")
                  (prop resumeJson "projects")).
    generalize (array_objects_normal (prop input "education") educationTemplate
                  (prop resumeJson "education")).
    generalize (array_objects_normal (prop input "certificates") certificateTemplate
                  (prop resumeJson "certificates")).
    generalize (summary_normal (prop input "summary")
                  (or_else (get_opt (prop resumeJson "summary") "id") (JStr "summary-1"))).
    generalize (seq 0 (length (array_or_empty (prop input "skills"))
                         `max` length (array_or_empty (prop resumeJson "skills")))
                  ≫= skills_pushed (array_or_empty (prop input "skills"))
                       (array_or_empty (prop resumeJson "skills"))).
    generalize (prop resumeJson "summary"), (prop resumeJson "skills"),
      (prop resumeJson "experience"), (prop resumeJson "projects"),
      (prop resumeJson "education"), (prop resumeJson "certificates").
    intros resumeSummary resumeSkills resumeExperience resumeProjects resumeEducation
      resumeCertificates skills summary certificates education projects experience.
    repeat run_fallbacks.
    destruct (truthy (get_opt summary "text")); repeat run_fallbacks; reflexivity.
  - generalize (prop resumeJson "summary"), (prop resumeJson "skills"),
      (prop resumeJson "experience"), (prop resumeJson "projects"),
      (prop resumeJson "education"), (prop resumeJson "certificates").
    intros resumeSummary resumeSkills resumeExperience resumeProjects resumeEducation
      resumeCertificates.
    repeat run_fallbacks. cbn [get_opt prop own_props assoc default truthy]. cbv iota.
    repeat run_fallbacks. reflexivity.
Qed.

Lemma bind_seq_prefix {A} (f : nat → list A) (g : nat → A) n m i :
  (∀ i', i' < n → f i' = [g i']) → i < n → n ≤ m →
  (seq 0 m ≫= f) !! i = Some (g i).
Proof.
  intros Hf Hi Hnm. replace m with (n + (m - n)) by lia.
  rewrite seq_app, bind_app.
  assert (seq 0 n ≫= f = g <$> seq 0 n) as ->.
  { clear Hi Hnm. induction n as [|n IH]; [done|].
    rewrite seq_S, bind_app, fmap_app, IH by (intros; apply Hf; lia).
    simpl. rewrite Hf by lia. done. }
  rewrite lookup_app_l by (by rewrite length_fmap, length_seq).
  by rewrite list_lookup_fmap, lookup_seq_lt.
Qed.

(** The point that the input holds at a place, if any. *)
Definition input_point (input : Value) (key : string) (sectionIndex index : nat) : Value :=
  at_index
    (array_or_empty
       (get_opt (at_index (array_or_empty (input_field input key)) sectionIndex) "points"))
    index.

Lemma points_normal_backfilled points resumePoints prefix i id text :
  resumePoints !! i = Some (JObj [("id", JStr id); ("text", JStr text)]) →
  Forall normal_point resumePoints →
  points_normal points (JArr resumePoints) prefix !! i =
    Some (JObj [("id", JStr (default id (own_id (at_index (array_or_empty points) i))));
                ("text", JStr (if truthy (at_index (array_or_empty points) i)
                               then backend_point_text (at_index (array_or_empty points) i)
                               else text))]).
Proof.
  intros Hi Hall. unfold points_normal. cbn [array_or_empty].
  set (list_ := Backend.array_or_empty points).
  rewrite (bind_seq_prefix _
             (λ i', JObj [("id", JStr (default (default (prefix +:+ "-" +:+ pretty (i' + 1))
                                                  (own_id (at_index resumePoints i')))
                                         (own_id (at_index list_ i'))));
                          ("text", JStr (backend_point_text
                                           (or_else (at_index list_ i')
                                              (at_index resumePoints i'))))])
             (length resumePoints)); [| | by eapply lookup_lt_Some | lia].
  - rewrite (at_index_lookup _ _ _ Hi).
    assert (is_clean_id id) as Hid.
    { rewrite Forall_forall in Hall.
      destruct (Hall (JObj [("id", JStr id); ("text", JStr text)]))
        as (? & ? & [= <- <-] & Hid); [by eapply list_elem_of_lookup_2 | done]. }
    rewrite own_id_normal_point by done. unfold or_else.
    by destruct (own_id (at_index list_ i)), (truthy (at_index list_ i)).
  - intros i' Hi'. rewrite points_pushed_eq. cbv zeta.
    destruct (lookup_lt_is_Some_2 resumePoints i' Hi') as [fb Hfb].
    rewrite (at_index_lookup _ _ _ Hfb).
    rewrite Forall_forall in Hall.
    destruct (Hall fb) as (? & ? & -> & _); [by eapply list_elem_of_lookup_2|].
    cbn [truthy negb]. by rewrite andb_false_r.
Qed.

Lemma entries_normal_backfilled template prefix list_ resumeEntries j props :
  resumeEntries !! j = Some (JObj props) →
  Forall (λ entry, truthy entry = true) resumeEntries →
  entries_normal template prefix list_ (JArr resumeEntries) !! j =
    Some (JObj (obj_set "points"
                  (JArr (points_normal (get_opt (at_index (array_or_empty list_) j) "points")
                           (prop (JObj props) "points")
                           (prefix +:+ "-" +:+ pretty (j + 1))))
                  (merge_over template (JObj props) (at_index (array_or_empty list_) j)))).
Proof.
  intros Hj Hall. unfold entries_normal. cbn [array_or_empty].
  set (items := Backend.array_or_empty list_).
  pose proof (lookup_lt_Some _ _ _ Hj) as Hlt.
  rewrite (bind_seq_prefix _
             (λ j', JObj (obj_set "points"
                            (JArr (points_normal (get_opt (at_index items j') "points")
                                     (get_opt (at_index resumeEntries j') "points")
                                     (prefix +:+ "-" +:+ pretty (j' + 1))))
                            (merge_over template (at_index resumeEntries j')
                               (at_index items j'))))
             (length resumeEntries)); [| | done | lia].
  - by rewrite (at_index_lookup _ _ _ Hj).
  - intros j' Hj'. rewrite entries_pushed_eq. cbv zeta.
    destruct (lookup_lt_is_Some_2 resumeEntries j' Hj') as [fb Hfb].
    rewrite (at_index_lookup _ _ _ Hfb).
    rewrite Forall_forall in Hall. rewrite (Hall fb) by (by eapply list_elem_of_lookup_2).
    cbn [negb]. by rewrite andb_false_r.
Qed.

(** What [normalizeAnalysisJson] leaves at the place of a point of the
    résumé: a point with the input's own id, or else the résumé's id, and
    with the input's text, or else the résumé's text when the input has no
    point there. *)
Definition backfilled (input resumeJson analysisJson : Value) (key : string) : Prop :=
  ∀ sectionIndex index id text,
    document_points resumeJson key sectionIndex !! index
      = Some (JObj [("id", JStr id); ("text", JStr text)]) →
    let point := input_point input key sectionIndex index in
    document_points analysisJson key sectionIndex !! index =
      Some (JObj [("id", JStr (default id (own_id point)));
                  ("text", JStr (if truthy point then backend_point_text point else text))]).

Lemma analysis_entries_backfilled template prefix key input resumeJson analysisJson entries :
  prop resumeJson key = JArr entries →
  Forall (normal_entry template) entries →
  prop analysisJson key = analysis_entries template prefix key input resumeJson →
  backfilled input resumeJson analysisJson key.
Proof.
  intros Hresume Hentries Hanalysis sectionIndex index id text Hpoint point.
  unfold document_points in *. rewrite Hanalysis. rewrite Hresume in Hpoint.
  cbn [JS.index] in Hpoint.
  destruct (entries !! sectionIndex) as [entry|] eqn:Hentry;
    [|unfold at_index in Hpoint; by rewrite Hentry in Hpoint].
  rewrite (at_index_lookup _ _ _ Hentry) in Hpoint.
  pose proof Hentries as Hall. rewrite Forall_forall in Hall.
  destruct (Hall entry) as (props & points & -> & _ & Hassoc & Hpoints);
    [by eapply list_elem_of_lookup_2|].
  assert (prop (JObj props) "points" = JArr points) as Hprop.
  { unfold prop. cbn [own_props]. by rewrite Hassoc. }
  unfold points_of in Hpoint. rewrite Hprop in Hpoint.
  assert (Forall (λ entry, truthy entry = true) entries) as Htruthy.
  { apply Forall_forall. intros e He. by destruct (Hall e He) as (? & ? & -> & _). }
  unfold analysis_entries, point, input_point, input_field. rewrite Hresume.
  destruct (truthy input && typeof_object input).
  - pose proof (entries_normal_backfilled template prefix (prop input key) entries
                  sectionIndex props Hentry Htruthy) as Hlookup.
    destruct (entries_normal template prefix (prop input key) (JArr entries))
      as [|e l] eqn:Hl; [done|].
    cbn [list_or JS.index]. rewrite (at_index_lookup _ _ _ Hlookup).
    unfold points_of. rewrite prop_obj_set_eq, Hprop.
    by apply points_normal_backfilled.
  - cbn [list_or JS.index]. rewrite (at_index_lookup _ _ _ Hentry).
    unfold points_of. rewrite Hprop, Hpoint.
    change (array_or_empty JUndefined) with (@nil Value). rewrite at_index_nil.
    change (array_or_empty (get_opt JUndefined "points")) with (@nil Value).
    done.
Qed.

Lemma normalizeAnalysisJson_returns input resumeJson analysisJson :
  truthy resumeJson = true →
  normalizeAnalysisJson exponent_text input resumeJson = Ok analysisJson →
  ∃ required matching missing analysis,
    analysisJson = analysis_document input resumeJson required matching missing analysis.
Proof.
  intros Hr. rewrite normalizeAnalysisJson_eq by done.
  destruct (truthy input && typeof_object input); [|intros [= <-]; eauto].
  destruct (keyword_list _ (prop input "Required Keywords")) as [required|];
    [|by rewrite bind_TypeError].
  rewrite bind_Ok.
  destruct (keyword_list _ (prop input "Matching Keywords")) as [matching|];
    [|by rewrite bind_TypeError].
  rewrite bind_Ok.
  destruct (keyword_list _ (prop input "Missing Keywords")) as [missing|];
    [|by rewrite bind_TypeError].
  rewrite bind_Ok.
  destruct (keyword_list _ (prop input "Analysis")) as [analysis|];
    [|by rewrite bind_TypeError].
  rewrite bind_Ok. intros [= <-]. eauto.
Qed.

Lemma keyword_list_returns list_ :
  (∃ v, keyword_list exponent_text list_ = Ok v) ↔
  ∃ texts, normalizeList exponent_text list_ = Ok texts.
Proof.
  unfold keyword_list. destruct (normalizeList exponent_text list_) as [texts|].
  - rewrite bind_Ok. split; eauto.
  - split; intros [? ?]; done.
Qed.

(** *** The ids of the analysis *)

Definition summary_text_of (summary : Value) : string :=
  match summary with
  | JStr s => s
  | _ => if truthy summary && typeof_object summary
         then match prop summary "text" with JStr s => s | _ => "" end
         else ""
  end.

Lemma summary_normal_fallback summary fallbackId :
  summary_normal summary (JStr fallbackId) =
    JObj [("id", JStr (default fallbackId (own_id summary)));
          ("text", JStr (summary_text_of summary))].
Proof.
  unfold summary_normal, normalizeSummaryValue, own_id, summary_text_of.
  destruct summary as [| |b|n|s|items|props]; try done.
  - by destruct b.
  - cbn. by case_bool_decide.
  - cbn. by case_bool_decide.
  - cbn [truthy typeof_object typeof_string negb andb]. unfold get. rewrite !bind_Ok.
    rewrite trimmed_or_id_of.
    by destruct (prop (JArr items) "text"), (id_of _).
  - cbn [truthy typeof_object typeof_string negb andb]. unfold get. rewrite !bind_Ok.
    rewrite trimmed_or_id_of.
    by destruct (prop (JObj props) "text"), (id_of _).
Qed.

Lemma own_id_normal_skill entry : normal_skill entry → ∃ id, own_id entry = Some id ∧
  prop entry "id" = JStr id ∧ id ≠ "".
Proof.
  intros (props & id & -> & _ & Hid & Hclean). exists id.
  assert (prop (JObj props) "id" = JStr id) as Hprop.
  { unfold prop. cbn [own_props]. by rewrite Hid. }
  split_and!; [|done|by destruct Hclean].
  unfold own_id. cbn [truthy typeof_object andb]. rewrite Hprop.
  by apply id_of_clean_id.
Qed.

Lemma analysis_summary_ids input resumeJson :
  normal_point (prop resumeJson "summary") → truthy resumeJson = true →
  is_point (analysis_summary input resumeJson) ∧
  (own_id (input_field input "summary") = None →
   prop (analysis_summary input resumeJson) "id"
     = JStr (default "summary-1" (resume_summary_id resumeJson))).
Proof.
  intros (rid & rtext & Hsummary & Hclean) Hr.
  assert (resume_summary_id resumeJson = Some rid) as ->.
  { unfold resume_summary_id. replace (get_opt resumeJson "summary")
      with (prop resumeJson "summary") by (by destruct resumeJson).
    rewrite Hsummary. unfold own_id. cbn [truthy typeof_object andb].
    change (prop (JObj [("id", JStr rid); ("text", JStr rtext)]) "id") with (JStr rid).
    by apply id_of_clean_id. }
  assert (rid ≠ "") as Hne by (by destruct Hclean).
  unfold analysis_summary, input_field. cbv zeta. rewrite Hsummary.
  change (get_opt (JObj [("id", JStr rid); ("text", JStr rtext)]) "id") with (JStr rid).
  assert (or_else (JStr rid) (JStr "summary-1") = JStr rid) as ->.
  { unfold or_else. cbn [truthy]. by rewrite bool_decide_true. }
  destruct (truthy input && typeof_object input).
  - rewrite summary_normal_fallback.
    change (get_opt (JObj [("id", JStr (default rid (own_id (prop input "summary"))));
                           ("text", JStr (summary_text_of (prop input "summary")))]) "text")
      with (JStr (summary_text_of (prop input "summary"))).
    destruct (truthy (JStr (summary_text_of (prop input "summary")))).
    + split.
      * eexists _, _. split; [reflexivity|].
        destruct (own_id (prop input "summary")) eqn:Hown; [by eapply own_id_nonempty|done].
      * intros ->. reflexivity.
    + split; [by exists rid, rtext | done].
  - cbn [get_opt prop own_props assoc decide default truthy].
    split; [by exists rid, rtext | done].
Qed.

Lemma list_or_array l l' : ∃ l'', list_or l (JArr l') = JArr l'' ∧ (l ≠ [] → l'' = l) ∧
  (l = [] → l'' = l').
Proof. destruct l; [by exists l' | by eexists]. Qed.

Lemma normal_skill_has_id entry : normal_skill entry → has_nonempty_id entry.
Proof. intros (props & id & -> & _ & Hid & [Hne _]). by exists props, id. Qed.

Lemma skill_fallback_normal resumeSkills i :
  Forall normal_skill resumeSkills →
  or_else (JStr (skill_fallback_id (at_index resumeSkills i) i))
          (JStr ("skill-" +:+ pretty (i + 1)))
    = JStr (default ("skill-" +:+ pretty (i + 1)) (own_id (at_index resumeSkills i))).
Proof.
  intros Hall. destruct (resumeSkills !! i) as [entry|] eqn:Hi.
  - rewrite (at_index_lookup _ _ _ Hi). rewrite Forall_forall in Hall.
    destruct (own_id_normal_skill entry) as (id & -> & Hid & Hne);
      [apply Hall; by eapply list_elem_of_lookup_2|].
    cbn [default]. unfold skill_fallback_id. rewrite Hid.
    assert (truthy entry && typeof_object entry = true) as ->.
    { destruct (Hall entry) as (? & ? & -> & _); [by eapply list_elem_of_lookup_2 | done]. }
    unfold or_else. cbn [truthy]. by rewrite bool_decide_true.
  - assert (at_index resumeSkills i = JUndefined) as -> by (unfold at_index; by rewrite Hi).
    unfold skill_fallback_id, or_else. cbn [truthy andb own_id default].
    rewrite bool_decide_true; [done|]. done.
Qed.

Lemma analysis_skills_ids input resumeJson resumeSkills :
  prop resumeJson "skills" = JArr resumeSkills → truthy resumeJson = true →
  Forall normal_skill resumeSkills →
  ∃ skills,
    analysis_skills input resumeJson = JArr skills ∧
    Forall has_nonempty_id skills ∧
    ∀ i entry,
      array_or_empty (input_field input "skills") !! i = Some entry →
      truthy entry && typeof_object entry = true →
      id_of (prop (JObj (spread entry)) "id") = None →
      JObj (obj_set "id"
              (JStr (default ("skill-" +:+ pretty (i + 1)) (resume_skill_id resumeJson i)))
              (spread entry)) ∈ skills.
Proof.
  intros Hresume Hr Hall. unfold analysis_skills, input_field, resume_skill_id.
  replace (get_opt resumeJson "skills") with (prop resumeJson "skills")
    by (by destruct resumeJson).
  rewrite Hresume. cbn [array_or_empty].
  destruct (truthy input && typeof_object input).
  - destruct (list_or_array (skills_normal (prop input "skills") (JArr resumeSkills))
                resumeSkills) as (skills & -> & Hfull & Hempty).
    exists skills. split; [done|].
    assert (∀ i entry,
              array_or_empty (prop input "skills") !! i = Some entry →
              truthy entry && typeof_object entry = true →
              id_of (prop (JObj (spread entry)) "id") = None →
              JObj (obj_set "id"
                      (JStr (default ("skill-" +:+ pretty (i + 1))
                               (own_id (at_index resumeSkills i))))
                      (spread entry))
                ∈ skills_normal (prop input "skills") (JArr resumeSkills)) as Hin.
    { intros i entry Hi Hobject Hid. unfold skills_normal. cbn [array_or_empty].
      apply list_elem_of_bind. exists i. split.
      - rewrite skills_pushed_eq. cbv zeta. rewrite (at_index_lookup _ _ _ Hi).
        pose proof Hobject as [Htruthy Htype]%andb_true_iff.
        rewrite Htruthy. cbn [negb andb].
        assert (or_else entry (at_index resumeSkills i) = entry) as ->
          by (unfold or_else; by rewrite Htruthy).
        rewrite skill_normal_shape, Htruthy, Htype, Hid. cbn [negb orb truthy].
        rewrite skill_fallback_normal by done. by left.
      - apply elem_of_seq. apply lookup_lt_Some in Hi. lia. }
    split.
    + destruct (skills_normal (prop input "skills") (JArr resumeSkills)) as [|x l] eqn:Hl.
      * rewrite Hempty by done. eapply Forall_impl; [done | apply normal_skill_has_id].
      * rewrite Hfull by done. rewrite <- Hl. apply Forall_forall.
        intros y (i & Hy & _)%list_elem_of_bind. by eapply skills_pushed_shape.
    + intros i entry Hi Hobject Hid. pose proof (Hin i entry Hi Hobject Hid) as Helem.
      rewrite Hfull; [done|]. intros Hnil. rewrite Hnil in Helem.
      by apply elem_of_nil in Helem.
  - exists resumeSkills. split; [done|]. split.
    + eapply Forall_impl; [done | apply normal_skill_has_id].
    + intros i entry Hi. by destruct i.
Qed.

(** A point without an own id gets the id of the fallback point at its
    place, or else the generated id. *)
Lemma points_normal_assigned points resumePoints prefix i point :
  array_or_empty points !! i = Some point → truthy point = true → own_id point = None →
  JObj [("id", JStr (default (prefix +:+ "-" +:+ pretty (i + 1))
                       (own_id (at_index (array_or_empty resumePoints) i))));
        ("text", JStr (backend_point_text point))]
    ∈ points_normal points resumePoints prefix.
Proof.
  intros Hi Htruthy Hown. unfold points_normal. apply list_elem_of_bind. exists i. split.
  - rewrite points_pushed_eq. cbv zeta.
    rewrite (at_index_lookup _ _ _ Hi), Htruthy, Hown.
    unfold or_else. rewrite Htruthy. by left.
  - apply elem_of_seq. apply lookup_lt_Some in Hi. lia.
Qed.

Lemma entries_normal_assigned template prefix list_ resumeList j entry i point :
  array_or_empty list_ !! j = Some entry → truthy entry = true →
  array_or_empty (get_opt entry "points") !! i = Some point →
  truthy point = true → own_id point = None →
  ∃ normalized,
    normalized ∈ entries_normal template prefix list_ resumeList ∧
    JObj [("id", JStr (default (prefix +:+ "-" +:+ pretty (j + 1) +:+ "-" +:+ pretty (i + 1))
                         (own_id (at_index
                                    (array_or_empty
                                       (get_opt (at_index (array_or_empty resumeList) j)
                                          "points")) i))));
          ("text", JStr (backend_point_text point))] ∈ points_in normalized.
Proof.
  intros Hj Hentry Hi Hpoint Hown. eexists. split.
  - unfold entries_normal. apply list_elem_of_bind. exists j. split.
    + rewrite entries_pushed_eq. cbv zeta.
      rewrite (at_index_lookup _ _ _ Hj), Hentry. by left.
    + apply elem_of_seq. apply lookup_lt_Some in Hj. lia.
  - unfold points_in. rewrite prop_obj_set_eq. cbn [array_or_empty].
    pose proof (points_normal_assigned (get_opt entry "points")
                  (get_opt (at_index (array_or_empty resumeList) j) "points")
                  (prefix +:+ "-" +:+ pretty (j + 1)) i point Hi Hpoint Hown) as Hin.
    by rewrite string_app_assoc in Hin.
Qed.

Lemma analysis_entries_ids template prefix key input resumeJson resumeEntries :
  prop resumeJson key = JArr resumeEntries → truthy resumeJson = true →
  Forall (is_entry template) resumeEntries →
  ∃ entries,
    analysis_entries template prefix key input resumeJson = JArr entries ∧
    Forall (is_entry template) entries ∧
    ∀ j entry i point,
      array_or_empty (input_field input key) !! j = Some entry →
      truthy entry = true →
      array_or_empty (get_opt entry "points") !! i = Some point →
      truthy point = true → own_id point = None →
      ∃ normalized, normalized ∈ entries ∧
        JObj [("id", JStr (default (prefix +:+ "-" +:+ pretty (j + 1) +:+ "-"
                                      +:+ pretty (i + 1))
                             (resume_point_id resumeJson key j i)));
              ("text", JStr (backend_point_text point))] ∈ points_in normalized.
Proof.
  intros Hresume Hr Hall. unfold analysis_entries, input_field, resume_point_id.
  replace (get_opt resumeJson key) with (prop resumeJson key) by (by destruct resumeJson).
  destruct (truthy input && typeof_object input).
  - rewrite Hresume.
    destruct (list_or_array (entries_normal template prefix (prop input key)
                               (JArr resumeEntries)) resumeEntries)
      as (entries & -> & Hfull & Hempty).
    exists entries. split; [done|]. split.
    + destruct (entries_normal template prefix (prop input key) (JArr resumeEntries))
        as [|x l] eqn:Hl.
      * by rewrite Hempty.
      * rewrite Hfull by done. rewrite <- Hl. apply entries_normal_shape.
    + intros j entry i point Hj Hentry Hi Hpoint Hown.
      destruct (entries_normal_assigned template prefix (prop input key)
                  (JArr resumeEntries) j entry i point Hj Hentry Hi Hpoint Hown)
        as (normalized & Hin & Hpoint').
      exists normalized. split; [|done].
      rewrite Hfull; [done|]. intros Hnil. rewrite Hnil in Hin.
      by apply elem_of_nil in Hin.
  - rewrite Hresume. exists resumeEntries. split; [done|]. split; [done|].
    intros j entry i point Hj. by destruct j.
Qed.

(** The ids of the document that [normalizeAnalysisJson] returns for an
    input normalized against a normalized résumé. *)
Lemma normalized_analysis_ids raw input resumeJson analysisJson :
  normalizeResumeJson raw = Ok resumeJson →
  normalizeAnalysisJson exponent_text input resumeJson = Ok analysisJson →
  has_ids analysisJson ∧ ids_assigned input resumeJson analysisJson.
Proof.
  intros Hraw Hanalysis.
  destruct (normalized_resume_ids raw) as (resumeJson' & Hraw' & Hids & _).
  rewrite Hraw in Hraw'. injection Hraw' as <-.
  pose proof (normalized_normal_form raw resumeJson Hraw)
    as (basics & summary & skills & experience & projects & education & certificates &
        Hdoc & _ & Hsummary & Hskills & _).
  assert (truthy resumeJson = true) as Hr by (by rewrite Hdoc).
  destruct Hids as (summary' & skills' & experience' & projects' &
                    _ & _ & Hexp & Hproj & _ & _ & Hexperience & Hprojects).
  apply normalizeAnalysisJson_returns in Hanalysis
    as (required & matching & missing & analysis & ->); [|done].
  destruct (analysis_summary_ids input resumeJson) as [Hs1 Hs2]; [by rewrite Hdoc|done|].
  destruct (analysis_skills_ids input resumeJson skills) as (askills & Hk & Hk1 & Hk2);
    [by rewrite Hdoc | done | done |].
  destruct (analysis_entries_ids experienceTemplate "exp" "experience" input resumeJson
              experience') as (aexp & He & He1 & He2); [done..|].
  destruct (analysis_entries_ids projectTemplate "proj" "projects" input resumeJson
              projects') as (aproj & Hp & Hp1 & Hp2); [done..|].
  split.
  - exists (analysis_summary input resumeJson), askills, aexp, aproj.
    split_and!; done.
  - unfold ids_assigned.
    change (prop (analysis_document input resumeJson required matching missing analysis)
              "summary") with (analysis_summary input resumeJson).
    change (prop (analysis_document input resumeJson required matching missing analysis)
              "skills") with (analysis_skills input resumeJson).
    change (prop (analysis_document input resumeJson required matching missing analysis)
              "experience")
      with (analysis_entries experienceTemplate "exp" "experience" input resumeJson).
    change (prop (analysis_document input resumeJson required matching missing analysis)
              "projects")
      with (analysis_entries projectTemplate "proj" "projects" input resumeJson).
    rewrite Hk, He, Hp. cbn [array_or_empty]. split_and!; done.
Qed.

(** C8, as the code has it. In the document that [normalizeResumeJson]
    returns, on every input, and in the document that
    [normalizeAnalysisJson] returns for an input normalized against it, the
    summary, every skill entry and every point of every job and project
    carries a non-empty string id. Where the input carries no id (none, not
    a string, or blank) [normalizeResumeJson] gives [summary-1], [skill-<n>],
    [exp-<job>-<point>] or [proj-<project>-<point>], counted from 1 by the
    position in the input; [normalizeAnalysisJson] gives the id that the
    résumé has at the same place, and the id of this scheme only where the
    résumé has none. *)
Theorem normalized_ids_follow_scheme :
  ∀ raw input : Value,
    ∃ resumeJson,
      normalizeResumeJson raw = Ok resumeJson ∧
      has_ids resumeJson ∧
      ids_assigned raw JUndefined resumeJson ∧
      ∀ analysisJson,
        normalizeAnalysisJson exponent_text input resumeJson = Ok analysisJson →
        has_ids analysisJson ∧ ids_assigned input resumeJson analysisJson.
Proof.
  intros raw input.
  destruct (normalized_resume_ids raw) as (resumeJson & Hraw & Hids & Hassigned).
  exists resumeJson. split_and!; [done..|].
  intros analysisJson Hanalysis. by apply (normalized_analysis_ids raw).
Qed.

(** X14. [normalizeAnalysisJson], against a normalized résumé, returns
    exactly when the four keyword lists of an input that is an object
    convert to strings. It backfills the candidate from the résumé: for
    every point of a job or project of the résumé the analysis holds a point
    at the same place; its id is the own id of the input's point there, or
    else the résumé's id, and its text is the text of the input's point, or
    else the résumé's text when the input has no point there. So a point
    that the optimizer returns without an id keeps the identity it has in
    the résumé. *)
Theorem analysis_backfills_from_resume :
  ∀ raw input : Value,
    ∃ resumeJson,
      normalizeResumeJson raw = Ok resumeJson ∧
      ((∃ analysisJson, normalizeAnalysisJson exponent_text input resumeJson = Ok analysisJson)
       ↔ (truthy input && typeof_object input = true →
          ∀ key, key ∈ ["Required Keywords"; "Matching Keywords"; "Missing Keywords";
                        "Analysis"] →
                 ∃ texts, normalizeList exponent_text (prop input key) = Ok texts)) ∧
      ∀ analysisJson,
        normalizeAnalysisJson exponent_text input resumeJson = Ok analysisJson →
        backfilled input resumeJson analysisJson "experience" ∧
        backfilled input resumeJson analysisJson "projects".
Proof.
  intros raw input.
  destruct (normalizeResumeJson raw) as [resumeJson|] eqn:Hraw;
    [|by rewrite normalizeResumeJson_total in Hraw].
  pose proof (normalized_normal_form raw resumeJson Hraw)
    as (basics & summary & skills & experience & projects & education & certificates &
        Hdoc & _ & _ & _ & Hexperience & Hprojects & _).
  assert (truthy resumeJson = true) as Hr by (by rewrite Hdoc).
  exists resumeJson. split_and!; [done | |].
  - rewrite normalizeAnalysisJson_eq by done.
    destruct (truthy input && typeof_object input); [|split; [done | by eauto]].
    split.
    + intros [analysisJson Hreturns] _ key Hkey.
      apply keyword_list_returns.
      destruct (keyword_list _ (prop input "Required Keywords")) as [required|] eqn:H1;
        [|done]. rewrite bind_Ok in Hreturns.
      destruct (keyword_list _ (prop input "Matching Keywords")) as [matching|] eqn:H2;
        [|done]. rewrite bind_Ok in Hreturns.
      destruct (keyword_list _ (prop input "Missing Keywords")) as [missing|] eqn:H3;
        [|done]. rewrite bind_Ok in Hreturns.
      destruct (keyword_list _ (prop input "Analysis")) as [analysis|] eqn:H4; [|done].
      repeat (apply elem_of_cons in Hkey as [->|Hkey]); [by eauto..|].
      by apply elem_of_nil in Hkey.
    + intros Hall.
      destruct (proj2 (keyword_list_returns (prop input "Required Keywords")))
        as [required ->]; [apply Hall; [done | set_solver]|].
      destruct (proj2 (keyword_list_returns (prop input "Matching Keywords")))
        as [matching ->]; [apply Hall; [done | set_solver]|].
      destruct (proj2 (keyword_list_returns (prop input "Missing Keywords")))
        as [missing ->]; [apply Hall; [done | set_solver]|].
      destruct (proj2 (keyword_list_returns (prop input "Analysis")))
        as [analysis ->]; [apply Hall; [done | set_solver]|].
      rewrite !bind_Ok. eauto.
  - intros analysisJson Hanalysis.
    apply normalizeAnalysisJson_returns in Hanalysis
      as (required & matching & missing & analysis & ->); [|done].
    split.
    + eapply analysis_entries_backfilled; [by rewrite Hdoc | done | done].
    + eapply analysis_entries_backfilled; [by rewrite Hdoc | done | done].
Qed.
End analysis_facts.

Section analysis_example.
Import JS Backend Analysis.

(** The optimizer rewrote the first point and returned it without its id:
    the analysis holds the new text under the résumé's id. *)
Lemma analysis_backfills_from_resume_witness :
  let raw := JObj [("experience",
                    JArr [JObj [("company", JStr "Acme");
                                ("points", JArr [JStr "Built the billing service";
                                                 JStr "Led a team"])]])] in
  let input := JObj [("experience",
                      JArr [JObj [("points",
                                   JArr [JStr "Built the billing service for 2M users"])]])] in
  ∃ resumeJson analysisJson,
    normalizeResumeJson raw = Ok resumeJson ∧
    normalizeAnalysisJson (λ _, "") input resumeJson = Ok analysisJson ∧
    document_points resumeJson "experience" 0 !! 0 =
      Some (JObj [("id", JStr "exp-1-1"); ("text", JStr "Built the billing service")]) ∧
    document_points analysisJson "experience" 0 !! 0 =
      Some (JObj [("id", JStr "exp-1-1");
                  ("text", JStr "Built the billing service for 2M users")]).
Proof.
  intros raw input.
  destruct (analysis_backfills_from_resume (λ _, "") raw input)
    as (resumeJson & Hresume & [_ Hreturns] & Hbackfilled).
  destruct Hreturns as [analysisJson Hanalysis].
  { intros _ key Hkey. exists [].
    repeat (apply elem_of_cons in Hkey as [->|Hkey]); [reflexivity..|].
    by apply elem_of_nil in Hkey. }
  destruct (Hbackfilled analysisJson Hanalysis) as [Hexperience _].
  exists resumeJson, analysisJson.
  assert (document_points resumeJson "experience" 0 !! 0 =
            Some (JObj [("id", JStr "exp-1-1"); ("text", JStr "Built the billing service")]))
    as Hpoint.
  { vm_compute in Hresume. injection Hresume as <-. vm_compute. reflexivity. }
  split_and!; [done | done | done |].
  rewrite (Hexperience 0 0 _ _ Hpoint). vm_compute. reflexivity.
Defined.

(** C8, as stated, fails for the analysis: the optimizer returned the
    point of the résumé rewritten and without an id, and the normalized
    analysis carries it under the id [launch] that the point has in the
    résumé, not under [exp-1-1]. *)
Lemma missing_id_takes_the_resume_id :
  let raw := JObj [("experience",
                    JArr [JObj [("points",
                                 JArr [JObj [("id", JStr "launch");
                                             ("text", JStr "Launched the app")]])]])] in
  let input := JObj [("experience",
                      JArr [JObj [("points", JArr [JStr "Launched the app in 3 markets"])]])] in
  ∃ resumeJson analysisJson,
    normalizeResumeJson raw = Ok resumeJson ∧
    normalizeAnalysisJson (λ _, "") input resumeJson = Ok analysisJson ∧
    own_id (JStr "Launched the app in 3 markets") = None ∧
    document_points analysisJson "experience" 0 =
      [JObj [("id", JStr "launch"); ("text", JStr "Launched the app in 3 markets")]].
Proof.
  intros raw input.
  exists (value_of JNull (normalizeResumeJson raw)),
    (value_of JNull (normalizeAnalysisJson (λ _, "") input
                       (value_of JNull (normalizeResumeJson raw)))).
  split_and!; vm_compute; reflexivity.
Qed.
End analysis_example.

(** ** When the change set throws *)

Section change_set_returns.
Import JS Backend Frontend Analysis.
Variable exponent_text : Z → string.
Variable string_to_number : string → option Z.

Lemma for_each_emit_in {A B} (body : list B → A → result (list B)) (emit : A → list B)
    (items : list B) (l : list A) :
  (∀ items x, x ∈ l → body items x = Ok (items ++ emit x)) →
  for_each body items l = Ok (items ++ (l ≫= emit)).
Proof.
  revert items. induction l as [|x l IH]; intros items Hbody; simpl.
  - by rewrite app_nil_r.
  - rewrite Hbody by left. simpl. rewrite IH by (intros; apply Hbody; by right).
    by rewrite <- app_assoc.
Qed.

(** A loop whose body throws when [guard] does and else appends what
    [emit] gives. *)
Lemma for_each_guarded {A B C} (body : list B → A → result (list B))
    (guard : A → result C) (emit : A → list B) (items : list B) (l : list A) :
  (∀ items x, body items x = (_ ← guard x; Ok (items ++ emit x))) →
  for_each body items l = (_ ← map_m guard l; Ok (items ++ (l ≫= emit))).
Proof.
  intros Hbody. revert items. induction l as [|x l IH]; intros items; simpl.
  - by rewrite app_nil_r.
  - rewrite Hbody. destruct (guard x) as [y|]; [|done]. rewrite !bind_Ok, IH.
    destruct (map_m guard l) as [ys|]; [|done]. rewrite !bind_Ok.
    by rewrite <- app_assoc.
Qed.

Lemma skill_change_total rm am items indexed text :
  to_string exponent_text (key_value indexed.2) = Ok text →
  skill_change exponent_text rm am items indexed
    = Ok (items ++ skill_emitted exponent_text rm am indexed).
Proof.
  intros Htext. destruct indexed as [idx skillKey]. cbn [snd] in Htext.
  unfold skill_change, skill_emitted, text_of.
  rewrite !skillEntryToText_total, !bind_Ok. cbv zeta. cbn [fst snd].
  set (before := skill_text _). set (after := skill_text _).
  destruct (bool_decide (before = "") && bool_decide (after = "")) eqn:Hboth.
  - apply andb_true_iff in Hboth as [->%bool_decide_eq_true ->%bool_decide_eq_true].
    by rewrite bool_decide_true, app_nil_r.
  - destruct (bool_decide (before = after)); [by rewrite app_nil_r|].
    by rewrite !skillEntryLabel_total, !bind_Ok, Htext.
Qed.

Lemma summary_change_total resumeJson analysisJson items text :
  to_string exponent_text
    (summary_item_id (prop resumeJson "summary") (prop analysisJson "summary")) = Ok text →
  summary_change exponent_text (prop resumeJson "summary") (prop analysisJson "summary") items
    = Ok (items ++ summary_emitted exponent_text resumeJson analysisJson).
Proof.
  intros Htext. unfold summary_change, summary_emitted, text_of. cbv zeta.
  case_match; [|by rewrite app_nil_r].
  rewrite !getSummaryId_total, !bind_Ok.
  assert (∀ v, (if truthy (summary_id (prop analysisJson "summary"))
                then mret (summary_id (prop analysisJson "summary"))
                else Ok v) =
               Ok (if truthy (summary_id (prop analysisJson "summary"))
                   then summary_id (prop analysisJson "summary") else v)) as ->.
  { intros v. by case_match. }
  rewrite bind_Ok. fold (summary_item_id (prop resumeJson "summary")
                           (prop analysisJson "summary")).
  by rewrite Htext.
Qed.

Lemma loop_indices_arrays a b (l1 l2 : list Value) :
  a = JArr l1 → b = JArr l2 →
  loop_indices exponent_text string_to_number a b
    = Ok (visited exponent_text string_to_number a b).
Proof. by intros -> ->. Qed.

Lemma is_point_summary_id summary : is_point summary → ∃ id, summary_id summary = JStr id.
Proof.
  intros (id & text & -> & Hne). exists id. unfold summary_id, getSummaryId.
  cbn [truthy typeof_object andb]. rewrite get_JObj, bind_Ok.
  change (prop (JObj [("id", JStr id); ("text", JStr text)]) "id") with (JStr id).
  cbn [truthy]. by rewrite bool_decide_true.
Qed.

(** The texts that the group label of the job at [jobIndex] is joined
    from: the loop over jobs throws when one of them does not print. *)
Definition label_texts (resumeJson analysisJson : Value) (jobIndex : nat)
    : result (list string) :=
  map_m (to_string exponent_text)
    (label_values (entry_at (section_of resumeJson "experience") jobIndex)
       (entry_at (section_of analysisJson "experience") jobIndex)).

(** On two documents with ids [buildChangeItems] throws when the label of
    a job does, and else returns the change set. *)
Lemma buildChangeItems_with_ids resumeJson analysisJson :
  has_ids resumeJson → has_ids analysisJson →
  buildChangeItems exponent_text string_to_number resumeJson analysisJson =
    (_ ← map_m (label_texts resumeJson analysisJson)
           (visited exponent_text string_to_number (section_of resumeJson "experience")
              (section_of analysisJson "experience"));
     Ok (change_set exponent_text string_to_number resumeJson analysisJson)).
Proof.
  intros (rsummary & rskills & rexp & rproj & Hrs & Hrk & Hre & Hrp & Hrsummary & Hrskills & _)
    (asummary & askills & aexp & aproj & Has & Hak & Hae & Hap & Hasummary & Haskills & _).
  assert (truthy resumeJson = true) as Hr by (by eapply prop_array_truthy).
  assert (truthy analysisJson = true) as Ha by (by eapply prop_array_truthy).
  unfold buildChangeItems, change_set. rewrite Hr, Ha. cbn [negb orb andb].
  rewrite !get_object by done. repeat (rewrite bind_Ok; cbv beta zeta).
  destruct (is_point_summary_id asummary Hasummary) as [aid Haid].
  rewrite (summary_change_total resumeJson analysisJson [] aid).
  2: { unfold summary_item_id. rewrite Has, Haid.
       destruct (truthy (JStr aid)) eqn:Htruthy; [done|].
       destruct Hasummary as (id & text & -> & Hne).
       exfalso. revert Haid Htruthy. unfold summary_id, getSummaryId.
       cbn [truthy typeof_object andb]. rewrite get_JObj, bind_Ok.
       change (prop (JObj [("id", JStr id); ("text", JStr text)]) "id") with (JStr id).
       cbn [truthy]. rewrite bool_decide_true by done. intros [= <-].
       by rewrite bool_decide_true. }
  repeat (rewrite bind_Ok; cbv beta zeta). rewrite app_nil_l.
  fold (skills_of resumeJson). fold (skills_of analysisJson).
  rewrite (skill_map_total false). repeat (rewrite bind_Ok; cbv beta zeta).
  rewrite (skill_map_total true). repeat (rewrite bind_Ok; cbv beta zeta).
  rewrite (for_each_emit_in _ (skill_emitted exponent_text
                                 (held_skills false (skills_of resumeJson))
                                 (held_skills true (skills_of analysisJson)))).
  2: { intros items [idx k] Hin.
       apply ordered_skill_key in Hin as (inAnalysis & i & e & Hi & ->).
       assert (has_nonempty_id e) as (props & id & -> & Hid & Hne).
       { unfold skills_of in Hi. rewrite Hrk, Hak in Hi.
         destruct inAnalysis; [eapply Forall_forall in Haskills | eapply Forall_forall in Hrskills];
           try done; by eapply list_elem_of_lookup_2. }
       apply (skill_change_total _ _ _ _ id). cbn [snd]. unfold skill_key.
       by rewrite key_of_value, (skill_id_at_own i props id). }
  repeat (rewrite bind_Ok; cbv beta zeta).
  fold (section_of resumeJson "experience"). fold (section_of analysisJson "experience").
  assert (section_of resumeJson "experience" = JArr rexp) as Hre'
    by (unfold section_of; by rewrite Hre).
  assert (section_of analysisJson "experience" = JArr aexp) as Hae'
    by (unfold section_of; by rewrite Hae).
  assert (section_of resumeJson "projects" = JArr rproj) as Hrp'
    by (unfold section_of; by rewrite Hrp).
  assert (section_of analysisJson "projects" = JArr aproj) as Hap'
    by (unfold section_of; by rewrite Hap).
  rewrite (loop_indices_arrays _ _ rexp aexp) by done.
  repeat (rewrite bind_Ok; cbv beta zeta).
  rewrite (for_each_guarded _ (label_texts resumeJson analysisJson)
             (experience_emitted exponent_text (section_of resumeJson "experience")
                (section_of analysisJson "experience")))
    by (intros; apply experience_step_eq).
  destruct (map_m _ _) as [texts|]; [|done].
  repeat (rewrite bind_Ok; cbv beta zeta).
  fold (section_of resumeJson "projects"). fold (section_of analysisJson "projects").
  rewrite (loop_indices_arrays _ _ rproj aproj) by done.
  repeat (rewrite bind_Ok; cbv beta zeta).
  rewrite (for_each_emit _ (project_emitted (section_of resumeJson "projects")
                              (section_of analysisJson "projects")))
    by apply project_step_total.
  unfold skills_emitted, experiences_emitted, projects_emitted.
  by rewrite <- !app_assoc.
Qed.

(** X15. On the documents of the pipeline, a résumé returned by
    [normalizeResumeJson] and an analysis returned by
    [normalizeAnalysisJson] against it, [buildChangeItems] returns exactly
    when the parts of the group label of every job, [analysisJob.role ||
    resumeJob.role] and [analysisJob.company || resumeJob.company] where
    truthy, convert to strings: the ids and texts that it compares are
    strings, and the label of a job is its only conversion that can throw. *)
Theorem change_set_throws_on_labels_only :
  ∀ raw input resumeJson analysisJson : Value,
    normalizeResumeJson raw = Ok resumeJson →
    normalizeAnalysisJson exponent_text input resumeJson = Ok analysisJson →
    ((∃ items,
        buildChangeItems exponent_text string_to_number resumeJson analysisJson = Ok items)
     ↔ ∀ jobIndex,
         Forall (λ v, ∃ text, to_string exponent_text v = Ok text)
           (label_values (entry_at (section_of resumeJson "experience") jobIndex)
              (entry_at (section_of analysisJson "experience") jobIndex))).
Proof.
  intros raw input resumeJson analysisJson Hraw Hanalysis.
  destruct (normalized_resume_ids raw) as (resumeJson' & Hraw' & Hrids & _).
  rewrite Hraw in Hraw'. injection Hraw' as <-.
  destruct (normalized_analysis_ids exponent_text raw input resumeJson analysisJson)
    as [Haids _]; [done..|].
  rewrite buildChangeItems_with_ids by done.
  set (jobs := visited _ _ _ _).
  transitivity (∃ texts, map_m (label_texts resumeJson analysisJson) jobs = Ok texts).
  { destruct (map_m _ jobs) as [texts|]; [|split; intros [? ?]; done].
    rewrite bind_Ok. split; eauto. }
  rewrite map_m_returns_iff. unfold label_texts.
  setoid_rewrite map_m_returns_iff. split.
  - intros Hall jobIndex. destruct (decide (jobIndex ∈ jobs)) as [Hin|Hout].
    + by eapply Forall_forall in Hall.
    + destruct Hrids as (? & ? & rexp & ? & _ & _ & Hre & _).
      destruct Haids as (? & ? & aexp & ? & _ & _ & Hae & _).
      unfold jobs, section_of in *. rewrite Hre, Hae in *.
      change (or_else (JArr rexp) (JArr [])) with (JArr rexp) in *.
      change (or_else (JArr aexp) (JArr [])) with (JArr aexp) in *.
      rewrite visited_arrays, elem_of_seq in Hout.
      assert (entry_at (JArr rexp) jobIndex = JObj []) as ->.
      { unfold entry_at, index, at_index. rewrite lookup_ge_None_2 by lia. done. }
      assert (entry_at (JArr aexp) jobIndex = JObj []) as ->.
      { unfold entry_at, index, at_index. rewrite lookup_ge_None_2 by lia. done. }
      constructor.
  - intros Hall. apply Forall_forall. intros jobIndex _. apply Hall.
Qed.
End change_set_returns.

Section change_set_returns_example.
Import JS Backend Frontend Analysis.

(** The role of the job is an object with a [toString] key of its own:
    its label does not print, and [buildChangeItems] throws. With the role
    as a string it returns. *)
Lemma change_set_throws_on_labels_only_witness :
  let raw role := JObj [("experience",
                         JArr [JObj [("role", role);
                                     ("points", JArr [JStr "Built the billing service"])]])] in
  let input := JObj [("experience",
                      JArr [JObj [("points",
                                   JArr [JStr "Built the billing service for 2M users"])]])] in
  ∃ resumeJson analysisJson brokenResume brokenAnalysis,
    normalizeResumeJson (raw (JStr "Engineer")) = Ok resumeJson ∧
    normalizeAnalysisJson (λ _, "") input resumeJson = Ok analysisJson ∧
    (∃ items, buildChangeItems (λ _, "") (λ _, None) resumeJson analysisJson = Ok items) ∧
    normalizeResumeJson (raw (JObj [("toString", JNum 1)])) = Ok brokenResume ∧
    normalizeAnalysisJson (λ _, "") input brokenResume = Ok brokenAnalysis ∧
    buildChangeItems (λ _, "") (λ _, None) brokenResume brokenAnalysis = TypeError.
Proof.
  intros raw input.
  set (resumeJson := value_of JNull (normalizeResumeJson (raw (JStr "Engineer")))).
  set (analysisJson := value_of JNull (normalizeAnalysisJson (λ _, "") input resumeJson)).
  set (brokenResume :=
         value_of JNull (normalizeResumeJson (raw (JObj [("toString", JNum 1)])))).
  set (brokenAnalysis := value_of JNull (normalizeAnalysisJson (λ _, "") input brokenResume)).
  assert (normalizeResumeJson (raw (JStr "Engineer")) = Ok resumeJson) as Hraw
    by (vm_compute; reflexivity).
  assert (normalizeAnalysisJson (λ _, "") input resumeJson = Ok analysisJson) as Hanalysis
    by (vm_compute; reflexivity).
  exists resumeJson, analysisJson, brokenResume, brokenAnalysis.
  split_and!; [done | done | | vm_compute; reflexivity.. ].
  pose proof (proj2 (change_set_throws_on_labels_only (λ _, "") (λ _, None)
                       (raw (JStr "Engineer")) input resumeJson analysisJson Hraw Hanalysis))
    as Hreturns.
  apply Hreturns. clear Hreturns. intros jobIndex.
  assert (label_values (entry_at (section_of resumeJson "experience") jobIndex)
            (entry_at (section_of analysisJson "experience") jobIndex)
          = match jobIndex with 0 => [JStr "Engineer"] | S _ => [] end) as ->.
  { assert (section_of resumeJson "experience"
            = JArr [index (section_of resumeJson "experience") 0]) as ->
      by (vm_compute; reflexivity).
    assert (section_of analysisJson "experience"
            = JArr [index (section_of analysisJson "experience") 0]) as ->
      by (vm_compute; reflexivity).
    destruct jobIndex as [|jobIndex]; [vm_compute; reflexivity|].
    unfold entry_at, JS.index, at_index. cbn [lookup list_lookup]. by destruct jobIndex. }
  destruct jobIndex; repeat constructor. by exists "Engineer".
Defined.
End change_set_returns_example.
